(* ===== verification/_CoqProject ===== *)
-Q . S2P
Prelude.v
GoStd.v
Json.v
JsonText.v
Sha256.v
Hash.v
OutPoint.v
Block.v
BlockIndex.v
Encode.v
Decoders.v
Rpc.v
FakeNode.v
Registry.v
ChainProps.v
Tables.v
Write.v
Ledger.v
WriteSpec.v
WriteProps.v
Migrate.v
Prepare.v
Read.v
ReadSpec.v
Enforcer.v
Command.v
Lifecycle.v
Activity.v
Mempool.v
Esplora.v
Handlers.v
Respond.v
Escrow.v
Router.v
Mux.v
StoreProps.v
ApiSpec.v
ApiProps.v
Sync.v
SyncSpec.v
MempoolSync.v
Relay.v
Server.v
ReplyText.v
Converge.v
Polling.v
Wire.v
IndexProps.v
Pipeline.v
Program.v
Samples.v
Service.v
ServiceSpec.v
ServiceProps.v
ServiceExamples.v
Supply.v
Examples.v
ApiExamples.v
WireExamples.v
ProgramExamples.v
SupplyExamples.v
