(* ===== verification/Prelude.v ===== *)
(** * Verification of drivechain-esplora

    drivechain-esplora follows one sidechain node block by block, keeps an address
    index of the chain in Postgres, and answers Esplora requests from that index.
    This library models the program from the bytes a node or a client sends to the
    rows and answers they lead to, and proves what makes it correct. A definition
    keeps the name of the Go function it translates; the comment in front of a file,
    a Section or a definition names the source.

    ** The parts of the program and where they are

    - [Prelude]: errors and results, loops over fallible steps, Go's integer
      conversions, sums over tables. [GoStd], [Json], [JsonText], [Sha256]: the
      parts of Go's standard library the program computes with; [JsonText] has the
      bytes of JSON, [print] and [parse].
    - [internal/chain], the node's data. [Hash] (hash.go, bytes.go), [OutPoint]
      (outpoint.go), [Block] and [BlockIndex] (block.go), [Encode] (the way back,
      from the same types to JSON), [Decoders] (the seven decoder packages, a Module
      each, behind the class [Decoder]), [Registry] (registry.go, register.go).
      [ChainProps] states their contract.
    - The clients. [Rpc] is internal/rpc/client.go over an HTTP transport, with the
      typed calls of chain/node.go on top (Module [Node], behind the class
      [Caller]); [Enforcer] is internal/mainchain/enforcer.go. [FakeNode] is the
      node of internal/e2e/fakenode.go at the other end of the connection.
    - [internal/store], the index. [Tables] holds the schema of the migrations, the
      connection and [inTx] (store.go), and [Migrate] the migration runner of the
      same file. [Write] is write.go, one function per SQL statement, run in the
      order the Go code runs them; [Read] is read.go and tx.go, [Activity]
      activity.go, [Mempool] mempool.go. [Ledger] composes the statements of a block
      into one function on the tables and specifies a rollback; [WriteSpec] and
      [ReadSpec] hold the lemmas, [WriteProps] and [StoreProps] the contracts.
    - [internal/index], which joins the two. [Prepare] is prepare.go. [Sync] is the
      pass of sync.go with the node calls it makes, [MempoolSync] the pass of
      mempool_sync.go with broadcast.go and withdrawals.go, [Polling] the loops
      around both passes. [SyncSpec] has the program logic and the invariant of a
      pass, [Converge] termination and convergence, [IndexProps] the contract;
      [Wire] puts the clients under a pass, and [Pipeline] the test node under the
      clients, as the tests of internal/e2e do.
    - [internal/api]. [Esplora] is esplora.go, [Handlers] handlers.go, address.go
      and activity.go, [Respond] the bytes they write (write.go), [Router] the
      requests the store answers, [Relay] the posted transaction. [Mux] is what the
      program uses of http.ServeMux, and [Server] is server.go: the patterns it
      registers and what each leads to. [ApiSpec] has the lemmas on answers,
      [ApiProps], [Escrow] and [ReplyText] the contracts.
    - [internal/service]. [Service] is service.go: each method a run of atomic
      actions, goroutines interleaved between them by the relation [step].
      [ServiceSpec] is an ownership logic over it, [ServiceProps] the contract.
    - cmd. [Command] is main.go from its flags to the end of the process, with both
      connectors; [Lifecycle] has the goroutines [run] starts, the signal and the
      shutdown; [Program] is what [run] puts together ([assemble]), and the process
      as an interleaving of its pieces of work. [Supply] runs the supervisor of
      [Service] beside that work, with the migrations in its connector ([dial]).
    - [Samples] is a small chain with two branches; [Examples], [ApiExamples],
      [ServiceExamples], [WireExamples], [ProgramExamples] and [SupplyExamples]
      apply every theorem that has hypotheses.

    ** State

    A table is a finite map from its primary key to a record of its other columns.
    [ledger] is the three tables a block writes, [mempool_tables] the snapshot of
    the unconfirmed set, [db] both and the one row of sync_state. A computation on
    the store takes a connection: a [db] and the fate of the next statements. [inTx]
    keeps the tables of a transaction only when its body and its commit succeed. A
    pass of the syncer adds a count of the calls made to the outside, and the world
    outside is a function of that count, so a node may answer two calls differently
    and any call may fail. It also says what other goroutines have committed to the
    database by each call ([others]), and a pass counts how often it told a
    supervisor to drop the node ([drop_node]). What a goroutine may rely on is
    stated of the world it runs in: [PoolOnly] for the block syncer, whose
    neighbours write the unconfirmed set alone, as a mempool pass does;
    [surroundings] for every piece of work of a process. A request handler takes a
    connection and writes one [reply]. The supervisor's state is its own record,
    with a store of channels that its methods share.

    ** What the theorems show

    - Store, writing. [Apply] either changes nothing or adds exactly one block
      ([Apply_extends_chain]), and the rows it leaves are given key by key
      ([Apply_writes_rows]); fees are what their comment says ([Apply_sets_fees]).
      [Rollback] yields the very tables that writing the shorter chain would have
      ([Rollback_truncates]): the abstract specification is [holds], a list of
      blocks, on which a block is an append and a rollback a [take]. Migrations run
      once each, in order, over any number of interrupted starts
      ([migrations_run_once]).
    - Store, reading. Balances agree with the unspent outputs ([Stats_balance]); the
      lists are complete, ordered and without repetition ([UTXOs_complete],
      [History_page]); a mempool pass swaps the snapshot whole
      ([ReplaceMempool_swaps]); the activity of a block adds up to its header
      ([ActivityInBlock_adds_up]).
    - Index. [Prepare] writes exactly the coins a block creates, field by field, and
      spends ([Prepare_writes]), accepts exactly the blocks it can decode
      ([Prepare_accepts]) and meets the store's requirements ([Prepare_fits_store]).
      Every pass keeps the index coherent whatever fails ([Once_keeps_index]),
      whatever bytes come over the wire ([Once_survives_any_node]) and whatever the
      mempool syncer commits in between; its loop ends ([Once_loop_ends]), and a
      pass over a node that holds still ends on the node's chain
      ([Once_reaches_node]). It drops its connection when it must and ends well on
      an empty chain ([Once_drops]). The polling loop gets there through any trouble
      and stays there ([Run_converges]).
    - The whole. From the test node's tables through its JSON ([FakeNode_answers],
      [node_json_round_trip]), the client, the decoders, the pass and the store to
      the API, one pass carries the node's chain ([pipeline_reaches_node]); the
      other way, a posted transaction reaches the node as the JSON it was, in the
      one request whose answer the client gets ([submission_reaches_node]). Whatever
      a process does, in any order and through restarts, its database stays a
      coherent index of its own chain ([program_keeps_index]). With the supervisor's
      goroutines beside it, it is still that program ([supply_refines]), so whoever
      a [Get] has answered with a store finds such an index behind it, on a schema
      with every migration in place ([supplied_store_ready]). The process runs until
      a signal comes or its server fails, and then ends ([run_ends]).
    - API. A request reaches the handler of the one pattern it is made from
      ([Handler_routes]), gets one answer and writes nothing, and never sees a
      failed read mixed into an answer ([Server_safe], [ServeHTTP_safe]); the answer
      is a text or JSON that parses to the handler's value ([ServeHTTP_readable])
      and to no other of its type ([writeJSON_faithful]); the balance of an address
      is what its listed coins add up to, less what chain and snapshot both spend
      ([address_balance]); pages, transactions and outspends are what the tables
      hold ([blockTxs_pages], [addressTxs_cursor], [tx_route_answers],
      [outspends_report]); the escrow routes agree with each other and with the
      enforcer ([escrow_routes], [Ctip_roundtrip]); a broadcast reaches the node
      once or not at all ([broadcast_relays]).
    - Service. Under every interleaving, with a connector and a closer or without,
      connections are accounted for ([connections_accounted]), nothing panics, a nil
      connector or closer included ([no_panic_no_zero]), and the loop can always
      reconnect by its own actions ([Run_reconnects]).
    - Clients and start-up. An answer reaches its caller as the node meant it, and
      anything else is an error ([Call_answers]); configurations are consistent
      ([configure_settles]) and the connectors hand out nothing foreign
      ([connectors_guard]).
    - Chain. Keys and JSON forms are faithful, amounts fit an int64 on every chain
      ([Key_faithful], [withdrawal_exact], [BlockIndex_typed]).

    ** Bounds and fuel

    Heights are INTEGER columns, so a chain has at most 2^31 blocks; theorems about
    passes state that of the node's count ([counts_fit]), and casts beyond it are
    modelled ([Blocks_height_wraps]). Amounts are int64, and a sum that leaves
    BIGINT is an error of its statement. The loop of a pass, [walk], takes [turns
    next nodeTip] as fuel, one more than the heights it visits; [Once_loop_ends]
    proves that enough for every tip below the largest uint32. [trim_left] cuts at
    most as often as the text has bytes. [parse] takes [enough] fuel for the length
    of its text, and more changes nothing ([parse_enough]); the nesting it allows is
    that of Go's decoder. The polling loops take the list of turns they get; what
    they come to holds of every list.

    ** Parameters

    Code outside the repository is an interface: the class [Base58] for the address
    codec, [Blake3] for the digest of the coinbase txid, and [Postgres] for what
    Postgres leaves open (which of several source rows an UPDATE takes, the order a
    scan meets rows in, the jsonb cast). Their law classes state documented
    behaviour, and [hex_base58] and [plain_postgres] are instances of them. What a
    migration script makes of a schema, what an HTTP transport brings back and what
    a connector answers are arguments; the record [world] is what a pass finds
    outside, and theorems quantify over it.

    ** What is not modelled

    The headers other than the content type, what net/http makes of a path before
    the mux sees its segments, and the pool of connections. A raw JSON message is
    its syntax tree, so where Go sends its bytes on unchanged the model writes its
    strings afresh. An error keeps its sentinel or the fixed head of its message and
    not the values printed into it. Logging is left out, and so is the length of
    intervals and timeouts; that a grace period can be over is a step of
    [Lifecycle]. What happens inside ListenAndServe and Shutdown is net/http's:
    [Lifecycle] has a step for what each is documented to return. A migration script
    is a parameter, since what it makes of a schema is Postgres's; the tables it
    leaves are those of [Tables]. A request reads one statement or a few; the few
    see the same tables. What other goroutines commit becomes visible between the
    calls of a pass and not inside a transaction, as isolation has it. A commit that
    fails has not happened: an acknowledgement that is lost on the way is not
    modelled. In [Supply] a connector answers at one moment, so two of them do not
    run their migrations into each other.

    ** Observations

    - When index and node share no block, [findFork] says nothing survives, but the
      block at height 0 does ([disjoint_genesis_survives]).
    - [Blocks] and [BlockAtHeight] cast a height that every other read clamps
      ([Blocks_height_wraps]).
    - Two coinbases with one merkle root collide on their storage key. The comment
      on outputs_coinbase_block_idx says the collision is caught; the second row is
      dropped ([second_reward_lost], [Apply_keeps_rows]).
    - A block is written without a look at the hash it builds on. When the node
      changes branch within a pass, the index keeps blocks of both, and later passes
      see nothing wrong ([branches_mix]).
    - A mempool listing that is older than the last block puts a coin into both
      tables, and an address lists it twice ([stale_listing_duplicates],
      [coin_listed_twice]); the coin it was paid from is charged twice, and the
      balance falls short by it ([address_balance], [balance_short]).
    - README.md lists a deposit in the history of its address; it enters there only
      when it is spent ([History_page]).
    - A history page that ends inside a block hides the rest of that block from
      every later page ([addressTxs_cursor]).
    - After [close] a [Get] answers the closed connection ([Get_after_close]). Of
      two callers that reconnect at once, one is left with a closed connection
      ([first_caller_closed]). A subscriber with an unread value keeps the old one
      ([change_told]), and a change at the moment of subscription is never told
      ([subscription_misses_change]).
    - The id of a deposit in a feed does not lead back to the deposit
      ([deposit_ids]), a start height that is no number is answered with 500
      ([start_height_refused]), an outspend never names its input
      ([outspends_report]), and the activity of a block comes in reverse body order
      ([ActivityInBlock_reversed]).
    - When the server fails as a signal comes, the process may end as if it had
      served; and it may end before its supervisors have closed their connections
      ([either_end]). *)

From stdpp Require Export prelude strings gmap sorting.
From Stdlib Require Export ZArith Lia.

(** ** Scope and databases *)

Declare Scope go_scope.
Delimit Scope go_scope with go.

Create HintDb go discriminated.
Create Rewrite HintDb go.

(** ** Errors and results

    A Go function that returns [(T, error)] is a function into [result T].
    The sentinels the source tests with [errors.Is] are constructors; every
    other error keeps the fixed head of its message. *)

Inductive error :=
  | ErrNotFound
  | ErrUnavailable
  | ErrEmptyChain
  | ErrContext
  | Errorf (what : string).

#[export] Instance error_eq_dec : EqDecision error.
Proof. solve_decision. Defined.

(** [fmt.Errorf("what: %w", err)] keeps a sentinel visible to [errors.Is]. *)
Definition wrapf (what : string) (e : error) : error :=
  match e with
  | Errorf m => Errorf (what +:+ ": " +:+ m)
  | sentinel => sentinel
  end.

(** [err.Error()]: the sentinels' own texts. *)
Definition error_text (e : error) : string :=
  match e with
  | ErrNotFound => "not found"%string
  | ErrUnavailable => "service is unavailable"%string
  | ErrEmptyChain => "node has no blocks"%string
  | ErrContext => "context canceled"%string
  | Errorf m => m
  end.

Inductive result (A : Type) :=
  | Ok (a : A)
  | Err (e : error).
Arguments Ok {A} a.
Arguments Err {A} e.

#[export] Instance result_eq_dec `{EqDecision A} : EqDecision (result A).
Proof. solve_decision. Defined.

#[export] Instance result_ret : MRet result := @Ok.
#[export] Instance result_bind : MBind result :=
  λ A B f r, match r with Ok a => f a | Err e => Err e end.
#[export] Instance result_fmap : FMap result :=
  λ A B f r, match r with Ok a => Ok (f a) | Err e => Err e end.

Definition is_Ok {A} (r : result A) : Prop := ∃ a, r = Ok a.

#[export] Instance is_Ok_dec {A} (r : result A) : Decision (is_Ok r).
Proof.
  refine (match r with Ok a => left _ | Err e => right _ end);
    unfold is_Ok; [by eexists | by intros [? ?]].
Defined.

(** An early return [if cond { return err }]. *)
Definition reject (cond : bool) (e : error) : result unit :=
  if cond then Err e else Ok tt.

(** Rewrites the error of a failed call, as a [%w] wrapper does. *)
Definition wrap {A} (what : string) (r : result A) : result A :=
  match r with Ok a => Ok a | Err e => Err (wrapf what e) end.

Definition of_option {A} (e : error) (o : option A) : result A :=
  match o with Some a => Ok a | None => Err e end.

Lemma bind_ok {A B} (r : result A) (f : A → result B) b :
  r ≫= f = Ok b ↔ ∃ a, r = Ok a ∧ f a = Ok b.
Proof. destruct r; cbn; naive_solver. Qed.

Lemma wrap_ok {A} what (r : result A) a : wrap what r = Ok a ↔ r = Ok a.
Proof. by destruct r. Qed.

Lemma wrap_err_inv {A} what (r : result A) e :
  wrap what r = Err e → ∃ e', r = Err e'.
Proof. destruct r; cbn; naive_solver. Qed.

Lemma reject_ok cond e u : reject cond e = Ok u ↔ cond = false.
Proof. destruct cond, u; cbn; naive_solver. Qed.

Lemma of_option_ok {A} e (o : option A) a : of_option e o = Ok a ↔ o = Some a.
Proof. destruct o; cbn; naive_solver. Qed.

#[export] Hint Rewrite @bind_ok @wrap_ok reject_ok @of_option_ok : go.

(** Opens every hypothesis that says a monadic computation succeeded. *)
Ltac inv_ok :=
  repeat match goal with
  | H : _ ≫= _ = Ok _ |- _ => apply bind_ok in H as (? & ? & H)
  | H : wrap _ _ = Ok _ |- _ => apply wrap_ok in H
  | H : reject _ _ = Ok _ |- _ => apply reject_ok in H
  | H : of_option _ _ = Ok _ |- _ => apply of_option_ok in H
  | H : Ok _ = Ok _ |- _ => injection H as H
  | H : mret _ = Ok _ |- _ => injection H as H
  | H : Err _ = Ok _ |- _ => discriminate H
  | H : Ok _ = Err _ |- _ => discriminate H
  end; subst.

(** ** Loops

    [for i, x := range l { y, err := f(i, x); ...; out = append(out, y) }]. *)

Fixpoint traverse {A B} (f : nat → A → result B) (l : list A) : result (list B) :=
  match l with
  | [] => Ok []
  | x :: l => y ← f 0 x; ys ← traverse (λ i, f (S i)) l; Ok (y :: ys)
  end.

Lemma traverse_ok {A B} (f : nat → A → result B) l ys :
  traverse f l = Ok ys ↔
  length ys = length l ∧
  ∀ i x, l !! i = Some x → ∃ y, ys !! i = Some y ∧ f i x = Ok y.
Proof.
  revert f ys; induction l as [|x l IH]; intros f ys; cbn.
  { split; [by intros [= <-] | intros [? _]; by destruct ys]. }
  rewrite bind_ok. setoid_rewrite bind_ok. setoid_rewrite IH. split.
  - intros (y & Hy & ys' & [Hlen Hys] & [= <-]). cbn. split; [lia|].
    intros [|i] x'; cbn; [naive_solver | apply Hys].
  - intros [Hlen Hys]. destruct ys as [|y ys]; [done|].
    destruct (Hys 0 x eq_refl) as (y' & [= ->] & Hy).
    exists y'. split; [done|]. exists ys. repeat split; [cbn in Hlen; lia|].
    intros i x' Hx. by apply (Hys (S i)).
Qed.

Lemma traverse_length {A B} (f : nat → A → result B) l ys :
  traverse f l = Ok ys → length ys = length l.
Proof. by intros [? _]%traverse_ok. Qed.

Lemma traverse_lookup {A B} (f : nat → A → result B) l ys i y :
  traverse f l = Ok ys → ys !! i = Some y →
  ∃ x, l !! i = Some x ∧ f i x = Ok y.
Proof.
  intros [Hlen Hys]%traverse_ok Hy.
  destruct (lookup_lt_is_Some_2 l i) as [x Hx].
  { rewrite <- Hlen. by eapply lookup_lt_Some. }
  destruct (Hys i x Hx) as (y' & ? & ?). naive_solver.
Qed.

Lemma traverse_Forall {A B} (f : nat → A → result B) l ys (P : B → Prop) :
  traverse f l = Ok ys → (∀ i x y, f i x = Ok y → P y) → Forall P ys.
Proof.
  intros Ht HP. apply Forall_lookup. intros i y Hy.
  destruct (traverse_lookup _ _ _ _ _ Ht Hy) as (x & _ & ?). by eapply HP.
Qed.

(** What each result determines of its argument, the list of results does too. *)
Lemma traverse_map {A B X} (f : nat → A → result B) (g : A → X) (g' : B → X) l ys :
  (∀ i a b, f i a = Ok b → g' b = g a) → traverse f l = Ok ys → g' <$> ys = g <$> l.
Proof.
  revert f ys. induction l as [|a l IH]; intros f ys Hf H; cbn in H.
  { by injection H as <-. }
  apply bind_ok in H as (y & Hy & (ys' & Hys & [= <-])%bind_ok).
  rewrite !fmap_cons. f_equal; [by eapply Hf|].
  apply (IH (λ i, f (S i))); [|done]. intros i a' b' H'. by eapply Hf.
Qed.

Lemma fmap_concat {A B} (f : A → B) (ls : list (list A)) :
  f <$> concat ls = concat ((λ l : list A, f <$> l) <$> ls).
Proof. induction ls as [|l ls IH]; [done|]. cbn. by rewrite fmap_app, IH. Qed.

Lemma traverse_total {A B} (f : nat → A → result B) l :
  (∀ i x, l !! i = Some x → is_Ok (f i x)) → is_Ok (traverse f l).
Proof.
  revert f; induction l as [|x l IH]; intros f Hf; cbn; [by eexists|].
  destruct (Hf 0 x eq_refl) as [y ->]. cbn.
  destruct (IH (λ i, f (S i))) as [ys ->]; [|by eexists].
  intros i x' Hx'. by apply (Hf (S i)).
Qed.

(** ** Sorted lists *)

Lemma StronglySorted_fmap_elem {A B} (f : A → B) (R1 : relation A) (R2 : relation B) l :
  (∀ x y, x ∈ l → y ∈ l → R1 x y → R2 (f x) (f y)) →
  StronglySorted R1 l → StronglySorted R2 (f <$> l).
Proof.
  intros HR. induction 1 as [|x l Hs IH Hx]; cbn; constructor.
  - apply IH. intros y z Hy Hz. apply HR; by right.
  - rewrite Forall_forall in Hx. apply Forall_fmap, Forall_forall. intros y Hy. cbn.
    apply HR; [by left|by right|by apply Hx].
Qed.

Lemma StronglySorted_take {A} (R : relation A) n l : StronglySorted R l → StronglySorted R (take n l).
Proof.
  intros Hs. revert n. induction Hs as [|x l Hs IH Hx]; intros [|n]; cbn; try constructor; [done|].
  rewrite Forall_forall in *. intros y (i & Hi & _)%elem_of_take. apply Hx. by eapply list_elem_of_lookup_2.
Qed.

Lemma StronglySorted_filter {A} (R : relation A) (P : A → Prop) `{∀ a, Decision (P a)} l :
  StronglySorted R l → StronglySorted R (filter P l).
Proof.
  induction 1 as [|x l Hs IH Hx]; [constructor|]. rewrite filter_cons. case_decide; [|done].
  constructor; [done|]. rewrite Forall_forall in *. intros y [_ Hy]%list_elem_of_filter. by apply Hx.
Qed.

(** A sorted list whose order puts one part first is that part and the rest. *)
Lemma StronglySorted_split {A} (R : relation A) (P : A → Prop) `{∀ a, Decision (P a)} (l : list A) :
  (∀ x y, x ∈ l → y ∈ l → ¬ P x → P y → ¬ R x y) → StronglySorted R l →
  l = filter P l ++ filter (λ a, ¬ P a) l.
Proof.
  intros HR Hs. induction Hs as [|x l Hs IH Hx]; [done|].
  specialize (IH (λ y z Hy Hz, HR y z (list_elem_of_further _ _ _ Hy) (list_elem_of_further _ _ _ Hz))).
  destruct (decide (P x)) as [Hp|Hp].
  { rewrite filter_cons_True, filter_cons_False by tauto. cbn. by rewrite <- IH. }
  rewrite filter_cons_False, filter_cons_True by done.
  assert (filter P l = []) as E.
  { apply elem_of_nil_inv. intros y [Hy Hin]%list_elem_of_filter. rewrite Forall_forall in Hx.
    apply (HR x y); [by left|by right|done|done|by apply Hx]. }
  rewrite E in IH |- *. cbn in *. by rewrite <- IH.
Qed.

Lemma filter_fmap_iff {A B} (P : A → Prop) (Q : B → Prop) `{∀ a, Decision (P a), ∀ b, Decision (Q b)}
    (g : A → B) (l : list A) :
  (∀ a, Q (g a) ↔ P a) → filter Q (g <$> l) = g <$> filter P l.
Proof.
  intros HQ. induction l as [|a l IH]; [done|]. rewrite fmap_cons, !filter_cons.
  repeat case_decide; rewrite ?fmap_cons, ?IH; by naive_solver.
Qed.

(** ** Loops with a state *)

(** A loop that threads a state and may stop with an error. *)
Fixpoint foldE {A S} (f : S → A → result S) (s : S) (l : list A) : result S :=
  match l with
  | [] => Ok s
  | x :: l => s' ← f s x; foldE f s' l
  end.

Lemma foldE_app {A S} (f : S → A → result S) s l1 l2 :
  foldE f s (l1 ++ l2) = (s' ← foldE f s l1; foldE f s' l2).
Proof. revert s; induction l1 as [|x l1 IH]; intros s; cbn; [done|].
  destruct (f s x); cbn; [apply IH | done]. Qed.

(** An invariant of the loop body is an invariant of the loop. *)
Lemma foldE_inv {A S} (f : S → A → result S) (P : S → Prop) s l s' :
  (∀ s x s', x ∈ l → P s → f s x = Ok s' → P s') →
  P s → foldE f s l = Ok s' → P s'.
Proof.
  revert s; induction l as [|x l IH]; intros s Hf Hs H; cbn in *; inv_ok; [done|].
  eapply IH; [|eapply Hf; eauto; set_solver|eauto].
  intros; eapply Hf; eauto; set_solver.
Qed.

(** ** Machine integers

    A Go integer is a [Z]; every conversion the source writes is one of these
    casts, with the wrap-around the language specification gives it. *)

Open Scope Z_scope.

Definition uint8 (z : Z) : Z := z `mod` 2^8.
Definition uint32 (z : Z) : Z := z `mod` 2^32.
Definition uint64 (z : Z) : Z := z `mod` 2^64.
Definition int16 (z : Z) : Z := (z + 2^15) `mod` 2^16 - 2^15.
Definition int32 (z : Z) : Z := (z + 2^31) `mod` 2^32 - 2^31.
Definition int64 (z : Z) : Z := (z + 2^63) `mod` 2^64 - 2^63.

Definition MaxUint32 : Z := 2^32 - 1.
Definition MaxInt32 : Z := 2^31 - 1.
Definition MaxInt64 : Z := 2^63 - 1.

(** Membership in a width, as decidable predicates. *)
Definition is_u8 (z : Z) : Prop := 0 ≤ z < 2^8.
Definition is_u32 (z : Z) : Prop := 0 ≤ z < 2^32.
Definition is_u64 (z : Z) : Prop := 0 ≤ z < 2^64.
Definition is_i32 (z : Z) : Prop := -2^31 ≤ z < 2^31.
Definition is_i64 (z : Z) : Prop := -2^63 ≤ z < 2^63.

#[export] Instance is_u8_dec z : Decision (is_u8 z).
Proof. unfold is_u8; apply _. Defined.
#[export] Instance is_u32_dec z : Decision (is_u32 z).
Proof. unfold is_u32; apply _. Defined.
#[export] Instance is_u64_dec z : Decision (is_u64 z).
Proof. unfold is_u64; apply _. Defined.
#[export] Instance is_i32_dec z : Decision (is_i32 z).
Proof. unfold is_i32; apply _. Defined.
#[export] Instance is_i64_dec z : Decision (is_i64 z).
Proof. unfold is_i64; apply _. Defined.

(** Unfolds every cast and range and hands the goal to [lia]. *)
Ltac width :=
  unfold uint8, uint32, uint64, int16, int32, int64, MaxUint32, MaxInt32, MaxInt64,
    is_u8, is_u32, is_u64, is_i32, is_i64 in *;
  change (2^8) with 256 in *; change (2^15) with 32768 in *; change (2^16) with 65536 in *;
  change (2^31) with 2147483648 in *; change (2^32) with 4294967296 in *;
  change (2^63) with 9223372036854775808 in *;
  change (2^64) with 18446744073709551616 in *;
  Z.div_mod_to_equations; lia.

Lemma int32_small z : is_i32 z → int32 z = z.
Proof. intros; width. Qed.
Lemma int32_nonneg z : 0 ≤ z < 2^31 → int32 z = z.
Proof. intros; width. Qed.
Lemma int32_range z : is_i32 (int32 z).
Proof. width. Qed.
Lemma uint32_range z : is_u32 (uint32 z).
Proof. width. Qed.
Lemma uint32_small z : is_u32 z → uint32 z = z.
Proof. intros; width. Qed.
(** A [uint32] that went through an [INTEGER] column reads back unchanged. *)
Lemma uint32_int32 z : is_u32 z → uint32 (int32 z) = z.
Proof. intros; width. Qed.
Lemma int32_inj a b : is_u32 a → is_u32 b → int32 a = int32 b → a = b.
Proof. intros; width. Qed.
Lemma int64_small z : is_i64 z → int64 z = z.
Proof. intros; width. Qed.
#[export] Hint Rewrite int32_range : go.
#[export] Hint Resolve int32_range uint32_range : go.

(** ** Sums over lists and tables *)

Fixpoint sumZ {A} (f : A → Z) (l : list A) : Z :=
  match l with [] => 0 | a :: l => f a + sumZ f l end.

Lemma sumZ_app {A} (f : A → Z) l1 l2 : sumZ f (l1 ++ l2) = sumZ f l1 + sumZ f l2.
Proof. induction l1; cbn; lia. Qed.

Lemma sumZ_perm {A} (f : A → Z) l1 l2 : l1 ≡ₚ l2 → sumZ f l1 = sumZ f l2.
Proof. induction 1; cbn; lia. Qed.

#[export] Instance sumZ_proper {A} (f : A → Z) :
  Proper ((≡ₚ) ==> (=)) (sumZ f).
Proof. intros ???; by apply sumZ_perm. Qed.

Lemma sumZ_nonneg {A} (f : A → Z) l : Forall (λ a, 0 ≤ f a) l → 0 ≤ sumZ f l.
Proof. induction 1; cbn; lia. Qed.

Lemma sumZ_ext {A} (f g : A → Z) l : (∀ a, a ∈ l → f a = g a) → sumZ f l = sumZ g l.
Proof.
  induction l as [|a l IH]; intros H; cbn; [done|].
  rewrite IH; [|intros; apply H; set_solver]. rewrite (H a); [done|set_solver].
Qed.

Lemma Forall2_impl_elem {A B} (P Q : A → B → Prop) l k :
  Forall2 P l k → (∀ a b, a ∈ l → P a b → Q a b) → Forall2 Q l k.
Proof.
  induction 1 as [|a b l k Hab _ IH]; intros HQ; constructor.
  - apply HQ; [by left|done].
  - apply IH. intros a' b' ?. apply HQ. by right.
Qed.

(** [SUM(f)] over the rows of a table; the [WHERE] clause is the function that
    answers 0 on the rows it drops. *)
Section sum_rows.
Context {K : Type} `{Countable K} {A : Type}.

Definition sum_rows (f : K → A → Z) (m : gmap K A) : Z :=
  sumZ (λ ka, f ka.1 ka.2) (map_to_list m).

Lemma sum_rows_empty f : sum_rows f (∅ : gmap K A) = 0.
Proof. unfold sum_rows. by rewrite map_to_list_empty. Qed.

Lemma sum_rows_insert f m k a :
  m !! k = None → sum_rows f (<[k := a]> m) = f k a + sum_rows f m.
Proof. intros Hk. unfold sum_rows. by rewrite map_to_list_insert. Qed.

Lemma sum_rows_delete f m k a :
  m !! k = Some a → sum_rows f m = f k a + sum_rows f (delete k m).
Proof.
  intros Hk. rewrite <- sum_rows_insert by apply lookup_delete_eq.
  by rewrite insert_delete_eq, insert_id.
Qed.

Lemma sum_rows_ext f g m :
  (∀ k a, m !! k = Some a → f k a = g k a) → sum_rows f m = sum_rows g m.
Proof.
  intros Hfg. apply sumZ_ext. intros [k a] Hin%elem_of_map_to_list. by apply Hfg.
Qed.

Lemma sum_rows_zero f m :
  (∀ k a, m !! k = Some a → f k a = 0) → sum_rows f m = 0.
Proof.
  intros Hf. rewrite (sum_rows_ext f (λ _ _, 0) m Hf). unfold sum_rows.
  induction (map_to_list m); cbn; lia.
Qed.

Lemma sum_rows_nonneg f m :
  (∀ k a, m !! k = Some a → 0 ≤ f k a) → 0 ≤ sum_rows f m.
Proof.
  intros Hf. apply sumZ_nonneg, Forall_forall.
  intros [k a] Hin%elem_of_map_to_list. by apply Hf.
Qed.

Lemma sum_rows_plus f g m :
  sum_rows (λ k a, f k a + g k a) m = sum_rows f m + sum_rows g m.
Proof. unfold sum_rows. induction (map_to_list m); cbn; lia. Qed.
End sum_rows.
