(* ===== verification/GoStd.v ===== *)
(** * The part of Go's standard library the program computes with

    Sized byte arrays, [encoding/hex], [encoding/binary.LittleEndian],
    [strconv.ParseUint]/[ParseInt]/[Atoi], [strings.Cut]/[TrimPrefix] and the
    decimal verb of [fmt]. A Go string is a [String.string]; a byte slice is a
    [list byte]. *)

From S2P Require Import Prelude.
From Stdlib Require Export Strings.Byte Strings.Ascii.
From stdpp Require Export pretty.
Open Scope Z_scope.

(** ** Bytes *)

#[export] Instance byte_eq_dec : EqDecision byte := Byte.byte_eq_dec.

Definition byte_to_Z (b : byte) : Z := Z.of_N (Byte.to_N b).
(** A conversion to [byte] keeps the low eight bits. *)
Definition byte_of_Z (z : Z) : byte :=
  match Byte.of_N (Z.to_N (z `mod` 256)) with Some b => b | None => x00 end.

Lemma byte_to_Z_range b : 0 ≤ byte_to_Z b < 256.
Proof. unfold byte_to_Z. pose proof (Byte.to_N_bounded b). lia. Qed.

Lemma byte_to_of_Z z : byte_to_Z (byte_of_Z z) = z `mod` 256.
Proof.
  unfold byte_of_Z, byte_to_Z. pose proof (Z.mod_pos_bound z 256 ltac:(lia)).
  destruct (Byte.of_N _) as [b|] eqn:E.
  - apply Byte.to_of_N in E. lia.
  - apply Byte.of_N_None_iff in E. lia.
Qed.

Lemma byte_of_to_Z b : byte_of_Z (byte_to_Z b) = b.
Proof.
  unfold byte_of_Z. rewrite Z.mod_small by apply byte_to_Z_range.
  unfold byte_to_Z. by rewrite N2Z.id, Byte.of_to_N.
Qed.

#[export] Instance byte_to_Z_inj : Inj (=) (=) byte_to_Z.
Proof. intros a b E. by rewrite <- (byte_of_to_Z a), E, byte_of_to_Z. Qed.

#[export] Instance byte_countable : Countable byte.
Proof. refine (inj_countable' byte_to_Z byte_of_Z byte_of_to_Z). Defined.

#[export] Hint Rewrite byte_to_of_Z byte_of_to_Z : go.

(** ** Sized arrays

    [[n]byte]. The length is part of the value, so a hash has 32 bytes by
    construction; the proof component is a boolean equation, so it never gets
    in the way of computation or of equality. *)

Record array (n : nat) := Array {
  bytes : list byte;
  bytes_len : Is_true (Nat.eqb (length bytes) n);
}.
Arguments Array {n}.
Arguments bytes {n}.
Arguments bytes_len {n}.

(** Transparent, so that a closed array normalises. *)
Definition Is_true_of {b : bool} (E : b = true) : Is_true b :=
  match eq_sym E in _ = b return Is_true b with eq_refl => I end.

Lemma array_length {n} (a : array n) : length (bytes a) = n.
Proof. destruct a as [l Hl]; cbn. by apply Is_true_true, Nat.eqb_eq in Hl. Qed.

Lemma array_ext {n} (a b : array n) : bytes a = bytes b → a = b.
Proof.
  destruct a as [la Ha], b as [lb Hb]; cbn. intros ->.
  f_equal. apply Is_true_pi.
Qed.

(** A slice of the right length becomes an array; any other slice does not. *)
Definition array_of (n : nat) (l : list byte) : option (array n) :=
  match Nat.eqb (length l) n as b return Nat.eqb (length l) n = b → option (array n) with
  | true => λ E, Some (Array l (Is_true_of E))
  | false => λ _, None
  end eq_refl.

Lemma array_of_spec n l :
  match array_of n l with
  | Some a => bytes a = l ∧ length l = n
  | None => length l ≠ n
  end.
Proof.
  unfold array_of. generalize (eq_refl (Nat.eqb (length l) n)).
  generalize (Nat.eqb (length l) n) at 2 3. intros [] E.
  - split; [done | by apply Nat.eqb_eq].
  - by apply Nat.eqb_neq.
Qed.

Lemma array_of_Some n l a : array_of n l = Some a ↔ bytes a = l ∧ length l = n.
Proof.
  pose proof (array_of_spec n l) as Hs. destruct (array_of n l) as [a'|].
  - split; [by intros [= <-] | intros [? _]]. f_equal. apply array_ext. naive_solver.
  - naive_solver.
Qed.

Lemma array_of_None n l : array_of n l = None ↔ length l ≠ n.
Proof.
  pose proof (array_of_spec n l) as Hs. destruct (array_of n l); naive_solver.
Qed.

Lemma array_of_bytes {n} (a : array n) : array_of n (bytes a) = Some a.
Proof. apply array_of_Some. split; [done | apply array_length]. Qed.

#[export] Instance array_eq_dec n : EqDecision (array n).
Proof.
  intros a b. refine (cast_if (decide (bytes a = bytes b)));
    [by apply array_ext | by intros ->].
Defined.

#[export] Instance array_countable n : Countable (array n).
Proof. refine (inj_countable bytes (array_of n) array_of_bytes). Defined.

(** [copy(a[:], l)] into a zeroed array: extra bytes are dropped, missing ones
    stay zero. *)
Definition pad (n : nat) (l : list byte) : list byte := take n (l ++ replicate n x00).

Lemma length_pad n l : length (pad n l) = n.
Proof. unfold pad. rewrite length_take, length_app, length_replicate. lia. Qed.

Lemma pad_exact n l : length l = n → pad n l = l.
Proof. intros <-. unfold pad. by rewrite take_app_length. Qed.

Definition copy_into (n : nat) (l : list byte) : array n :=
  match array_of n (pad n l) as o return array_of n (pad n l) = o → array n with
  | Some a => λ _, a
  | None => λ E, match proj1 (array_of_None _ _) E (length_pad n l) with end
  end eq_refl.

Lemma bytes_copy_into_pad n l : bytes (copy_into n l) = pad n l.
Proof.
  unfold copy_into. generalize (proj1 (array_of_None n (pad n l))).
  generalize (array_of_Some n (pad n l)).
  destruct (array_of n (pad n l)) as [a|]; intros Ha H.
  - by apply (Ha a).
  - by destruct (H eq_refl (length_pad n l)).
Qed.

Lemma bytes_copy_into n l : length l = n → bytes (copy_into n l) = l.
Proof. rewrite bytes_copy_into_pad. apply pad_exact. Qed.

Lemma copy_into_bytes {n} (a : array n) : copy_into n (bytes a) = a.
Proof. apply array_ext, bytes_copy_into, array_length. Qed.

Definition zero_array (n : nat) : array n := copy_into n [].

#[export] Instance array_inhabited n : Inhabited (array n) := populate (zero_array n).

(** ** encoding/hex *)

(** One lowercase hex digit. *)
Definition hex_digit (n : N) : ascii :=
  ascii_of_N (if (n <? 10)%N then 48 + n else 87 + n)%N.

(** Reads one digit of either case. *)
Definition from_hex_char (c : ascii) : option N :=
  let n := N_of_ascii c in
  if ((48 <=? n) && (n <=? 57))%N then Some (n - 48)%N
  else if ((97 <=? n) && (n <=? 102))%N then Some (n - 87)%N
  else if ((65 <=? n) && (n <=? 70))%N then Some (n - 55)%N
  else None.

(** [hex.EncodeToString]. *)
Fixpoint hex_encode (l : list byte) : string :=
  match l with
  | [] => EmptyString
  | b :: l =>
      String (hex_digit (Byte.to_N b / 16)) (String (hex_digit (Byte.to_N b mod 16)) (hex_encode l))
  end.

(** [hex.DecodeString]: an odd length or a foreign character is an error. *)
Fixpoint hex_decode (s : string) : option (list byte) :=
  match s with
  | EmptyString => Some []
  | String c1 EmptyString => None
  | String c1 (String c2 s) =>
      h ← from_hex_char c1; l ← from_hex_char c2; bs ← hex_decode s;
      b ← Byte.of_N (h * 16 + l); Some (b :: bs)
  end.

Lemma hex_byte b :
  ∃ h l, from_hex_char (hex_digit (Byte.to_N b / 16)) = Some h ∧
         from_hex_char (hex_digit (Byte.to_N b mod 16)) = Some l ∧
         Byte.of_N (h * 16 + l) = Some b.
Proof. destruct b; by repeat eexists. Qed.

Lemma hex_decode_encode l : hex_decode (hex_encode l) = Some l.
Proof.
  induction l as [|b l IH]; [done|]. cbn -[hex_digit from_hex_char N.div N.modulo N.mul].
  destruct (hex_byte b) as (h & lo & -> & -> & Hb). cbn -[N.mul]. rewrite IH. cbn -[N.mul].
  by rewrite Hb.
Qed.

Lemma hex_encode_length l : String.length (hex_encode l) = (2 * length l)%nat.
Proof. induction l; cbn -[hex_digit]; lia. Qed.

Lemma hex_encode_inj l1 l2 : hex_encode l1 = hex_encode l2 → l1 = l2.
Proof.
  intros E. apply (f_equal hex_decode) in E. rewrite !hex_decode_encode in E. naive_solver.
Qed.

Lemma string_pair_ind (P : string → Prop) :
  P EmptyString → (∀ c, P (String c EmptyString)) →
  (∀ c1 c2 s, P s → P (String c1 (String c2 s))) → ∀ s, P s.
Proof.
  intros H0 H1 H2. fix IH 1. intros [|c1 [|c2 s]]; [done | done | apply H2, IH].
Qed.

(** A decoded text has two characters per byte. *)
Lemma hex_decode_length s l :
  hex_decode s = Some l → String.length s = (2 * length l)%nat.
Proof.
  revert l; induction s as [|c|c1 c2 s IH] using string_pair_ind; intros l; cbn -[N.mul].
  - by intros [= <-].
  - done.
  - intros H. apply bind_Some in H as (h & _ & H). apply bind_Some in H as (lo & _ & H).
    apply bind_Some in H as (bs & Hs & H). apply bind_Some in H as (b & _ & [= <-]).
    rewrite (IH _ Hs). cbn. lia.
Qed.

(** ** encoding/binary.LittleEndian *)

Fixpoint le_put (n : nat) (z : Z) : list byte :=
  match n with
  | O => []
  | S n => byte_of_Z z :: le_put n (z / 256)
  end.

Fixpoint le_get (l : list byte) : Z :=
  match l with
  | [] => 0
  | b :: l => byte_to_Z b + 256 * le_get l
  end.

Lemma le_put_length n z : length (le_put n z) = n.
Proof. revert z; induction n; intros; cbn; auto. Qed.

Lemma le_get_range l : 0 ≤ le_get l < 256 ^ Z.of_nat (length l).
Proof.
  induction l as [|b l IH]; [done|]. cbn [le_get length].
  rewrite Nat2Z.inj_succ, Z.pow_succ_r by lia. pose proof (byte_to_Z_range b). lia.
Qed.

Lemma le_get_put n z : le_get (le_put n z) = z `mod` 256 ^ Z.of_nat n.
Proof.
  revert z; induction n as [|n IH]; intros z; cbn [le_get le_put].
  { by rewrite Z.mod_1_r. }
  rewrite IH, byte_to_of_Z, Nat2Z.inj_succ, Z.pow_succ_r by lia.
  rewrite (Z.rem_mul_r z 256 (256 ^ Z.of_nat n)); lia.
Qed.

Lemma le_put_get l : le_put (length l) (le_get l) = l.
Proof.
  induction l as [|b l IH]; [done|]. cbn [le_get le_put length].
  pose proof (byte_to_Z_range b). f_equal.
  - apply (inj byte_to_Z). rewrite byte_to_of_Z, (Z.mul_comm 256).
    rewrite Z_mod_plus_full. by apply Z.mod_small.
  - rewrite (Z.mul_comm 256), Z_div_plus_full by lia.
    by rewrite Z.div_small.
Qed.

(** [PutUint32] and [Uint32] on a four byte window. *)
Definition put_u32 (z : Z) : list byte := le_put 4 z.
Definition get_u32 (l : list byte) : Z := le_get (take 4 l).

Lemma get_put_u32 z rest : is_u32 z → get_u32 (put_u32 z ++ rest) = z.
Proof.
  intros Hz. unfold get_u32, put_u32. rewrite take_app_le by (by rewrite le_put_length).
  rewrite take_ge by (by rewrite le_put_length). rewrite le_get_put.
  apply Z.mod_small. apply Hz.
Qed.

Lemma get_u32_range l : is_u32 (get_u32 l).
Proof.
  unfold get_u32. pose proof (le_get_range (take 4 l)) as H. split; [apply H|].
  eapply Z.lt_le_trans; [apply H|]. rewrite length_take.
  change (2 ^ 32) with (256 ^ 4). apply Z.pow_le_mono_r; lia.
Qed.

(** ** strconv *)

Definition digit_value (c : ascii) : option Z :=
  let n := Z.of_N (N_of_ascii c) in
  if (48 <=? n) && (n <=? 57) then Some (n - 48) else None.

Fixpoint digits_value (acc : Z) (s : string) : option Z :=
  match s with
  | EmptyString => Some acc
  | String c s => d ← digit_value c; digits_value (acc * 10 + d) s
  end.

(** [strconv.ParseUint(s, 10, bits)]: digits alone, no sign, no empty text, and
    a value that fits [bits]. *)
Definition parse_uint (bits : Z) (s : string) : option Z :=
  match s with
  | EmptyString => None
  | _ => v ← digits_value 0 s; if v <? 2 ^ bits then Some v else None
  end.

(** [strconv.ParseInt(s, 10, 64)], which [strconv.Atoi] agrees with on a 64-bit
    platform: an optional sign, then digits. *)
Definition parse_int (s : string) : option Z :=
  match s with
  | EmptyString => None
  | String c rest =>
      if ascii_dec c "-" then
        v ← parse_uint 64 rest; if v <=? 2 ^ 63 then Some (- v) else None
      else
        v ← parse_uint 64 (if ascii_dec c "+" then rest else s);
        if v <? 2 ^ 63 then Some v else None
  end.

(** ** bytes and io *)

(** The white space of Unicode, in UTF-8. *)
Definition spaces : list (list ascii) :=
  map (map (λ n, ascii_of_N (Z.to_N n))) (
    [[9]; [10]; [11]; [12]; [13]; [32]; [194; 133]; [194; 160]; [225; 154; 128]] ++
    map (λ n, [226; 128; n]) [128; 129; 130; 131; 132; 133; 134; 135; 136; 137; 138; 168; 169; 175] ++
    [[226; 129; 159]; [227; 128; 128]]).

(** Drops what [cut] lists from the front; [fuel] bounds the number of cuts. *)
Fixpoint trim_left (cut : list (list ascii)) (fuel : nat) (l : list ascii) : list ascii :=
  match fuel with
  | O => l
  | S fuel =>
      match head (filter (λ c, c `prefix_of` l) cut) with
      | Some c => trim_left cut fuel (drop (length c) l)
      | None => l
      end
  end.

(** [bytes.TrimSpace] and [strings.TrimSpace]. *)
Definition TrimSpace (s : string) : string :=
  let l := String.list_ascii_of_string s in
  let rest := trim_left spaces (length l) l in
  String.string_of_list_ascii
    (reverse (trim_left (reverse <$> spaces) (length rest) (reverse rest))).

(** [io.LimitReader]: the first [n] bytes. *)
Fixpoint LimitReader (n : Z) (s : string) : string :=
  match s with
  | EmptyString => EmptyString
  | String c s => if n <=? 0 then EmptyString else String c (LimitReader (n - 1) s)
  end.

Example TrimSpace_both_ends : TrimSpace "  {1 }
 " = "{1 }"%string.
Proof. reflexivity. Qed.

(** The [%d] verb on a value that is not negative. *)
Definition fmt_d (z : Z) : string := pretty (Z.to_N z).

Lemma digit_value_pretty n : (n < 10)%N → digit_value (pretty_N_char n) = Some (Z.of_N n).
Proof.
  intros Hn. assert (n ∈ [0;1;2;3;4;5;6;7;8;9]%N) as Hin.
  { rewrite !elem_of_cons. lia. }
  set_unfold in Hin. by repeat destruct Hin as [->|Hin].
Qed.

Lemma digits_value_pretty n s :
  digits_value 0 (pretty_N_go n s) = digits_value (Z.of_N n) s.
Proof.
  revert s; induction (N.lt_wf_0 n) as [n _ IH]; intros s.
  destruct (decide (n = 0)%N) as [->|Hn]; [by rewrite pretty_N_go_0|].
  rewrite pretty_N_go_step by lia.
  rewrite IH by (apply N.div_lt; lia). cbn [digits_value].
  rewrite digit_value_pretty by (apply N.mod_lt; lia). cbn [mbind option_bind].
  f_equal. pose proof (N.div_mod' n 10). lia.
Qed.

Lemma parse_uint_fmt_d bits z : 0 ≤ z < 2 ^ bits → parse_uint bits (fmt_d z) = Some z.
Proof.
  intros [Hz Hb]. unfold parse_uint, fmt_d, pretty, pretty_N.
  destruct (decide _) as [E|E].
  - assert (z = 0) as -> by lia. change (digits_value 0 "0") with (Some 0). cbn -[Z.pow Z.ltb].
    by rewrite (proj2 (Z.ltb_lt _ _)).
  - destruct (pretty_N_go (Z.to_N z) "") as [|c s] eqn:Hs.
    + apply (f_equal (digits_value 0)) in Hs. rewrite digits_value_pretty in Hs.
      cbn in Hs. injection Hs. lia.
    + rewrite <- Hs, digits_value_pretty, Z2N.id by done. cbn -[Z.pow Z.ltb].
      by rewrite (proj2 (Z.ltb_lt _ _)).
Qed.

(** Digits alone read the same either way. *)
Lemma parse_int_uint s v : parse_uint 64 s = Some v → v < 2 ^ 63 → parse_int s = Some v.
Proof.
  intros H Hv. destruct s as [|c s]; [done|]. unfold parse_int.
  destruct (ascii_dec c "-") as [->|_]; [done|]. destruct (ascii_dec c "+") as [->|_]; [done|].
  rewrite H. cbn -[Z.pow Z.ltb]. by rewrite (proj2 (Z.ltb_lt _ _)).
Qed.

Lemma parse_int_fmt_d z : 0 ≤ z < 2 ^ 63 → parse_int (fmt_d z) = Some z.
Proof. intros Hz. apply parse_int_uint; [apply parse_uint_fmt_d|]; lia. Qed.

Lemma digits_value_nonneg acc s v : 0 ≤ acc → digits_value acc s = Some v → 0 ≤ v.
Proof.
  revert acc; induction s as [|c s IH]; intros acc Hacc; cbn -[digit_value].
  - by intros [= <-].
  - intros (d & Hd & H)%bind_Some. eapply IH; [|done].
    unfold digit_value in Hd.
    destruct (_ && _) eqn:E in Hd; [|done]. injection Hd as <-. lia.
Qed.

Lemma parse_uint_range bits s v : parse_uint bits s = Some v → 0 ≤ v < 2 ^ bits.
Proof.
  unfold parse_uint. destruct s as [|c s]; [done|]. intros (u & Hu & H)%bind_Some.
  apply digits_value_nonneg in Hu; [|done].
  destruct (Z.ltb_spec u (2 ^ bits)); by simplify_eq.
Qed.

(** ** strings *)

(** [strings.Cut(s, string(sep))] for a one character separator. *)
Fixpoint cut (sep : ascii) (s : string) : option (string * string) :=
  match s with
  | EmptyString => None
  | String c s =>
      if ascii_dec c sep then Some (EmptyString, s)
      else '(l, r) ← cut sep s; Some (String c l, r)
  end.

(** [strings.TrimPrefix(s, p)]. *)
Definition trim_prefix (p s : string) : string :=
  if String.prefix p s then String.substring (String.length p) (String.length s - String.length p) s
  else s.

(** [strings.TrimRight(s, string(c))] for a one character cut set. *)
Fixpoint trim_right (c : ascii) (s : string) : string :=
  match s with
  | EmptyString => EmptyString
  | String d s =>
      match trim_right c s with
      | EmptyString => if ascii_dec d c then EmptyString else String d EmptyString
      | s => String d s
      end
  end.

Fixpoint string_Forall (P : ascii → Prop) (s : string) : Prop :=
  match s with EmptyString => True | String c s => P c ∧ string_Forall P s end.

Lemma string_Forall_impl (P Q : ascii → Prop) s :
  (∀ c, P c → Q c) → string_Forall P s → string_Forall Q s.
Proof. induction s; cbn; naive_solver. Qed.

Lemma string_app_nil s : EmptyString +:+ s = s.
Proof. done. Qed.
Lemma string_app_cons c s1 s2 : String c s1 +:+ s2 = String c (s1 +:+ s2).
Proof. done. Qed.

Lemma cut_app sep l r :
  string_Forall (λ c, c ≠ sep) l → cut sep (l +:+ String sep r) = Some (l, r).
Proof.
  induction l as [|c l IH]; [|intros [Hc Hl]; rewrite string_app_cons]; cbn -[ascii_dec].
  - intros _. rewrite string_app_nil. cbn -[ascii_dec].
    destruct (ascii_dec sep sep); congruence.
  - destruct (ascii_dec c sep); [congruence|]. by rewrite IH.
Qed.

(** The alphabet [hex_encode] writes. *)
Definition is_hex_lower (c : ascii) : Prop :=
  let n := N_of_ascii c in (48 ≤ n ≤ 57 ∨ 97 ≤ n ≤ 102)%N.

Lemma hex_encode_alphabet l : string_Forall is_hex_lower (hex_encode l).
Proof.
  induction l as [|b l IH]; [done|]. cbn -[hex_digit N.div N.modulo].
  split; [|split; [|done]]; clear; unfold is_hex_lower;
    destruct b; vm_compute; intuition congruence.
Qed.

Lemma string_app_Forall (P : ascii → Prop) s1 s2 :
  string_Forall P s1 → string_Forall P s2 → string_Forall P (s1 +:+ s2).
Proof.
  induction s1 as [|c s1 IH]; [done|]. intros [Hc H1] H2. rewrite string_app_cons.
  split; [done | by apply IH].
Qed.
