(* ===== verification/Json.v ===== *)
(** * encoding/json, as the program uses it

    Decoders work on syntax trees, which [JsonText] reads from the bytes:
    whitespace and string escapes are gone, but the literal of a number, the order
    of members and repeated members stay, because Go's decoder looks at all three.
    [json.Unmarshal] writes into an existing value, so a decoder maps a tree and
    the current value to a new
    value. Every caller in the program drops the value when an error comes
    back, so a decoder stops at the first error. A slice target is filled with
    fresh elements. *)

From S2P Require Import Prelude GoStd.
Open Scope Z_scope.

Inductive json :=
  | JNull
  | JBool (b : bool)
  | JNum (literal : string)
  | JStr (s : string)
  | JArr (l : list json)
  | JObj (members : list (string * json)).

(** [json.RawMessage]: [None] is the nil slice, which holds no JSON text. *)
Definition RawMessage := option json.

Definition decoder (A : Type) := json → A → result A.

Definition mismatch : error := Errorf "json: cannot unmarshal".

(** [json.Unmarshal(raw, &zero)]. *)
Definition Unmarshal {A} (d : decoder A) (zero : A) (raw : RawMessage) : result A :=
  match raw with
  | None => Err (Errorf "unexpected end of JSON input")
  | Some j => d j zero
  end.

Definition dec_raw : decoder RawMessage := λ j _, Ok (Some j).

Definition dec_string : decoder string := λ j cur,
  match j with JNull => Ok cur | JStr s => Ok s | _ => Err mismatch end.

Definition dec_bool : decoder bool := λ j cur,
  match j with JNull => Ok cur | JBool b => Ok b | _ => Err mismatch end.

(** An unsigned target of [bits] bits: the literal goes through
    [strconv.ParseUint], so a sign, a fraction or an exponent is an error. *)
Definition dec_uint (bits : Z) : decoder Z := λ j cur,
  match j with
  | JNull => Ok cur
  | JNum lit => of_option mismatch (parse_uint bits lit)
  | _ => Err mismatch
  end.

(** A pointer target: [null] clears it, any other value is decoded into what it
    points to, or into a fresh zero. *)
Definition dec_ptr {A} (zero : A) (d : decoder A) : decoder (option A) := λ j cur,
  match j with
  | JNull => Ok None
  | _ => x ← d j (default zero cur); Ok (Some x)
  end.

(** A slice target. *)
Definition dec_slice {A} (zero : A) (d : decoder A) : decoder (list A) := λ j _,
  match j with
  | JNull => Ok []
  | JArr l => traverse (λ _ x, d x zero) l
  | _ => Err mismatch
  end.

Definition dec_byte : decoder byte := λ j cur,
  n ← dec_uint 8 j (byte_to_Z cur); Ok (byte_of_Z n).

(** An array target [[n]byte]: surplus elements are skipped, missing ones are
    zeroed. *)
Definition dec_byte_array (n : nat) : decoder (array n) := λ j cur,
  match j with
  | JNull => Ok cur
  | JArr l => bs ← traverse (λ _ x, dec_byte x x00) (take n l); Ok (copy_into n bs)
  | _ => Err mismatch
  end.

(** A [map[string]json.RawMessage] target. *)
Definition dec_raw_map : decoder (gmap string json) := λ j cur,
  match j with
  | JNull => Ok ∅
  | JObj m => Ok (foldl (λ acc kv, <[kv.1 := kv.2]> acc) cur m)
  | _ => Err mismatch
  end.

(** ** Struct targets

    A member goes to the field with exactly its name, or else to one whose name
    is equal under simple case folding. The two letters outside ASCII that fold
    to an ASCII letter are the long s and the Kelvin sign. *)

Definition to_lower (c : ascii) : ascii :=
  let n := N_of_ascii c in
  if ((65 <=? n) && (n <=? 90))%N then ascii_of_N (n + 32) else c.

Fixpoint fold_name (s : string) : string :=
  match s with
  | EmptyString => EmptyString
  | String a ((String b t) as s') =>
      if (N_of_ascii a =? 197)%N && (N_of_ascii b =? 191)%N then String "s" (fold_name t)
      else match t with
           | String c t' =>
               if (N_of_ascii a =? 226)%N && (N_of_ascii b =? 132)%N && (N_of_ascii c =? 170)%N
               then String "k" (fold_name t')
               else String (to_lower a) (fold_name s')
           | EmptyString => String (to_lower a) (fold_name s')
           end
  | String a s' => String (to_lower a) (fold_name s')
  end.

Definition fields (S : Type) := list (string * decoder S).

Fixpoint find_by {S} (p : string → bool) (fs : fields S) : option (decoder S) :=
  match fs with
  | [] => None
  | (n, d) :: fs => if p n then Some d else find_by p fs
  end.

Definition find_field {S} (name : string) (fs : fields S) : option (decoder S) :=
  match find_by (String.eqb name) fs with
  | Some d => Some d
  | None => find_by (λ n, String.eqb (fold_name name) (fold_name n)) fs
  end.

Definition dec_struct {S} (fs : fields S) : decoder S := λ j cur,
  match j with
  | JNull => Ok cur
  | JObj m =>
      foldE (λ s kv, match find_field kv.1 fs with
                     | Some d => d kv.2 s
                     | None => Ok s
                     end) cur m
  | _ => Err mismatch
  end.

(** Decodes into one field of a struct. *)
Definition into {S A} (get : S → A) (set : A → S → S) (d : decoder A) : decoder S :=
  λ j s, x ← d j (get s); Ok (set x s).

(** ** String literals

    [json_unquote s] is the value of the literal with [s] between its quotes,
    or [None] when the text is not one string literal. An escaped code point is
    written back as UTF-8. Go also replaces ill-formed UTF-8 and pairs
    surrogates; no text of the program that goes through here accepts a byte
    above 127 afterwards. *)

Definition utf8 (r : N) : list N :=
  (if r <? 128 then [r]
   else if r <? 2048 then [192 + r / 64; 128 + r mod 64]
   else if r <? 65536 then [224 + r / 4096; 128 + (r / 64) mod 64; 128 + r mod 64]
   else [240 + r / 262144; 128 + (r / 4096) mod 64; 128 + (r / 64) mod 64; 128 + r mod 64])%N.

Definition string_of_codes (l : list N) : string :=
  foldr (λ n s, String (ascii_of_N n) s) EmptyString l.

Definition simple_escape (c : ascii) : option ascii :=
  match N_of_ascii c with
  | 34%N | 92%N | 47%N => Some c
  | 98%N => Some (ascii_of_N 8)
  | 102%N => Some (ascii_of_N 12)
  | 110%N => Some (ascii_of_N 10)
  | 114%N => Some (ascii_of_N 13)
  | 116%N => Some (ascii_of_N 9)
  | _ => None
  end.

Fixpoint json_unquote (s : string) : option string :=
  match s with
  | EmptyString => Some EmptyString
  | String c s' =>
      if (N_of_ascii c =? 34)%N then None
      else if (N_of_ascii c <? 32)%N then None
      else if (N_of_ascii c =? 92)%N then
        match s' with
        | String e ((String h1 (String h2 (String h3 (String h4 t)))) as t') =>
            if (N_of_ascii e =? 117)%N then
              a ← from_hex_char h1; b ← from_hex_char h2;
              c ← from_hex_char h3; d ← from_hex_char h4; rest ← json_unquote t;
              Some (string_of_codes (utf8 (((a * 16 + b) * 16 + c) * 16 + d)) +:+ rest)
            else x ← simple_escape e; rest ← json_unquote t'; Some (String x rest)
        | String e t' => x ← simple_escape e; rest ← json_unquote t'; Some (String x rest)
        | EmptyString => None
        end
      else rest ← json_unquote s'; Some (String c rest)
  end.

(** Text with no quote, no backslash and no control character stands for
    itself. *)
Definition is_plain (c : ascii) : Prop :=
  let n := N_of_ascii c in (32 ≤ n)%N ∧ n ≠ 34%N ∧ n ≠ 92%N.

Lemma json_unquote_plain s : string_Forall is_plain s → json_unquote s = Some s.
Proof.
  induction s as [|c s IH]; [done|]. intros [(H1 & H2 & H3) Hs].
  cbn [json_unquote].
  rewrite (proj2 (N.eqb_neq _ _) H2), (proj2 (N.ltb_ge _ _) H1), (proj2 (N.eqb_neq _ _) H3).
  by rewrite IH.
Qed.

Lemma hex_plain c : is_hex_lower c → is_plain c.
Proof. unfold is_hex_lower, is_plain. cbn. lia. Qed.

Lemma json_unquote_hex l : json_unquote (hex_encode l) = Some (hex_encode l).
Proof.
  apply json_unquote_plain. eapply string_Forall_impl; [apply hex_plain|apply hex_encode_alphabet].
Qed.

(** ** Reasoning about decoders *)

Lemma find_by_In {S} p (fs : fields S) d : find_by p fs = Some d → ∃ n, (n, d) ∈ fs.
Proof.
  induction fs as [|[n d'] fs IH]; cbn; [done|]. destruct (p n).
  - intros [= ->]. exists n. set_solver.
  - intros (n' & Hn)%IH. exists n'. set_solver.
Qed.

Lemma find_field_In {S} name (fs : fields S) d : find_field name fs = Some d → ∃ n, (n, d) ∈ fs.
Proof. unfold find_field. case_match; [intros [= <-]|]; eauto using find_by_In. Qed.

(** What every field decoder preserves, the struct decoder preserves. *)
Lemma dec_struct_inv {S} (fs : fields S) (P : S → Prop) j s s' :
  Forall (λ nd, ∀ j s s', P s → nd.2 j s = Ok s' → P s') fs →
  P s → dec_struct fs j s = Ok s' → P s'.
Proof.
  intros Hfs Hs. destruct j; cbn; intros H; try done; [by injection H as <-|].
  eapply foldE_inv; [|exact Hs|exact H]. cbn. intros s1 [k v] s2 _ H1 H2. cbn in H2.
  destruct (find_field k fs) as [d|] eqn:E; [|by injection H2 as <-].
  apply find_field_In in E as [n Hn]. rewrite Forall_forall in Hfs. by eapply (Hfs (n, d)).
Qed.

Lemma dec_uint_range bits j cur z :
  0 ≤ cur < 2 ^ bits → dec_uint bits j cur = Ok z → 0 ≤ z < 2 ^ bits.
Proof.
  destruct j; cbn; intros; inv_ok; try done. by eapply parse_uint_range.
Qed.

Lemma into_inv {S A} (get : S → A) (set : A → S → S) d j s s' :
  into get set d j s = Ok s' → ∃ x, d j (get s) = Ok x ∧ s' = set x s.
Proof. unfold into. intros H. inv_ok. eauto. Qed.

Lemma dec_ptr_inv {A} (zero : A) d j cur o x :
  dec_ptr zero d j cur = Ok o → o = Some x → d j (default zero cur) = Ok x.
Proof. intros H ->. unfold dec_ptr in H. destruct j; inv_ok; done. Qed.
