(* ===== verification/JsonText.v ===== *)
(** * The text of JSON

    What [encoding/json] writes for a tree and reads from a text. [print] is
    [json.Marshal]: compact, with the escapes that keep a text safe in HTML.
    [parse] is what [json.Valid] accepts and [json.Unmarshal] finds, with Go's
    limit on nesting and its replacement of ill-formed UTF-8 and of unpaired
    surrogates. A raw message goes through [print] with its strings written
    afresh. *)

From S2P Require Import Prelude GoStd Json.
Open Scope N_scope.

Definition chars := list ascii.

Definition code (c : ascii) : N := N_of_ascii c.
Definition text_of : string → chars := String.list_ascii_of_string.
Definition string_of : chars → string := String.string_of_list_ascii.

Definition between (lo hi : N) (c : ascii) : bool := (lo <=? code c) && (code c <=? hi).
Definition is_char (n : N) (c : ascii) : bool := code c =? n.

(** ** UTF-8 *)

(** The encodings [utf8.DecodeRune] takes: no surrogate, nothing longer than it
    need be, nothing beyond U+10FFFF. *)
Definition wf_rune (bs : chars) : bool :=
  match bs with
  | [a] => code a <? 128
  | [a; b] => between 194 223 a && between 128 191 b
  | [a; b; c] =>
      between 224 239 a &&
      between (if code a =? 224 then 160 else 128) (if code a =? 237 then 159 else 191) b && between 128 191 c
  | [a; b; c; d] =>
      between 240 244 a &&
      between (if code a =? 240 then 144 else 128) (if code a =? 244 then 143 else 191) b &&
      between 128 191 c && between 128 191 d
  | _ => false
  end.

(** The inside of a string: bytes, and code units written as [\uXXXX]. *)
Inductive item := Raw (c : ascii) | Esc (u : N).

(** A rune by its bytes, or what is none. *)
Inductive rune := Rune (bs : chars) | Bad.

Definition encode_rune (r : N) : rune := Rune (ascii_of_N <$> utf8 r).

Definition is_surrogate (u : N) : bool := (55296 <=? u) && (u <? 57344).

(** [utf16.DecodeRune]. *)
Definition pair_of (u1 u2 : N) : option N :=
  if (55296 <=? u1) && (u1 <? 56320) && (56320 <=? u2) && (u2 <? 57344)
  then Some ((u1 - 55296) * 1024 + (u2 - 56320) + 65536) else None.

Fixpoint runes (l : list item) : list rune :=
  match l with
  | [] => []
  | Esc u :: l1 =>
      if is_surrogate u then
        match l1 with
        | Esc u' :: l2 =>
            match pair_of u u' with Some r => encode_rune r :: runes l2 | None => Bad :: runes l1 end
        | _ => Bad :: runes l1
        end
      else encode_rune u :: runes l1
  | Raw a :: l1 =>
      if wf_rune [a] then Rune [a] :: runes l1
      else match l1 with
      | Raw b :: l2 =>
          if wf_rune [a; b] then Rune [a; b] :: runes l2
          else match l2 with
          | Raw c :: l3 =>
              if wf_rune [a; b; c] then Rune [a; b; c] :: runes l3
              else match l3 with
              | Raw d :: l4 => if wf_rune [a; b; c; d] then Rune [a; b; c; d] :: runes l4 else Bad :: runes l1
              | _ => Bad :: runes l1
              end
          | _ => Bad :: runes l1
          end
      | _ => Bad :: runes l1
      end
  end.

(** U+FFFD. *)
Definition replacement : chars := ascii_of_N <$> [239; 191; 189].

Definition rune_bytes (r : rune) : chars := match r with Rune bs => bs | Bad => replacement end.
Definition text (rs : list rune) : chars := rs ≫= rune_bytes.

(** [strings.ToValidUTF8] with U+FFFD for each stray byte: what a string is
    once it was written and read. *)
Definition valid_text (s : string) : string := string_of (text (runes (Raw <$> text_of s))).

(** ** Writing *)

Definition backslash : ascii := ascii_of_N 92.
Definition quotes : ascii := ascii_of_N 34.

(** [\uXXXX]. *)
Definition unicode_escape (u : N) : chars :=
  [backslash; "u"%char; hex_digit (u / 4096); hex_digit ((u / 256) mod 16); hex_digit ((u / 16) mod 16);
   hex_digit (u mod 16)].

Definition escape_byte (c : ascii) : chars :=
  match code c with
  | 34 | 92 => [backslash; c]
  | 8 => [backslash; "b"%char]
  | 9 => [backslash; "t"%char]
  | 10 => [backslash; "n"%char]
  | 12 => [backslash; "f"%char]
  | 13 => [backslash; "r"%char]
  | 38 | 60 | 62 => unicode_escape (code c)
  | n => if n <? 32 then unicode_escape n else [c]
  end.

Definition is_separator (bs : chars) : option N :=
  match code <$> bs with
  | [226; 128; 168] => Some 8232
  | [226; 128; 169] => Some 8233
  | _ => None
  end.

Definition escape (r : rune) : chars :=
  match r with
  | Bad => unicode_escape 65533
  | Rune [c] => escape_byte c
  | Rune bs => match is_separator bs with Some u => unicode_escape u | None => bs end
  end.

Definition print_string (s : string) : chars :=
  quotes :: (runes (Raw <$> text_of s) ≫= escape) ++ [quotes].

Fixpoint commas (ls : list chars) : chars :=
  match ls with
  | [] => []
  | [x] => x
  | x :: ls => x ++ ","%char :: commas ls
  end.

Fixpoint print_chars (j : json) : chars :=
  match j with
  | JNull => text_of "null"
  | JBool b => text_of (if b then "true" else "false")
  | JNum lit => text_of lit
  | JStr s => print_string s
  | JArr l => "["%char :: commas (map print_chars l) ++ ["]"%char]
  | JObj m => "{"%char :: commas (map (λ kv, print_string kv.1 ++ ":"%char :: print_chars kv.2) m) ++ ["}"%char]
  end.

Definition print (j : json) : string := string_of (print_chars j).

(** ** Reading *)

Definition is_space (c : ascii) : bool := is_char 32 c || is_char 9 c || is_char 10 c || is_char 13 c.
Definition is_digit : ascii → bool := between 48 57.

Fixpoint skip_space (l : chars) : chars :=
  match l with c :: l' => if is_space c then skip_space l' else l | [] => [] end.

Fixpoint span (p : ascii → bool) (l : chars) : chars * chars :=
  match l with
  | c :: l' => if p c then let '(a, r) := span p l' in (c :: a, r) else ([], l)
  | [] => ([], [])
  end.

Fixpoint strip (w l : chars) : option chars :=
  match w, l with
  | [], _ => Some l
  | c :: w', d :: l' => if ascii_dec c d then strip w' l' else None
  | _ :: _, [] => None
  end.

(** One digit at least. *)
Definition scan_digits (l : chars) : option (chars * chars) :=
  match span is_digit l with ([], _) => None | x => Some x end.

Definition scan_sign (l : chars) : chars * chars :=
  match l with c :: l' => if is_char 45 c then ([c], l') else ([], l) | [] => ([], []) end.

(** No zero in front of another digit. *)
Definition scan_int (l : chars) : option (chars * chars) :=
  match l with
  | c :: l' => if is_char 48 c then Some ([c], l') else scan_digits l
  | [] => None
  end.

Definition scan_frac (l : chars) : option (chars * chars) :=
  match l with
  | c :: l' => if is_char 46 c then '(ds, r) ← scan_digits l'; Some (c :: ds, r) else Some ([], l)
  | [] => Some ([], [])
  end.

Definition scan_exp (l : chars) : option (chars * chars) :=
  match l with
  | c :: l' =>
      if is_char 101 c || is_char 69 c then
        let '(sign, r) :=
          match l' with d :: r => if is_char 43 d || is_char 45 d then ([d], r) else ([], l') | [] => ([], []) end in
        '(ds, r) ← scan_digits r; Some (c :: sign ++ ds, r)
      else Some ([], l)
  | [] => Some ([], [])
  end.

Definition scan_number (l : chars) : option (chars * chars) :=
  let '(s, l) := scan_sign l in
  '(i, l) ← scan_int l; '(f, l) ← scan_frac l; '(e, l) ← scan_exp l;
  Some (s ++ i ++ f ++ e, l).

Definition hex4 (a b c d : ascii) : option N :=
  a ← from_hex_char a; b ← from_hex_char b; c ← from_hex_char c; d ← from_hex_char d;
  Some (((a * 16 + b) * 16 + c) * 16 + d).

(** Up to the closing quote. *)
Fixpoint scan_string (l : chars) : option (list item * chars) :=
  match l with
  | [] => None
  | c :: l1 =>
      if is_char 34 c then Some ([], l1)
      else if code c <? 32 then None
      else if is_char 92 c then
        match l1 with
        | [] => None
        | e :: l2 =>
            if is_char 117 e then
              match l2 with
              | h1 :: h2 :: h3 :: h4 :: l3 =>
                  u ← hex4 h1 h2 h3 h4; '(its, r) ← scan_string l3; Some (Esc u :: its, r)
              | _ => None
              end
            else x ← simple_escape e; '(its, r) ← scan_string l2; Some (Raw x :: its, r)
        end
      else '(its, r) ← scan_string l1; Some (Raw c :: its, r)
  end.

Definition parse_string (l : chars) : option (string * chars) :=
  '(its, r) ← scan_string l; Some (string_of (text (runes its)), r).

(** [maxNestingDepth]. *)
Definition maxNestingDepth : nat := 10000.

(** A value, the elements of an array up to its end, the members of an object up
    to its end. [depth] is how many more levels may open. *)
Fixpoint parse_value (fuel depth : nat) (l : chars) {struct fuel} : option (json * chars) :=
  match fuel with
  | O => None
  | S fuel =>
      match skip_space l with
      | [] => None
      | c :: r =>
          if is_char 34 c then '(s, r) ← parse_string r; Some (JStr s, r)
          else if is_char 91 c then
            match depth with
            | O => None
            | S depth =>
                match skip_space r with
                | [] => None
                | d :: r' =>
                    if is_char 93 d then Some (JArr [], r')
                    else '(xs, r) ← parse_elements fuel depth r; Some (JArr xs, r)
                end
            end
          else if is_char 123 c then
            match depth with
            | O => None
            | S depth =>
                match skip_space r with
                | [] => None
                | d :: r' =>
                    if is_char 125 d then Some (JObj [], r')
                    else '(m, r) ← parse_members fuel depth r; Some (JObj m, r)
                end
            end
          else if is_char 110 c then r ← strip (text_of "ull") r; Some (JNull, r)
          else if is_char 116 c then r ← strip (text_of "rue") r; Some (JBool true, r)
          else if is_char 102 c then r ← strip (text_of "alse") r; Some (JBool false, r)
          else '(lit, r) ← scan_number (c :: r); Some (JNum (string_of lit), r)
      end
  end
with parse_elements (fuel depth : nat) (l : chars) {struct fuel} : option (list json * chars) :=
  match fuel with
  | O => None
  | S fuel =>
      '(x, r) ← parse_value fuel depth l;
      match skip_space r with
      | [] => None
      | c :: r =>
          if is_char 44 c then '(xs, r) ← parse_elements fuel depth r; Some (x :: xs, r)
          else if is_char 93 c then Some ([x], r) else None
      end
  end
with parse_members (fuel depth : nat) (l : chars) {struct fuel} : option (list (string * json) * chars) :=
  match fuel with
  | O => None
  | S fuel =>
      match skip_space l with
      | [] => None
      | c :: r =>
          if is_char 34 c then
            '(k, r) ← parse_string r;
            match skip_space r with
            | [] => None
            | c :: r =>
                if is_char 58 c then
                  '(x, r) ← parse_value fuel depth r;
                  match skip_space r with
                  | [] => None
                  | c :: r =>
                      if is_char 44 c then '(m, r) ← parse_members fuel depth r; Some ((k, x) :: m, r)
                      else if is_char 125 c then Some ([(k, x)], r) else None
                  end
                else None
            end
          else None
      end
  end.

(** Every value takes a character, and two calls. *)
Definition enough (l : chars) : nat := 2 * length l + 2.

(** The first value of a text, as [json.Decoder] reads it. *)
Definition parse_first (s : string) : option json :=
  fst <$> parse_value (enough (text_of s)) maxNestingDepth (text_of s).

(** The one value of a text. *)
Definition parse (s : string) : option json :=
  '(j, r) ← parse_value (enough (text_of s)) maxNestingDepth (text_of s);
  match skip_space r with [] => Some j | _ => None end.

(** ** Runes *)

Lemma code_of n : n < 256 → code (ascii_of_N n) = n.
Proof. apply N_ascii_embedding. Qed.

Definition rune_ok (r : rune) : Prop := match r with Rune bs => wf_rune bs = true | Bad => True end.
Definition item_ok (i : item) : Prop := match i with Raw _ => True | Esc u => u < 65536 end.
Definition clean_rune (r : rune) : rune := Rune (rune_bytes r).

Ltac by_code :=
  unfold is_char, between, is_surrogate in *;
  repeat match goal with
    | H : _ && _ = true |- _ => apply andb_true_iff in H as [? ?]
    | H : (_ <=? _) = true |- _ => apply N.leb_le in H
    | H : (_ <? _) = true |- _ => apply N.ltb_lt in H
    | H : (_ <? _) = false |- _ => apply N.ltb_ge in H
    | H : (_ =? _) = true |- _ => apply N.eqb_eq in H
    | H : (_ =? _) = false |- _ => apply N.eqb_neq in H
  end.

(** The first byte says how long a rune is. *)
Lemma wf_rune_lead bs a l : wf_rune bs = true → bs = a :: l →
  match l with
  | [] => code a < 128
  | [_] => 194 ≤ code a < 224
  | [_; _] => 224 ≤ code a < 240
  | _ => 240 ≤ code a < 245
  end.
Proof.
  intros H ->. destruct l as [|b [|c [|d [|]]]]; cbn [wf_rune] in H; by_code; try lia.
Qed.

Lemma wf_rune_short bs bs' a l l' :
  wf_rune bs = true → bs = a :: l → bs' = a :: l' → (length l' < length l)%nat → wf_rune bs' = false.
Proof.
  intros H Hl Hl' Hlen. apply not_true_is_false. intros H'.
  pose proof (wf_rune_lead _ _ _ H Hl) as H1. pose proof (wf_rune_lead _ _ _ H' Hl') as H2.
  destruct l as [|? [|? [|? l]]], l' as [|? [|? [|? l']]]; cbn in Hlen; try lia.
  subst. destruct l; [|done]. cbn in Hlen. lia.
Qed.

Lemma runes_app bs l : wf_rune bs = true → runes ((Raw <$> bs) ++ l) = Rune bs :: runes l.
Proof.
  intros H. pose proof (λ bs' a b b', wf_rune_short bs bs' a b b' H) as Hs.
  destruct bs as [|a [|b [|c [|d [|]]]]]; try done; rewrite ?fmap_cons, fmap_nil; cbn [app runes].
  - by rewrite H.
  - rewrite (Hs [a] a _ [] eq_refl eq_refl) by (cbn; lia). by rewrite H.
  - rewrite (Hs [a] a _ [] eq_refl eq_refl), (Hs [a; b] a _ [b] eq_refl eq_refl) by (cbn; lia). by rewrite H.
  - rewrite (Hs [a] a _ [] eq_refl eq_refl), (Hs [a; b] a _ [b] eq_refl eq_refl),
      (Hs [a; b; c] a _ [b; c] eq_refl eq_refl) by (cbn; lia). by rewrite H.
Qed.

(** A number below 2^24 in digits of six bits. *)
Lemma digits_64 r : ∃ o z y x,
  r `mod` 64 = x ∧ (r `div` 64) `mod` 64 = y ∧ (r `div` 4096) `mod` 64 = z ∧ r `div` 262144 = o ∧
  r `div` 64 = 4096 * o + 64 * z + y ∧ r `div` 4096 = 64 * o + z ∧
  r = 262144 * o + 4096 * z + 64 * y + x ∧ x < 64 ∧ y < 64 ∧ z < 64.
Proof.
  exists (r `div` 262144), ((r `div` 4096) `mod` 64), ((r `div` 64) `mod` 64), (r `mod` 64).
  assert (r `div` 4096 = r `div` 64 `div` 64) as E1 by (by rewrite N.Div0.div_div).
  assert (r `div` 262144 = r `div` 4096 `div` 64) as E2 by (by rewrite N.Div0.div_div).
  pose proof (N.div_mod r 64). pose proof (N.div_mod (r `div` 64) 64). pose proof (N.div_mod (r `div` 4096) 64).
  pose proof (N.mod_lt r 64). pose proof (N.mod_lt (r `div` 64) 64). pose proof (N.mod_lt (r `div` 4096) 64).
  split_and!; lia.
Qed.

Lemma encode_rune_ok r :
  r < 65536 ∧ is_surrogate r = false ∨ 65536 ≤ r < 1114112 → rune_ok (encode_rune r).
Proof.
  intros Hr. unfold encode_rune, rune_ok, utf8.
  destruct (digits_64 r) as (o & z & y & x & -> & -> & -> & -> & -> & -> & E & Hx & Hy & Hz).
  unfold is_surrogate in Hr. rewrite andb_false_iff, N.leb_gt, N.ltb_ge in Hr.
  repeat case_match; by_code; rewrite ?fmap_cons, fmap_nil; cbn [wf_rune]; unfold between; rewrite ?code_of by lia;
    repeat case_match; by_code; rewrite ?andb_true_iff, ?N.leb_le, ?N.ltb_lt; lia.
Qed.

Lemma pair_range u1 u2 r : pair_of u1 u2 = Some r → 65536 ≤ r < 1114112.
Proof. unfold pair_of. case_match; [|done]. intros [= <-]. by_code. lia. Qed.

Lemma runes_ok l : Forall item_ok l → Forall rune_ok (runes l).
Proof.
  assert (∀ n l, (length l ≤ n)%nat → Forall item_ok l → Forall rune_ok (runes l)) as H; [|by eapply (H (length l))].
  clear l. induction n as [|n IH]; intros [|i l] Hn Hl; try (by constructor); [by cbn in Hn; lia|].
  apply Forall_cons in Hl as [Hi Hl]. cbn in Hn. pose proof (IH l ltac:(lia) Hl) as Hr.
  destruct i as [a|u]; cbn [runes].
  - repeat case_match; constructor; try done; apply IH; rewrite ?Forall_cons in Hl; cbn in *; destruct_and?; done || lia.
  - destruct (is_surrogate u) eqn:E.
    + destruct l as [|[|u'] l]; try (by constructor). destruct (pair_of u u') as [r|] eqn:Er; [|by constructor].
      apply Forall_cons in Hl as [_ Hl]. constructor; [|apply IH; [cbn in *; lia|done]].
      apply encode_rune_ok. right. by eapply pair_range.
    + constructor; [|done]. apply encode_rune_ok. by left.
Qed.

Lemma rune_bytes_wf r : rune_ok r → wf_rune (rune_bytes r) = true.
Proof. by destruct r. Qed.

(** A text that was cleaned is clean. *)
Lemma runes_text rs : Forall rune_ok rs → runes (Raw <$> text rs) = clean_rune <$> rs.
Proof.
  induction 1 as [|r rs Hr _ IH]; [done|]. unfold text in *. cbn [mbind list_bind].
  by rewrite fmap_app, runes_app, IH by (by apply rune_bytes_wf).
Qed.

Lemma text_clean rs : text (clean_rune <$> rs) = text rs.
Proof. induction rs as [|r rs IH]; [done|]. unfold text in *. cbn. by rewrite IH. Qed.

Lemma text_string s : text_of (string_of s) = s.
Proof. apply String.list_ascii_of_string_of_list_ascii. Qed.

Lemma string_text s : string_of (text_of s) = s.
Proof. apply String.string_of_list_ascii_of_string. Qed.

Lemma valid_text_runes l : Forall item_ok l → valid_text (string_of (text (runes l))) = string_of (text (runes l)).
Proof. intros Hl. unfold valid_text. by rewrite text_string, runes_text, text_clean by (by apply runes_ok). Qed.

Lemma raw_ok l : Forall item_ok (Raw <$> l).
Proof. by induction l; constructor. Qed.

(** ** Strings *)

Lemma wf_rune_high bs : wf_rune bs = true → length bs ≠ 1%nat → Forall (λ c, 128 ≤ code c) bs.
Proof.
  intros H Hn. destruct bs as [|a [|b [|c [|d [|]]]]]; try done; cbn [wf_rune] in H; by_code;
    repeat constructor; try lia; repeat case_match; by_code; lia.
Qed.

Lemma scan_raw bs l :
  Forall (λ c, 128 ≤ code c) bs →
  scan_string (bs ++ l) = ('(its, r) ← scan_string l; Some ((Raw <$> bs) ++ its, r)).
Proof.
  induction 1 as [|c bs Hc _ IH]; cbn [app scan_string fmap list_fmap]; [by destruct (scan_string l) as [[]|]|].
  unfold is_char. rewrite (proj2 (N.eqb_neq _ _)), (proj2 (N.ltb_ge _ _)), (proj2 (N.eqb_neq _ _)), IH by lia.
  by destruct (scan_string l) as [[]|].
Qed.

Lemma is_separator_inv bs u : is_separator bs = Some u →
  (bs = ascii_of_N <$> [226; 128; 168] ∧ u = 8232) ∨ (bs = ascii_of_N <$> [226; 128; 169] ∧ u = 8233).
Proof.
  unfold is_separator. intros E. assert (bs = ascii_of_N <$> (code <$> bs)) as Hbs.
  { rewrite <- list_fmap_compose, <- (list_fmap_id bs) at 1. apply list_fmap_ext. intros i c _. symmetry. apply ascii_N_embedding. }
  rewrite Hbs. repeat case_match; try done; simplify_eq; auto.
Qed.

(** What is written for a rune reads as that rune. *)
Lemma scan_escape r : rune_ok r → ∃ its,
  (∀ l, scan_string (escape r ++ l) = ('(is', l') ← scan_string l; Some (its ++ is', l'))) ∧
  ∀ m, runes (its ++ m) = clean_rune r :: runes m.
Proof.
  intros Hr. destruct r as [bs|]; [|exists [Esc 65533]; by split].
  destruct (decide (length bs = 1%nat)) as [Hl|Hl].
  { destruct bs as [|c [|]]; try done. cbn [rune_ok] in Hr.
    destruct c as [[] [] [] [] [] [] [] []]; try discriminate Hr; clear Hr Hl;
      match goal with |- context [escape (Rune [?c])] =>
        first [ exists [Raw c]; by split | exists [Esc (code c)]; by split ] end. }
  assert (escape (Rune bs) = match is_separator bs with Some u => unicode_escape u | None => bs end) as ->
    by (by destruct bs as [|? []]).
  destruct (is_separator bs) as [u|] eqn:E.
  - exists [Esc u]. apply is_separator_inv in E as [[-> ->]|[-> ->]]; by split.
  - exists (Raw <$> bs). split; [|intros m; by apply runes_app].
    intros l. apply scan_raw. by apply wf_rune_high.
Qed.

Lemma scan_escapes rs rest : Forall rune_ok rs → ∃ its,
  scan_string ((rs ≫= escape) ++ quotes :: rest) = Some (its, rest) ∧ runes its = clean_rune <$> rs.
Proof.
  induction 1 as [|r rs Hr _ (its & IH1 & IH2)]; [by exists []|].
  destruct (scan_escape r Hr) as (its' & H1 & H2). exists (its' ++ its). cbn [mbind list_bind] in *.
  rewrite <- app_assoc, H1, IH1. split; [done|]. by rewrite H2, IH2.
Qed.

Lemma parse_print_string s rest :
  ∃ l, print_string s ++ rest = quotes :: l ∧ parse_string l = Some (valid_text s, rest).
Proof.
  unfold print_string. eexists. cbn [app]. split; [reflexivity|]. rewrite <- app_assoc. cbn [app].
  destruct (scan_escapes (runes (Raw <$> text_of s)) rest (runes_ok _ (raw_ok _))) as (its & H1 & H2).
  unfold parse_string, valid_text. rewrite H1. cbn. by rewrite H2, text_clean.
Qed.

(** ** Numbers *)

Definition is_number (lit : string) : bool :=
  match scan_number (text_of lit) with Some (_, []) => true | _ => false end.

(** What follows does not start with such a character. *)
Definition heads_not (p : ascii → bool) (l : chars) : Prop := match l with c :: _ => p c = false | [] => True end.
Definition is_exp (c : ascii) : bool := is_char 101 c || is_char 69 c.
Definition number_end (l : chars) : Prop := heads_not (λ c, is_digit c || is_char 46 c || is_exp c) l.

Lemma span_spec p l a r :
  span p l = (a, r) →
  l = a ++ r ∧ Forall (λ c, p c = true) a ∧ ∀ rest, heads_not p rest → span p (a ++ rest) = (a, rest).
Proof.
  revert a r. induction l as [|c l IH]; intros a r; cbn [span].
  { intros [= <- <-]. split_and!; [done|constructor|]. intros [|c rest] H; [done|]. cbn in *. by rewrite H. }
  destruct (p c) eqn:Ep.
  - destruct (span p l) as [a' r'] eqn:E. intros [= <- <-]. destruct (IH _ _ eq_refl) as (-> & Hf & Hr).
    split_and!; [done|by constructor|]. intros rest H. cbn [app span]. by rewrite Ep, Hr.
  - intros [= <- <-]. split_and!; [done|constructor|]. intros [|d rest] H; [done|]. cbn in *. by rewrite H.
Qed.

Lemma digits_spec l a r :
  scan_digits l = Some (a, r) →
  l = a ++ r ∧ (∃ c a', a = c :: a' ∧ is_digit c = true) ∧
  ∀ rest, heads_not is_digit rest → scan_digits (a ++ rest) = Some (a, rest).
Proof.
  unfold scan_digits. destruct (span is_digit l) as [[|c a'] r'] eqn:E; [done|]. intros [= <- <-].
  apply span_spec in E as (-> & Hf & Hr). apply Forall_cons in Hf as [Hc _].
  split_and!; [done|by eauto|]. intros rest H. by rewrite Hr.
Qed.

Lemma int_spec l a r :
  scan_int l = Some (a, r) →
  l = a ++ r ∧ (∃ c a', a = c :: a' ∧ is_digit c = true) ∧
  ∀ rest, heads_not is_digit rest → scan_int (a ++ rest) = Some (a, rest).
Proof.
  destruct l as [|c l]; [done|]. cbn [scan_int]. destruct (is_char 48 c) eqn:E.
  - intros [= <- <-]. split_and!; [done| |by intros rest _; cbn; rewrite E].
    exists c, []. split; [done|]. unfold is_digit. by_code. rewrite E. done.
  - intros (Hl & (d & a' & -> & Hd) & Hr)%digits_spec. injection Hl as <- ->. split_and!; [done|by eauto|].
    intros rest H. cbn [app scan_int]. rewrite E. by apply (Hr rest).
Qed.

Lemma frac_spec l a r :
  scan_frac l = Some (a, r) →
  l = a ++ r ∧ (a = [] ∨ ∃ c a', a = c :: a' ∧ is_char 46 c = true) ∧
  ∀ rest, heads_not (λ c, is_digit c || is_char 46 c) rest → scan_frac (a ++ rest) = Some (a, rest).
Proof.
  destruct l as [|c l]; cbn [scan_frac].
  { intros [= <- <-]. split_and!; [done|by left|]. intros [|d rest] H; [done|]. cbn in *.
    apply orb_false_iff in H as [_ H]. by rewrite H. }
  destruct (is_char 46 c) eqn:E.
  - destruct (scan_digits l) as [[ds r']|] eqn:Ed; [|done]. intros [= <- <-].
    apply digits_spec in Ed as (-> & _ & Hr). split_and!; [done|right; by eauto|].
    intros rest H. cbn. rewrite E, Hr; [done|]. destruct rest; [done|]. by apply orb_false_iff in H as [? _].
  - intros [= <- <-]. split_and!; [done|by left|]. intros [|d rest] H; [done|]. cbn in *.
    apply orb_false_iff in H as [_ H]. by rewrite H.
Qed.

Lemma exp_spec l a r :
  scan_exp l = Some (a, r) →
  l = a ++ r ∧ (a = [] ∨ ∃ c a', a = c :: a' ∧ is_exp c = true) ∧
  ∀ rest, number_end rest → scan_exp (a ++ rest) = Some (a, rest).
Proof.
  assert (∀ rest, number_end rest → scan_exp rest = Some ([], rest)) as Hnone.
  { intros [|d rest] H; [done|]. cbn in *. apply orb_false_iff in H as [_ H]. unfold is_exp in H. by rewrite H. }
  destruct l as [|c l]; cbn [scan_exp]; [intros [= <- <-]; by split_and!; [|left|]|].
  fold (is_exp c). destruct (is_exp c) eqn:E; [|intros [= <- <-]; by split_and!; [|left|]].
  destruct l as [|d l]; [done|]. destruct (is_char 43 d || is_char 45 d) eqn:Es.
  - destruct (scan_digits l) as [[ds r']|] eqn:Ed; [|done]. intros [= <- <-].
    apply digits_spec in Ed as (-> & _ & Hr). split_and!; [done|right; by eauto|].
    intros rest H. cbn. fold (is_exp c). rewrite E, Es, Hr; [done|].
    destruct rest; [done|]. cbn in *. by repeat apply orb_false_iff in H as [H _].
  - destruct (scan_digits (d :: l)) as [[ds r']|] eqn:Ed; [|done]. intros [= <- <-].
    apply digits_spec in Ed as (Hl & (d' & ds' & -> & Hd) & Hr). injection Hl as <- ->.
    split_and!; [done|right; by eauto|].
    intros rest H. cbn [app scan_exp]. fold (is_exp c). rewrite E, Es. cbn [app] in Hr. rewrite Hr; [done|].
    destruct rest; [done|]. cbn in *. by repeat apply orb_false_iff in H as [H _].
Qed.


(** A number ends where the next character cannot go on. *)
Lemma number_spec l a r :
  scan_number l = Some (a, r) →
  l = a ++ r ∧ (∃ c a', a = c :: a' ∧ (is_digit c = true ∨ is_char 45 c = true)) ∧
  ∀ rest, number_end rest → scan_number (a ++ rest) = Some (a, rest).
Proof.
  unfold scan_number. destruct (scan_sign l) as [s l1] eqn:Es.
  destruct (scan_int l1) as [[i l2]|] eqn:Ei; [|done]. cbn.
  destruct (scan_frac l2) as [[f l3]|] eqn:Ef; [|done]. cbn.
  destruct (scan_exp l3) as [[e l4]|] eqn:Ee; [|done]. cbn. intros [= <- <-].
  apply int_spec in Ei as (-> & (ci & i' & -> & Hci) & Hi). apply frac_spec in Ef as (-> & Hf & Hfr).
  apply exp_spec in Ee as (-> & He & Her).
  assert (l = s ++ (ci :: i') ++ f ++ e ++ l4 ∧ (s = [] ∨ ∃ c, s = [c] ∧ is_char 45 c = true)) as [-> Hs].
  { destruct l as [|c l]; cbn in Es; [discriminate Es|].
    destruct (is_char 45 c) eqn:E; [injection Es as <- ->; split; [done|right; by eauto]|].
    injection Es as <- -> ->. by split; [|left]. }
  split_and!; [by rewrite <- !app_assoc|destruct Hs as [->|(c & -> & Hc)]; eauto|].
  intros rest Hrest. 
  assert (scan_sign ((s ++ (ci :: i') ++ f ++ e) ++ rest) = (s, (ci :: i') ++ f ++ e ++ rest)) as ->.
  { rewrite <- !app_assoc. destruct Hs as [->|(c & -> & Hc)]; cbn; [|by rewrite Hc].
    assert (is_char 45 ci = false) as ->; [|done]. unfold is_digit in Hci. by_code. apply N.eqb_neq. lia. }
  assert (heads_not (λ c, is_digit c || is_char 46 c) (e ++ rest)) as He'.
  { destruct He as [->|(c & e' & -> & Hc)]; cbn.
    - destruct rest; [done|]. cbn in *. by apply orb_false_iff in Hrest as [? _].
    - unfold is_exp, is_digit, between, is_char in *. apply orb_true_iff in Hc as [Hc|Hc]; by_code; by rewrite Hc. }
  assert (heads_not is_digit (f ++ e ++ rest)) as Hf'.
  { destruct Hf as [->|(c & f' & -> & Hc)]; cbn.
    - destruct (e ++ rest); [done|]. cbn in *. by apply orb_false_iff in He' as [? _].
    - unfold is_digit, between, is_char in *. by_code. by rewrite Hc. }
  rewrite Hi by done. cbn. rewrite Hfr by done. cbn. by rewrite Her.
Qed.

Lemma is_number_scan lit rest :
  is_number lit = true → number_end rest → scan_number (text_of lit ++ rest) = Some (text_of lit, rest).
Proof.
  unfold is_number. destruct (scan_number (text_of lit)) as [[a r]|] eqn:E; [|done].
  destruct r; [|done]. intros _ Hr. apply number_spec in E as (E & _ & H). rewrite app_nil_r in E. rewrite E. by apply H.
Qed.

Lemma scan_is_number l a r : scan_number l = Some (a, r) → is_number (string_of a) = true.
Proof.
  intros (_ & _ & H)%number_spec. unfold is_number. rewrite text_string.
  specialize (H [] I). rewrite app_nil_r in H. by rewrite H.
Qed.

(** ** Trees *)

Lemma json_tree_ind (P : json → Prop) :
  P JNull → (∀ b, P (JBool b)) → (∀ lit, P (JNum lit)) → (∀ s, P (JStr s)) →
  (∀ l, Forall P l → P (JArr l)) → (∀ m, Forall (λ kv : string * json, P kv.2) m → P (JObj m)) → ∀ j, P j.
Proof.
  intros Hn Hb Hl Hs Ha Ho. fix IH 1. intros [|b|lit|s|l|m]; [apply Hn|apply Hb|apply Hl|apply Hs|apply Ha|apply Ho].
  - induction l as [|x l IHl]; constructor; [apply IH|exact IHl].
  - induction m as [|[k x] m IHm]; constructor; [apply IH|exact IHm].
Qed.

(** Every literal of a number is one. *)
Fixpoint numbers_ok (j : json) : bool :=
  match j with
  | JNum lit => is_number lit
  | JArr l => forallb numbers_ok l
  | JObj m => forallb (λ kv, numbers_ok kv.2) m
  | _ => true
  end.

Fixpoint depth (j : json) : nat :=
  match j with
  | JArr l => S (max_list (map depth l))
  | JObj m => S (max_list (map (λ kv, depth kv.2) m))
  | _ => 0
  end.

(** What arrives of a tree: its strings without what is no UTF-8. *)
Fixpoint clean (j : json) : json :=
  match j with
  | JStr s => JStr (valid_text s)
  | JArr l => JArr (map clean l)
  | JObj m => JObj (map (λ kv, (valid_text kv.1, clean kv.2)) m)
  | _ => j
  end.

Definition writable (j : json) : Prop := numbers_ok j = true ∧ (depth j ≤ maxNestingDepth)%nat.

#[export] Instance writable_dec j : Decision (writable j).
Proof. unfold writable. apply _. Defined.

(** How a value starts: no white space, and none of the closing brackets. *)
Lemma print_head j : numbers_ok j = true →
  ∃ c l, print_chars j = c :: l ∧ is_space c = false ∧ is_char 93 c = false ∧ is_char 125 c = false.
Proof.
  destruct j as [|[]|lit|s|l|m]; cbn [numbers_ok print_chars]; intros H; try (eexists _, _; by split_and!).
  unfold is_number in H. destruct (scan_number (text_of lit)) as [[a r]|] eqn:E; [|done].
  apply number_spec in E as (-> & (c & a' & -> & Hc) & _). exists c, (a' ++ r). split; [done|].
  unfold is_space, is_char, is_digit, between in *.
  destruct Hc as [Hc|Hc]; by_code; [|rewrite Hc; done].
  repeat (rewrite (proj2 (N.eqb_neq _ _)) by lia). done.
Qed.

Lemma skip_print j rest : numbers_ok j = true → skip_space (print_chars j ++ rest) = print_chars j ++ rest.
Proof. intros (c & l & -> & Hc & _)%print_head. cbn. by rewrite Hc. Qed.

Definition reads_back (j : json) : Prop := numbers_ok j = true → ∀ fuel d rest,
  (depth j ≤ d)%nat → (2 * length (print_chars j) ≤ fuel)%nat → number_end rest →
  parse_value fuel d (print_chars j ++ rest) = Some (clean j, rest).

Lemma elements_read_back l : Forall reads_back l → l ≠ [] → forallb numbers_ok l = true → ∀ fuel d rest,
  (max_list (map depth l) ≤ d)%nat → (2 * length (commas (map print_chars l)) + 1 ≤ fuel)%nat →
  parse_elements fuel d (commas (map print_chars l) ++ "]"%char :: rest) = Some (map clean l, rest).
Proof.
  induction 1 as [|x l Hx Hl IH]; [done|]. intros _ Hn fuel d rest Hd Hf. cbn in Hn, Hd.
  apply andb_true_iff in Hn as [Hnx Hnl]. destruct fuel as [|fuel]; [lia|].
  destruct l as [|y l].
  - cbn [map commas] in *. cbn [parse_elements]. rewrite Hx by (done || lia). done.
  - set (ys := y :: l) in *.
    assert (commas (map print_chars (x :: ys)) = print_chars x ++ ","%char :: commas (map print_chars ys)) as E by done.
    rewrite E in *. rewrite length_app in Hf. cbn [length] in Hf.
    cbn [parse_elements]. rewrite <- app_assoc, Hx by (done || lia). cbn [mbind option_bind app skip_space].
    change (is_space ",") with false. change (is_char 44 ",") with true. cbn iota.
    rewrite IH by (done || lia). done.
Qed.

Definition print_member (kv : string * json) : chars := print_string kv.1 ++ ":"%char :: print_chars kv.2.

Lemma members_read_back m : Forall (λ kv, reads_back kv.2) m → m ≠ [] →
  forallb (λ kv, numbers_ok kv.2) m = true → ∀ fuel d rest,
  (max_list (map (λ kv, depth kv.2) m) ≤ d)%nat → (2 * length (commas (map print_member m)) + 1 ≤ fuel)%nat →
  parse_members fuel d (commas (map print_member m) ++ "}"%char :: rest) =
  Some (map (λ kv, (valid_text kv.1, clean kv.2)) m, rest).
Proof.
  induction 1 as [|[k x] m Hx Hm IH]; [done|]. intros _ Hn fuel d rest Hd Hf. cbn in Hn, Hd, Hx.
  apply andb_true_iff in Hn as [Hnx Hnm]. destruct fuel as [|fuel]; [lia|].
  assert (∀ rest', number_end rest' → (2 * length (print_member (k, x)) ≤ fuel)%nat →
    ∃ l, skip_space (print_member (k, x) ++ rest') = quotes :: l ∧
      parse_string l = Some (valid_text k, ":"%char :: print_chars x ++ rest') ∧
      parse_value fuel d (print_chars x ++ rest') = Some (clean x, rest')) as Hmember.
  { intros rest' Hr' Hl. destruct (parse_print_string k (":"%char :: print_chars x ++ rest')) as (l & El & Hl').
    exists l. split_and!; [|done|].
    - unfold print_member. cbn [fst snd]. rewrite <- app_assoc. cbn [app]. rewrite El. done.
    - apply Hx; [done|lia| |done]. unfold print_member in Hl. cbn in Hl. rewrite length_app in Hl. cbn in Hl. lia. }
  destruct m as [|y m].
  - cbn [map commas] in *. destruct (Hmember ("}"%char :: rest)) as (l & E1 & E2 & E3); [done|lia|].
    cbn [parse_members]. rewrite E1. change (is_char 34 quotes) with true. cbn iota. rewrite E2.
    cbn [mbind option_bind skip_space]. change (is_space ":") with false. change (is_char 58 ":") with true. cbn iota.
    rewrite E3. done.
  - set (ys := y :: m) in *.
    assert (commas (map print_member ((k, x) :: ys)) = print_member (k, x) ++ ","%char :: commas (map print_member ys)) as E by done.
    rewrite E in *. rewrite length_app in Hf. cbn [length] in Hf. rewrite <- app_assoc.
    destruct (Hmember ((","%char :: commas (map print_member ys)) ++ "}"%char :: rest)) as (l & E1 & E2 & E3); [done|lia|].
    cbn [parse_members]. rewrite E1. change (is_char 34 quotes) with true. cbn iota. rewrite E2.
    cbn [mbind option_bind skip_space]. change (is_space ":") with false. change (is_char 58 ":") with true. cbn iota.
    rewrite E3. cbn [mbind option_bind app skip_space]. change (is_space ",") with false.
    change (is_char 44 ",") with true. cbn iota. rewrite IH by (done || lia). done.
Qed.

Lemma value_reads_back j : reads_back j.
Proof.
  induction j as [|[]|lit|s|l Hl|m Hm] using json_tree_ind; intros Hn fuel d rest Hd Hf Hr.
  1-3: cbn in Hf; destruct fuel; [lia|done].
  - cbn in Hn. pose proof (is_number_scan lit rest Hn Hr) as Hs.
    destruct (print_head (JNum lit) Hn) as (c & l & E & Hsp & _). cbn [print_chars] in *.
    pose proof (number_spec _ _ _ Hs) as (_ & (c' & a' & Ec & Hc) & _).
    rewrite E in Hs, Ec, Hf |- *. injection Ec as <- <-.
    destruct fuel; [cbn in Hf; lia|]. cbn [parse_value app skip_space]. rewrite Hsp.
    assert (is_char 34 c = false ∧ is_char 91 c = false ∧ is_char 123 c = false ∧ is_char 110 c = false ∧
      is_char 116 c = false ∧ is_char 102 c = false) as (-> & -> & -> & -> & -> & ->).
    { unfold is_char, is_digit, between in *. destruct Hc; by_code; split_and!; apply N.eqb_neq; lia. }
    cbn [app] in Hs. rewrite Hs. cbn [mbind option_bind clean]. by rewrite <- E, string_text.
  - destruct (parse_print_string s rest) as (l & E & H). cbn [print_chars] in *.
    destruct fuel; [cbn in Hf; lia|]. cbn [parse_value]. rewrite E. cbn [skip_space]. 
    change (is_space quotes) with false. change (is_char 34 quotes) with true. cbn iota. by rewrite H.
  - cbn in Hn. cbn [print_chars length] in Hf. rewrite length_app in Hf. cbn [length] in Hf. cbn [depth] in Hd.
    destruct fuel as [|fuel]; [lia|]. destruct d as [|d]; [lia|].
    destruct l as [|x l]; [done|]. set (xs := x :: l) in *.
    cbn [print_chars parse_value app skip_space]. change (is_space "[") with false.
    change (is_char 34 "[") with false. change (is_char 91 "[") with true. cbn iota. rewrite <- app_assoc. cbn [app].
    assert (∃ c r, skip_space (commas (map print_chars xs) ++ "]"%char :: rest) = c :: r ∧ is_char 93 c = false)
      as (c & r & -> & ->).
    { assert (numbers_ok x = true) as Hx by (by apply andb_true_iff in Hn as [? _]).
      destruct (print_head x Hx) as (c & r & E & Hsp & Hc & _).
      unfold xs. destruct l as [|y l]; cbn [map commas]; rewrite E; cbn; rewrite Hsp; eauto. }
    rewrite elements_read_back by (done || lia). done.
  - cbn in Hn. cbn [print_chars length] in Hf. rewrite length_app in Hf. cbn [length] in Hf. cbn [depth] in Hd.
    destruct fuel as [|fuel]; [lia|]. destruct d as [|d]; [lia|].
    destruct m as [|x m]; [done|]. set (xs := x :: m) in *.
    cbn [print_chars parse_value app skip_space]. change (is_space "{") with false.
    change (is_char 34 "{") with false. change (is_char 91 "{") with false. change (is_char 123 "{") with true.
    cbn iota. rewrite <- app_assoc. cbn [app]. change (map (λ kv, print_string kv.1 ++ ":"%char :: print_chars kv.2) xs) with (map print_member xs) in *.
    assert (∃ c r, skip_space (commas (map print_member xs) ++ "}"%char :: rest) = c :: r ∧ is_char 125 c = false)
      as (c & r & -> & ->) by (unfold xs; destruct m as [|y m]; cbn; eauto).
    rewrite members_read_back by (done || lia). done.
Qed.

(** What is written reads back, its strings without what is no UTF-8. *)
Theorem parse_print j : writable j → parse (print j) = Some (clean j).
Proof.
  intros [Hn Hd]. unfold parse, print. rewrite text_string.
  pose proof (value_reads_back j Hn (enough (print_chars j)) maxNestingDepth [] Hd) as H.
  rewrite app_nil_r in H. unfold enough in *. rewrite H by (done || lia). done.
Qed.

(** ** What is read *)

Lemma skip_space_length l : (length (skip_space l) ≤ length l)%nat.
Proof. induction l as [|c l IH]; cbn; [lia|]. destruct (is_space c); cbn; lia. Qed.

Lemma strip_length w l r : strip w l = Some r → (length r ≤ length l)%nat.
Proof.
  revert l. induction w as [|c w IH]; intros [|d l]; cbn; try done; try (intros [= <-]; cbn; lia).
  destruct (ascii_dec c d); [|done]. intros ?%IH. lia.
Qed.

Lemma from_hex_char_small c n : from_hex_char c = Some n → n < 16.
Proof. unfold from_hex_char. repeat case_match; intros [= <-]; by_code; lia. Qed.

Lemma hex4_small a b c d u : hex4 a b c d = Some u → u < 65536.
Proof.
  unfold hex4. intros (x & ?%from_hex_char_small & H)%bind_Some. apply bind_Some in H as (y & ?%from_hex_char_small & H).
  apply bind_Some in H as (z & ?%from_hex_char_small & H). apply bind_Some in H as (t & ?%from_hex_char_small & [= <-]). lia.
Qed.

Lemma scan_string_ok l its r : scan_string l = Some (its, r) → Forall item_ok its ∧ (length r < length l)%nat.
Proof.
  assert (∀ n l its r, (length l ≤ n)%nat → scan_string l = Some (its, r) →
    Forall item_ok its ∧ (length r < length l)%nat) as H; [|by eapply (H (length l))].
  clear l its r. induction n as [|n IH]; intros [|c l] its r Hn; try done; [cbn in Hn; lia|]. cbn in Hn. cbn [scan_string].
  assert (∀ i l1, item_ok i → (length l1 ≤ length l)%nat →
    ('(its, r) ← scan_string l1; Some (i :: its, r)) = Some (its, r) →
    Forall item_ok its ∧ (length r < length (c :: l))%nat) as Hstep.
  { intros i l1 Hi Hl1 ([its' r'] & H & [= <- <-])%bind_Some. apply IH in H as [H1 H2]; [|lia].
    split; [by constructor|cbn; lia]. }
  destruct (is_char 34 c); [intros [= <- <-]; split; [constructor|cbn; lia]|].
  destruct (code c <? 32); [done|]. destruct (is_char 92 c); [|by apply (Hstep (Raw c))].
  destruct l as [|e l]; [done|]. destruct (is_char 117 e).
  - destruct l as [|h1 [|h2 [|h3 [|h4 l]]]]; try done. intros (u & Hu%hex4_small & H)%bind_Some.
    eapply (Hstep (Esc u)); [exact Hu| |exact H]. cbn. lia.
  - intros (x & _ & H)%bind_Some. eapply (Hstep (Raw x)); [done| |exact H]. cbn. lia.
Qed.

Lemma parse_string_ok l s r : parse_string l = Some (s, r) → valid_text s = s ∧ (length r < length l)%nat.
Proof.
  unfold parse_string. intros ([its r'] & [H1 H2]%scan_string_ok & [= <- <-])%bind_Some.
  split; [by apply valid_text_runes|done].
Qed.

(** A tree as a text can hold it. *)
Definition textual (d : nat) (j : json) : Prop := numbers_ok j = true ∧ (depth j ≤ d)%nat ∧ clean j = j.

Lemma textual_arr d l : Forall (textual d) l → textual (S d) (JArr l).
Proof.
  intros H. assert (forallb numbers_ok l = true ∧ (max_list (map depth l) ≤ d)%nat ∧ map clean l = l) as (H1 & H2 & H3).
  { induction H as [|x l (Hx1 & Hx2 & Hx3) _ (IH1 & IH2 & IH3)]; cbn; [split_and!; [done|lia|done]|].
    rewrite Hx1, Hx3, IH3. split_and!; [done|lia|done]. }
  split_and!; cbn; [done|lia|by rewrite H3].
Qed.

Lemma textual_obj d m : Forall (λ kv, valid_text kv.1 = kv.1 ∧ textual d kv.2) m → textual (S d) (JObj m).
Proof.
  intros H. assert (forallb (λ kv, numbers_ok kv.2) m = true ∧ (max_list (map (λ kv, depth kv.2) m) ≤ d)%nat ∧
    map (λ kv, (valid_text kv.1, clean kv.2)) m = m) as (H1 & H2 & H3).
  { induction H as [|[k x] m (Hk & Hx1 & Hx2 & Hx3) _ (IH1 & IH2 & IH3)]; cbn in *; [split_and!; [done|lia|done]|].
    rewrite Hk, Hx1, Hx3, IH3. split_and!; [done|lia|done]. }
  split_and!; cbn; [done|lia|by rewrite H3].
Qed.

(** The next character that is no white space. *)
Lemma skip_space_cons l c r : skip_space l = c :: r → (length r < length l)%nat.
Proof. intros H. pose proof (skip_space_length l) as Hl. rewrite H in Hl. cbn in Hl. lia. Qed.

Ltac next_char c r E :=
  match goal with |- context [match skip_space ?l with _ => _ end] =>
    destruct (skip_space l) as [|c r] eqn:E; [done|apply skip_space_cons in E] end.

Lemma parse_ok fuel :
  (∀ d l j r, parse_value fuel d l = Some (j, r) → textual d j ∧ (length r < length l)%nat) ∧
  (∀ d l xs r, parse_elements fuel d l = Some (xs, r) → Forall (textual d) xs ∧ (length r < length l)%nat) ∧
  (∀ d l m r, parse_members fuel d l = Some (m, r) →
     Forall (λ kv, valid_text kv.1 = kv.1 ∧ textual d kv.2) m ∧ (length r < length l)%nat).
Proof.
  induction fuel as [|fuel (IHv & IHe & IHm)]; [done|]. split_and!; intros d l x r'; cbn [parse_value parse_elements parse_members].
  - next_char c1 l1 E1. destruct (is_char 34 _).
    { intros ([s r1] & [H1 H2]%parse_string_ok & [= <- <-])%bind_Some. split; [|lia]. split_and!; cbn; [done|lia|by rewrite H1]. }
    destruct (is_char 91 _).
    { destruct d as [|d]; [done|]. next_char c2 l2 E2. destruct (is_char 93 _).
      { intros [= <- <-]. split; [by apply textual_arr|lia]. }
      intros ([xs r1] & [H1 H2]%IHe & [= <- <-])%bind_Some. split; [by apply textual_arr|lia]. }
    destruct (is_char 123 _).
    { destruct d as [|d]; [done|]. next_char c2 l2 E2. destruct (is_char 125 _).
      { intros [= <- <-]. split; [by apply textual_obj|lia]. }
      intros ([m r1] & [H1 H2]%IHm & [= <- <-])%bind_Some. split; [by apply textual_obj|lia]. }
    repeat (destruct (is_char _ _); [intros (r1 & H%strip_length & [= <- <-])%bind_Some; split; [split_and!; cbn; [done|lia|done]|lia]|]).
    intros ([lit r1] & H & [= <- <-])%bind_Some. pose proof (scan_is_number _ _ _ H) as Hn.
    apply number_spec in H as (Hl & (c' & a' & -> & _) & _). injection Hl as -> ->. rewrite length_app in E1.
    split; [split_and!; cbn; [done|lia|done]|lia].
  - intros ([j r1] & [H1 H2]%IHv & H)%bind_Some. revert H. next_char c1 l1 E1. destruct (is_char 44 _).
    { intros ([xs r2] & [H3 H4]%IHe & [= <- <-])%bind_Some. split; [by constructor|lia]. }
    destruct (is_char 93 _); [|done]. intros [= <- <-]. split; [by apply Forall_singleton|lia].
  - next_char c1 l1 E1. destruct (is_char 34 _); [|done].
    intros ([k r1] & [Hk Hr]%parse_string_ok & H)%bind_Some. revert H. next_char c2 l2 E2. destruct (is_char 58 _); [|done].
    intros ([j r2] & [H1 H2]%IHv & H)%bind_Some. revert H. next_char c3 l3 E3. destruct (is_char 44 _).
    { intros ([m r3] & [H3 H4]%IHm & [= <- <-])%bind_Some. split; [by constructor|lia]. }
    destruct (is_char 125 _); [|done]. intros [= <- <-]. split; [by apply Forall_singleton|lia].
Qed.

(** A text that was read can be written, and reads as the same tree again. *)
Theorem parse_print_parse s j : parse s = Some j → writable j ∧ clean j = j ∧ parse (print j) = Some j.
Proof.
  unfold parse at 1. intros ([j' r] & H & Hr)%bind_Some. destruct (skip_space r); [|done]. injection Hr as ->.
  apply parse_ok in H as [(H1 & H2 & H3) _]. assert (writable j) as Hw by done.
  split_and!; [done|done|]. by rewrite parse_print, H3.
Qed.

(** ** Fuel *)

Lemma option_bind_ext_eq {A B} (f g : A → option B) (x : option A) :
  (∀ a, x = Some a → f a = g a) → x ≫= f = x ≫= g.
Proof. destruct x as [a|]; [intros H; exact (H a eq_refl)|done]. Qed.

Lemma fuel_enough fuel : ∀ fuel' d l,
  ((2 * length l < fuel)%nat → (2 * length l < fuel')%nat → parse_value fuel d l = parse_value fuel' d l) ∧
  ((2 * length l + 1 < fuel)%nat → (2 * length l + 1 < fuel')%nat →
     parse_elements fuel d l = parse_elements fuel' d l ∧ parse_members fuel d l = parse_members fuel' d l).
Proof.
  induction fuel as [|fuel IH]; [lia|]. intros [|fuel'] d l; [lia|]. split.
  - intros Hf Hf'. cbn [parse_value]. next_char c1 l1 E1. destruct (is_char 34 _); [done|].
    destruct (is_char 91 _).
    { destruct d as [|d]; [done|]. next_char c2 l2 E2. destruct (is_char 93 _); [done|].
      destruct (IH fuel' d l1) as [_ H]. destruct H as [-> _]; [lia..|done]. }
    destruct (is_char 123 _); [|done].
    destruct d as [|d]; [done|]. next_char c2 l2 E2. destruct (is_char 125 _); [done|].
    destruct (IH fuel' d l1) as [_ H]. destruct H as [_ ->]; [lia..|done].
  - intros Hf Hf'. cbn [parse_elements parse_members]. split.
    + rewrite (proj1 (IH fuel' d l)) by lia. apply option_bind_ext_eq. intros [x r] Hx%parse_ok.
      destruct Hx as [_ Hx]. next_char c1 l1 E1. destruct (is_char 44 _); [|done].
      destruct (IH fuel' d l1) as [_ H]. destruct H as [-> _]; [lia..|done].
    + next_char c1 l1 E1. destruct (is_char 34 _); [|done]. apply option_bind_ext_eq. intros [k r] [_ Hr]%parse_string_ok.
      next_char c2 l2 E2. destruct (is_char 58 _); [|done].
      rewrite (proj1 (IH fuel' d l2)) by lia. apply option_bind_ext_eq. intros [x r'] Hx%parse_ok.
      destruct Hx as [_ Hx]. next_char c3 l3 E3. destruct (is_char 44 _); [|done].
      destruct (IH fuel' d l3) as [_ H]. destruct H as [_ ->]; [lia..|done].
Qed.

(** [enough] fuel is enough: with more, a text reads as the same. *)
Theorem parse_enough s fuel : (enough (text_of s) ≤ fuel)%nat →
  parse_value fuel maxNestingDepth (text_of s) = parse_value (enough (text_of s)) maxNestingDepth (text_of s).
Proof. intros H. unfold enough in *. by apply fuel_enough; lia. Qed.

(** ** Text of the program *)

(** Text of ASCII characters is valid. *)
Definition ascii_text (s : string) : bool := forallb (λ c, code c <? 128) (text_of s).

Lemma text_app l1 l2 : text (l1 ++ l2) = text l1 ++ text l2.
Proof. unfold text. apply bind_app. Qed.

Lemma valid_ascii s : ascii_text s = true → valid_text s = s.
Proof.
  intros H. unfold valid_text. rewrite <- (string_text s) at 2. f_equal. unfold ascii_text in H.
  induction (text_of s) as [|c l IH]; [done|]. cbn in H. apply andb_true_iff in H as [Hc Hl].
  change (Raw <$> c :: l) with ((Raw <$> [c]) ++ (Raw <$> l)). rewrite runes_app by done. cbn. by rewrite <- (IH Hl) at 2.
Qed.

Lemma pretty_char n : n < 10 → is_digit (pretty_N_char n) = true ∧ (0 < n → is_char 48 (pretty_N_char n) = false).
Proof.
  intros Hn. assert (n ∈ [0; 1; 2; 3; 4; 5; 6; 7; 8; 9]) as Hin by (rewrite !elem_of_cons; lia).
  set_unfold in Hin. by repeat destruct Hin as [->|Hin].
Qed.

Lemma pretty_digits n s : 0 < n → ∃ c ds, text_of (pretty_N_go n s) = c :: ds ++ text_of s ∧
  is_char 48 c = false ∧ Forall (λ c, is_digit c = true) (c :: ds).
Proof.
  revert s. induction (N.lt_wf_0 n) as [n _ IH]; intros s Hn. rewrite pretty_N_go_step by done.
  destruct (pretty_char (n `mod` 10)) as [Hd Hz]; [by apply N.mod_lt|].
  destruct (decide (n `div` 10 = 0)) as [E|E].
  - rewrite E, pretty_N_go_0. exists (pretty_N_char (n `mod` 10)), []. split_and!; [done| |by repeat constructor].
    apply Hz. pose proof (N.div_mod' n 10). lia.
  - assert (0 < n `div` 10) as Hq by (by apply N.neq_0_lt_0). assert (n `div` 10 < n) as Hlt by (by apply N.div_lt).
    destruct (IH _ Hlt (String (pretty_N_char (n `mod` 10)) s) Hq) as (c & ds & -> & Hc & Hf).
    exists c, (ds ++ [pretty_N_char (n `mod` 10)]). split_and!; [by cbn; rewrite <- app_assoc|done|].
    inversion_clear Hf. constructor; [done|]. apply Forall_app. by split; [|apply Forall_singleton].
Qed.

Lemma span_all p l : Forall (λ c, p c = true) l → span p l = (l, []).
Proof. induction 1 as [|c l Hc _ IH]; cbn; [done|]. by rewrite Hc, IH. Qed.

(** A whole number is a number. *)
Lemma fmt_d_number z : is_number (fmt_d z) = true ∧ is_number (String "-" (fmt_d z)) = true.
Proof.
  unfold fmt_d, pretty, pretty_N. destruct (decide (Z.to_N z = 0)) as [|Hz]; [by split|].
  destruct (pretty_digits (Z.to_N z) "") as (c & ds & E & Hc & Hf); [lia|]. change (text_of "") with (@nil ascii) in E. rewrite app_nil_r in E.
  assert (scan_int (c :: ds) = Some (c :: ds, [])) as Hs.
  { cbn [scan_int]. rewrite Hc. unfold scan_digits. by rewrite span_all. }
  assert (is_char 45 c = false) as Hm.
  { apply Forall_cons in Hf as [Hd _]. unfold is_digit in Hd. by_code. unfold is_char. apply N.eqb_neq. lia. }
  unfold is_number, scan_number. split.
  - rewrite E. cbn [scan_sign]. rewrite Hm. cbn iota. by rewrite Hs.
  - change (text_of (String "-" ?s)) with ("-"%char :: text_of s). rewrite E. cbn [scan_sign].
    change (is_char 45 "-") with true. cbn iota. by rewrite Hs.
Qed.

Lemma fmt_d_ascii z : ascii_text (fmt_d z) = true.
Proof.
  unfold fmt_d, pretty, pretty_N. destruct (decide (Z.to_N z = 0)) as [|Hz]; [done|].
  destruct (pretty_digits (Z.to_N z) "") as (c & ds & E & _ & Hf); [lia|]. unfold ascii_text.
  change (text_of "") with (@nil ascii) in E. rewrite E, app_nil_r. apply forallb_forall. intros d Hin.
  rewrite Forall_forall in Hf. apply list_elem_of_In, Hf in Hin. unfold is_digit in Hin. by_code. apply N.ltb_lt. lia.
Qed.

Lemma hex_ascii l : ascii_text (hex_encode l) = true.
Proof.
  pose proof (hex_encode_alphabet l) as H. unfold ascii_text. induction (hex_encode l) as [|c s IH]; [done|].
  destruct H as [Hc Hs]. cbn. rewrite (IH Hs), andb_true_r. apply N.ltb_lt. unfold is_hex_lower in Hc. unfold code. cbn in Hc. lia.
Qed.

Lemma ascii_app s s' : ascii_text s = true → ascii_text s' = true → ascii_text (s +:+ s') = true.
Proof.
  unfold ascii_text. induction s as [|c s IH]; [done|]. intros Hs Hs'. change (forallb (λ c, code c <? 128) (c :: text_of (s +:+ s')) = true).
  cbn in Hs |- *. apply andb_true_iff in Hs as [-> Hs]. by apply IH.
Qed.

Lemma textual_mono d d' j : textual d j → (d ≤ d')%nat → textual d' j.
Proof. intros (H1 & H2 & H3) Hd. split_and!; [done|lia|done]. Qed.

Lemma textual_fmt_d d z : textual d (JNum (fmt_d z)).
Proof. split_and!; [apply fmt_d_number|cbn; lia|done]. Qed.

Lemma textual_null d : textual d JNull.
Proof. split_and!; [done|cbn; lia|done]. Qed.

Lemma textual_one d j : textual d j → textual (S d) (JArr [j]).
Proof. intros Hj. by apply textual_arr, Forall_singleton. Qed.

Lemma textual_ascii d s : ascii_text s = true → textual d (JStr s).
Proof. intros H. split_and!; [done|cbn; lia|]. cbn. by rewrite valid_ascii. Qed.

Lemma textual_member k d j : ascii_text k = true → textual d j → valid_text k = k ∧ textual d j.
Proof. intros Hk Hj. split; [by apply valid_ascii|done]. Qed.

Lemma string_of_app l1 l2 : string_of (l1 ++ l2) = string_of l1 +:+ string_of l2.
Proof. induction l1 as [|c l1 IH]; [done|]. cbn. by rewrite IH. Qed.

Lemma text_of_app s1 s2 : text_of (s1 +:+ s2) = text_of s1 ++ text_of s2.
Proof. induction s1 as [|c s1 IH]; [done|]. change (c :: text_of (s1 +:+ s2) = c :: text_of s1 ++ text_of s2). by f_equal. Qed.

(** A tree that can be read is, also with white space after it. *)
Lemma parse_tail j tail :
  writable j → skip_space (text_of tail) = [] →
  parse (print j +:+ tail) = Some (clean j) ∧ parse_first (print j +:+ tail) = Some (clean j).
Proof.
  intros (Hn & Hd) Ht. unfold parse, parse_first, print. rewrite text_of_app, text_string.
  assert (number_end (text_of tail)) as He.
  { destruct (text_of tail) as [|c l]; [done|]. cbn in Ht |- *. destruct (is_space c) eqn:E; [|done].
    unfold is_space, is_digit, is_exp, between, is_char in *. rewrite !orb_true_iff, !N.eqb_eq in E.
    destruct E as [[[->| ->]| ->]| ->]; done. }
  rewrite value_reads_back by (done || unfold enough; rewrite length_app; lia).
  cbn. by rewrite Ht.
Qed.

(** A tree as a text can hold it arrives as it is. *)
Lemma parse_textual j tail :
  textual maxNestingDepth j → skip_space (text_of tail) = [] →
  parse (print j +:+ tail) = Some j ∧ parse_first (print j +:+ tail) = Some j.
Proof. intros (Hn & Hd & Hc) Ht. rewrite <- Hc at 2 4. by apply parse_tail. Qed.

Lemma parse_textual_whole j : textual maxNestingDepth j → parse (print j) = Some j ∧ parse_first (print j) = Some j.
Proof.
  intros H. assert (print j +:+ "" = print j) as E.
  { unfold print. induction (print_chars j) as [|c l IH]; [done|].
    change (String c (string_of l +:+ "") = String c (string_of l)). by rewrite IH. }
  rewrite <- E. by apply parse_textual.
Qed.

#[global] Arguments parse : simpl never.
#[global] Arguments parse_first : simpl never.
#[global] Arguments print : simpl never.
#[global] Arguments maxNestingDepth : simpl never.
