(* ===== verification/Sha256.v ===== *)
(** * crypto/sha256

    The program takes one digest from Go's standard library, the sha256 of an
    address. This is FIPS 180-4 on 32-bit words, checked on the standard's
    test vectors. *)

From S2P Require Import Prelude GoStd.
Open Scope Z_scope.

Definition add32 (a b : Z) : Z := uint32 (a + b).
Definition rotr (n x : Z) : Z := Z.lor (Z.shiftr x n) (uint32 (Z.shiftl x (32 - n))).

Definition Ch (x y z : Z) : Z := Z.lxor (Z.land x y) (Z.land (2^32 - 1 - x) z).
Definition Maj (x y z : Z) : Z := Z.lxor (Z.land x y) (Z.lxor (Z.land x z) (Z.land y z)).
Definition Sigma0 (x : Z) : Z := Z.lxor (rotr 2 x) (Z.lxor (rotr 13 x) (rotr 22 x)).
Definition Sigma1 (x : Z) : Z := Z.lxor (rotr 6 x) (Z.lxor (rotr 11 x) (rotr 25 x)).
Definition sigma0 (x : Z) : Z := Z.lxor (rotr 7 x) (Z.lxor (rotr 18 x) (Z.shiftr x 3)).
Definition sigma1 (x : Z) : Z := Z.lxor (rotr 17 x) (Z.lxor (rotr 19 x) (Z.shiftr x 10)).

Definition round_constants : list Z := [
  1116352408; 1899447441; 3049323471; 3921009573; 961987163; 1508970993; 2453635748; 2870763221;
  3624381080; 310598401; 607225278; 1426881987; 1925078388; 2162078206; 2614888103; 3248222580;
  3835390401; 4022224774; 264347078; 604807628; 770255983; 1249150122; 1555081692; 1996064986;
  2554220882; 2821834349; 2952996808; 3210313671; 3336571891; 3584528711; 113926993; 338241895;
  666307205; 773529912; 1294757372; 1396182291; 1695183700; 1986661051; 2177026350; 2456956037;
  2730485921; 2820302411; 3259730800; 3345764771; 3516065817; 3600352804; 4094571909; 275423344;
  430227734; 506948616; 659060556; 883997877; 958139571; 1322822218; 1537002063; 1747873779;
  1955562222; 2024104815; 2227730452; 2361852424; 2428436474; 2756734187; 3204031479; 3329325298].

Definition initial_state : list Z := [
  1779033703; 3144134277; 1013904242; 2773480762; 1359893119; 2600822924; 528734635; 1541459225].

(** The message schedule, newest word first, extended from 16 to 64 words. *)
Fixpoint schedule (n : nat) (w : list Z) : list Z :=
  match n with
  | O => w
  | S n =>
      let at_ i := nth i w 0 in
      schedule n (add32 (add32 (sigma1 (at_ 1%nat)) (at_ 6%nat))
                        (add32 (sigma0 (at_ 14%nat)) (at_ 15%nat)) :: w)
  end.

Definition round (s : list Z) (kw : Z * Z) : list Z :=
  match s with
  | [a; b; c; d; e; f; g; h] =>
      let t1 := add32 (add32 (add32 h (Sigma1 e)) (Ch e f g)) (add32 kw.1 kw.2) in
      let t2 := add32 (Sigma0 a) (Maj a b c) in
      [add32 t1 t2; a; b; c; add32 d t1; e; f; g]
  | _ => s
  end.

Definition compress (s : list Z) (block : list Z) : list Z :=
  zip_with add32 s (foldl round s (zip round_constants (reverse (schedule 48 (reverse block))))).

(** Big-endian words. *)
Fixpoint be_words (l : list byte) : list Z :=
  match l with
  | a :: b :: c :: d :: l =>
      (((byte_to_Z a * 256 + byte_to_Z b) * 256 + byte_to_Z c) * 256 + byte_to_Z d) :: be_words l
  | _ => []
  end.

Definition be_put (n : nat) (z : Z) : list byte := reverse (le_put n z).

(** The message, a one bit, zeros, and the bit length in eight bytes. *)
Definition pad_message (l : list byte) : list byte :=
  let len := Z.of_nat (length l) in
  l ++ x80 :: replicate (Z.to_nat ((55 - len) `mod` 64)) x00 ++ be_put 8 (len * 8).

Fixpoint blocks16 (n : nat) (w : list Z) : list (list Z) :=
  match n with
  | O => []
  | S n => take 16 w :: blocks16 n (drop 16 w)
  end.

Definition sha256 (l : list byte) : array 32 :=
  let w := be_words (pad_message l) in
  let s := foldl compress initial_state (blocks16 (length w / 16) w) in
  copy_into 32 (s ≫= be_put 4).

Definition of_text (s : string) : list byte :=
  map (λ c, byte_of_Z (Z.of_N (N_of_ascii c))) (String.list_ascii_of_string s).

Example sha256_empty :
  hex_encode (bytes (sha256 [])) =
  "e3b0c44298fc1c149afbf4c8996fb92427ae41e4649b934ca495991b7852b855"%string.
Proof. vm_compute. reflexivity. Qed.

Example sha256_abc :
  hex_encode (bytes (sha256 (of_text "abc"))) =
  "ba7816bf8f01cfea414140de5dae2223b00361a396177a9cb410ff61f20015ad"%string.
Proof. vm_compute. reflexivity. Qed.

Example sha256_two_blocks :
  hex_encode (bytes (sha256 (of_text "abcdbcdecdefdefgefghfghighijhijkijkljklmklmnlmnomnopnopq"))) =
  "248d6a61d20638b8e5c026930c3e6039a33ce45964ff2167f6ecedd419db06c1"%string.
Proof. vm_compute. reflexivity. Qed.
