(* ===== verification/Hash.v ===== *)
(** * Hashes, addresses and byte strings

    [internal/chain/hash.go] and [internal/chain/bytes.go]: the 32-byte
    sidechain hash, the mainchain hash that renders reversed, the 20-byte
    base58 address, and the byte strings a node renders in three ways. The
    base58 codec is a third-party package, so it is the interface [Base58];
    [Base58Laws] is its documented round trip. *)

From S2P Require Import Prelude GoStd Json Sha256.
Open Scope Z_scope.

(** ** The base58 package *)

Class Base58 := {
  base58_encode : list byte → string;
  base58_decode : string → option (list byte);
}.

Class Base58Laws `{!Base58} : Prop :=
  base58_decode_encode : ∀ l, base58_decode (base58_encode l) = Some l.

(** A stand-in codec for examples: two hex digits per byte. *)
Definition hex_base58 : Base58 :=
  {| base58_encode := hex_encode; base58_decode := hex_decode |}.

Lemma hex_base58_laws : @Base58Laws hex_base58.
Proof. intros l. apply hex_decode_encode. Qed.

(** ** Hash *)

Definition Hash := array 32.

Definition Hash_String (h : Hash) : string := hex_encode (bytes h).

(** [ParseHash] and the method [parse]. *)
Definition ParseHash (s : string) : result Hash :=
  raw ← of_option (Errorf "decode hash") (hex_decode s);
  of_option (Errorf "hash has the wrong length") (array_of 32 raw).

(** [Hash.UnmarshalJSON]. A [null] leaves the text empty. *)
Definition dec_Hash : decoder Hash := λ j _,
  s ← wrap "hash is not a string" (dec_string j EmptyString);
  ParseHash s.

Definition enc_Hash (h : Hash) : json := JStr (Hash_String h).

(** ** BitcoinHash

    The Go type has the same representation, and the source converts between
    the two with no change of bytes. *)

Definition BitcoinHash := array 32.

(** [flipped[31-i] = b] for every byte. *)
Definition flip_hash (h : array 32) : array 32 := copy_into 32 (reverse (bytes h)).

Definition BitcoinHash_String (h : BitcoinHash) : string := hex_encode (bytes (flip_hash h)).

(** The text half of [BitcoinHash.UnmarshalJSON]. *)
Definition parse_BitcoinHash (s : string) : result BitcoinHash :=
  raw ← of_option (Errorf "decode bitcoin hash") (hex_decode s);
  flipped ← of_option (Errorf "bitcoin hash has the wrong length") (array_of 32 raw);
  Ok (flip_hash flipped).

Definition dec_BitcoinHash : decoder BitcoinHash := λ j _,
  s ← wrap "bitcoin hash is not a string" (dec_string j EmptyString);
  parse_BitcoinHash s.

Definition enc_BitcoinHash (h : BitcoinHash) : json := JStr (BitcoinHash_String h).

(** ** Address *)

Definition Address := array 20.

Section address.
Context `{!Base58}.

Definition Address_String (a : Address) : string := base58_encode (bytes a).

Definition ParseAddress (s : string) : result Address :=
  raw ← of_option (Errorf "decode address") (base58_decode s);
  of_option (Errorf "address has the wrong length") (array_of 20 raw).

Definition dec_Address : decoder Address := λ j _,
  s ← wrap "address is not a string" (dec_string j EmptyString);
  ParseAddress s.

Definition enc_Address (a : Address) : json := JStr (Address_String a).
End address.

(** [Address.ScriptHash]: the sha256 of the 20 address bytes. *)
Definition ScriptHash (a : Address) : array 32 := sha256 (bytes a).

(** ** Bytes *)

Definition Bytes := list byte.

Definition Bytes_String (b : Bytes) : string := hex_encode b.
Definition enc_Bytes (b : Bytes) : json := JStr (Bytes_String b).

(** [decodeHex]: hex with or without a ["0x"] prefix. *)
Definition decodeHex (s : string) : option (list byte) := hex_decode (trim_prefix "0x" s).

(** [Bytes.UnmarshalJSON]: text is hex, anything else an array of numbers. *)
Definition dec_Bytes : decoder Bytes := λ j _,
  match j with
  | JStr s => of_option (Errorf "decode byte string") (decodeHex s)
  | _ => wrap "decode byte array" (dec_slice x00 dec_byte j [])
  end.

(** ** ByteString *)

Record ByteString := { bs_Bytes : Bytes; bs_Text : string }.

Definition ByteString_String (b : ByteString) : string :=
  match bs_Text b with EmptyString => Bytes_String (bs_Bytes b) | t => t end.

Definition enc_ByteString (b : ByteString) : json :=
  match bs_Text b with EmptyString => enc_Bytes (bs_Bytes b) | t => JStr t end.

(** [ByteString.UnmarshalJSON]: text that is not hex is the whole value. *)
Definition dec_ByteString : decoder ByteString := λ j _,
  match j with
  | JStr s =>
      match decodeHex s with
      | Some raw => Ok {| bs_Bytes := raw; bs_Text := s |}
      | None => Ok {| bs_Bytes := []; bs_Text := s |}
      end
  | _ => b ← dec_Bytes j []; Ok {| bs_Bytes := b; bs_Text := EmptyString |}
  end.

(** [Variant]: the one key an externally tagged enum writes. A variant with no
    field is a bare string and has no payload; so is [null], with an empty
    tag, because Go decodes [null] into a string without an error. *)
Definition Variant (raw : RawMessage) : result (string * RawMessage) :=
  match Unmarshal dec_string EmptyString raw with
  | Ok tag => Ok (tag, None)
  | Err _ =>
      obj ← wrap "read output content" (Unmarshal dec_raw_map ∅ raw);
      match map_to_list obj with
      | [(tag, payload)] => Ok (tag, Some payload)
      | _ => Err (Errorf "output content does not name one variant")
      end
  end.

(** ** Round trips *)

Lemma flip_hash_bytes h : bytes (flip_hash h) = reverse (bytes h).
Proof. apply bytes_copy_into. by rewrite length_reverse, array_length. Qed.

Lemma flip_hash_involutive h : flip_hash (flip_hash h) = h.
Proof. apply array_ext. by rewrite !flip_hash_bytes, reverse_involutive. Qed.

#[export] Instance flip_hash_inj : Inj (=) (=) flip_hash.
Proof. intros a b E. by rewrite <- (flip_hash_involutive a), E, flip_hash_involutive. Qed.

Lemma ParseHash_String h : ParseHash (Hash_String h) = Ok h.
Proof. unfold ParseHash, Hash_String. rewrite hex_decode_encode. cbn. by rewrite array_of_bytes. Qed.

(** A text parses only when it is 64 hex digits. *)
Lemma ParseHash_ok s h :
  ParseHash s = Ok h → hex_decode s = Some (bytes h) ∧ String.length s = 64%nat.
Proof.
  unfold ParseHash. intros H. inv_ok. apply array_of_Some in H as [<- Hl].
  split; [done|]. apply hex_decode_length in H0. by rewrite H0, array_length.
Qed.

Lemma parse_BitcoinHash_String h : parse_BitcoinHash (BitcoinHash_String h) = Ok h.
Proof.
  unfold parse_BitcoinHash, BitcoinHash_String. rewrite hex_decode_encode. cbn.
  rewrite array_of_bytes. cbn. by rewrite flip_hash_involutive.
Qed.

Lemma dec_enc_Hash h cur : dec_Hash (enc_Hash h) cur = Ok h.
Proof. apply ParseHash_String. Qed.

Lemma dec_enc_BitcoinHash h cur : dec_BitcoinHash (enc_BitcoinHash h) cur = Ok h.
Proof. apply parse_BitcoinHash_String. Qed.

Lemma dec_enc_Address `{Base58Laws} a cur : dec_Address (enc_Address a) cur = Ok a.
Proof.
  unfold dec_Address, enc_Address, ParseAddress, Address_String. cbn.
  rewrite base58_decode_encode. cbn. by rewrite array_of_bytes.
Qed.

(** Hex never starts with the ["0x"] prefix [decodeHex] trims, since [x] is no
    hex digit. *)
Lemma trim_prefix_hex l : trim_prefix "0x" (hex_encode l) = hex_encode l.
Proof.
  unfold trim_prefix. destruct (String.prefix _ _) eqn:E; [|done]. exfalso.
  pose proof (hex_encode_alphabet l) as Ha.
  destruct (hex_encode l) as [|c1 [|c2 s]]; cbn -[ascii_dec] in E; [done| |].
  - by destruct (ascii_dec "0" c1).
  - destruct (ascii_dec "0" c1), (ascii_dec "x" c2) as [<-|]; try done.
    destruct Ha as (_ & Ha & _). unfold is_hex_lower in Ha. cbn in Ha. lia.
Qed.

Lemma decodeHex_String b : decodeHex (Bytes_String b) = Some b.
Proof. unfold decodeHex, Bytes_String. by rewrite trim_prefix_hex, hex_decode_encode. Qed.

Lemma dec_enc_Bytes b cur : dec_Bytes (enc_Bytes b) cur = Ok b.
Proof. cbn. by rewrite decodeHex_String. Qed.

#[export] Hint Rewrite dec_enc_Hash dec_enc_BitcoinHash @dec_enc_Address dec_enc_Bytes : go.

(** A one-key object is read as its tag and payload. *)
Lemma Variant_object tag payload :
  Variant (Some (JObj [(tag, payload)])) = Ok (tag, Some payload).
Proof. unfold Variant. cbn. by rewrite insert_empty, map_to_list_singleton. Qed.
