(* ===== verification/OutPoint.v ===== *)
(** * Outpoints and inpoints

    [internal/chain/outpoint.go]: the five kinds of output, the 37-byte key the
    node and the index both use, the fields a market funds outpoint packs into
    its source, and the JSON forms. *)

From S2P Require Import Prelude GoStd Json Hash.
Open Scope Z_scope.

(** ** Kinds *)

Definition OutPointKind := Z.
Definition KindRegular : OutPointKind := 0.
Definition KindCoinbase : OutPointKind := 1.
Definition KindDeposit : OutPointKind := 2.
Definition KindMarketFunds : OutPointKind := 3.
Definition KindPayout : OutPointKind := 4.

Definition OutPointKind_String (k : OutPointKind) : string :=
  match k with
  | 0 => "regular"
  | 1 => "coinbase"
  | 2 => "deposit"
  | 3 => "market_funds"
  | 4 => "payout"
  | _ => "unknown(" +:+ fmt_d (uint8 k) +:+ ")"
  end.

(** ** OutPoint *)

Definition OutPointKeySize : nat := 37.
Definition OutPointKey := array OutPointKeySize.

Record OutPoint := MkOutPoint {
  Kind : OutPointKind;
  Source : Hash;
  Vout : Z;
}.

#[export] Instance OutPoint_eq_dec : EqDecision OutPoint.
Proof. solve_decision. Defined.

(** The Go types bound the fields: a [uint8] kind and a [uint32] vout. *)
Definition OutPoint_typed (o : OutPoint) : Prop := is_u8 (Kind o) ∧ is_u32 (Vout o).

#[export] Instance OutPoint_typed_dec o : Decision (OutPoint_typed o).
Proof. unfold OutPoint_typed; apply _. Defined.

(** [Key]: one discriminant byte, the source, a little-endian vout. *)
Definition Key (o : OutPoint) : OutPointKey :=
  copy_into OutPointKeySize (byte_of_Z (Kind o) :: bytes (Source o) ++ put_u32 (Vout o)).

(** [OutPointFromKey]. *)
Definition OutPointFromKey (key : OutPointKey) : result OutPoint :=
  let kind := byte_to_Z (nth 0 (bytes key) x00) in
  _ ← reject (KindPayout <? kind) (Errorf "outpoint key has unknown kind");
  Ok {| Kind := kind;
        Source := copy_into 32 (take 32 (drop 1 (bytes key)));
        Vout := get_u32 (drop 33 (bytes key)) |}.

(** [MarketFundsOutPoint]: market id, height and fee flag in the source. *)
Definition MarketFundsOutPoint (marketID : array 6) (blockHeight : Z) (isFee : bool) : OutPoint :=
  {| Kind := KindMarketFunds;
     Source := copy_into 32 (bytes marketID ++ put_u32 blockHeight ++ [if isFee then x01 else x00]);
     Vout := 0 |}.

(** [MarketFunds] reads them back. *)
Definition MarketFunds (o : OutPoint) : array 6 * Z * bool :=
  (copy_into 6 (take 6 (bytes (Source o))),
   get_u32 (drop 6 (bytes (Source o))),
   bool_decide (nth 10 (bytes (Source o)) x00 = x01)).

(** [sourceString]: a deposit source in mainchain byte order. *)
Definition sourceString (o : OutPoint) : string :=
  if Kind o =? KindDeposit then BitcoinHash_String (Source o) else Hash_String (Source o).

Definition fmt_t (b : bool) : string := if b then "true" else "false".

Definition OutPoint_String (o : OutPoint) : string :=
  if Kind o =? KindMarketFunds then
    let '(marketID, height, isFee) := MarketFunds o in
    OutPointKind_String (Kind o) +:+ " " +:+ hex_encode (bytes marketID) +:+ " " +:+
      fmt_d height +:+ " fee=" +:+ fmt_t isFee
  else
    OutPointKind_String (Kind o) +:+ " " +:+ sourceString o +:+ " " +:+ fmt_d (Vout o).

(** ** The key is a faithful encoding *)

Lemma Key_bytes o :
  bytes (Key o) = byte_of_Z (Kind o) :: bytes (Source o) ++ put_u32 (Vout o).
Proof.
  apply bytes_copy_into. cbn [length]. rewrite length_app, array_length.
  unfold put_u32. by rewrite le_put_length.
Qed.

Lemma OutPointFromKey_Key o :
  0 ≤ Kind o ≤ KindPayout → is_u32 (Vout o) → OutPointFromKey (Key o) = Ok o.
Proof.
  intros Hk Hv. unfold OutPointFromKey. rewrite Key_bytes. cbn [nth drop].
  rewrite byte_to_of_Z, Z.mod_small by (unfold KindPayout in *; lia).
  rewrite (proj2 (Z.ltb_ge _ _)) by lia. cbn [reject mbind result_bind].
  rewrite drop_0, take_app_le, take_ge by (by rewrite array_length).
  rewrite copy_into_bytes, drop_app_ge by (by rewrite array_length).
  rewrite array_length, drop_0, <- (app_nil_r (put_u32 _)), get_put_u32 by done.
  by destruct o.
Qed.

Lemma Key_inj o1 o2 : OutPoint_typed o1 → OutPoint_typed o2 → Key o1 = Key o2 → o1 = o2.
Proof.
  intros [Hk1 Hv1] [Hk2 Hv2] E. apply (f_equal bytes) in E. rewrite !Key_bytes in E.
  apply (inj2 cons) in E as [Ek E]. apply app_inj_1 in E as [Es Ev]; [|by rewrite !array_length].
  destruct o1 as [k1 s1 v1], o2 as [k2 s2 v2]; cbn [Kind Source Vout] in *. f_equal.
  - apply (f_equal byte_to_Z) in Ek. rewrite !byte_to_of_Z in Ek. width.
  - by apply array_ext.
  - rewrite <- (get_put_u32 v1 []), <- (get_put_u32 v2 []), Ev by done. done.
Qed.

Lemma Key_OutPointFromKey key o : OutPointFromKey key = Ok o → Key o = key.
Proof.
  unfold OutPointFromKey. intros H. inv_ok. apply array_ext. rewrite Key_bytes. cbn [Kind Source Vout].
  pose proof (array_length key) as Hl. destruct (bytes key) as [|b l]; [done|].
  cbn [nth]. rewrite byte_of_to_Z. f_equal. injection Hl as Hl.
  change (drop 1 (b :: l)) with (drop 0 l). change (drop 33 (b :: l)) with (drop 32 l).
  rewrite drop_0. rewrite bytes_copy_into by (rewrite length_take, Hl; done).
  rewrite <- (take_drop 32 l) at 3. f_equal. unfold get_u32, put_u32.
  assert (length (drop 32 l) = 4%nat) as Hd by (by rewrite length_drop, Hl).
  rewrite take_ge by lia. rewrite <- Hd at 1. apply le_put_get.
Qed.

(** A key that decodes has one of the five kinds. *)
Lemma OutPointFromKey_kind key o :
  OutPointFromKey key = Ok o → 0 ≤ Kind o ≤ KindPayout ∧ is_u32 (Vout o).
Proof.
  unfold OutPointFromKey. intros H. inv_ok. apply Z.ltb_ge in H0. cbn [Kind Vout].
  pose proof (byte_to_Z_range (nth 0 (bytes key) x00)).
  split; [lia | apply get_u32_range].
Qed.

(** ** Market funds packing *)

Lemma MarketFunds_bytes marketID h isFee :
  bytes (Source (MarketFundsOutPoint marketID h isFee)) =
  bytes marketID ++ put_u32 h ++ (if isFee then x01 else x00) :: replicate 21 x00.
Proof.
  unfold MarketFundsOutPoint. cbn [Source]. rewrite bytes_copy_into_pad. unfold pad.
  rewrite <- !app_assoc. pose proof (array_length marketID) as Hm.
  pose proof (le_put_length 4 h) as Hp. unfold put_u32.
  rewrite take_app_ge by lia. f_equal. rewrite take_app_ge by lia. f_equal.
  by rewrite Hm, Hp.
Qed.

Lemma MarketFunds_MarketFundsOutPoint marketID h isFee :
  is_u32 h → MarketFunds (MarketFundsOutPoint marketID h isFee) = (marketID, h, isFee).
Proof.
  intros Hh. unfold MarketFunds. rewrite MarketFunds_bytes.
  pose proof (array_length marketID) as Hm. pose proof (le_put_length 4 h) as Hp.
  rewrite take_app_le, take_ge by lia. rewrite copy_into_bytes.
  rewrite drop_app_ge by lia. rewrite Hm, drop_0, get_put_u32 by done.
  rewrite app_nth2, Hm by lia. unfold put_u32. rewrite app_nth2, Hp by lia.
  by destruct isFee.
Qed.

(** ** JSON: the wire structs *)

Record RegularWire := { rw_txid : Hash; rw_vout : Z }.
Record coinbaseOutPointWire := { cw_txid : option Hash; cw_merkle_root : option Hash; cw_vout : Z }.
Record payoutOutPointWire := { pw_hash : Hash; pw_vout : Z }.
Record marketFundsOutPointWire := { mw_market_id : array 6; mw_block_height : Z; mw_is_fee : bool }.

Record outPointWire := {
  w_Regular : option RegularWire;
  w_Coinbase : option coinbaseOutPointWire;
  w_Deposit : option string;
  w_MarketFunds : option marketFundsOutPointWire;
  w_Payout : option payoutOutPointWire;
}.

Definition zero_hash : Hash := zero_array 32.

Definition RegularWire_fields : fields RegularWire := [
  ("txid"%string, into rw_txid (λ x s, {| rw_txid := x; rw_vout := rw_vout s |}) dec_Hash);
  ("vout"%string, into rw_vout (λ x s, {| rw_txid := rw_txid s; rw_vout := x |}) (dec_uint 32))].

Definition coinbaseOutPointWire_fields : fields coinbaseOutPointWire := [
  ("txid"%string, into cw_txid
     (λ x s, {| cw_txid := x; cw_merkle_root := cw_merkle_root s; cw_vout := cw_vout s |})
     (dec_ptr zero_hash dec_Hash));
  ("merkle_root"%string, into cw_merkle_root
     (λ x s, {| cw_txid := cw_txid s; cw_merkle_root := x; cw_vout := cw_vout s |})
     (dec_ptr zero_hash dec_Hash));
  ("vout"%string, into cw_vout
     (λ x s, {| cw_txid := cw_txid s; cw_merkle_root := cw_merkle_root s; cw_vout := x |})
     (dec_uint 32))].

Definition payoutOutPointWire_fields : fields payoutOutPointWire := [
  ("hash"%string, into pw_hash (λ x s, {| pw_hash := x; pw_vout := pw_vout s |}) dec_Hash);
  ("vout"%string, into pw_vout (λ x s, {| pw_hash := pw_hash s; pw_vout := x |}) (dec_uint 32))].

Definition marketFundsOutPointWire_fields : fields marketFundsOutPointWire := [
  ("market_id"%string, into mw_market_id
     (λ x s, {| mw_market_id := x; mw_block_height := mw_block_height s; mw_is_fee := mw_is_fee s |})
     (dec_byte_array 6));
  ("block_height"%string, into mw_block_height
     (λ x s, {| mw_market_id := mw_market_id s; mw_block_height := x; mw_is_fee := mw_is_fee s |})
     (dec_uint 32));
  ("is_fee"%string, into mw_is_fee
     (λ x s, {| mw_market_id := mw_market_id s; mw_block_height := mw_block_height s; mw_is_fee := x |})
     dec_bool)].

Definition zero_RegularWire := {| rw_txid := zero_hash; rw_vout := 0 |}.
Definition zero_coinbaseOutPointWire :=
  {| cw_txid := None; cw_merkle_root := None; cw_vout := 0 |}.
Definition zero_payoutOutPointWire := {| pw_hash := zero_hash; pw_vout := 0 |}.
Definition zero_marketFundsOutPointWire :=
  {| mw_market_id := zero_array 6; mw_block_height := 0; mw_is_fee := false |}.
Definition zero_outPointWire :=
  {| w_Regular := None; w_Coinbase := None; w_Deposit := None; w_MarketFunds := None;
     w_Payout := None |}.

Definition outPointWire_fields : fields outPointWire := [
  ("Regular"%string, into w_Regular
     (λ x s, {| w_Regular := x; w_Coinbase := w_Coinbase s; w_Deposit := w_Deposit s;
                w_MarketFunds := w_MarketFunds s; w_Payout := w_Payout s |})
     (dec_ptr zero_RegularWire (dec_struct RegularWire_fields)));
  ("Coinbase"%string, into w_Coinbase
     (λ x s, {| w_Regular := w_Regular s; w_Coinbase := x; w_Deposit := w_Deposit s;
                w_MarketFunds := w_MarketFunds s; w_Payout := w_Payout s |})
     (dec_ptr zero_coinbaseOutPointWire (dec_struct coinbaseOutPointWire_fields)));
  ("Deposit"%string, into w_Deposit
     (λ x s, {| w_Regular := w_Regular s; w_Coinbase := w_Coinbase s; w_Deposit := x;
                w_MarketFunds := w_MarketFunds s; w_Payout := w_Payout s |})
     (dec_ptr EmptyString dec_string));
  ("MarketFunds"%string, into w_MarketFunds
     (λ x s, {| w_Regular := w_Regular s; w_Coinbase := w_Coinbase s; w_Deposit := w_Deposit s;
                w_MarketFunds := x; w_Payout := w_Payout s |})
     (dec_ptr zero_marketFundsOutPointWire (dec_struct marketFundsOutPointWire_fields)));
  ("Payout"%string, into w_Payout
     (λ x s, {| w_Regular := w_Regular s; w_Coinbase := w_Coinbase s; w_Deposit := w_Deposit s;
                w_MarketFunds := w_MarketFunds s; w_Payout := x |})
     (dec_ptr zero_payoutOutPointWire (dec_struct payoutOutPointWire_fields)))].

(** ** JSON: decoding *)

(** [coinbaseOutPointWire.source]: the txid, or else the older merkle root. *)
Definition coinbaseOutPointWire_source (w : coinbaseOutPointWire) : result Hash :=
  match cw_txid w, cw_merkle_root w with
  | Some h, _ => Ok h
  | None, Some h => Ok h
  | None, None => Err (Errorf "coinbase outpoint names neither a txid nor a merkle root")
  end.

(** [parseBitcoinOutPoint]: "txid:vout". The txid goes through the JSON decoder
    between two quotes. *)
Definition parseBitcoinOutPoint (text : string) : result OutPoint :=
  '(txidHex, voutText) ← of_option (Errorf "mainchain outpoint has no vout") (cut ":" text);
  vout ← of_option (Errorf "mainchain outpoint has a bad vout") (parse_uint 32 voutText);
  txid ← wrap "mainchain outpoint"
           (s ← of_option (Errorf "invalid character") (json_unquote txidHex);
            dec_BitcoinHash (JStr s) zero_hash);
  Ok {| Kind := KindDeposit; Source := txid; Vout := uint32 vout |}.

(** [OutPoint.UnmarshalJSON]: the first variant present, in this order. *)
Definition dec_OutPoint : decoder OutPoint := λ j _,
  w ← wrap "decode outpoint" (dec_struct outPointWire_fields j zero_outPointWire);
  match w with
  | {| w_Regular := Some r |} =>
      Ok {| Kind := KindRegular; Source := rw_txid r; Vout := rw_vout r |}
  | {| w_Coinbase := Some c |} =>
      source ← coinbaseOutPointWire_source c;
      Ok {| Kind := KindCoinbase; Source := source; Vout := cw_vout c |}
  | {| w_Deposit := Some text |} => parseBitcoinOutPoint text
  | {| w_MarketFunds := Some m |} =>
      Ok (MarketFundsOutPoint (mw_market_id m) (mw_block_height m) (mw_is_fee m))
  | {| w_Payout := Some p |} =>
      Ok {| Kind := KindPayout; Source := pw_hash p; Vout := pw_vout p |}
  | _ => Err (Errorf "outpoint names no known variant")
  end.

(** ** JSON: encoding *)

Definition enc_uint (z : Z) : json := JNum (fmt_d z).
Definition enc_byte_array {n} (a : array n) : json :=
  JArr ((λ b, enc_uint (byte_to_Z b)) <$> bytes a).

(** [OutPoint.MarshalJSON]. *)
Definition enc_OutPoint (o : OutPoint) : result json :=
  match Kind o with
  | 0 => Ok (JObj [("Regular"%string,
               JObj [("txid"%string, enc_Hash (Source o)); ("vout"%string, enc_uint (Vout o))])])
  | 1 => Ok (JObj [("Coinbase"%string,
               JObj [("txid"%string, enc_Hash (Source o)); ("vout"%string, enc_uint (Vout o))])])
  | 2 => Ok (JObj [("Deposit"%string,
               JStr (BitcoinHash_String (Source o) +:+ ":" +:+ fmt_d (Vout o)))])
  | 3 =>
      let '(marketID, height, isFee) := MarketFunds o in
      Ok (JObj [("MarketFunds"%string,
            JObj [("market_id"%string, enc_byte_array marketID);
                  ("block_height"%string, enc_uint height);
                  ("is_fee"%string, JBool isFee)])])
  | 4 => Ok (JObj [("Payout"%string,
               JObj [("hash"%string, enc_Hash (Source o)); ("vout"%string, enc_uint (Vout o))])])
  | _ => Err (Errorf "cannot encode outpoint of this kind")
  end.

(** ** JSON: the round trip *)

Lemma dec_enc_uint bits z cur : 0 ≤ z < 2 ^ bits → dec_uint bits (enc_uint z) cur = Ok z.
Proof. intros Hz. cbn. by rewrite parse_uint_fmt_d. Qed.

Lemma dec_enc_byte b cur : dec_byte (enc_uint (byte_to_Z b)) cur = Ok b.
Proof.
  unfold dec_byte. rewrite dec_enc_uint by apply byte_to_Z_range. cbn.
  by rewrite byte_of_to_Z.
Qed.

Lemma dec_enc_byte_array {n} (a cur : array n) :
  dec_byte_array n (enc_byte_array a) cur = Ok a.
Proof.
  unfold dec_byte_array, enc_byte_array.
  rewrite take_ge by (rewrite length_fmap, array_length; lia).
  assert (traverse (λ _ x, dec_byte x x00) ((λ b, enc_uint (byte_to_Z b)) <$> bytes a) = Ok (bytes a)) as ->.
  { apply traverse_ok. rewrite length_fmap. split; [done|]. intros i x.
    rewrite list_lookup_fmap. intros (b & Hb & ->)%fmap_Some.
    exists b. split; [done | apply dec_enc_byte]. }
  cbn. by rewrite copy_into_bytes.
Qed.

Lemma parseBitcoinOutPoint_text h v :
  is_u32 v →
  parseBitcoinOutPoint (BitcoinHash_String h +:+ ":" +:+ fmt_d v) =
  Ok {| Kind := KindDeposit; Source := h; Vout := v |}.
Proof.
  intros Hv. unfold parseBitcoinOutPoint.
  change (":" +:+ fmt_d v)%string with (String ":" (fmt_d v)).
  rewrite cut_app.
  2:{ eapply string_Forall_impl; [|apply hex_encode_alphabet].
      intros c Hc ->. unfold is_hex_lower in Hc. cbn in Hc. lia. }
  cbn [of_option mbind result_bind]. rewrite parse_uint_fmt_d by apply Hv.
  cbn [of_option mbind result_bind]. unfold BitcoinHash_String at 1. rewrite json_unquote_hex.
  cbn [of_option mbind result_bind dec_BitcoinHash dec_string wrap].
  change (hex_encode (bytes (flip_hash h))) with (BitcoinHash_String h).
  rewrite parse_BitcoinHash_String. cbn. by rewrite uint32_small.
Qed.

(** A market funds outpoint the node can name: its source is packed from the
    fields, so the padding is zero. *)
Definition market_packed (o : OutPoint) : Prop :=
  ∃ m h f, is_u32 h ∧ o = MarketFundsOutPoint m h f.

Lemma dec_ptr_enc_Hash z h cur : dec_ptr z dec_Hash (enc_Hash h) cur = Ok (Some h).
Proof.
  change (dec_ptr z dec_Hash (enc_Hash h) cur)
    with (x ← dec_Hash (enc_Hash h) (default z cur); Ok (Some x)).
  by rewrite dec_enc_Hash.
Qed.

(** Runs the struct decoder and keeps the leaf codecs folded. *)
Ltac wire :=
  cbn -[enc_uint dec_uint enc_Hash dec_Hash parseBitcoinOutPoint BitcoinHash_String MarketFunds
        dec_byte_array enc_byte_array MarketFundsOutPoint fmt_d String.append zero_hash];
  unfold into;
  rewrite ?dec_ptr_enc_Hash, ?dec_enc_Hash, ?dec_enc_byte_array, ?dec_enc_uint by assumption.

Lemma enc_OutPoint_kind o j : enc_OutPoint o = Ok j → 0 ≤ Kind o ≤ KindPayout.
Proof.
  destruct o as [k s v]. unfold enc_OutPoint, KindPayout. cbn [Kind Source Vout].
  intros H. destruct k as [|p|p]; [lia | | done].
  repeat (destruct p as [p|p|]; try discriminate H; try lia).
Qed.

Lemma OutPoint_json o j cur :
  is_u32 (Vout o) → (Kind o = KindMarketFunds → market_packed o) →
  enc_OutPoint o = Ok j → dec_OutPoint j cur = Ok o.
Proof.
  intros Hv Hm Hj. pose proof (enc_OutPoint_kind _ _ Hj) as Hk.
  destruct o as [k s v]. cbn [Kind Source Vout] in *. unfold enc_OutPoint, KindPayout in *.
  assert (k = 0 ∨ k = 1 ∨ k = 2 ∨ k = 3 ∨ k = 4) as Hc by lia.
  destruct Hc as [-> | [-> | [-> | [-> | ->]]]]; cbn [Kind Source Vout] in Hj.
  4:{ destruct (Hm eq_refl) as (m & h & f & Hh & E). rewrite E in *.
      rewrite MarketFunds_MarketFundsOutPoint in Hj by done. injection Hj as <-.
      unfold dec_OutPoint. by do 3 wire. }
  all: injection Hj as <-; unfold dec_OutPoint; do 3 wire; try done.
  by apply parseBitcoinOutPoint_text.
Qed.

(** ** Inpoints *)

Definition InPointKind := Z.
Definition SpendRegular : InPointKind := 0.
Definition SpendWithdrawal : InPointKind := 1.
Definition SpendMarket : InPointKind := 2.

Definition InPointKind_String (k : InPointKind) : string :=
  match k with
  | 0 => "regular"
  | 1 => "withdrawal"
  | 2 => "market"
  | _ => "unknown(" +:+ fmt_d (uint8 k) +:+ ")"
  end.

Record InPoint := { ip_Kind : InPointKind; ip_Source : Hash; ip_Vin : Z }.

Record inPointWire := {
  iw_Regular : option RegularWire;
  iw_Withdrawal : option BitcoinHash;
}.

Definition inRegularWire_fields : fields RegularWire := [
  ("txid"%string, into rw_txid (λ x s, {| rw_txid := x; rw_vout := rw_vout s |}) dec_Hash);
  ("vin"%string, into rw_vout (λ x s, {| rw_txid := rw_txid s; rw_vout := x |}) (dec_uint 32))].

Definition inPointWire_fields : fields inPointWire := [
  ("Regular"%string, into iw_Regular
     (λ x s, {| iw_Regular := x; iw_Withdrawal := iw_Withdrawal s |})
     (dec_ptr zero_RegularWire (dec_struct inRegularWire_fields)));
  ("Withdrawal"%string, into iw_Withdrawal
     (λ x s, {| iw_Regular := iw_Regular s; iw_Withdrawal := x |})
     (dec_ptr zero_hash (dec_struct [("m6id"%string, dec_BitcoinHash)])))].

(** [InPoint.UnmarshalJSON]: a bundle spend has no input position. *)
Definition dec_InPoint : decoder InPoint := λ j _,
  w ← wrap "decode inpoint"
        (dec_struct inPointWire_fields j {| iw_Regular := None; iw_Withdrawal := None |});
  match w with
  | {| iw_Regular := Some r |} =>
      Ok {| ip_Kind := SpendRegular; ip_Source := rw_txid r; ip_Vin := rw_vout r |}
  | {| iw_Withdrawal := Some m6id |} =>
      Ok {| ip_Kind := SpendWithdrawal; ip_Source := m6id; ip_Vin := 0 |}
  | _ => Err (Errorf "inpoint names no known variant")
  end.
