(* ===== verification/Block.v ===== *)
(** * Blocks as the node writes them

    [internal/chain/block.go]: headers, bodies, the two shapes of an input and
    of a coinbase, the coinbase txid, the authorizations of one transaction,
    and the block index that carries what a body does not. The blake3 digest is
    a third-party package, so it is the interface [Blake3]. *)

From S2P Require Import Prelude GoStd Json Hash OutPoint.
Open Scope Z_scope.

Class Blake3 := blake3_sum256 : list byte → array 32.

(** ** Data *)

Record Header := {
  MerkleRoot : Hash;
  PrevSideHash : option Hash;
  PrevMainHash : BitcoinHash;
}.

Record Output := { out_Address : Address; out_Content : RawMessage }.
Record Input := { in_OutPoint : OutPoint; in_LeafHash : Bytes }.
Record Authorization := { VerifyingKey : ByteString; Signature : ByteString }.
Record Transaction := { Inputs : list Input; Outputs : list Output }.

Record Coinbase := {
  cb_Memo : Bytes;
  cb_Outputs : list Output;
  cb_KeyedByTxid : bool;
}.

Record Body := {
  body_Coinbase : Coinbase;
  Transactions : list Transaction;
  Authorizations : list Authorization;
}.

Record Block := { blk_Header : Header; blk_Body : Body }.

Record TxInfo := { ti_Txid : Hash; ti_Size : Z; ti_Raw : Bytes; ti_Skipped : bool }.
(** The Go struct embeds [TxInfo]. *)
Record MempoolTx := { mt_Info : TxInfo; mt_Tx : Transaction }.

Record Deposit := { dep_OutPoint : OutPoint; dep_Output : Output }.
Record BundleSpend := { bun_OutPoint : OutPoint; bun_M6id : BitcoinHash }.
Record MarketUtxo := { mkt_OutPoint : OutPoint; mkt_Output : Output; mkt_Reason : string }.

Record BlockIndex := {
  bi_Txs : list TxInfo;
  bi_Deposits : list Deposit;
  bi_BundleSpends : list BundleSpend;
  bi_MarketCreates : list MarketUtxo;
  bi_MarketDeletes : list MarketUtxo;
}.

Record Content := { ValueSats : Z; Type_ : string }.

(** ** The decoder interface

    [chain.Decoder]: what one sidechain promises to the index. Its law is what
    the index relies on: a decoded value is an amount that fits an [int64]. *)

Class Decoder := {
  decoder_Name : string;
  DecodeContent : RawMessage → result Content;
}.

Class DecoderLaws (D : Decoder) : Prop :=
  decode_in_range : ∀ raw c, DecodeContent raw = Ok c → 0 ≤ ValueSats c ≤ MaxInt64.

(** ** The coinbase txid *)

(** The borsh bytes [CoinbaseTxid] hashes. *)
Definition coinbase_encoding (header : Header) : list byte :=
  bytes (MerkleRoot header) ++ bytes (PrevMainHash header) ++
  match PrevSideHash header with
  | None => [x00]
  | Some prev => x01 :: bytes prev
  end.

Section coinbase.
Context `{!Blake3}.

Definition CoinbaseTxid (header : Header) : Hash := blake3_sum256 (coinbase_encoding header).

(** [Block.CoinbaseSource]. *)
Definition CoinbaseSource (b : Block) : Hash :=
  if cb_KeyedByTxid (body_Coinbase (blk_Body b)) then CoinbaseTxid (blk_Header b)
  else MerkleRoot (blk_Header b).
End coinbase.

Lemma coinbase_encoding_inj h1 h2 : coinbase_encoding h1 = coinbase_encoding h2 → h1 = h2.
Proof.
  unfold coinbase_encoding. intros E.
  apply app_inj_1 in E as [Em E]; [|by rewrite !array_length].
  apply app_inj_1 in E as [Ep E]; [|by rewrite !array_length].
  destruct h1 as [m1 s1 p1], h2 as [m2 s2 p2]; cbn in *.
  apply array_ext in Em as ->, Ep as ->. f_equal.
  destruct s1 as [s1|], s2 as [s2|]; try done.
  injection E as E. f_equal. by apply array_ext.
Qed.

(** ** Authorizations *)

Definition count_inputs (txs : list Transaction) : nat :=
  foldl (λ n tx, n + length (Inputs tx))%nat 0%nat txs.

(** [Body.AuthorizationsFor]: the flat list holds one signature per input, in
    transaction order. *)
Definition AuthorizationsFor (b : Body) (txIndex : Z) : result (list Authorization) :=
  _ ← reject (bool_decide (txIndex < 0) || bool_decide (Z.of_nat (length (Transactions b)) <= txIndex))
        (Errorf "transaction index is outside the body");
  let i := Z.to_nat txIndex in
  let start := count_inputs (take i (Transactions b)) in
  tx ← of_option (Errorf "index out of range") (Transactions b !! i);
  let end_ := (start + length (Inputs tx))%nat in
  _ ← reject (bool_decide (length (Authorizations b) < end_)%nat)
        (Errorf "body has too few authorizations");
  Ok (take (end_ - start) (drop start (Authorizations b))).

Lemma foldl_count_add txs n :
  foldl (λ n tx, n + length (Inputs tx))%nat n txs = (n + count_inputs txs)%nat.
Proof.
  unfold count_inputs. revert n; induction txs as [|tx txs IH]; intros n; cbn; [lia|].
  rewrite IH, (IH (length (Inputs tx))). lia.
Qed.

Lemma count_inputs_app l1 l2 :
  count_inputs (l1 ++ l2) = (count_inputs l1 + count_inputs l2)%nat.
Proof. unfold count_inputs at 1. rewrite foldl_app, foldl_count_add. done. Qed.

Lemma count_inputs_cons tx l :
  count_inputs (tx :: l) = (length (Inputs tx) + count_inputs l)%nat.
Proof. unfold count_inputs at 1. cbn. by rewrite foldl_count_add. Qed.

Lemma AuthorizationsFor_ok b i tx :
  Transactions b !! i = Some tx →
  (count_inputs (take (S i) (Transactions b)) ≤ length (Authorizations b))%nat →
  AuthorizationsFor b (Z.of_nat i) =
    Ok (take (length (Inputs tx)) (drop (count_inputs (take i (Transactions b))) (Authorizations b))).
Proof.
  intros Htx Hlen. unfold AuthorizationsFor.
  pose proof (lookup_lt_Some _ _ _ Htx).
  rewrite bool_decide_false, bool_decide_false by lia. cbn [reject orb mbind result_bind].
  rewrite Nat2Z.id, Htx. cbn [of_option mbind result_bind].
  rewrite (take_S_r _ _ _ Htx), count_inputs_app in Hlen. cbn in Hlen.
  rewrite bool_decide_false by lia. cbn [reject mbind result_bind].
  do 2 f_equal. lia.
Qed.

(** The signatures of the transactions of a body, one list per transaction, are
    a partition of the flat list. *)
Lemma authorizations_concat (auths : list Authorization) txs k :
  (k + count_inputs txs ≤ length auths)%nat →
  concat (imap (λ i tx, take (length (Inputs tx)) (drop (k + count_inputs (take i txs)) auths)) txs)
  = take (count_inputs txs) (drop k auths).
Proof.
  revert k; induction txs as [|tx txs IH]; intros k Hlen; [done|].
  rewrite count_inputs_cons in Hlen. cbn [imap concat take].
  rewrite count_inputs_cons, Nat.add_0_r.
  rewrite (imap_ext _ (λ i tx0, take (length (Inputs tx0))
    (drop ((k + length (Inputs tx)) + count_inputs (take i txs)) auths))).
  2:{ intros i x _. unfold compose. cbn [firstn]. rewrite count_inputs_cons.
      by rewrite Nat.add_assoc. }
  rewrite IH by lia. rewrite <- take_take_drop. by rewrite drop_drop.
Qed.

Lemma authorizations_partition b :
  (count_inputs (Transactions b) ≤ length (Authorizations b))%nat →
  ∃ parts,
    traverse (λ i _, AuthorizationsFor b (Z.of_nat i)) (Transactions b) = Ok parts ∧
    concat parts = take (count_inputs (Transactions b)) (Authorizations b) ∧
    ∀ i tx part, Transactions b !! i = Some tx → parts !! i = Some part →
                 length part = length (Inputs tx).
Proof.
  intros Hlen.
  assert (∀ i, (count_inputs (take i (Transactions b)) ≤ length (Authorizations b))%nat) as Hpre.
  { intros i. rewrite <- (take_drop i (Transactions b)), count_inputs_app in Hlen. lia. }
  exists (imap (λ i tx, take (length (Inputs tx))
    (drop (0 + count_inputs (take i (Transactions b))) (Authorizations b))) (Transactions b)).
  split; [|split].
  - apply traverse_ok. rewrite length_imap. split; [done|]. intros i tx Htx.
    rewrite list_lookup_imap, Htx. eexists; split; [done|].
    by rewrite (AuthorizationsFor_ok _ _ _ Htx) by apply Hpre.
  - by rewrite authorizations_concat, drop_0.
  - intros i tx part Htx. rewrite list_lookup_imap, Htx. intros [= <-].
    rewrite length_take, length_drop.
    specialize (Hpre (S i)). rewrite (take_S_r _ _ _ Htx), count_inputs_app in Hpre.
    cbn in Hpre |- *. lia.
Qed.

(** ** JSON *)

Definition zero_OutPoint : OutPoint := {| Kind := 0; Source := zero_hash; Vout := 0 |}.
Definition zero_address : Address := zero_array 20.
Definition zero_Output := {| out_Address := zero_address; out_Content := None |}.
Definition zero_Input := {| in_OutPoint := zero_OutPoint; in_LeafHash := [] |}.
Definition zero_Transaction := {| Inputs := []; Outputs := [] |}.
Definition zero_Coinbase := {| cb_Memo := []; cb_Outputs := []; cb_KeyedByTxid := false |}.
Definition zero_Header : Header := {| MerkleRoot := zero_hash; PrevSideHash := None; PrevMainHash := zero_hash |}.
Definition zero_Body : Body := {| body_Coinbase := zero_Coinbase; Transactions := []; Authorizations := [] |}.
Definition zero_Block : Block := {| blk_Header := zero_Header; blk_Body := zero_Body |}.
Definition zero_ByteString := {| bs_Bytes := []; bs_Text := EmptyString |}.
Definition zero_Authorization :=
  {| VerifyingKey := zero_ByteString; Signature := zero_ByteString |}.

(** [decodePair]: a two element array into two values. *)
Definition decodePair {A B} (first : decoder A) (second : decoder B) (a : A) (b : B) (j : json)
    : result (A * B) :=
  pair ← wrap "decode pair" (dec_slice None dec_raw j []);
  match pair with
  | [p0; p1] =>
      x ← wrap "decode outpoint" (Unmarshal first a p0);
      y ← wrap "decode value" (Unmarshal second b p1);
      Ok (x, y)
  | _ => Err (Errorf "pair has the wrong length")
  end.

(** [Input.UnmarshalJSON]: an array is the pair with a leaf hash, anything else
    the outpoint alone. *)
Definition dec_Input : decoder Input := λ j i,
  match j with
  | JArr _ =>
      '(o, leaf) ← decodePair dec_OutPoint dec_Bytes (in_OutPoint i) (in_LeafHash i) j;
      Ok {| in_OutPoint := o; in_LeafHash := leaf |}
  | _ =>
      o ← wrap "decode input outpoint" (dec_OutPoint j (in_OutPoint i));
      Ok {| in_OutPoint := o; in_LeafHash := [] |}
  end.

(** [Input.MarshalJSON]. *)
Definition enc_Input (i : Input) : result json :=
  match in_LeafHash i with
  | [] => enc_OutPoint (in_OutPoint i)
  | leaf => o ← enc_OutPoint (in_OutPoint i); Ok (JArr [o; enc_Bytes leaf])
  end.

Section json.
Context `{!Base58}.

Definition dec_Output : decoder Output := dec_struct [
  ("address"%string, into out_Address
     (λ x s, {| out_Address := x; out_Content := out_Content s |}) dec_Address);
  ("content"%string, into out_Content
     (λ x s, {| out_Address := out_Address s; out_Content := x |}) dec_raw)].

(** A nil [RawMessage] renders as [null]. *)
Definition enc_raw (raw : RawMessage) : json := default JNull raw.

Definition enc_Output (o : Output) : json :=
  JObj [("address"%string, enc_Address (out_Address o));
        ("content"%string, enc_raw (out_Content o))].

Definition dec_outputs : decoder (list Output) := dec_slice zero_Output dec_Output.

(** [Coinbase.UnmarshalJSON]: a bare list is the older form; the object form
    keys its outputs on the coinbase txid. *)
Definition dec_Coinbase : decoder Coinbase := λ j _,
  match j with
  | JArr _ =>
      outs ← wrap "decode coinbase outputs" (dec_outputs j []);
      Ok {| cb_Memo := []; cb_Outputs := outs; cb_KeyedByTxid := false |}
  | _ =>
      '(memo, outs) ← wrap "decode coinbase"
        (dec_struct [
           ("memo"%string, into fst (λ x s, (x, snd s)) dec_Bytes);
           ("outputs"%string, into snd (λ x s, (fst s, x)) dec_outputs)] j ([], []));
      Ok {| cb_Memo := memo; cb_Outputs := outs; cb_KeyedByTxid := true |}
  end.

(** [Coinbase.MarshalJSON]. *)
Definition enc_Coinbase (c : Coinbase) : json :=
  let outputs := JArr (enc_Output <$> cb_Outputs c) in
  if cb_KeyedByTxid c
  then JObj [("memo"%string, enc_Bytes (cb_Memo c)); ("outputs"%string, outputs)]
  else outputs.

Definition dec_Transaction : decoder Transaction := dec_struct [
  ("inputs"%string, into Inputs (λ x s, {| Inputs := x; Outputs := Outputs s |})
     (dec_slice zero_Input dec_Input));
  ("outputs"%string, into Outputs (λ x s, {| Inputs := Inputs s; Outputs := x |}) dec_outputs)].

Definition dec_Authorization : decoder Authorization := dec_struct [
  ("verifying_key"%string, into VerifyingKey
     (λ x s, {| VerifyingKey := x; Signature := Signature s |}) dec_ByteString);
  ("signature"%string, into Signature
     (λ x s, {| VerifyingKey := VerifyingKey s; Signature := x |}) dec_ByteString)].

Definition dec_Header : decoder Header := dec_struct [
  ("merkle_root"%string, into MerkleRoot
     (λ x s, {| MerkleRoot := x; PrevSideHash := PrevSideHash s; PrevMainHash := PrevMainHash s |})
     dec_Hash);
  ("prev_side_hash"%string, into PrevSideHash
     (λ x s, {| MerkleRoot := MerkleRoot s; PrevSideHash := x; PrevMainHash := PrevMainHash s |})
     (dec_ptr zero_hash dec_Hash));
  ("prev_main_hash"%string, into PrevMainHash
     (λ x s, {| MerkleRoot := MerkleRoot s; PrevSideHash := PrevSideHash s; PrevMainHash := x |})
     dec_BitcoinHash)].

Definition dec_Body : decoder Body := dec_struct [
  ("coinbase"%string, into body_Coinbase
     (λ x s, {| body_Coinbase := x; Transactions := Transactions s;
                Authorizations := Authorizations s |}) dec_Coinbase);
  ("transactions"%string, into Transactions
     (λ x s, {| body_Coinbase := body_Coinbase s; Transactions := x;
                Authorizations := Authorizations s |}) (dec_slice zero_Transaction dec_Transaction));
  ("authorizations"%string, into Authorizations
     (λ x s, {| body_Coinbase := body_Coinbase s; Transactions := Transactions s;
                Authorizations := x |}) (dec_slice zero_Authorization dec_Authorization))].

Definition dec_Block : decoder Block := dec_struct [
  ("header"%string, into blk_Header
     (λ x s, {| blk_Header := x; blk_Body := blk_Body s |}) dec_Header);
  ("body"%string, into blk_Body
     (λ x s, {| blk_Header := blk_Header s; blk_Body := x |}) dec_Body)].
End json.

(** ** JSON round trips *)

Definition Input_wf (i : Input) : Prop :=
  is_u32 (Vout (in_OutPoint i)) ∧
  (Kind (in_OutPoint i) = KindMarketFunds → market_packed (in_OutPoint i)).

Lemma enc_OutPoint_object o j : enc_OutPoint o = Ok j → ∃ m, j = JObj m.
Proof.
  unfold enc_OutPoint. destruct (MarketFunds o) as [[? ?] ?].
  repeat case_match; intros [= <-]; eauto.
Qed.

Lemma dec_enc_Input i j cur : Input_wf i → enc_Input i = Ok j → dec_Input j cur = Ok i.
Proof.
  intros [Hv Hm] Hj. destruct i as [o leaf]. unfold enc_Input in Hj. cbn [in_OutPoint in_LeafHash] in *.
  destruct leaf as [|b leaf].
  - pose proof (OutPoint_json o j (in_OutPoint cur) Hv Hm Hj) as Ho.
    destruct (enc_OutPoint_object _ _ Hj) as [m ->]. unfold dec_Input. by rewrite Ho.
  - inv_ok. pose proof (OutPoint_json o x (in_OutPoint cur) Hv Hm H) as Ho.
    unfold dec_Input, decodePair. cbn -[dec_OutPoint dec_Bytes enc_Bytes].
    rewrite Ho. cbn -[dec_Bytes enc_Bytes]. by rewrite dec_enc_Bytes.
Qed.

Section coinbase_json.
Context `{Base58Laws}.

Definition Output_wf (o : Output) : Prop := is_Some (out_Content o).

Lemma dec_enc_Output o cur : Output_wf o → dec_Output (enc_Output o) cur = Ok o.
Proof.
  destruct o as [a [c|]]; intros [? [=]]. unfold dec_Output.
  cbn -[dec_Address enc_Address]. unfold into. cbn -[dec_Address enc_Address].
  by rewrite dec_enc_Address.
Qed.

Lemma dec_enc_outputs l cur :
  Forall Output_wf l → dec_outputs (JArr (enc_Output <$> l)) cur = Ok l.
Proof.
  intros Hl. apply traverse_ok. rewrite length_fmap. split; [done|]. intros i x.
  rewrite list_lookup_fmap. intros (o & Ho & ->)%fmap_Some. exists o. split; [done|].
  apply dec_enc_Output. by eapply Forall_lookup in Hl.
Qed.

(** Both coinbase shapes survive a round trip; the older one has no memo. *)
Lemma dec_enc_Coinbase c cur :
  Forall Output_wf (cb_Outputs c) → (cb_KeyedByTxid c = false → cb_Memo c = []) →
  dec_Coinbase (enc_Coinbase c) cur = Ok c.
Proof.
  intros Ho Hm. destruct c as [memo outs keyed]. cbn [cb_Outputs cb_Memo cb_KeyedByTxid] in *.
  unfold dec_Coinbase, enc_Coinbase. cbn [cb_Outputs cb_Memo cb_KeyedByTxid]. destruct keyed.
  - cbn -[dec_outputs dec_Bytes enc_Bytes]. unfold into.
    rewrite dec_enc_Bytes. cbn -[dec_outputs]. by rewrite dec_enc_outputs.
  - rewrite dec_enc_outputs by done. cbn. by rewrite Hm.
Qed.
End coinbase_json.
