(* ===== verification/BlockIndex.v ===== *)
(** * The block index, as the node sends it

    [get_block_index] and [list_mempool] answer what a block body does not
    carry. These are the JSON targets of [internal/chain/block.go] for them, and
    the fact that every outpoint they hand out fits its Go types, which the
    index relies on for its keys. *)

From S2P Require Import Prelude GoStd Json Hash OutPoint Block.
Open Scope Z_scope.

(** ** Targets *)

Definition zero_TxInfo : TxInfo :=
  {| ti_Txid := zero_hash; ti_Size := 0; ti_Raw := []; ti_Skipped := false |}.
Definition zero_Deposit : Deposit :=
  {| dep_OutPoint := zero_OutPoint; dep_Output := zero_Output |}.
Definition zero_BundleSpend : BundleSpend :=
  {| bun_OutPoint := zero_OutPoint; bun_M6id := zero_hash |}.
Definition zero_MarketUtxo : MarketUtxo :=
  {| mkt_OutPoint := zero_OutPoint; mkt_Output := zero_Output; mkt_Reason := EmptyString |}.
Definition zero_BlockIndex : BlockIndex :=
  {| bi_Txs := []; bi_Deposits := []; bi_BundleSpends := []; bi_MarketCreates := [];
     bi_MarketDeletes := [] |}.
Definition zero_MempoolTx : MempoolTx := {| mt_Info := zero_TxInfo; mt_Tx := zero_Transaction |}.

Definition TxInfo_fields : fields TxInfo := [
  ("txid"%string, into ti_Txid
     (λ x s, {| ti_Txid := x; ti_Size := ti_Size s; ti_Raw := ti_Raw s; ti_Skipped := ti_Skipped s |})
     dec_Hash);
  ("size"%string, into ti_Size
     (λ x s, {| ti_Txid := ti_Txid s; ti_Size := x; ti_Raw := ti_Raw s; ti_Skipped := ti_Skipped s |})
     (dec_uint 64));
  ("raw"%string, into ti_Raw
     (λ x s, {| ti_Txid := ti_Txid s; ti_Size := ti_Size s; ti_Raw := x; ti_Skipped := ti_Skipped s |})
     dec_Bytes);
  ("skipped"%string, into ti_Skipped
     (λ x s, {| ti_Txid := ti_Txid s; ti_Size := ti_Size s; ti_Raw := ti_Raw s; ti_Skipped := x |})
     dec_bool)].

Definition dec_TxInfo : decoder TxInfo := dec_struct TxInfo_fields.

Section targets.
Context `{!Base58}.

Definition dec_Deposit : decoder Deposit := dec_struct [
  ("outpoint"%string, into dep_OutPoint
     (λ x s, {| dep_OutPoint := x; dep_Output := dep_Output s |}) dec_OutPoint);
  ("output"%string, into dep_Output
     (λ x s, {| dep_OutPoint := dep_OutPoint s; dep_Output := x |}) dec_Output)].

Definition dec_BundleSpend : decoder BundleSpend := dec_struct [
  ("outpoint"%string, into bun_OutPoint
     (λ x s, {| bun_OutPoint := x; bun_M6id := bun_M6id s |}) dec_OutPoint);
  ("m6id"%string, into bun_M6id
     (λ x s, {| bun_OutPoint := bun_OutPoint s; bun_M6id := x |}) dec_BitcoinHash)].

Definition dec_MarketUtxo : decoder MarketUtxo := dec_struct [
  ("outpoint"%string, into mkt_OutPoint
     (λ x s, {| mkt_OutPoint := x; mkt_Output := mkt_Output s; mkt_Reason := mkt_Reason s |})
     dec_OutPoint);
  ("output"%string, into mkt_Output
     (λ x s, {| mkt_OutPoint := mkt_OutPoint s; mkt_Output := x; mkt_Reason := mkt_Reason s |})
     dec_Output);
  ("reason"%string, into mkt_Reason
     (λ x s, {| mkt_OutPoint := mkt_OutPoint s; mkt_Output := mkt_Output s; mkt_Reason := x |})
     dec_string)].

Definition dec_BlockIndex : decoder BlockIndex := dec_struct [
  ("txs"%string, into bi_Txs
     (λ x s, {| bi_Txs := x; bi_Deposits := bi_Deposits s; bi_BundleSpends := bi_BundleSpends s;
                bi_MarketCreates := bi_MarketCreates s; bi_MarketDeletes := bi_MarketDeletes s |})
     (dec_slice zero_TxInfo dec_TxInfo));
  ("deposits"%string, into bi_Deposits
     (λ x s, {| bi_Txs := bi_Txs s; bi_Deposits := x; bi_BundleSpends := bi_BundleSpends s;
                bi_MarketCreates := bi_MarketCreates s; bi_MarketDeletes := bi_MarketDeletes s |})
     (dec_slice zero_Deposit dec_Deposit));
  ("bundle_spends"%string, into bi_BundleSpends
     (λ x s, {| bi_Txs := bi_Txs s; bi_Deposits := bi_Deposits s; bi_BundleSpends := x;
                bi_MarketCreates := bi_MarketCreates s; bi_MarketDeletes := bi_MarketDeletes s |})
     (dec_slice zero_BundleSpend dec_BundleSpend));
  ("market_creates"%string, into bi_MarketCreates
     (λ x s, {| bi_Txs := bi_Txs s; bi_Deposits := bi_Deposits s; bi_BundleSpends := bi_BundleSpends s;
                bi_MarketCreates := x; bi_MarketDeletes := bi_MarketDeletes s |})
     (dec_slice zero_MarketUtxo dec_MarketUtxo));
  ("market_deletes"%string, into bi_MarketDeletes
     (λ x s, {| bi_Txs := bi_Txs s; bi_Deposits := bi_Deposits s; bi_BundleSpends := bi_BundleSpends s;
                bi_MarketCreates := bi_MarketCreates s; bi_MarketDeletes := x |})
     (dec_slice zero_MarketUtxo dec_MarketUtxo))].

(** The fields of the embedded [TxInfo] are fields of [MempoolTx]. *)
Definition dec_MempoolTx : decoder MempoolTx := dec_struct (
  ((λ f : string * decoder TxInfo,
      (f.1, into mt_Info (λ x s, {| mt_Info := x; mt_Tx := mt_Tx s |}) f.2)) <$> TxInfo_fields) ++
  [("tx"%string, into mt_Tx (λ x s, {| mt_Info := mt_Info s; mt_Tx := x |}) dec_Transaction)]).

(** The target of [list_mempool]. *)
Definition dec_Mempool : decoder (list MempoolTx) := dec_slice zero_MempoolTx dec_MempoolTx.
End targets.

(** ** Outpoints that come out of JSON fit their types *)

(** One goal per field of a struct, with the field decoder opened. *)
Ltac every_field :=
  repeat apply Forall_cons_2; [..|apply Forall_nil_2]; cbn [snd];
  intros ? ? ? ?; let H := fresh in intros H; apply into_inv in H as (? & ? & ->); cbn in *.

Lemma dec_slice_Forall {A} (zero : A) (d : decoder A) (P : A → Prop) j cur l :
  (∀ j x, d j zero = Ok x → P x) → dec_slice zero d j cur = Ok l → Forall P l.
Proof.
  intros Hd. destruct j; cbn; intros H; try done; [injection H as <-; constructor|].
  eapply traverse_Forall; [exact H|]. intros i x y Hy. cbn in Hy. by eapply Hd.
Qed.

Lemma dec_vout_typed {W} (fs : fields W) (vout : W → Z) zero j cur o x :
  Forall (λ nd, ∀ j s s', is_u32 (vout s) → nd.2 j s = Ok s' → is_u32 (vout s')) fs →
  is_u32 (vout zero) → (∀ w, cur = Some w → is_u32 (vout w)) →
  dec_ptr zero (dec_struct fs) j cur = Ok o → o = Some x → is_u32 (vout x).
Proof.
  intros Hf Hz Hc Ho Hx. apply (dec_ptr_inv _ _ _ _ _ _ Ho) in Hx.
  eapply (dec_struct_inv fs (λ w, is_u32 (vout w))); [exact Hf| |exact Hx].
  destruct cur as [w|]; cbn; auto.
Qed.

Definition wire_typed (w : outPointWire) : Prop :=
  (∀ r, w_Regular w = Some r → is_u32 (rw_vout r)) ∧
  (∀ c, w_Coinbase w = Some c → is_u32 (cw_vout c)) ∧
  (∀ p, w_Payout w = Some p → is_u32 (pw_vout p)).

Lemma zero_u32 : is_u32 0.
Proof. unfold is_u32. lia. Qed.

Lemma wire_fields_typed j w :
  dec_struct outPointWire_fields j zero_outPointWire = Ok w → wire_typed w.
Proof.
  apply (dec_struct_inv _ wire_typed); [|done].
  assert (∀ j cur z, is_u32 cur → dec_uint 32 j cur = Ok z → is_u32 z) as Hu
    by (intros ? ? ? ?; by apply (dec_uint_range 32)).
  unfold wire_typed. every_field; destruct_and!; split_and!; try done; intros x' Hx'.
  - eapply (dec_vout_typed RegularWire_fields rw_vout zero_RegularWire);
      [|apply zero_u32|eassumption|eassumption|exact Hx']. every_field; eauto.
  - eapply (dec_vout_typed coinbaseOutPointWire_fields cw_vout zero_coinbaseOutPointWire);
      [|apply zero_u32|eassumption|eassumption|exact Hx']. every_field; eauto.
  - eapply (dec_vout_typed payoutOutPointWire_fields pw_vout zero_payoutOutPointWire);
      [|apply zero_u32|eassumption|eassumption|exact Hx']. every_field; eauto.
Qed.

Lemma dec_OutPoint_typed j cur o : dec_OutPoint j cur = Ok o → OutPoint_typed o.
Proof.
  unfold dec_OutPoint. intros (w & Hw%wrap_ok%wire_fields_typed & H)%bind_ok.
  destruct Hw as (Hr & Hc & Hp). unfold OutPoint_typed.
  assert (∀ k, 0 ≤ k ≤ 4 → is_u8 k) as Hk by (unfold is_u8; intros; lia).
  destruct w as [[r|] [c|] [t|] [m|] [p|]]; cbn in *; try done;
    try (injection H as <-); cbn; unfold KindRegular, KindCoinbase, KindMarketFunds, KindPayout;
    try (by split; [apply Hk; lia | eauto]);
    try (apply bind_ok in H as (src & _ & [= <-]); cbn; split; [apply Hk; unfold KindCoinbase; lia | by eauto]);
    try (by split; [apply Hk; lia | apply zero_u32]).
  all: unfold parseBitcoinOutPoint in H; apply bind_ok in H as ([a b] & _ & H);
    apply bind_ok in H as (v & _ & H); apply bind_ok in H as (x & _ & [= <-]); cbn;
    split; [apply Hk; unfold KindDeposit; lia | apply uint32_range].
Qed.

(** What the index needs of a block index: the outpoints it stores as they come. *)
Definition index_typed (bi : BlockIndex) : Prop :=
  Forall OutPoint_typed (dep_OutPoint <$> bi_Deposits bi) ∧
  Forall OutPoint_typed (mkt_OutPoint <$> bi_MarketCreates bi).

#[export] Instance index_typed_dec bi : Decision (index_typed bi).
Proof. unfold index_typed. apply _. Defined.

Lemma zero_OutPoint_typed : OutPoint_typed zero_OutPoint.
Proof. unfold OutPoint_typed, is_u8, is_u32. cbn. lia. Qed.

Section typed.
Context `{!Base58}.

Lemma dec_Deposit_typed j x : dec_Deposit j zero_Deposit = Ok x → OutPoint_typed (dep_OutPoint x).
Proof.
  apply (dec_struct_inv _ (λ d, OutPoint_typed (dep_OutPoint d))); [|apply zero_OutPoint_typed].
  every_field; eauto using dec_OutPoint_typed.
Qed.

Lemma dec_MarketUtxo_typed j x :
  dec_MarketUtxo j zero_MarketUtxo = Ok x → OutPoint_typed (mkt_OutPoint x).
Proof.
  apply (dec_struct_inv _ (λ d, OutPoint_typed (mkt_OutPoint d))); [|apply zero_OutPoint_typed].
  every_field; eauto using dec_OutPoint_typed.
Qed.

Lemma dec_BlockIndex_typed j bi : dec_BlockIndex j zero_BlockIndex = Ok bi → index_typed bi.
Proof.
  apply (dec_struct_inv _ index_typed); [|split; constructor].
  unfold index_typed. every_field; destruct_and!; split_and!; try done; apply Forall_fmap.
  - by eapply (dec_slice_Forall zero_Deposit dec_Deposit); [apply dec_Deposit_typed|].
  - by eapply (dec_slice_Forall zero_MarketUtxo dec_MarketUtxo); [apply dec_MarketUtxo_typed|].
Qed.
End typed.
