(* ===== verification/Encode.v ===== *)
(** * Blocks as a node written in Go would send them

    [encoding/json] on the struct types of [internal/chain/block.go]: fields in
    the order of the declaration, under the names of their tags, embedded fields
    inlined, the [MarshalJSON] methods where a type has one. This is how the test
    node answers. A nil slice renders as [null] and an empty one as [[]]; a list
    of the model is either, so the encoders take which one it is. *)

From S2P Require Import Prelude GoStd Json Hash OutPoint Block BlockIndex.
Open Scope Z_scope.

Definition encoder (A : Type) := A → result json.

(** What an encoder promises to the decoder of the same type. *)
Class Wire {A} (enc : encoder A) (dec : decoder A) (wf : A → Prop) : Prop :=
  wire a j cur : wf a → enc a = Ok j → dec j cur = Ok a.

(** ** Slices, pointers and structs *)

Definition enc_slice {A} (nil : bool) (enc : encoder A) : encoder (list A) := λ l,
  match l with
  | [] => Ok (if nil then JNull else JArr [])
  | _ => js ← traverse (λ _, enc) l; Ok (JArr js)
  end.

Definition enc_ptr {A} (enc : encoder A) : encoder (option A) := λ o,
  match o with None => Ok JNull | Some a => enc a end.

Definition enc_struct (fs : list (string * result json)) : result json :=
  m ← traverse (λ _ f, j ← f.2; Ok (f.1, j)) fs; Ok (JObj m).

(** How a struct target reads the members one after another. *)
Fixpoint reads {T} (fs : fields T) (l : list (string * result json)) (s s' : T) : Prop :=
  match l with
  | [] => s = s'
  | (name, r) :: l => ∃ d s1, find_field name fs = Some d ∧ (∀ j, r = Ok j → d j s = Ok s1) ∧ reads fs l s1 s'
  end.

Lemma dec_enc_struct {T} (fs : fields T) l j s s' :
  enc_struct l = Ok j → reads fs l s s' → dec_struct fs j s = Ok s'.
Proof.
  unfold enc_struct. intros (m & Hm & [= <-])%bind_ok. revert m s Hm.
  induction l as [|[name r] l IH]; intros m s Hm Hr; cbn in Hm; [injection Hm as <-; by rewrite Hr|].
  apply bind_ok in Hm as (x & Hx & (m' & Hm & [= <-])%bind_ok).
  apply bind_ok in Hx as (j & Hj & [= <-]). destruct Hr as (d & s1 & Hf & Hd & Hr).
  cbn in Hj. cbn [dec_struct foldE fst snd]. rewrite Hf, (Hd _ Hj). by apply (IH m' s1).
Qed.

Lemma into_ok {T A} (get : T → A) (set : A → T → T) (d : decoder A) j s x :
  d j (get s) = Ok x → into get set d j s = Ok (set x s).
Proof. unfold into. by intros ->. Qed.

#[export] Instance wire_slice {A} nil (enc : encoder A) dec wf (zero : A) :
  Wire enc dec wf → Wire (enc_slice nil enc) (dec_slice zero dec) (Forall wf).
Proof.
  intros HW l j cur Hl He. destruct l as [|a l]; [destruct nil; by injection He as <-|].
  unfold enc_slice in He. apply bind_ok in He as (js & Hjs & [= <-]). cbn [dec_slice].
  apply traverse_ok in Hjs as [Hlen Hjs]. apply traverse_ok. split; [done|]. intros i x Hx.
  destruct (lookup_lt_is_Some_2 (a :: l) i) as [y Hy].
  { apply lookup_lt_Some in Hx. by rewrite Hlen in Hx. }
  exists y. split; [done|]. destruct (Hjs i y Hy) as (x' & Hx' & He).
  assert (x = x') as -> by congruence. eapply wire; [|done]. by eapply Forall_lookup in Hl.
Qed.

(** A value that never renders as [null]: a pointer to it can be told from nil. *)
Class NotNull {A} (enc : encoder A) : Prop := not_null a : enc a ≠ Ok JNull.

#[export] Instance wire_ptr {A} (enc : encoder A) dec wf (zero : A) :
  Wire enc dec wf → NotNull enc →
  Wire (enc_ptr enc) (dec_ptr zero dec) (λ o, match o with Some a => wf a | None => True end).
Proof.
  intros HW Hn [a|] j cur Hw He; cbn in He; [|by injection He as <-]. unfold dec_ptr.
  rewrite (wire a j (default zero cur) Hw He). pose proof (not_null a). destruct j; [congruence|done..].
Qed.

Lemma enc_struct_not_null l : enc_struct l ≠ Ok JNull.
Proof. unfold enc_struct. by destruct (traverse _ _). Qed.

(** Opens a struct encoder against its decoder and leaves what each field needs to
    be well formed. *)
Ltac wire_field :=
  eexists _, _; split; [reflexivity|split;
    [let H := fresh in intros ? H; apply into_ok;
     first [eapply @wire; [typeclasses eauto| |exact H] | apply into_ok; eapply @wire; [typeclasses eauto| |exact H]]; cbn
    |cbn [reads]]].

Ltac wire_struct :=
  let x := fresh "x" in let Hx := fresh "Hx" in let He := fresh in intros x ? ? Hx He; eapply dec_enc_struct; [exact He|]; cbn [reads]; repeat wire_field.

(** ** Values *)

#[export] Instance wire_Hash : Wire (λ h, Ok (enc_Hash h)) dec_Hash (λ _, True).
Proof. intros h j cur _ [= <-]. apply dec_enc_Hash. Qed.
#[export] Instance not_null_Hash : NotNull (λ h, Ok (enc_Hash h)).
Proof. done. Qed.
#[export] Instance wire_BitcoinHash : Wire (λ h, Ok (enc_BitcoinHash h)) dec_BitcoinHash (λ _, True).
Proof. intros h j cur _ [= <-]. apply dec_enc_BitcoinHash. Qed.
#[export] Instance wire_Bytes : Wire (λ b, Ok (enc_Bytes b)) dec_Bytes (λ _, True).
Proof. intros b j cur _ [= <-]. apply dec_enc_Bytes. Qed.
#[export] Instance wire_uint bits : Wire (λ z, Ok (enc_uint z)) (dec_uint bits) (λ z, 0 ≤ z < 2 ^ bits).
Proof. intros z j cur Hz [= <-]. by apply dec_enc_uint. Qed.
#[export] Instance not_null_uint : NotNull (λ z, Ok (enc_uint z)).
Proof. done. Qed.
#[export] Instance wire_bool : Wire (λ b, Ok (JBool b)) dec_bool (λ _, True).
Proof. by intros b j cur _ [= <-]. Qed.
#[export] Instance wire_string : Wire (λ s, Ok (JStr s)) dec_string (λ _, True).
Proof. by intros b j cur _ [= <-]. Qed.

(** An outpoint the decoder could have made. *)
Definition OutPoint_wf (o : OutPoint) : Prop :=
  is_u32 (Vout o) ∧ (Kind o = KindMarketFunds → market_packed o).

#[export] Instance wire_OutPoint : Wire enc_OutPoint dec_OutPoint OutPoint_wf.
Proof. intros o j cur [Hv Hm] He. by apply OutPoint_json. Qed.
#[export] Instance wire_Input : Wire enc_Input dec_Input Input_wf.
Proof. intros i j cur Hi He. by apply dec_enc_Input. Qed.

(** Text a node wrote, with the bytes it stands for. *)
Definition ByteString_wf (b : ByteString) : Prop :=
  bs_Text b ≠ EmptyString ∧ bs_Bytes b = default [] (decodeHex (bs_Text b)).

#[export] Instance wire_ByteString : Wire (λ b, Ok (enc_ByteString b)) dec_ByteString ByteString_wf.
Proof.
  intros [bs t] j cur [Ht Hb] [= <-]. cbn in *. destruct t as [|c t]; [done|]. cbn -[decodeHex].
  by destruct (decodeHex _); cbn in Hb; subst.
Qed.

(** ** The structs of a block *)

Section blocks.
Context `{Base58Laws} (nil : bool).

#[export] Instance wire_Output : Wire (λ o, Ok (enc_Output o)) dec_Output Output_wf.
Proof. intros o j cur Ho [= <-]. by apply dec_enc_Output. Qed.

Definition Coinbase_wf (c : Coinbase) : Prop :=
  Forall Output_wf (cb_Outputs c) ∧ (cb_KeyedByTxid c = false → cb_Memo c = []).

#[export] Instance wire_Coinbase : Wire (λ c, Ok (enc_Coinbase c)) dec_Coinbase Coinbase_wf.
Proof. intros c j cur [Ho Hm] [= <-]. by apply dec_enc_Coinbase. Qed.

Definition enc_Header : encoder Header := λ h, enc_struct [
  ("merkle_root"%string, Ok (enc_Hash (MerkleRoot h)));
  ("prev_side_hash"%string, enc_ptr (λ x, Ok (enc_Hash x)) (PrevSideHash h));
  ("prev_main_hash"%string, Ok (enc_BitcoinHash (PrevMainHash h)))].

Definition enc_Transaction : encoder Transaction := λ t, enc_struct [
  ("inputs"%string, enc_slice nil enc_Input (Inputs t));
  ("outputs"%string, enc_slice nil (λ o, Ok (enc_Output o)) (Outputs t))].

Definition enc_Authorization : encoder Authorization := λ a, enc_struct [
  ("verifying_key"%string, Ok (enc_ByteString (VerifyingKey a)));
  ("signature"%string, Ok (enc_ByteString (Signature a)))].

Definition enc_Body : encoder Body := λ b, enc_struct [
  ("coinbase"%string, Ok (enc_Coinbase (body_Coinbase b)));
  ("transactions"%string, enc_slice nil enc_Transaction (Transactions b));
  ("authorizations"%string, enc_slice nil enc_Authorization (Authorizations b))].

Definition enc_Block : encoder Block := λ b, enc_struct [
  ("header"%string, enc_Header (blk_Header b)); ("body"%string, enc_Body (blk_Body b))].

Definition Transaction_wf (t : Transaction) : Prop := Forall Input_wf (Inputs t) ∧ Forall Output_wf (Outputs t).
Definition Authorization_wf (a : Authorization) : Prop := ByteString_wf (VerifyingKey a) ∧ ByteString_wf (Signature a).
Definition Body_wf (b : Body) : Prop :=
  Coinbase_wf (body_Coinbase b) ∧ Forall Transaction_wf (Transactions b) ∧ Forall Authorization_wf (Authorizations b).
Definition Block_wf (b : Block) : Prop := Body_wf (blk_Body b).

#[export] Instance wire_Header : Wire enc_Header dec_Header (λ _, True).
Proof. wire_struct; [..|by destruct x]; by repeat case_match. Qed.
#[export] Instance wire_Transaction : Wire enc_Transaction dec_Transaction Transaction_wf.
Proof. wire_struct; [by destruct Hx..|by destruct x]. Qed.
#[export] Instance wire_Authorization : Wire enc_Authorization dec_Authorization Authorization_wf.
Proof. wire_struct; [by destruct Hx..|by destruct x]. Qed.
#[export] Instance wire_Body : Wire enc_Body dec_Body Body_wf.
Proof. wire_struct; [by destruct Hx as (? & ? & ?)..|by destruct x]. Qed.
#[export] Instance wire_Block : Wire enc_Block dec_Block Block_wf.
Proof. wire_struct; [done..|by destruct x]. Qed.
#[export] Instance not_null_Block : NotNull enc_Block.
Proof. intros b. apply enc_struct_not_null. Qed.

(** ** What a body does not carry *)

(** The fields of a [TxInfo], which [MempoolTx] embeds. *)
Definition TxInfo_members (t : TxInfo) : list (string * result json) := [
  ("txid"%string, Ok (enc_Hash (ti_Txid t))); ("size"%string, Ok (enc_uint (ti_Size t)));
  ("raw"%string, Ok (enc_Bytes (ti_Raw t))); ("skipped"%string, Ok (JBool (ti_Skipped t)))].

Definition enc_TxInfo : encoder TxInfo := λ t, enc_struct (TxInfo_members t).

Definition enc_MempoolTx : encoder MempoolTx := λ e, enc_struct
  (TxInfo_members (mt_Info e) ++ [("tx"%string, enc_Transaction (mt_Tx e))]).

Definition enc_Deposit : encoder Deposit := λ d, enc_struct [
  ("outpoint"%string, enc_OutPoint (dep_OutPoint d)); ("output"%string, Ok (enc_Output (dep_Output d)))].

Definition enc_BundleSpend : encoder BundleSpend := λ b, enc_struct [
  ("outpoint"%string, enc_OutPoint (bun_OutPoint b)); ("m6id"%string, Ok (enc_BitcoinHash (bun_M6id b)))].

Definition enc_MarketUtxo : encoder MarketUtxo := λ m, enc_struct [
  ("outpoint"%string, enc_OutPoint (mkt_OutPoint m)); ("output"%string, Ok (enc_Output (mkt_Output m)));
  ("reason"%string, Ok (JStr (mkt_Reason m)))].

Definition enc_BlockIndex : encoder BlockIndex := λ b, enc_struct [
  ("txs"%string, enc_slice nil enc_TxInfo (bi_Txs b));
  ("deposits"%string, enc_slice nil enc_Deposit (bi_Deposits b));
  ("bundle_spends"%string, enc_slice nil enc_BundleSpend (bi_BundleSpends b));
  ("market_creates"%string, enc_slice nil enc_MarketUtxo (bi_MarketCreates b));
  ("market_deletes"%string, enc_slice nil enc_MarketUtxo (bi_MarketDeletes b))].

(** The list [list_mempool] answers. *)
Definition enc_Mempool : encoder (list MempoolTx) := enc_slice nil enc_MempoolTx.

Definition TxInfo_wf (t : TxInfo) : Prop := 0 ≤ ti_Size t < 2 ^ 64.
Definition MempoolTx_wf (e : MempoolTx) : Prop := TxInfo_wf (mt_Info e) ∧ Transaction_wf (mt_Tx e).
Definition Deposit_wf (d : Deposit) : Prop := OutPoint_wf (dep_OutPoint d) ∧ Output_wf (dep_Output d).
Definition MarketUtxo_wf (m : MarketUtxo) : Prop := OutPoint_wf (mkt_OutPoint m) ∧ Output_wf (mkt_Output m).
Definition BlockIndex_wf (b : BlockIndex) : Prop :=
  Forall TxInfo_wf (bi_Txs b) ∧ Forall Deposit_wf (bi_Deposits b) ∧
  Forall (λ s, OutPoint_wf (bun_OutPoint s)) (bi_BundleSpends b) ∧
  Forall MarketUtxo_wf (bi_MarketCreates b) ∧ Forall MarketUtxo_wf (bi_MarketDeletes b).

#[export] Instance wire_TxInfo : Wire enc_TxInfo dec_TxInfo TxInfo_wf.
Proof. wire_struct; [done..|by destruct x]. Qed.
#[export] Instance wire_MempoolTx : Wire enc_MempoolTx dec_MempoolTx MempoolTx_wf.
Proof. unfold enc_MempoolTx, TxInfo_members. cbn [app]. wire_struct; try by destruct Hx. by destruct x as [[]]. Qed.
#[export] Instance wire_Deposit : Wire enc_Deposit dec_Deposit Deposit_wf.
Proof. wire_struct; [by destruct Hx..|by destruct x]. Qed.
#[export] Instance wire_BundleSpend : Wire enc_BundleSpend dec_BundleSpend (λ b, OutPoint_wf (bun_OutPoint b)).
Proof. wire_struct; [done..|by destruct x]. Qed.
#[export] Instance wire_MarketUtxo : Wire enc_MarketUtxo dec_MarketUtxo MarketUtxo_wf.
Proof. wire_struct; [by destruct Hx..|by destruct x]. Qed.
#[export] Instance wire_BlockIndex : Wire enc_BlockIndex dec_BlockIndex BlockIndex_wf.
Proof. wire_struct; [by destruct Hx as (? & ? & ? & ? & ?)..|by destruct x]. Qed.
#[export] Instance wire_Mempool : Wire enc_Mempool dec_Mempool (Forall MempoolTx_wf).
Proof. apply wire_slice, wire_MempoolTx. Qed.

(** C19: What a node written with these types sends, the client reads back as it
    was: a block, its index, and a list of unconfirmed transactions, whatever the
    decoder found in its target before, and whether empty slices come as [null] or
    as [[]]. *)
Theorem node_json_round_trip :
  (∀ b j cur, Block_wf b → enc_Block b = Ok j → dec_Block j cur = Ok b) ∧
  (∀ i j cur, BlockIndex_wf i → enc_BlockIndex i = Ok j → dec_BlockIndex j cur = Ok i) ∧
  (∀ txs j cur, Forall MempoolTx_wf txs → enc_Mempool txs = Ok j → dec_Mempool j cur = Ok txs).
Proof. split_and!; intros x j cur; [apply wire_Block|apply wire_BlockIndex|apply wire_Mempool]. Qed.
End blocks.
