(* ===== verification/Decoders.v ===== *)
(** * The seven output decoders

    [internal/chain/{thunder,photon,zside,coinshift,bitnames,bitassets,
    truthcoin}]: one Module per package, each an instance of the [Decoder]
    interface. Every package carries its own copy of [toSats] and of the
    withdrawal rule; the copies are equal, so they stand once at the top. *)

From S2P Require Import Prelude GoStd Json Hash Block.
Open Scope Z_scope.

(** ** Shared by every package *)

(** [toSats]. *)
Definition toSats (v : Z) : result Z :=
  _ ← reject (MaxInt64 <? v) (Errorf "value does not fit an int64");
  Ok (int64 v).

(** The payload of a withdrawal, in both spellings. *)
Record withdrawal := {
  wd_Value : Z; wd_MainFee : Z; wd_ValueSats : Z; wd_MainFeeSats : Z; wd_MainAddress : string;
}.

Definition zero_withdrawal : withdrawal :=
  {| wd_Value := 0; wd_MainFee := 0; wd_ValueSats := 0; wd_MainFeeSats := 0;
     wd_MainAddress := EmptyString |}.

Definition dec_withdrawal : decoder withdrawal := dec_struct [
  ("value"%string, into wd_Value
     (λ x s, {| wd_Value := x; wd_MainFee := wd_MainFee s; wd_ValueSats := wd_ValueSats s;
                wd_MainFeeSats := wd_MainFeeSats s; wd_MainAddress := wd_MainAddress s |}) (dec_uint 64));
  ("main_fee"%string, into wd_MainFee
     (λ x s, {| wd_Value := wd_Value s; wd_MainFee := x; wd_ValueSats := wd_ValueSats s;
                wd_MainFeeSats := wd_MainFeeSats s; wd_MainAddress := wd_MainAddress s |}) (dec_uint 64));
  ("value_sats"%string, into wd_ValueSats
     (λ x s, {| wd_Value := wd_Value s; wd_MainFee := wd_MainFee s; wd_ValueSats := x;
                wd_MainFeeSats := wd_MainFeeSats s; wd_MainAddress := wd_MainAddress s |}) (dec_uint 64));
  ("main_fee_sats"%string, into wd_MainFeeSats
     (λ x s, {| wd_Value := wd_Value s; wd_MainFee := wd_MainFee s; wd_ValueSats := wd_ValueSats s;
                wd_MainFeeSats := x; wd_MainAddress := wd_MainAddress s |}) (dec_uint 64));
  ("main_address"%string, into wd_MainAddress
     (λ x s, {| wd_Value := wd_Value s; wd_MainFee := wd_MainFee s; wd_ValueSats := wd_ValueSats s;
                wd_MainFeeSats := wd_MainFeeSats s; wd_MainAddress := x |}) dec_string)].

(** What a withdrawal removes: payout plus mainchain fee, in [uint64]. *)
Definition withdrawal_content (w : withdrawal) : result Content :=
  let value := Z.max (wd_Value w) (wd_ValueSats w) in
  let mainFee := Z.max (wd_MainFee w) (wd_MainFeeSats w) in
  let total := uint64 (value + mainFee) in
  _ ← reject (total <? value) (Errorf "withdrawal overflows");
  sats ← toSats total;
  Ok {| ValueSats := sats; Type_ := "withdrawal" |}.

(** [var sats uint64; json.Unmarshal(payload, &sats); toSats(sats)]. *)
Definition sats_content (what kind : string) (payload : RawMessage) : result Content :=
  sats ← wrap what (Unmarshal (dec_uint 64) 0 payload);
  out ← toSats sats;
  Ok {| ValueSats := out; Type_ := kind |}.

(** ** Thunder *)

Module Thunder.
Record content := { c_Value : option Z; c_Withdrawal : option withdrawal }.

Definition dec_content : decoder content := dec_struct [
  ("Value"%string, into c_Value
     (λ x s, {| c_Value := x; c_Withdrawal := c_Withdrawal s |}) (dec_ptr 0 (dec_uint 64)));
  ("Withdrawal"%string, into c_Withdrawal
     (λ x s, {| c_Value := c_Value s; c_Withdrawal := x |}) (dec_ptr zero_withdrawal dec_withdrawal))].

(** The chain's name is in the texts of its errors. *)
Definition decode_as (name : string) (raw : RawMessage) : result Content :=
  c ← wrap ("decode " +:+ name +:+ " output content")
        (Unmarshal dec_content {| c_Value := None; c_Withdrawal := None |} raw);
  match c with
  | {| c_Value := Some v |} =>
      sats ← toSats v;
      Ok {| ValueSats := sats; Type_ := "value" |}
  | {| c_Withdrawal := Some w |} => withdrawal_content w
  | _ => Err (Errorf (name +:+ " output content names no known variant"))
  end.

Definition DecodeContent : RawMessage → result Content := decode_as "thunder".

#[export] Instance Decoder : Decoder :=
  {| decoder_Name := "thunder"; Block.DecodeContent := DecodeContent |}.
End Thunder.

(** ** Photon and zside read the same payload as thunder *)

Module Photon.
Definition DecodeContent : RawMessage → result Content := Thunder.decode_as "photon".
#[export] Instance Decoder : Decoder :=
  {| decoder_Name := "photon"; Block.DecodeContent := DecodeContent |}.
End Photon.

Module Zside.
Definition DecodeContent : RawMessage → result Content := Thunder.decode_as "zside".
#[export] Instance Decoder : Decoder :=
  {| decoder_Name := "zside"; Block.DecodeContent := DecodeContent |}.
End Zside.

(** ** Coinshift *)

Module Coinshift.
Record swapPending := { sp_Value : Z; sp_ValueSats : Z; sp_SwapID : string }.

Record content := {
  c_Value : option Z; c_Withdrawal : option withdrawal; c_SwapPending : option swapPending;
}.

Definition dec_swapPending : decoder swapPending := dec_struct [
  ("value"%string, into sp_Value
     (λ x s, {| sp_Value := x; sp_ValueSats := sp_ValueSats s; sp_SwapID := sp_SwapID s |}) (dec_uint 64));
  ("value_sats"%string, into sp_ValueSats
     (λ x s, {| sp_Value := sp_Value s; sp_ValueSats := x; sp_SwapID := sp_SwapID s |}) (dec_uint 64));
  ("swap_id"%string, into sp_SwapID
     (λ x s, {| sp_Value := sp_Value s; sp_ValueSats := sp_ValueSats s; sp_SwapID := x |}) dec_string)].

Definition zero_swapPending := {| sp_Value := 0; sp_ValueSats := 0; sp_SwapID := EmptyString |}.

Definition dec_content : decoder content := dec_struct [
  ("Value"%string, into c_Value
     (λ x s, {| c_Value := x; c_Withdrawal := c_Withdrawal s; c_SwapPending := c_SwapPending s |})
     (dec_ptr 0 (dec_uint 64)));
  ("Withdrawal"%string, into c_Withdrawal
     (λ x s, {| c_Value := c_Value s; c_Withdrawal := x; c_SwapPending := c_SwapPending s |})
     (dec_ptr zero_withdrawal dec_withdrawal));
  ("SwapPending"%string, into c_SwapPending
     (λ x s, {| c_Value := c_Value s; c_Withdrawal := c_Withdrawal s; c_SwapPending := x |})
     (dec_ptr zero_swapPending dec_swapPending))].

Definition DecodeContent (raw : RawMessage) : result Content :=
  c ← wrap "decode coinshift output content"
        (Unmarshal dec_content
           {| c_Value := None; c_Withdrawal := None; c_SwapPending := None |} raw);
  match c with
  | {| c_Value := Some v |} =>
      sats ← toSats v;
      Ok {| ValueSats := sats; Type_ := "value" |}
  | {| c_SwapPending := Some s |} =>
      sats ← toSats (Z.max (sp_Value s) (sp_ValueSats s));
      Ok {| ValueSats := sats; Type_ := "swap_pending" |}
  | {| c_Withdrawal := Some w |} => withdrawal_content w
  | _ => Err (Errorf "coinshift output content names no known variant")
  end.

#[export] Instance Decoder : Decoder :=
  {| decoder_Name := "coinshift"; Block.DecodeContent := DecodeContent |}.
End Coinshift.

(** ** Bitnames *)

Module Bitnames.
Definition value (payload : RawMessage) (kind : string) : result Content :=
  sats_content "decode bitnames value" kind payload.

Definition withdrawalValue (payload : RawMessage) : result Content :=
  w ← wrap "decode bitnames withdrawal" (Unmarshal dec_withdrawal zero_withdrawal payload);
  withdrawal_content w.

Definition DecodeContent (raw : RawMessage) : result Content :=
  '(tag, payload) ← wrap "decode bitnames output content" (Variant raw);
  if String.eqb tag "BitcoinSats" then value payload "value"
  else if String.eqb tag "Withdrawal" || String.eqb tag "BitcoinWithdrawal" then
    withdrawalValue payload
  else if String.eqb tag "BitName" then Ok {| ValueSats := 0; Type_ := "bitname" |}
  else if String.eqb tag "BitNameReservation" then
    Ok {| ValueSats := 0; Type_ := "bitname_reservation" |}
  else Err (Errorf "bitnames output content names no known variant").

#[export] Instance Decoder : Decoder :=
  {| decoder_Name := "bitnames"; Block.DecodeContent := DecodeContent |}.
End Bitnames.

(** ** Bitassets *)

Module Bitassets.
Definition withdrawalValue (payload : RawMessage) : result Content :=
  w ← wrap "decode bitassets withdrawal" (Unmarshal dec_withdrawal zero_withdrawal payload);
  withdrawal_content w.

Definition DecodeContent (raw : RawMessage) : result Content :=
  '(tag, payload) ← wrap "decode bitassets output content" (Variant raw);
  if String.eqb tag "BitcoinSats" then sats_content "decode bitassets value" "value" payload
  else if String.eqb tag "Withdrawal" || String.eqb tag "BitcoinWithdrawal" then
    withdrawalValue payload
  else if String.eqb tag "BitAsset" then Ok {| ValueSats := 0; Type_ := "bitasset" |}
  else if String.eqb tag "BitAssetControl" then Ok {| ValueSats := 0; Type_ := "bitasset_control" |}
  else if String.eqb tag "BitAssetReservation" then
    Ok {| ValueSats := 0; Type_ := "bitasset_reservation" |}
  else if String.eqb tag "DutchAuctionReceipt" then
    Ok {| ValueSats := 0; Type_ := "dutch_auction_receipt" |}
  else Err (Errorf "bitassets output content names no known variant").

#[export] Instance Decoder : Decoder :=
  {| decoder_Name := "bitassets"; Block.DecodeContent := DecodeContent |}.
End Bitassets.

(** ** Truthcoin *)

Module Truthcoin.
Record marketFunds := { mf_Amount : option Z; mf_IsFee : bool }.

Definition dec_marketFunds : decoder marketFunds := dec_struct [
  ("amount"%string, into mf_Amount
     (λ x s, {| mf_Amount := x; mf_IsFee := mf_IsFee s |}) (dec_ptr 0 (dec_uint 64)));
  ("is_fee"%string, into mf_IsFee
     (λ x s, {| mf_Amount := mf_Amount s; mf_IsFee := x |}) dec_bool)].

Definition withdrawalValue (payload : RawMessage) : result Content :=
  w ← wrap "decode truthcoin withdrawal" (Unmarshal dec_withdrawal zero_withdrawal payload);
  withdrawal_content w.

Definition marketFundsValue (payload : RawMessage) : result Content :=
  m ← wrap "decode truthcoin market funds"
        (Unmarshal dec_marketFunds {| mf_Amount := None; mf_IsFee := false |} payload);
  amount ← of_option (Errorf "truthcoin market funds name no amount") (mf_Amount m);
  sats ← toSats amount;
  Ok {| ValueSats := sats;
        Type_ := if mf_IsFee m then "market_author_fee" else "market_treasury" |}.

Definition DecodeContent (raw : RawMessage) : result Content :=
  '(tag, payload) ← wrap "decode truthcoin output content" (Variant raw);
  if String.eqb tag "Value" then sats_content "decode truthcoin value" "value" payload
  else if String.eqb tag "Withdrawal" then withdrawalValue payload
  else if String.eqb tag "MarketFunds" then marketFundsValue payload
  else Err (Errorf "truthcoin output content names no known variant").

#[export] Instance Decoder : Decoder :=
  {| decoder_Name := "truthcoin"; Block.DecodeContent := DecodeContent |}.
End Truthcoin.

(** ** Amounts *)

Lemma toSats_ok v s : is_u64 v → toSats v = Ok s ↔ s = v ∧ v ≤ MaxInt64.
Proof.
  intros Hv. unfold toSats. destruct (Z.ltb_spec MaxInt64 v); cbn.
  - split; [done | lia].
  - rewrite int64_small by width. split; [by intros [= <-] | by intros [-> _]].
Qed.

Lemma toSats_range v s : is_u64 v → toSats v = Ok s → 0 ≤ s ≤ MaxInt64.
Proof. intros Hv [-> ?]%toSats_ok; [|done]. unfold is_u64 in Hv. lia. Qed.

Definition withdrawal_typed (w : withdrawal) : Prop :=
  is_u64 (wd_Value w) ∧ is_u64 (wd_MainFee w) ∧ is_u64 (wd_ValueSats w) ∧ is_u64 (wd_MainFeeSats w).

(** One goal per field of a struct, with the field decoder opened. *)
Ltac each_field :=
  repeat apply Forall_cons_2; [..|apply Forall_nil_2]; cbn [snd];
  intros ? ? ? ?;
  let H := fresh in intros H;
  apply into_inv in H as (? & ? & ->); cbn in *.

Lemma dec_withdrawal_typed raw w :
  Unmarshal dec_withdrawal zero_withdrawal raw = Ok w → withdrawal_typed w.
Proof.
  destruct raw as [j|]; cbn; [|done]. apply dec_struct_inv; [|by vm_compute].
  unfold withdrawal_typed. each_field; destruct_and!;
    split_and!; try done; (eapply (dec_uint_range 64); [|done]); assumption.
Qed.

(** A withdrawal removes exactly its payout plus its fee, or it is refused: the
    [uint64] addition never wraps into a wrong amount. *)
Lemma withdrawal_content_exact w :
  withdrawal_typed w →
  let total := Z.max (wd_Value w) (wd_ValueSats w) + Z.max (wd_MainFee w) (wd_MainFeeSats w) in
  (total ≤ MaxInt64 → withdrawal_content w = Ok {| ValueSats := total; Type_ := "withdrawal" |}) ∧
  (MaxInt64 < total → ∃ e, withdrawal_content w = Err e).
Proof.
  intros (H1 & H2 & H3 & H4) total. unfold withdrawal_content.
  set (v := Z.max (wd_Value w) (wd_ValueSats w)) in *.
  set (f := Z.max (wd_MainFee w) (wd_MainFeeSats w)) in *.
  assert (is_u64 v ∧ is_u64 f) as [Hv Hf] by (unfold v, f, is_u64 in *; lia).
  assert (is_u64 (uint64 (v + f))) as Ht by width. split; intros Hle.
  - assert (uint64 (v + f) = total) as -> by (unfold total in *; width).
    destruct (Z.ltb_spec total v); [unfold total in *; width|]. cbn.
    assert (is_u64 total) as Ht' by (unfold total in *; width).
    by rewrite (proj2 (toSats_ok total total Ht')).
  - destruct (Z.ltb_spec (uint64 (v + f)) v) as [|Hge]; cbn; [by eexists|].
    destruct (toSats (uint64 (v + f))) as [s|e] eqn:E; [|by eexists].
    apply toSats_ok in E as [_ Hs]; [|done]. exfalso. unfold total in *. width.
Qed.

Lemma withdrawal_content_range w c :
  withdrawal_content w = Ok c → 0 ≤ ValueSats c ≤ MaxInt64.
Proof.
  unfold withdrawal_content. intros H. inv_ok. eapply toSats_range; [|done]. width.
Qed.

Lemma sats_content_range what kind payload c :
  sats_content what kind payload = Ok c → 0 ≤ ValueSats c ≤ MaxInt64.
Proof.
  unfold sats_content. intros H. inv_ok. eapply toSats_range; [|done].
  destruct payload as [j|]; [|done]. by eapply dec_uint_range.
Qed.

#[export] Hint Resolve withdrawal_content_range sats_content_range toSats_range : go.

Lemma dec_ptr_u64 j cur o v :
  (∀ v, cur = Some v → is_u64 v) → dec_ptr 0 (dec_uint 64) j cur = Ok o → o = Some v → is_u64 v.
Proof.
  intros Hc Ho Hv. eapply dec_uint_range; [|by eapply dec_ptr_inv].
  destruct cur as [c|]; [by apply Hc | done].
Qed.

(** ** Every decoder keeps its promise *)

Lemma Thunder_content_typed j x :
  Thunder.dec_content j {| Thunder.c_Value := None; Thunder.c_Withdrawal := None |} = Ok x →
  ∀ v, Thunder.c_Value x = Some v → is_u64 v.
Proof.
  apply (dec_struct_inv _ (λ c, ∀ v, Thunder.c_Value c = Some v → is_u64 v)); [|done].
  each_field; eauto using dec_ptr_u64.
Qed.

Lemma decode_as_range name raw c : Thunder.decode_as name raw = Ok c → 0 ≤ ValueSats c ≤ MaxInt64.
Proof.
  destruct raw as [j|]; [|done]. unfold Thunder.decode_as. intros H. inv_ok.
  pose proof (Thunder_content_typed _ _ H0) as Hx.
  destruct x as [[v|] [w|]]; cbn in *; inv_ok; eauto with go.
Qed.

#[export] Instance Thunder_laws : DecoderLaws Thunder.Decoder.
Proof. exact (decode_as_range "thunder"). Qed.
#[export] Instance Photon_laws : DecoderLaws Photon.Decoder.
Proof. exact (decode_as_range "photon"). Qed.
#[export] Instance Zside_laws : DecoderLaws Zside.Decoder.
Proof. exact (decode_as_range "zside"). Qed.

Definition swapPending_typed (s : Coinshift.swapPending) : Prop :=
  is_u64 (Coinshift.sp_Value s) ∧ is_u64 (Coinshift.sp_ValueSats s).

Definition Coinshift_typed (c : Coinshift.content) : Prop :=
  (∀ v, Coinshift.c_Value c = Some v → is_u64 v) ∧
  (∀ s, Coinshift.c_SwapPending c = Some s → swapPending_typed s).

Lemma dec_swapPending_typed j cur s :
  swapPending_typed cur → Coinshift.dec_swapPending j cur = Ok s → swapPending_typed s.
Proof.
  apply (dec_struct_inv _ swapPending_typed). unfold swapPending_typed.
  each_field; destruct_and!; split_and!; try done;
    (eapply (dec_uint_range 64); [|done]); assumption.
Qed.

Lemma Coinshift_content_typed j x :
  Coinshift.dec_content j
    {| Coinshift.c_Value := None; Coinshift.c_Withdrawal := None; Coinshift.c_SwapPending := None |}
    = Ok x → Coinshift_typed x.
Proof.
  apply (dec_struct_inv _ Coinshift_typed); [|done]. unfold Coinshift_typed.
  each_field; destruct_and!; split_and!; eauto using dec_ptr_u64.
  intros s' Hs. eapply dec_swapPending_typed; [|by eapply dec_ptr_inv].
  destruct (Coinshift.c_SwapPending _) eqn:E; [eauto | by vm_compute].
Qed.

#[export] Instance Coinshift_laws : DecoderLaws Coinshift.Decoder.
Proof.
  intros [j|] c; [|done]. cbn. unfold Coinshift.DecodeContent. intros H. inv_ok.
  destruct (Coinshift_content_typed _ _ H0) as [Hv Hs].
  destruct x as [[v|] [w|] [s|]]; cbn in *; inv_ok; eauto with go;
    (eapply toSats_range; [|done]); destruct (Hs _ eq_refl); unfold is_u64 in *; lia.
Qed.

(** Splits the tag dispatch of an enum decoder. *)
Ltac dispatch H :=
  repeat match type of H with (if ?b then _ else _) = _ => destruct b end; inv_ok.

#[export] Instance Bitnames_laws : DecoderLaws Bitnames.Decoder.
Proof.
  intros raw c. cbn. unfold Bitnames.DecodeContent. intros H. inv_ok.
  destruct x as [tag payload]. dispatch H;
    unfold Bitnames.value, Bitnames.withdrawalValue in *; inv_ok; eauto with go; done.
Qed.

#[export] Instance Bitassets_laws : DecoderLaws Bitassets.Decoder.
Proof.
  intros raw c. cbn. unfold Bitassets.DecodeContent. intros H. inv_ok.
  destruct x as [tag payload]. dispatch H;
    unfold Bitassets.withdrawalValue in *; inv_ok; eauto with go; done.
Qed.

Lemma marketFunds_typed raw m v :
  Unmarshal Truthcoin.dec_marketFunds {| Truthcoin.mf_Amount := None; Truthcoin.mf_IsFee := false |} raw
    = Ok m → Truthcoin.mf_Amount m = Some v → is_u64 v.
Proof.
  destruct raw as [j|]; [|done]. cbn. intros H. revert H v.
  apply (dec_struct_inv _ (λ m, ∀ v, Truthcoin.mf_Amount m = Some v → is_u64 v)); [|done].
  each_field; eauto using dec_ptr_u64.
Qed.

#[export] Instance Truthcoin_laws : DecoderLaws Truthcoin.Decoder.
Proof.
  intros raw c. cbn. unfold Truthcoin.DecodeContent. intros H. inv_ok.
  destruct x as [tag payload]. dispatch H;
    unfold Truthcoin.withdrawalValue, Truthcoin.marketFundsValue in *; inv_ok; eauto with go.
  cbn. eapply toSats_range; [|done]. by eapply marketFunds_typed.
Qed.
