(* ===== verification/Rpc.v ===== *)
(** * The JSON-RPC client

    [internal/rpc/client.go] and the typed calls of [internal/chain/node.go] on
    top of it. The transport is the outside: it takes the text of a request and
    answers a status and the text of a body, or fails. *)

From S2P Require Import Prelude GoStd Json JsonText Hash OutPoint Block BlockIndex.
Open Scope Z_scope.

(** ** HTTP *)

Record http_answer := { StatusCode : Z; ans_text : string }.

(** One POST: where to, and the body. *)
Definition transport : Type := string → string → result http_answer.

(** ** Errors *)

(** [%d] on an int. *)
Definition fmt_int (z : Z) : string := if z <? 0 then "-" +:+ fmt_d (- z) else fmt_d z.

Lemma textual_fmt_int d z : textual d (JNum (fmt_int z)).
Proof.
  unfold fmt_int. destruct (z <? 0); [|apply textual_fmt_d]. split_and!; [apply fmt_d_number|cbn; lia|done].
Qed.

(** [Error.Error]. *)
Definition node_error (method : string) (code : Z) (message : string) : error :=
  Errorf (method +:+ ": node error " +:+ fmt_int code +:+ ": " +:+ message).

Definition maxErrorBody : nat := 512.

Definition truncate (body : string) : string :=
  if (maxErrorBody <? String.length body)%nat then String.substring 0 maxErrorBody body +:+ "..." else body.

(** [HTTPError.Error]. *)
Definition http_error (method : string) (status : Z) (body : string) : error :=
  Errorf (method +:+ ": node returned HTTP " +:+ fmt_int status +:+ ": " +:+ body).

(** ** The client *)

Record Client := { url : string; nextID : Z }.

Definition trim_right_slashes (s : string) : string :=
  let fix go (l : list ascii) :=
    match l with
    | c :: l' => if ascii_dec c "/" then go l' else l
    | [] => []
    end in
  String.string_of_list_ascii (reverse (go (reverse (String.list_ascii_of_string s)))).

(** [NewWithHTTPClient]; the http.Client is the transport of a call. *)
Definition NewWithHTTPClient (u : string) : Client := {| url := trim_right_slashes u; nextID := 0 |}.

(** [New], whose own http.Client has a timeout. *)
Definition New (u : string) : Client := NewWithHTTPClient u.

Definition enc_request (id : Z) (method : string) (params : json) : json :=
  JObj [("jsonrpc", JStr "2.0"); ("id", JNum (fmt_int id)); ("method", JStr method); ("params", params)]%string.

Record response := { Result : RawMessage; Error : option (Z * string) }.
Definition zero_response : response := {| Result := None; Error := None |}.

(** A signed target of 64 bits. *)
Definition dec_int : decoder Z := λ j cur,
  match j with
  | JNull => Ok cur
  | JNum lit => of_option mismatch (parse_int lit)
  | _ => Err mismatch
  end.

Definition dec_error : decoder (Z * string) := dec_struct [
  ("code"%string, into fst (λ x e, (x, e.2)) dec_int);
  ("message"%string, into snd (λ x e, (e.1, x)) dec_string)].

Definition dec_response : decoder response := dec_struct [
  ("result"%string, into Result (λ x r, {| Result := x; Error := Error r |}) dec_raw);
  ("error"%string, into Error (λ x r, {| Result := Result r; Error := x |})
     (dec_ptr (0, EmptyString) dec_error))].

(** [json.Unmarshal(raw, &parsed)] on a whole body. *)
Definition parse_response (a : http_answer) : result response :=
  j ← of_option (Errorf "invalid character in JSON") (parse (ans_text a)); dec_response j zero_response.

(** What [Call] makes of an answer. *)
Definition read_answer {A} (d : decoder A) (zero : A) (method : string) (a : http_answer) : result A :=
  match parse_response a with
  | Err e =>
      if StatusCode a =? 200 then Err (wrapf (method +:+ ": decode response") e)
      else Err (http_error method (StatusCode a) (truncate (ans_text a)))
  | Ok parsed =>
      match Error parsed with
      | Some (code, message) => Err (node_error method code message)
      | None => wrap (method +:+ ": decode result") (Unmarshal d zero (Result parsed))
      end
  end.

(** [Client.Call] with a target. The counter is taken before anything can fail. *)
Definition Call {A} (post : transport) (c : Client) (method : string) (params : json) (d : decoder A) (zero : A)
    : result A * Client :=
  let id := int64 (nextID c + 1) in
  (a ← wrap (method +:+ ": call node") (post (url c) (print (enc_request id method params)));
   read_answer d zero method a,
   {| url := url c; nextID := id |}).

(** ** The node *)

(** The [Caller] interface: one method into one target. *)
Class Caller := caller : ∀ A, string → json → decoder A → A → result A.
Arguments caller {_ A} method params d zero.

(** A client at one moment as a [Caller]. *)
Definition client_caller (post : transport) (c : Client) : Caller :=
  λ A method params d zero, (Call post c method params d zero).1.

Module Node.
Section node.
Context `{!Base58, !Caller}.

Definition BestBlockHash : result (option Hash) :=
  caller "get_best_sidechain_block_hash" JNull (dec_ptr zero_hash dec_Hash) None.

Definition getblockcount : result Z := caller "getblockcount" JNull (dec_uint 32) 0.

Definition TipHeight : result Z :=
  count ← getblockcount;
  if count =? 0 then Err ErrEmptyChain else Ok (uint32 (count - 1)).

Definition BlockHashAt (height : Z) : result (option Hash) :=
  caller "get_block_hash" (JArr [JNum (fmt_d height)]) (dec_ptr zero_hash dec_Hash) None.

Definition get_block (hash : Hash) : result (option Block) :=
  caller "get_block" (JArr [enc_Hash hash]) (dec_ptr zero_Block dec_Block) None.

Definition GetBlock (hash : Hash) : result (option Block) :=
  wrap ("get block " +:+ Hash_String hash) (get_block hash).

Definition get_block_index (hash : Hash) : result BlockIndex :=
  caller "get_block_index" (JArr [enc_Hash hash]) dec_BlockIndex zero_BlockIndex.

Definition GetBlockIndex (hash : Hash) : result BlockIndex :=
  wrap ("get index for block " +:+ Hash_String hash) (get_block_index hash).

Definition SubmitTransaction (tx : json) : result Hash :=
  caller "submit_transaction" (JArr [tx]) dec_Hash zero_hash.

Definition list_mempool : result (list MempoolTx) := caller "list_mempool" JNull dec_Mempool [].

Definition ListMempool : result (list MempoolTx) := wrap "list the mempool" list_mempool.

Definition PendingWithdrawalBundle : result RawMessage :=
  caller "pending_withdrawal_bundle" JNull dec_raw None.

Definition LatestFailedWithdrawalBundleHeight : result (option Z) :=
  caller "latest_failed_withdrawal_bundle_height" JNull (dec_ptr 0 (dec_uint 32)) None.
End node.
End Node.

(** ** Answers of a node that speaks JSON-RPC *)

Definition enc_result (id : Z) (j : json) : json :=
  JObj [("jsonrpc", JStr "2.0"); ("id", JNum (fmt_int id)); ("result", j)]%string.

Definition enc_failure (id : Z) (code : Z) (message : string) : json :=
  JObj [("jsonrpc", JStr "2.0"); ("id", JNum (fmt_int id));
        ("error", JObj [("code", JNum (fmt_int code)); ("message", JStr message)])]%string.

Lemma parse_int_fmt_int z : is_i64 z → parse_int (fmt_int z) = Some z.
Proof.
  unfold is_i64, fmt_int. intros Hz. destruct (Z.ltb_spec z 0).
  - change (("-" +:+ fmt_d (- z))) with (String "-" (fmt_d (- z))). unfold parse_int.
    destruct (ascii_dec _ _); [|done]. rewrite parse_uint_fmt_d by lia. cbn -[Z.pow Z.leb].
    rewrite (proj2 (Z.leb_le _ _)) by lia. f_equal. lia.
  - apply parse_int_fmt_d. lia.
Qed.

(** An answer with the member [jsonrpc] reads the same whatever its id. *)
Lemma parse_result id j status text :
  parse text = Some (enc_result id j) →
  parse_response {| StatusCode := status; ans_text := text |} = Ok {| Result := Some j; Error := None |}.
Proof. intros H. unfold parse_response. cbn [ans_text]. by rewrite H. Qed.

Lemma parse_failure id code message status text :
  is_i64 code → parse text = Some (enc_failure id code message) →
  parse_response {| StatusCode := status; ans_text := text |} =
  Ok {| Result := None; Error := Some (code, message) |}.
Proof.
  intros Hc H. unfold parse_response. cbn [ans_text]. rewrite H. unfold enc_failure. cbn. by rewrite parse_int_fmt_int.
Qed.
