(* ===== verification/FakeNode.v ===== *)
(** * The test node

    [internal/e2e/fakenode.go]: a node that keeps its chain, its mempool and its
    withdrawal bundle in memory and serves them over JSON-RPC. Every method holds
    the mutex for its whole body, so each one is a single step. *)

From S2P Require Import Prelude GoStd Json JsonText Hash OutPoint Block BlockIndex Encode Rpc.
Open Scope Z_scope.

(** ** State *)

(** [blocks] holds pointers; nobody writes through them after [AddBlock]. *)
Record FakeNode := MkFakeNode {
  chainT : list Hash;
  fn_blocks : gmap Hash Block;
  fn_index : gmap Hash BlockIndex;
  submitted : list RawMessage;
  fn_mempool : list MempoolTx;
  bundle : RawMessage;
  failedHeight : option Z;
}.

(** [NewFakeNode]. *)
Definition NewFakeNode : FakeNode := MkFakeNode [] ∅ ∅ [] [] None None.

Definition Submitted (n : FakeNode) : list RawMessage := submitted n.

Definition SetWithdrawalBundle (b : RawMessage) (failed : option Z) (n : FakeNode) : FakeNode :=
  MkFakeNode (chainT n) (fn_blocks n) (fn_index n) (submitted n) (fn_mempool n) b failed.

Definition AddBlock (hash : Hash) (block : Block) (index : BlockIndex) (n : FakeNode) : FakeNode :=
  MkFakeNode (chainT n ++ [hash]) (<[hash := block]> (fn_blocks n)) (<[hash := index]> (fn_index n))
    (submitted n) (fn_mempool n) (bundle n) (failedHeight n).

Definition SetMempool (txs : list MempoolTx) (n : FakeNode) : FakeNode :=
  MkFakeNode (chainT n) (fn_blocks n) (fn_index n) (submitted n) txs (bundle n) (failedHeight n).

(** [Reorg] forgets the hashes above the height, not their blocks. *)
Definition Reorg (height : Z) (n : FakeNode) : FakeNode :=
  if height + 1 <? Z.of_nat (length (chainT n)) then
    MkFakeNode (take (Z.to_nat (uint32 (height + 1))) (chainT n)) (fn_blocks n) (fn_index n)
      (submitted n) (fn_mempool n) (bundle n) (failedHeight n)
  else n.

Definition add_submitted (tx : RawMessage) (n : FakeNode) : FakeNode :=
  MkFakeNode (chainT n) (fn_blocks n) (fn_index n) (submitted n ++ [tx]) (fn_mempool n) (bundle n) (failedHeight n).

(** ** Requests *)

Record request := { ID : Z; Method : string; Params : RawMessage }.
Definition zero_request : request := {| ID := 0; Method := EmptyString; Params := None |}.

Definition dec_request : decoder request := dec_struct [
  ("id"%string, into ID (λ x r, {| ID := x; Method := Method r; Params := Params r |}) dec_int);
  ("method"%string, into Method (λ x r, {| ID := ID r; Method := x; Params := Params r |}) dec_string);
  ("params"%string, into Params (λ x r, {| ID := ID r; Method := Method r; Params := x |}) dec_raw)].

(** [params] of one element: an error of the decoder and any other length come to
    the same answer. *)
Definition one_param {A} (zero : A) (d : decoder A) (what : error) (raw : RawMessage) : result A :=
  match Unmarshal (dec_slice zero d) [] raw with
  | Ok [x] => Ok x
  | _ => Err what
  end.

Definition hashParam : RawMessage → result Hash :=
  one_param zero_hash dec_Hash (Errorf "the method takes one block hash").

(** The id a submission answers: [chain.Hash{1, 2, 3}]. *)
Definition submitted_id : Hash := copy_into 32 [x01; x02; x03].

(** ** Serving *)

Section serve.
Context `{!Base58} (nil : bool).

(** [dispatch]: an error of the method, or a value with what [encoding/json]
    makes of it. *)
Definition dispatch (n : FakeNode) (req : request) : result (result json) * FakeNode :=
  let m := Method req in
  if String.eqb m "getblockcount" then (Ok (Ok (enc_uint (Z.of_nat (length (chainT n))))), n)
  else if String.eqb m "get_best_sidechain_block_hash" then
    (Ok (enc_ptr (λ h, Ok (enc_Hash h)) (last (chainT n))), n)
  else if String.eqb m "get_block_hash" then
    (height ← one_param 0 (dec_uint 32) (Errorf "get_block_hash takes one height") (Params req);
     Ok (enc_ptr (λ h, Ok (enc_Hash h)) (chainT n !! Z.to_nat height)), n)
  else if String.eqb m "get_block" then
    (hash ← hashParam (Params req); Ok (enc_ptr (enc_Block nil) (fn_blocks n !! hash)), n)
  else if String.eqb m "get_block_index" then
    (hash ← hashParam (Params req);
     index ← of_option (Errorf "no index for block") (fn_index n !! hash);
     Ok (enc_BlockIndex nil index), n)
  else if String.eqb m "list_mempool" then (Ok (enc_Mempool nil (fn_mempool n)), n)
  else if String.eqb m "pending_withdrawal_bundle" then (Ok (Ok (enc_raw (bundle n))), n)
  else if String.eqb m "latest_failed_withdrawal_bundle_height" then
    (Ok (enc_ptr (λ z, Ok (enc_uint z)) (failedHeight n)), n)
  else if String.eqb m "submit_transaction" then
    match one_param None dec_raw (Errorf "submit_transaction takes one transaction") (Params req) with
    | Ok tx => (Ok (Ok (JStr (Hash_String submitted_id))), add_submitted tx n)
    | Err e => (Err e, n)
    end
  else (Err (Errorf "method is not served"), n).

(** The body of an answer: a [map[string]any], whose keys come out sorted. *)
Definition answer_body (id : Z) (r : result (result json)) : result json :=
  match r with
  | Err e => enc_struct [
      ("error"%string, enc_struct [("code"%string, Ok (JNum (fmt_int (-32000)))); ("message"%string, Ok (JStr (error_text e)))]);
      ("id"%string, Ok (JNum (fmt_int id))); ("jsonrpc"%string, Ok (JStr "2.0"))]
  | Ok value => enc_struct [
      ("id"%string, Ok (JNum (fmt_int id))); ("jsonrpc"%string, Ok (JStr "2.0")); ("result"%string, value)]
  end.

Definition newline : string := String "010"%char EmptyString.

(** [serve]: the first value of the body is the request. A value that does not
    encode leaves the answer empty, under status 200. *)
Definition serve (n : FakeNode) (body : string) : http_answer * FakeNode :=
  match (j ← of_option (Errorf "invalid character in JSON") (parse_first body); dec_request j zero_request) with
  | Err e => ({| StatusCode := 400; ans_text := error_text e +:+ newline |}, n)
  | Ok req =>
      let '(r, n') := dispatch n req in
      (match answer_body (ID req) r with
       | Ok j => {| StatusCode := 200; ans_text := print j +:+ newline |}
       | Err _ => {| StatusCode := 200; ans_text := EmptyString |}
       end, n')
  end.

(** The node as it is now, at the other end of a connection. *)
Definition transport_of (n : FakeNode) : transport := λ _ body, Ok (serve n body).1.
End serve.

(** ** A call through the client *)

Lemma int64_range z : is_i64 (int64 z).
Proof. width. Qed.

(** A value fits in a request or an answer: one level holds it, or two hold the
    list it is the parameter of. *)
Definition level : nat := 9998.

Lemma level_fits : Datatypes.S (Datatypes.S level) = maxNestingDepth.
Proof. vm_compute. reflexivity. Qed.

#[global] Arguments level : simpl never.

Lemma textual_empty : textual level (JArr []).
Proof. apply textual_arr. constructor. Qed.

Lemma enc_request_textual id method params :
  ascii_text method = true → textual (Datatypes.S level) params → textual maxNestingDepth (enc_request id method params).
Proof.
  intros Hm Hp. rewrite <- level_fits. apply textual_obj.
  repeat apply Forall_cons_2; [..|apply Forall_nil_2]; cbn [fst snd]; apply textual_member; try done;
    [by apply textual_ascii|apply textual_fmt_int|by apply textual_ascii].
Qed.

(** The server reads the request the client wrote. *)
Lemma request_round_trip id method params :
  is_i64 id → ascii_text method = true → textual (Datatypes.S level) params →
  (j ← of_option (Errorf "invalid character in JSON") (parse_first (print (enc_request id method params)));
   dec_request j zero_request) = Ok {| ID := id; Method := method; Params := Some params |}.
Proof.
  intros Hi Hm Hp. destruct (parse_textual_whole _ (enc_request_textual id method params Hm Hp)) as [_ ->].
  unfold dec_request, enc_request. cbn. unfold into. cbn. by rewrite parse_int_fmt_int.
Qed.

(** A textual answer arrives. *)
Lemma answer_textual id r j :
  match r with
  | Err e => ascii_text (error_text e) = true
  | Ok v => ∀ x, v = Ok x → textual level x
  end → answer_body id r = Ok j → textual maxNestingDepth j.
Proof.
  intros Hr Hj. rewrite <- level_fits.
  destruct r as [[v|e]|e]; cbn in Hj; try done; injection Hj as <-; apply textual_obj;
    repeat apply Forall_cons_2; try apply Forall_nil_2; cbn [fst snd]; (apply textual_member; [done|]);
    try apply textual_fmt_int; try (by apply textual_ascii).
  - apply (textual_mono level); [by apply Hr|lia].
  - apply textual_obj. repeat apply Forall_cons_2; try apply Forall_nil_2; cbn [fst snd];
      (apply textual_member; [done|]); [exact (textual_fmt_int level (-32000))|by apply textual_ascii].
Qed.

Section calls.
Context `{Base58Laws} (nil : bool).

Definition asks (id : Z) (method : string) (params : json) : request :=
  {| ID := id; Method := method; Params := Some params |}.

(** A call of the client is one dispatch: an error of the method comes back with
    its text, a value is decoded into the target, and a value that does not
    encode is reported as an answer that is no JSON. *)
Theorem Call_dispatches {A} (n : FakeNode) (c : Client) method params (d : decoder A) zero :
  ascii_text method = true → textual (Datatypes.S level) params →
  let '(r, n') := dispatch nil n (asks (int64 (nextID c + 1)) method params) in
  match r with Err e => ascii_text (error_text e) = true | Ok v => ∀ x, v = Ok x → textual level x end →
  (serve nil n (print (enc_request (int64 (nextID c + 1)) method params))).2 = n' ∧
  (Call (transport_of nil n) c method params d zero).1 =
    match r with
    | Err e => Err (node_error method (-32000) (error_text e))
    | Ok (Ok j) => wrap (method +:+ ": decode result") (d j zero)
    | Ok (Err _) => Err (wrapf (method +:+ ": decode response") (Errorf "invalid character in JSON"))
    end.
Proof.
  intros Hm Hp. unfold Call, transport_of, serve. rewrite request_round_trip by (done || apply int64_range).
  fold (asks (int64 (nextID c + 1)) method params).
  destruct (dispatch nil n _) as [r n']. cbn [fst snd ID asks]. intros Ht. split; [done|].
  pose proof (answer_textual (int64 (nextID c + 1)) r) as Ha.
  unfold read_answer, parse_response. destruct (answer_body _ r) as [j|e] eqn:E; cbn [ans_text StatusCode wrap mbind result_bind].
  - destruct (parse_textual j newline (Ha _ Ht eq_refl) eq_refl) as [-> _].
    destruct r as [[v|e]|e]; cbn in E; try done; injection E as <-; done.
  - by destruct r as [[v|e']|e'].
Qed.

(** A value has a JSON, and a text holds that. *)
Definition sends {A} (enc : encoder A) (x : A) : Prop := ∃ j, enc x = Ok j ∧ textual level j.

(** What the node holds is fit to be sent. *)
Record sendable (n : FakeNode) : Prop := {
  sd_short : Z.of_nat (length (chainT n)) < 2 ^ 32;
  sd_block : map_Forall (λ _ b, Block_wf b ∧ sends (enc_Block nil) b) (fn_blocks n);
  sd_index : map_Forall (λ _ i, BlockIndex_wf i ∧ sends (enc_BlockIndex nil) i) (fn_index n);
  sd_mempool : Forall MempoolTx_wf (fn_mempool n) ∧ sends (enc_Mempool nil) (fn_mempool n);
  sd_bundle : textual level (enc_raw (bundle n));
  sd_failed : ∀ h, failedHeight n = Some h → is_u32 h;
}.

Context (n : FakeNode) (c : Client).
#[local] Instance client : Caller := client_caller (transport_of nil n) c.

(** A call whose value the target reads back. *)
Lemma call_answers {A} method params (d : decoder A) zero r x :
  ascii_text method = true → textual (Datatypes.S level) params →
  dispatch nil n (asks (int64 (nextID c + 1)) method params) = (Ok r, n) →
  (∃ j, r = Ok j ∧ textual level j ∧ d j zero = Ok x) → caller method params d zero = Ok x.
Proof.
  intros Hm Hp Hd (j & -> & Ht & Hj). pose proof (Call_dispatches n c method params d zero Hm Hp) as Hc.
  rewrite Hd in Hc. destruct Hc as [_ Hc]; [by intros ? [= <-]|]. unfold caller, client, client_caller. by rewrite Hc, Hj.
Qed.

Lemma call_fails {A} method params (d : decoder A) zero e :
  ascii_text method = true → textual (Datatypes.S level) params → ascii_text (error_text e) = true →
  dispatch nil n (asks (int64 (nextID c + 1)) method params) = (Err e, n) →
  caller method params d zero = Err (node_error method (-32000) (error_text e)).
Proof.
  intros Hm Hp He Hd. pose proof (Call_dispatches n c method params d zero Hm Hp) as Hc.
  rewrite Hd in Hc. by destruct (Hc He) as [_ Hc'].
Qed.

Lemma one_param_ok {A} (zero : A) d what j x : d j zero = Ok x → one_param zero d what (Some (JArr [j])) = Ok x.
Proof. intros Hd. unfold one_param. cbn. by rewrite Hd. Qed.

Lemma hashParam_ok h : hashParam (Some (JArr [enc_Hash h])) = Ok h.
Proof. apply one_param_ok, dec_enc_Hash. Qed.

Lemma textual_hash d (h : Hash) : textual d (enc_Hash h).
Proof. apply textual_ascii, hex_ascii. Qed.

#[local] Hint Resolve textual_hash textual_null textual_one textual_fmt_d : core.

(** A pointer is sent when what it points to is. *)
Lemma ptr_sends {A} (enc : encoder A) (dec : decoder A) (wf : A → Prop) zero (o : option A) :
  Wire enc dec wf → NotNull enc → (∀ x, o = Some x → wf x ∧ sends enc x) →
  ∃ j, enc_ptr enc o = Ok j ∧ textual level j ∧ dec_ptr zero dec j None = Ok o.
Proof.
  intros HW HN Ho. assert (∃ j, enc_ptr enc o = Ok j ∧ textual level j) as (j & Hj & Ht).
  { destruct o as [x|]; [exact (proj2 (Ho x eq_refl))|by exists JNull]. }
  exists j. split_and!; [done|done|]. eapply @wire; [by apply wire_ptr| |exact Hj].
  destruct o as [x|]; [by apply Ho|done].
Qed.

Context (Hn : sendable n).

Theorem count_served : Node.getblockcount = Ok (Z.of_nat (length (chainT n))).
Proof.
  eapply call_answers; [done|auto|reflexivity|]. eexists. split_and!; [done|apply textual_fmt_d|].
  apply dec_enc_uint. pose proof (sd_short _ Hn). lia.
Qed.

Lemma hash_sends (o : option Hash) :
  ∃ j, enc_ptr (λ h, Ok (enc_Hash h)) o = Ok j ∧ textual level j ∧ dec_ptr zero_hash dec_Hash j None = Ok o.
Proof. eapply ptr_sends; [typeclasses eauto..|]. intros x _. split; [done|]. eexists. split; [done|]. apply textual_hash. Qed.

Theorem best_served : Node.BestBlockHash = Ok (last (chainT n)).
Proof. eapply call_answers; [done|auto|reflexivity|apply hash_sends]. Qed.

Theorem hash_served i : is_u32 (Z.of_nat i) → Node.BlockHashAt (Z.of_nat i) = Ok (chainT n !! i).
Proof.
  intros Hi. eapply call_answers; [done|auto| |apply hash_sends].
  unfold dispatch. cbn -[one_param]. rewrite (one_param_ok _ _ _ _ (Z.of_nat i)) by (by apply (dec_enc_uint 32)).
  cbn. by rewrite Nat2Z.id.
Qed.

Theorem block_served h : Node.get_block h = Ok (fn_blocks n !! h).
Proof.
  eapply call_answers; [done|auto| |].
  - unfold dispatch. cbn -[hashParam]. by rewrite hashParam_ok.
  - eapply ptr_sends; [typeclasses eauto..|]. intros b Hb. by apply (sd_block _ Hn) in Hb.
Qed.

Theorem index_served h :
  Node.get_block_index h =
  match fn_index n !! h with
  | Some i => Ok i
  | None => Err (node_error "get_block_index" (-32000) "no index for block")
  end.
Proof.
  destruct (fn_index n !! h) as [i|] eqn:E.
  - destruct (sd_index _ Hn _ _ E) as [Hw (j & Hj & Ht)]. eapply call_answers; [done|auto| |].
    + unfold dispatch. cbn -[hashParam]. rewrite hashParam_ok. cbn. by rewrite E.
    + exists j. split_and!; [done|done|]. eapply @wire; [typeclasses eauto|exact Hw|exact Hj].
  - apply (call_fails _ _ _ _ (Errorf "no index for block")); [done|auto|done|].
    unfold dispatch. cbn -[hashParam]. rewrite hashParam_ok. cbn. by rewrite E.
Qed.

Theorem mempool_served : Node.list_mempool = Ok (fn_mempool n).
Proof.
  destruct (sd_mempool _ Hn) as [Hw (j & Hj & Ht)]. eapply call_answers; [done|auto|reflexivity|].
  exists j. split_and!; [done|done|]. eapply @wire; [apply wire_Mempool|exact Hw|exact Hj].
Qed.

(** A node without a bundle answers the text [null], not nothing. *)
Theorem bundle_served : Node.PendingWithdrawalBundle = Ok (Some (enc_raw (bundle n))).
Proof.
  eapply call_answers; [done|auto|reflexivity|]. eexists. split_and!; [done|apply (sd_bundle _ Hn)|done].
Qed.

Theorem failed_height_served : Node.LatestFailedWithdrawalBundleHeight = Ok (failedHeight n).
Proof.
  eapply call_answers; [done|auto|reflexivity|]. eapply ptr_sends; [typeclasses eauto..|].
  intros h Hh. split; [by apply (sd_failed _ Hn)|]. eexists. split; [done|]. apply textual_fmt_d.
Qed.

(** A submitted transaction is kept as it came, and its id comes back. *)
Theorem submit_served tx :
  textual level tx →
  Node.SubmitTransaction tx = Ok submitted_id ∧
  (serve nil n (print (enc_request (int64 (nextID c + 1)) "submit_transaction" (JArr [tx])))).2 = add_submitted (Some tx) n.
Proof.
  intros Ht. pose proof (Call_dispatches n c "submit_transaction" (JArr [tx]) dec_Hash zero_hash eq_refl (textual_one _ _ Ht)) as Hc.
  assert (dispatch nil n (asks (int64 (nextID c + 1)) "submit_transaction" (JArr [tx])) =
    (Ok (Ok (enc_Hash submitted_id)), add_submitted (Some tx) n)) as Hd by reflexivity.
  rewrite Hd in Hc. destruct Hc as [H1 H2]; [intros x [= <-]; apply textual_hash|]. split; [|done].
  unfold Node.SubmitTransaction, caller, client, client_caller. rewrite H2. apply wrap_ok, dec_enc_Hash.
Qed.

(** Any other method is refused. *)
Theorem unknown_refused {A} method params (d : decoder A) zero :
  method ∉ ["getblockcount"; "get_best_sidechain_block_hash"; "get_block_hash"; "get_block"; "get_block_index";
            "list_mempool"; "pending_withdrawal_bundle"; "latest_failed_withdrawal_bundle_height";
            "submit_transaction"]%string →
  ascii_text method = true → textual (Datatypes.S level) params →
  caller method params d zero = Err (node_error method (-32000) "method is not served").
Proof.
  intros Hm Ha Hp. apply (call_fails _ _ _ _ (Errorf "method is not served")); [done..|]. unfold dispatch. cbn [Method asks].
  rewrite !not_elem_of_cons in Hm. destruct_and! Hm.
  repeat match goal with |- context [String.eqb method ?s] => rewrite (proj2 (String.eqb_neq method s)) by done end.
  done.
Qed.

(** The test node as a client of it sees it: every method the index reads is
    answered over JSON-RPC with what the node holds, a height above the tip and an
    unknown block with nothing, an unknown index with an error; and a submitted
    transaction is kept as it came. *)
Theorem FakeNode_answers :
  let len := Z.of_nat (length (chainT n)) in
  Node.getblockcount = Ok len ∧ Node.TipHeight = (if len =? 0 then Err ErrEmptyChain else Ok (len - 1)) ∧
  Node.BestBlockHash = Ok (last (chainT n)) ∧
  (∀ i, is_u32 (Z.of_nat i) → Node.BlockHashAt (Z.of_nat i) = Ok (chainT n !! i)) ∧
  (∀ h, Node.GetBlock h = Ok (fn_blocks n !! h)) ∧
  (∀ h, fn_index n !! h = None → ∃ e, Node.GetBlockIndex h = Err e) ∧
  (∀ h i, fn_index n !! h = Some i → Node.GetBlockIndex h = Ok i) ∧
  Node.ListMempool = Ok (fn_mempool n) ∧
  Node.PendingWithdrawalBundle = Ok (Some (enc_raw (bundle n))) ∧
  Node.LatestFailedWithdrawalBundleHeight = Ok (failedHeight n) ∧
  (∀ tx, textual level tx → Node.SubmitTransaction tx = Ok submitted_id ∧
     Submitted (serve nil n (print (enc_request (int64 (nextID c + 1)) "submit_transaction" (JArr [tx])))).2 =
     Submitted n ++ [Some tx]).
Proof.
  intros len. pose proof (sd_short _ Hn) as Hlen. fold len in Hlen.
  split_and!; [apply count_served| |apply best_served|intros i; apply hash_served|..].
  - unfold Node.TipHeight. rewrite count_served. cbn [mbind result_bind]. fold len.
    destruct (Z.eqb_spec len 0); [done|]. by rewrite uint32_small by (unfold is_u32; lia).
  - intros h. unfold Node.GetBlock. apply wrap_ok, block_served.
  - intros h Hi. unfold Node.GetBlockIndex. rewrite index_served, Hi. by eexists.
  - intros h i Hi. unfold Node.GetBlockIndex. apply wrap_ok. by rewrite index_served, Hi.
  - unfold Node.ListMempool. apply wrap_ok, mempool_served.
  - apply bundle_served.
  - apply failed_height_served.
  - intros tx Ht. pose proof (submit_served tx Ht) as [H1 H2]. split; [done|]. by rewrite H2.
Qed.
End calls.
