(* ===== verification/Registry.v ===== *)
(** * The chain registry

    [internal/chain/registry.go] and [internal/chain/register/register.go]:
    networks and their port bands, the table of sidechains, and the decoder
    table that start-up fills. A panic is an error of [Register]. *)

From S2P Require Import Prelude GoStd Json Hash Block Decoders.
Open Scope Z_scope.

(** ** Networks *)

Definition Network := string.
Definition Signet : Network := "signet".
Definition Regtest : Network := "regtest".
Definition Mainnet : Network := "mainnet".

Definition portOffset (n : Network) : result Z :=
  if String.eqb n Signet then Ok 0
  else if String.eqb n Regtest then Ok 10000
  else if String.eqb n Mainnet then Ok 20000
  else Err (Errorf "unknown network").

Definition ParseNetwork (s : string) : result Network :=
  _ ← portOffset s; Ok s.

(** ** The table *)

Record Spec := { Name : string; Slot : Z; NodeBasePort : Z; APIBasePort : Z }.

Definition NodeRPCPort (s : Spec) (n : Network) : result Z :=
  offset ← portOffset n; Ok (NodeBasePort s + offset).

Definition APIPort (s : Spec) (n : Network) : result Z :=
  offset ← portOffset n; Ok (APIBasePort s + offset).

Definition spec_rows : list Spec := [
  {| Name := "bitnames"; Slot := 2; NodeBasePort := 6002; APIBasePort := 3002 |};
  {| Name := "bitassets"; Slot := 4; NodeBasePort := 6004; APIBasePort := 3004 |};
  {| Name := "thunder"; Slot := 9; NodeBasePort := 6009; APIBasePort := 3009 |};
  {| Name := "truthcoin"; Slot := 13; NodeBasePort := 6013; APIBasePort := 3013 |};
  {| Name := "zside"; Slot := 98; NodeBasePort := 6098; APIBasePort := 3098 |};
  {| Name := "photon"; Slot := 99; NodeBasePort := 6099; APIBasePort := 3099 |};
  {| Name := "coinshift"; Slot := 255; NodeBasePort := 6255; APIBasePort := 3255 |}].

Definition specs : gmap string Spec := list_to_map ((λ s, (Name s, s)) <$> spec_rows).

(** ** Decoders *)

Definition decoder_table := gmap string Decoder.

Definition Register (d : Decoder) (decoders : decoder_table) : result decoder_table :=
  let name := @decoder_Name d in
  _ ← reject (bool_decide (specs !! name = None)) (Errorf "chain is not in the registry");
  _ ← reject (bool_decide (is_Some (decoders !! name))) (Errorf "chain already has a decoder");
  Ok (<[name := d]> decoders).

Definition Lookup (name : string) (decoders : decoder_table) : result (Spec * Decoder) :=
  spec ← of_option (Errorf "unknown chain") (specs !! name);
  decoder ← of_option (Errorf "chain has no output decoder yet") (decoders !! name);
  Ok (spec, decoder).

(** Byte-wise string order, as [sort.Strings] uses. *)
Fixpoint string_leb (a b : string) : bool :=
  match a, b with
  | EmptyString, _ => true
  | String _ _, EmptyString => false
  | String x a, String y b =>
      if (N_of_ascii x <? N_of_ascii y)%N then true
      else if (N_of_ascii x =? N_of_ascii y)%N then string_leb a b else false
  end.

Definition sortedKeys {V} (m : gmap string V) : list string :=
  merge_sort (λ a b, string_leb a b) (map_to_list m).*1.

Definition Names : list string := sortedKeys specs.
Definition Supported (decoders : decoder_table) : list string := sortedKeys decoders.

(** The order [register.init] runs in. *)
Definition all_decoders : list Decoder := [
  Thunder.Decoder; Bitassets.Decoder; Bitnames.Decoder; Coinshift.Decoder; Photon.Decoder;
  Truthcoin.Decoder; Zside.Decoder].

Definition register_init : result decoder_table := foldE (λ t d, Register d t) ∅ all_decoders.

(** ** What start-up establishes *)

Definition chain_names : list string :=
  ["bitassets"; "bitnames"; "coinshift"; "photon"; "thunder"; "truthcoin"; "zside"]%string.

Lemma all_decoders_laws d : d ∈ all_decoders → DecoderLaws d.
Proof.
  intros Hd. unfold all_decoders in Hd. rewrite !elem_of_cons, elem_of_nil in Hd.
  destruct Hd as [-> | [-> | [-> | [-> | [-> | [-> | [-> | []]]]]]]]; apply _.
Qed.

(** A value in the table came from a registration. *)
Lemma Register_lookup d t t' name d' :
  Register d t = Ok t' → t' !! name = Some d' → t !! name = Some d' ∨ d' = d.
Proof.
  unfold Register. intros H. inv_ok. intros [[_ <-]|[_ ?]]%lookup_insert_Some; auto.
Qed.

Lemma register_all_In ds t t' :
  foldE (λ t d, Register d t) t ds = Ok t' →
  ∀ name d, t' !! name = Some d → t !! name = Some d ∨ d ∈ ds.
Proof.
  revert t; induction ds as [|d ds IH]; intros t; cbn; [intros [= <-]; auto|].
  intros H. inv_ok. intros name d' Hd'.
  destruct (IH _ H name d' Hd') as [Hx|Hx]; [|set_solver].
  destruct (Register_lookup _ _ _ _ _ H0 Hx); set_solver.
Qed.

(** Start-up never panics. *)
Lemma register_init_ok : is_Ok register_init.
Proof. apply (bool_decide_unpack _). vm_compute. exact I. Qed.

(** ** Withdrawals, on every chain *)

(** A withdrawal names its amounts as [value] and [main_fee]; one serializer renames
    them to [value_sats] and [main_fee_sats]. Any of the four may be absent. *)
Definition amount (name : string) (o : option Z) : list (string * json) :=
  from_option (λ x, [(name, JNum (fmt_d x))]) [] o.

Definition withdrawal_json (v f vs fs : option Z) (addr : string) : json :=
  JObj (amount "value" v ++ amount "main_fee" f ++ amount "value_sats" vs ++ amount "main_fee_sats" fs ++
        [("main_address"%string, JStr addr)]).

Definition withdrawal_of (v f vs fs : option Z) (addr : string) : withdrawal :=
  {| wd_Value := default 0 v; wd_MainFee := default 0 f; wd_ValueSats := default 0 vs;
     wd_MainFeeSats := default 0 fs; wd_MainAddress := addr |}.

Definition amount_ok (o : option Z) : Prop := from_option is_u64 True o.

Lemma amount_default o : amount_ok o → is_u64 (default 0 o).
Proof. destruct o; [done|]. intros _. unfold is_u64. cbn. lia. Qed.

Lemma dec_withdrawal_json v f vs fs addr :
  amount_ok v → amount_ok f → amount_ok vs → amount_ok fs →
  dec_withdrawal (withdrawal_json v f vs fs addr) zero_withdrawal = Ok (withdrawal_of v f vs fs addr).
Proof.
  intros Hv Hf Hvs Hfs. unfold dec_withdrawal, withdrawal_json, withdrawal_of, zero_withdrawal, amount.
  destruct v, f, vs, fs; cbn -[dec_uint fmt_d]; unfold into; cbn -[fmt_d Z.pow];
    cbn [amount_ok from_option] in *; by rewrite ?parse_uint_fmt_d by done.
Qed.

(** What an output of a withdrawal is called: an output of a block
    [Withdrawal], and a filled one of bitnames or bitassets [BitcoinWithdrawal]. *)
Definition withdrawal_tag (D : Decoder) (tag : string) : Prop :=
  tag = "Withdrawal"%string ∨
  tag = "BitcoinWithdrawal"%string ∧ @decoder_Name D ∈ ["bitnames"; "bitassets"]%string.

Definition withdrawal_output (tag : string) (v f vs fs : option Z) (addr : string) : RawMessage :=
  Some (JObj [(tag, withdrawal_json v f vs fs addr)]).

Lemma dec_ptr_withdrawal_json v f vs fs addr :
  amount_ok v → amount_ok f → amount_ok vs → amount_ok fs →
  dec_ptr zero_withdrawal dec_withdrawal (withdrawal_json v f vs fs addr) None =
  Ok (Some (withdrawal_of v f vs fs addr)).
Proof.
  intros Hv Hf Hvs Hfs. pose proof (dec_withdrawal_json v f vs fs addr Hv Hf Hvs Hfs) as Hw.
  unfold dec_ptr. cbn [default]. by rewrite Hw.
Qed.

(** All seven decoders hand a withdrawal to the same rule. *)
Lemma decode_withdrawal_output D tag v f vs fs addr :
  D ∈ all_decoders → withdrawal_tag D tag → amount_ok v → amount_ok f → amount_ok vs → amount_ok fs →
  @DecodeContent D (withdrawal_output tag v f vs fs addr) = withdrawal_content (withdrawal_of v f vs fs addr).
Proof.
  intros HD Ht Hv Hf Hvs Hfs.
  pose proof (dec_withdrawal_json v f vs fs addr Hv Hf Hvs Hfs) as Hw.
  pose proof (dec_ptr_withdrawal_json v f vs fs addr Hv Hf Hvs Hfs) as Hp.
  unfold all_decoders in HD. rewrite !elem_of_cons, elem_of_nil in HD.
  destruct HD as [-> | [-> | [-> | [-> | [-> | [-> | [-> | []]]]]]]];
    destruct Ht as [->|[-> Hn]]; try (by apply (bool_decide_pack _) in Hn; destruct Hn);
    unfold withdrawal_output; cbn [Block.DecodeContent Thunder.Decoder Photon.Decoder Zside.Decoder
      Coinshift.Decoder Bitnames.Decoder Bitassets.Decoder Truthcoin.Decoder].
  2,3,4,5,8: unfold Bitassets.DecodeContent, Bitnames.DecodeContent, Truthcoin.DecodeContent;
    rewrite Variant_object; cbn [wrap mbind result_bind String.eqb Ascii.eqb Bool.eqb andb orb];
    unfold Bitassets.withdrawalValue, Bitnames.withdrawalValue, Truthcoin.withdrawalValue, Unmarshal;
    by rewrite Hw.
  all: unfold Zside.DecodeContent, Photon.DecodeContent, Thunder.DecodeContent, Thunder.decode_as,
      Coinshift.DecodeContent, Unmarshal;
    cbn -[dec_ptr zero_withdrawal dec_withdrawal withdrawal_json withdrawal_content];
    unfold into; cbn -[dec_ptr zero_withdrawal dec_withdrawal withdrawal_json withdrawal_content];
    by rewrite Hp.
Qed.

(** ** Ports *)

(** Every port the seven chains listen on or dial, over the three networks. *)
Definition all_ports : list (result Z) :=
  n ← [Signet; Regtest; Mainnet]; s ← spec_rows; [NodeRPCPort s n; APIPort s n].

Lemma all_ports_distinct : NoDup all_ports ∧ Forall is_Ok all_ports.
Proof. split; apply (bool_decide_unpack _); vm_compute; exact I. Qed.

(** The registry lists its chains in order, and start-up reads all of them. *)
Lemma register_init_names :
  Names = chain_names ∧ Supported <$> register_init = Ok chain_names.
Proof. split; vm_compute; reflexivity. Qed.
