(* ===== verification/ChainProps.v ===== *)
(** * The contract of the chain package

    Keys, JSON forms, amounts, authorizations and the registry of
    [internal/chain]. *)

From S2P Require Import Prelude GoStd Json Hash OutPoint Block BlockIndex Decoders Registry.
Open Scope Z_scope.

(** C21: The 37-byte key encodes an outpoint faithfully: decoding an encoded
    outpoint of a known kind gives it back, encoding a decoded key gives the key
    back, and two outpoints within their Go types never share a key. *)
Theorem Key_faithful o1 o2 key :
  OutPoint_typed o1 → OutPoint_typed o2 →
  (Kind o1 ≤ KindPayout → OutPointFromKey (Key o1) = Ok o1) ∧
  (OutPointFromKey key = Ok o2 → Key o2 = key) ∧
  (Key o1 = Key o2 → o1 = o2).
Proof.
  intros H1 H2. split_and!.
  - intros Hk. destruct H1 as [Hk1 Hv1]. apply OutPointFromKey_Key; [|done]. unfold is_u8 in Hk1. lia.
  - apply Key_OutPointFromKey.
  - by apply Key_inj.
Qed.

(** A market funds outpoint packs its market, block height and fee flag into
    the source so that all three read back. *)
Theorem market_funds_roundtrip marketID h isFee :
  is_u32 h →
  Kind (MarketFundsOutPoint marketID h isFee) = KindMarketFunds ∧
  MarketFunds (MarketFundsOutPoint marketID h isFee) = (marketID, h, isFee).
Proof. intros Hh. split; [done | by apply MarketFunds_MarketFundsOutPoint]. Qed.

(** Every outpoint the program can write as JSON reads back as itself, over
    all five kinds, with a deposit in mainchain byte order. *)
Theorem OutPoint_json_roundtrip o j cur :
  is_u32 (Vout o) → (Kind o = KindMarketFunds → market_packed o) →
  enc_OutPoint o = Ok j → dec_OutPoint j cur = Ok o.
Proof. apply OutPoint_json. Qed.

(** An input reads back from the form it is written in: a bare outpoint, or
    a pair with the leaf hash. *)
Theorem Input_json_roundtrip i j cur :
  Input_wf i → enc_Input i = Ok j → dec_Input j cur = Ok i.
Proof. apply dec_enc_Input. Qed.

(** Both shapes of a coinbase survive a round trip, and the shape decides
    what its outputs key on. *)
Theorem Coinbase_json_roundtrip `{Base58Laws} c cur :
  Forall Output_wf (cb_Outputs c) → (cb_KeyedByTxid c = false → cb_Memo c = []) →
  dec_Coinbase (enc_Coinbase c) cur = Ok c.
Proof. apply dec_enc_Coinbase. Qed.

(** Every text form of a hash reads back: sidechain hashes in their own byte
    order, mainchain hashes reversed, addresses in base58, byte strings in hex. *)
Theorem text_roundtrips `{Base58Laws} (h : Hash) (m : BitcoinHash) (a : Address) (b : Bytes) cur :
  ParseHash (Hash_String h) = Ok h ∧ parse_BitcoinHash (BitcoinHash_String m) = Ok m ∧
  dec_Address (enc_Address a) cur = Ok a ∧ decodeHex (Bytes_String b) = Some b.
Proof.
  split_and!; [apply ParseHash_String | apply parse_BitcoinHash_String | apply dec_enc_Address
              | apply decodeHex_String].
Qed.

(** The signatures of a body are cut into one list per transaction, as long
    as its inputs, that together are the flat list in order. *)
Theorem AuthorizationsFor_partition b :
  (count_inputs (Transactions b) ≤ length (Authorizations b))%nat →
  ∃ parts,
    traverse (λ i _, AuthorizationsFor b (Z.of_nat i)) (Transactions b) = Ok parts ∧
    concat parts = take (count_inputs (Transactions b)) (Authorizations b) ∧
    ∀ i tx part, Transactions b !! i = Some tx → parts !! i = Some part →
                 length part = length (Inputs tx).
Proof. apply authorizations_partition. Qed.

(** Two headers with the same coinbase txid are equal, unless the digest
    collides on their encodings: the encoding itself loses nothing, and the
    missing previous hash of a genesis block is never confused with a present
    one. *)
Theorem CoinbaseTxid_injective {B3 : Blake3} h1 h2 :
  (blake3_sum256 (coinbase_encoding h1) = blake3_sum256 (coinbase_encoding h2) →
     coinbase_encoding h1 = coinbase_encoding h2) →
  CoinbaseTxid h1 = CoinbaseTxid h2 → h1 = h2.
Proof. intros Hinj H. apply coinbase_encoding_inj. by apply Hinj. Qed.

(** A decoded block index stores no outpoint outside its Go types, whatever
    JSON the node sent. *)
Theorem BlockIndex_typed `{!Base58} j bi :
  dec_BlockIndex j zero_BlockIndex = Ok bi → index_typed bi.
Proof. apply dec_BlockIndex_typed. Qed.

(** C20: On all seven chains a withdrawal is worth exactly its payout plus its
    mainchain fee, in whichever of the two spellings each is written, the larger where
    both are, nothing where neither is; and under whichever name the chain writes the
    output. It is refused when that sum does not fit an [int64]: the [uint64]
    addition never wraps into a smaller amount. *)
Theorem withdrawal_exact D tag v f vs fs addr :
  D ∈ all_decoders → withdrawal_tag D tag →
  amount_ok v → amount_ok f → amount_ok vs → amount_ok fs →
  let total := Z.max (default 0 v) (default 0 vs) + Z.max (default 0 f) (default 0 fs) in
  (total ≤ MaxInt64 →
     @DecodeContent D (withdrawal_output tag v f vs fs addr) = Ok {| ValueSats := total; Type_ := "withdrawal" |}) ∧
  (MaxInt64 < total → ∃ e, @DecodeContent D (withdrawal_output tag v f vs fs addr) = Err e).
Proof.
  intros HD Ht Hv Hf Hvs Hfs total. rewrite (decode_withdrawal_output D tag v f vs fs addr HD Ht Hv Hf Hvs Hfs).
  apply (withdrawal_content_exact (withdrawal_of v f vs fs addr)).
  unfold withdrawal_typed, withdrawal_of. cbn [wd_Value wd_MainFee wd_ValueSats wd_MainFeeSats].
  by split_and!; apply amount_default.
Qed.

(** Every decoder start-up registers, under whatever name a caller looks it
    up, answers only amounts from 0 to the largest [int64]. *)
Theorem registered_amounts_fit table name spec (D : Decoder) raw c :
  register_init = Ok table → Lookup name table = Ok (spec, D) →
  DecodeContent raw = Ok c → 0 ≤ ValueSats c ≤ MaxInt64.
Proof.
  intros Ht Hl Hc. unfold Lookup in Hl.
  apply bind_ok in Hl as (s & _ & (d & Hd%of_option_ok & [= _ ->])%bind_ok).
  destruct (register_all_In _ _ _ Ht name D Hd) as [|Hin]; [done|].
  exact (all_decoders_laws D Hin raw c Hc).
Qed.

(** Start-up registers every chain of the registry and no other, and no two
    chains, on any of the three networks, share a port. *)
Theorem registry_complete :
  Names = chain_names ∧ Supported <$> register_init = Ok chain_names ∧
  NoDup all_ports ∧ Forall is_Ok all_ports.
Proof.
  exact (conj (proj1 register_init_names) (conj (proj2 register_init_names) all_ports_distinct)).
Qed.
