(* ===== verification/Tables.v ===== *)
(** * The Postgres schema and the transaction monad

    [internal/store/migrations/*.sql] and the transaction helper of
    [internal/store/store.go]. A table is a finite map from its primary key to
    the other columns; the three tables a block writes form the [ledger]. A
    computation runs against a connection whose next statements may fail, so
    atomicity is a theorem rather than an assumption about the happy path. *)

From S2P Require Import Prelude GoStd Json Hash OutPoint Block.
Open Scope Z_scope.

(** ** Rows *)

Record block_row := {
  b_hash : Hash;
  b_prev_hash : option Hash;
  b_merkle_root : Hash;
  b_main_hash : BitcoinHash;
  b_main_height : option Z;
  b_block_time : option Z;
  b_tx_count : Z;
}.

Record tx_row := {
  t_height : Z;
  t_tx_index : Z;
  t_size_bytes : Z;
  t_fee_sats : Z;
  t_raw : Bytes;
}.

(** The columns [spent_source], [spent_kind], [spent_vin] and [spent_height].
    Every statement of the program writes the four together, to values or to
    [NULL], so they are one nullable group. *)
Record spent_cols := { sp_source : Hash; sp_kind : Z; sp_vin : Z; sp_height : Z }.

Record output_row := {
  o_kind : Z;
  o_source_id : Hash;
  o_vout : Z;
  o_block_hash : Hash;
  o_address : Address;
  o_scripthash : array 32;
  o_value_sats : Z;
  o_content : json;
  o_content_type : string;
  o_height : Z;
  o_height_exact : bool;
  o_spent : option spent_cols;
}.

Record sync_row := {
  sy_chain : string;
  sy_network : string;
  sy_tip_height : option Z;
  sy_tip_hash : option Hash;
}.

Record mempool_tx_row := {
  mp_tx_index : Z; mp_size_bytes : Z; mp_fee_sats : Z; mp_raw : Bytes; mp_first_seen : Z;
}.

Record mempool_output_row := {
  mo_kind : Z; mo_source_id : Hash; mo_vout : Z; mo_address : Address;
  mo_scripthash : array 32; mo_value_sats : Z; mo_content : json; mo_content_type : string;
}.

Record mempool_spend_row := { ms_source : Hash; ms_kind : Z; ms_vin : Z }.

(** ** Tables *)

Record ledger := Ledger {
  blocks : gmap Z block_row;
  txs : gmap Hash tx_row;
  outputs : gmap OutPointKey output_row;
}.

Record mempool_tables := MempoolTables {
  mempool_txs : gmap Hash mempool_tx_row;
  mempool_outputs : gmap OutPointKey mempool_output_row;
  mempool_spends : gmap OutPointKey mempool_spend_row;
}.

Record db := Db {
  chain_tables : ledger;
  sync_state : option sync_row;
  pool : mempool_tables;
}.

Definition empty_ledger : ledger := Ledger ∅ ∅ ∅.
Definition empty_pool : mempool_tables := MempoolTables ∅ ∅ ∅.

(** What the migrations leave behind. *)
Definition empty_db : db := Db empty_ledger None empty_pool.

Lemma ledger_eq l1 l2 :
  blocks l1 = blocks l2 → txs l1 = txs l2 → outputs l1 = outputs l2 → l1 = l2.
Proof. destruct l1, l2; cbn; by intros -> -> ->. Qed.

(** ** What the program takes from Postgres

    [jsonb] is the cast of a text to the JSONB type, which may normalise it or
    refuse it. An [UPDATE ... FROM] that joins one target row with several
    source rows uses one of them, and does not say which. [scan] is the order in
    which a query meets the rows of a table; an [ORDER BY] sorts that list, so
    rows its keys do not tell apart come in an order the query does not fix. *)

Class Postgres := {
  jsonb : json → option json;
  update_pick : ∀ {A}, A → list A → A;
  scan : ∀ {A}, list A → list A;
}.

Class PostgresLaws `{!Postgres} : Prop := {
  update_pick_In : ∀ A (a : A) l, update_pick a l ∈ a :: l;
  scan_perm : ∀ A (l : list A), scan l ≡ₚ l;
}.

(** A stand-in for examples: JSON is stored as it is, the first row wins, and a
    scan meets the rows in the order of the map. *)
Definition plain_postgres : Postgres :=
  {| jsonb := Some; update_pick := λ A a _, a; scan := λ A l, l |}.

Lemma plain_postgres_laws : @PostgresLaws plain_postgres.
Proof. split; [|done]. intros A a l. cbn. set_solver. Qed.

(** ** Statements and transactions *)

(** A connection: the database behind it, and for each coming statement whether
    it fails. An exhausted list never fails again. *)
Record conn := Conn { c_db : db; c_faults : list bool }.

Definition M (A : Type) := conn → result A * conn.

#[export] Instance M_ret : MRet M := λ A a c, (Ok a, c).
#[export] Instance M_bind : MBind M := λ A B f m c,
  match m c with
  | (Ok a, c') => f a c'
  | (Err e, c') => (Err e, c')
  end.

Definition fail {A} (e : error) : M A := λ c, (Err e, c).

Definition io_error : error := Errorf "connection failed".

(** One statement: a function on the database, run when the connection holds. *)
Definition exec {A} (q : db → result (A * db)) : M A := λ c,
  match c_faults c with
  | true :: fs => (Err io_error, Conn (c_db c) fs)
  | fs =>
      match q (c_db c) with
      | Ok (a, d') => (Ok a, Conn d' (tail fs))
      | Err e => (Err e, Conn (c_db c) (tail fs))
      end
  end.

(** A statement that only reads. *)
Definition query {A} (q : db → result A) : M A :=
  exec (λ d, a ← q d; Ok (a, d)).

(** [Store.inTx]: begin, run, commit; any failure rolls back. *)
Definition inTx {A} (fn : M A) : M A := λ c,
  match exec (λ d, Ok (tt, d)) c with
  | (Err e, c') => (Err (wrapf "begin transaction" e), c')
  | (Ok _, c1) =>
      match fn c1 with
      | (Err e, c2) => (Err e, Conn (c_db c) (c_faults c2))
      | (Ok a, c2) =>
          match exec (λ d, Ok (tt, d)) c2 with
          | (Err e, c3) => (Err (wrapf "commit transaction" e), Conn (c_db c) (c_faults c3))
          | (Ok _, c3) => (Ok a, c3)
          end
      end
  end.

(** A run on a connection that never fails. *)
Definition run {A} (m : M A) (d : db) : result A * db :=
  let '(r, c) := m (Conn d []) in (r, c_db c).

(** ** What success on a failing connection tells

    A computation that succeeds consumed no fault that mattered, so it did what
    it does on a connection that never fails. *)

Class FaultMono {A} (m : M A) : Prop :=
  fault_mono : ∀ c a c', m c = (Ok a, c') → m (Conn (c_db c) []) = (Ok a, Conn (c_db c') []).

#[export] Instance fault_mono_ret {A} (a : A) : FaultMono (mret a : M A).
Proof. intros [d fs] b c'. cbn. intros [= <- <-]. done. Qed.

#[export] Instance fault_mono_bind {A B} (m : M A) (f : A → M B) :
  FaultMono m → (∀ a, FaultMono (f a)) → FaultMono (m ≫= f).
Proof.
  intros Hm Hf c b c'. unfold mbind, M_bind.
  destruct (m c) as [[a|e] c1] eqn:E; [|done]. intros H.
  rewrite (Hm _ _ _ E). by rewrite (Hf a _ _ _ H).
Qed.

#[export] Instance fault_mono_fail {A} e : FaultMono (fail e : M A).
Proof. done. Qed.

#[export] Instance fault_mono_exec {A} (q : db → result (A * db)) : FaultMono (exec q).
Proof.
  intros [d fs] a c'. unfold exec. cbn. destruct fs as [|[] fs]; [| done |];
    destruct (q d) as [[a' d']|e]; try done; by intros [= <- <-].
Qed.

#[export] Instance fault_mono_query {A} (q : db → result A) : FaultMono (query q).
Proof. apply fault_mono_exec. Qed.

#[export] Instance fault_mono_inTx {A} (m : M A) : FaultMono m → FaultMono (inTx m).
Proof.
  intros Hm c a c'. unfold inTx.
  destruct (exec _ c) as [[u|e] c1] eqn:E1; [|done].
  destruct (m c1) as [[a'|e] c2] eqn:E2; [|done].
  destruct (exec _ c2) as [[u'|e] c3] eqn:E3; [|done].
  intros [= <- <-].
  apply fault_mono in E1. apply Hm in E2. apply fault_mono in E3.
  by rewrite E1, E2, E3.
Qed.

(** A failed transaction leaves the database as it was. *)
Lemma inTx_err {A} (m : M A) c e c' : inTx m c = (Err e, c') → c_db c' = c_db c.
Proof.
  destruct c as [d fs]. unfold inTx, exec. cbn.
  destruct fs as [|[] fs]; cbn; [| by intros [= <- <-] |];
    (destruct (m _) as [[a|e'] [d2 fs2]]; cbn; [|by intros [= <- <-]]);
    destruct fs2 as [|[] fs2]; cbn; intros [=]; by subst.
Qed.

(** All or nothing: whatever statement fails, the database holds either the
    complete effect of the transaction or none of it. *)
Lemma inTx_all_or_nothing {A} (m : M A) c r c' :
  FaultMono m → inTx m c = (r, c') →
  match r with
  | Ok a => run (inTx m) (c_db c) = (Ok a, c_db c')
  | Err _ => c_db c' = c_db c
  end.
Proof.
  intros Hm H. destruct r as [a|e]; [|by eapply inTx_err].
  apply (fault_mono (m := inTx m)) in H. unfold run. by rewrite H.
Qed.

(** ** Computing [run] *)

Lemma run_ret {A} (a : A) d : run (mret a) d = (Ok a, d).
Proof. done. Qed.

Lemma run_fail {A} e d : run (fail e : M A) d = (Err e, d).
Proof. done. Qed.

Lemma run_exec {A} (q : db → result (A * db)) d :
  run (exec q) d = match q d with Ok (a, d') => (Ok a, d') | Err e => (Err e, d) end.
Proof. unfold run, exec. cbn. by destruct (q d) as [[a d']|e]. Qed.

Lemma run_query {A} (q : db → result A) d : run (query q) d = (q d, d).
Proof. unfold query. rewrite run_exec. by destruct (q d). Qed.

(** A computation started without faults ends without faults. *)
Class NoFaults {A} (m : M A) : Prop :=
  no_faults : ∀ d, c_faults (snd (m (Conn d []))) = [].

#[export] Instance no_faults_ret {A} (a : A) : NoFaults (mret a : M A).
Proof. done. Qed.
#[export] Instance no_faults_fail {A} e : NoFaults (fail e : M A).
Proof. done. Qed.
#[export] Instance no_faults_exec {A} (q : db → result (A * db)) : NoFaults (exec q).
Proof. intros d. unfold exec; cbn. by destruct (q d) as [[a d']|e]. Qed.
#[export] Instance no_faults_query {A} (q : db → result A) : NoFaults (query q).
Proof. apply no_faults_exec. Qed.
#[export] Instance no_faults_bind {A B} (m : M A) (f : A → M B) :
  NoFaults m → (∀ a, NoFaults (f a)) → NoFaults (m ≫= f).
Proof.
  intros Hm Hf d. unfold mbind, M_bind. pose proof (Hm d) as H.
  destruct (m (Conn d [])) as [[a|e] [d' fs]]; cbn in *; subst; [apply Hf | done].
Qed.
#[export] Instance no_faults_inTx {A} (m : M A) : NoFaults m → NoFaults (inTx m).
Proof.
  intros Hm d. unfold inTx, exec. cbn. pose proof (Hm d) as H.
  destruct (m (Conn d [])) as [[a|e] [d' fs]]; cbn in *; by subst.
Qed.

Lemma run_bind {A B} (m : M A) (f : A → M B) d :
  NoFaults m →
  run (m ≫= f) d = match run m d with (Ok a, d') => run (f a) d' | (Err e, d') => (Err e, d') end.
Proof.
  intros Hm. unfold run, mbind, M_bind. pose proof (Hm d) as H.
  destruct (m (Conn d [])) as [[a|e] [d' fs]]; cbn in *; by subst.
Qed.

Lemma run_inTx {A} (m : M A) d :
  NoFaults m →
  run (inTx m) d = match run m d with (Ok a, d') => (Ok a, d') | (Err e, _) => (Err e, d) end.
Proof.
  intros Hm. unfold run, inTx, exec. cbn. pose proof (Hm d) as H.
  destruct (m (Conn d [])) as [[a|e] [d' fs]]; cbn in *; by subst.
Qed.
