(* ===== verification/Write.v ===== *)
(** * Writing blocks

    [internal/store/write.go]: [Apply] writes one block in one transaction,
    [Rollback] undoes every block above a height, and [Tip], [HashAt] and
    [Init] read and claim the sync state. Each SQL statement is one function on
    the tables; the Go function runs them in order through [exec]. *)

From S2P Require Import Prelude GoStd Json Hash OutPoint Block Registry Tables.
Open Scope Z_scope.

(** ** What a block writes *)

(** [store.Output], [store.Spend], [store.Tx] and [store.Block]. *)
Record SOutput := {
  so_OutPoint : OutPoint;
  so_Address : Address;
  so_ValueSats : Z;
  so_Content : RawMessage;
  so_ContentType : string;
  so_HeightExact : bool;
}.

Record Spend := {
  ss_OutPoint : OutPoint;
  ss_Source : Hash;
  ss_Kind : InPointKind;
  ss_Vin : Z;
}.

Record STx := {
  st_Txid : Hash; st_Index : Z; st_SizeBytes : Z; st_FeeSats : Z; st_Raw : Bytes;
}.

Record SBlock := {
  sb_Height : Z;
  sb_Hash : Hash;
  sb_PrevHash : option Hash;
  sb_MerkleRoot : Hash;
  sb_MainHash : BitcoinHash;
  sb_MainHeight : option Z;
  sb_BlockTime : option Z;
  sb_Txs : list STx;
  sb_Creates : list SOutput;
  sb_Spends : list Spend;
}.

Record ApplyResult := { UnknownSpends : Z }.

(** ** The statements of [Apply], on the ledger *)

Section statements.
Context {PG : Postgres}.

Definition unique_violation : error := Errorf "duplicate key value violates unique constraint".

(** [blocks.hash] is [UNIQUE]. *)
Definition hash_taken (l : ledger) (h : Hash) : Prop :=
  map_Exists (λ _ r, b_hash r = h) (blocks l).

#[export] Instance hash_taken_dec l h : Decision (hash_taken l h).
Proof. unfold hash_taken. apply _. Defined.

Definition new_block_row (b : SBlock) : block_row :=
  {| b_hash := sb_Hash b;
     b_prev_hash := sb_PrevHash b;
     b_merkle_root := sb_MerkleRoot b;
     b_main_hash := sb_MainHash b;
     b_main_height := int32 <$> sb_MainHeight b;
     b_block_time := sb_BlockTime b;
     b_tx_count := int32 (Z.of_nat (length (sb_Txs b))) |}.

(** [insertBlock]: the height is the primary key. *)
Definition insertBlock (b : SBlock) (l : ledger) : result ledger :=
  let height := int32 (sb_Height b) in
  _ ← reject (bool_decide (is_Some (blocks l !! height))) unique_violation;
  _ ← reject (bool_decide (hash_taken l (sb_Hash b))) unique_violation;
  Ok (Ledger (<[height := new_block_row b]> (blocks l)) (txs l) (outputs l)).

Definition new_tx_row (height : Z) (t : STx) : tx_row :=
  {| t_height := height;
     t_tx_index := int32 (st_Index t);
     t_size_bytes := int32 (st_SizeBytes t);
     t_fee_sats := st_FeeSats t;
     t_raw := st_Raw t |}.

(** One row of [insertTxs]: [ON CONFLICT (txid) DO NOTHING]. *)
Definition insertTx (height : Z) (m : gmap Hash tx_row) (t : STx) : gmap Hash tx_row :=
  match m !! st_Txid t with
  | Some _ => m
  | None => <[st_Txid t := new_tx_row height t]> m
  end.

Definition insertTxs (b : SBlock) (l : ledger) : result ledger :=
  Ok (Ledger (blocks l) (foldl (insertTx (int32 (sb_Height b))) (txs l) (sb_Txs b)) (outputs l)).

(** [outputs_coinbase_block_idx]: one coinbase row per block hash and vout. *)
Definition coinbase_taken (m : gmap OutPointKey output_row) (block_hash : Hash) (vout : Z) : Prop :=
  map_Exists (λ _ r, o_kind r = KindCoinbase ∧ o_block_hash r = block_hash ∧ o_vout r = vout) m.

#[export] Instance coinbase_taken_dec m h v : Decision (coinbase_taken m h v).
Proof. unfold coinbase_taken. apply _. Defined.

Definition new_output_row (block_hash : Hash) (height : Z) (content : json) (o : SOutput)
    : output_row :=
  {| o_kind := int16 (Kind (so_OutPoint o));
     o_source_id := Source (so_OutPoint o);
     o_vout := int32 (Vout (so_OutPoint o));
     o_block_hash := block_hash;
     o_address := so_Address o;
     o_scripthash := ScriptHash (so_Address o);
     o_value_sats := so_ValueSats o;
     o_content := content;
     o_content_type := so_ContentType o;
     o_height := height;
     o_height_exact := so_HeightExact o;
     o_spent := None |}.

(** One row of [insertOutputs]: the cast to JSONB, then
    [ON CONFLICT (outpoint) DO NOTHING], then the other unique index. *)
Definition insertOutput (block_hash : Hash) (height : Z) (m : gmap OutPointKey output_row)
    (o : SOutput) : result (gmap OutPointKey output_row) :=
  content ← of_option (Errorf "invalid input syntax for type json") (so_Content o ≫= jsonb);
  match m !! Key (so_OutPoint o) with
  | Some _ => Ok m
  | None =>
      let row := new_output_row block_hash height content o in
      _ ← reject (bool_decide (o_kind row = KindCoinbase ∧ coinbase_taken m block_hash (o_vout row)))
            unique_violation;
      Ok (<[Key (so_OutPoint o) := row]> m)
  end.

Definition insertOutputs (b : SBlock) (l : ledger) : result ledger :=
  outs ← foldE (insertOutput (sb_Hash b) (int32 (sb_Height b))) (outputs l) (sb_Creates b);
  Ok (Ledger (blocks l) (txs l) outs).

(** [applySpends]: one [UPDATE ... FROM unnest(...)]. *)
Definition spends_of (k : OutPointKey) (spends : list Spend) : list Spend :=
  filter (λ s, Key (ss_OutPoint s) = k) spends.

Definition mark_spent (height : Z) (s : Spend) (o : output_row) : output_row :=
  {| o_kind := o_kind o; o_source_id := o_source_id o; o_vout := o_vout o;
     o_block_hash := o_block_hash o; o_address := o_address o; o_scripthash := o_scripthash o;
     o_value_sats := o_value_sats o; o_content := o_content o; o_content_type := o_content_type o;
     o_height := o_height o; o_height_exact := o_height_exact o;
     o_spent := Some {| sp_source := ss_Source s; sp_kind := int16 (ss_Kind s);
                        sp_vin := int32 (ss_Vin s); sp_height := height |} |}.

Definition applySpend (height : Z) (spends : list Spend) (k : OutPointKey) (o : output_row)
    : output_row :=
  match spends_of k spends with
  | [] => o
  | s :: rest => mark_spent height (update_pick s rest) o
  end.

(** The ledger after the update, and how many rows it matched. *)
Definition applySpends (b : SBlock) (l : ledger) : result (Z * ledger) :=
  let matched := filter (λ ko, spends_of ko.1 (sb_Spends b) ≠ []) (outputs l) in
  Ok (Z.of_nat (size matched),
      Ledger (blocks l) (txs l)
        (map_imap (λ k o, Some (applySpend (int32 (sb_Height b)) (sb_Spends b) k o)) (outputs l))).

(** [setFees]: what a transaction's inputs held less what its outputs hold,
    floored at zero, over the rows of this height. A sum that leaves BIGINT
    is an error of the statement. *)
Definition fee_inputs (l : ledger) (height : Z) (txid : Hash) : Z :=
  sum_rows (λ _ o, match o_spent o with
                  | Some s => if bool_decide (sp_source s = txid ∧ sp_kind s = SpendRegular ∧
                                              sp_height s = height)
                              then o_value_sats o else 0
                  | None => 0
                  end) (outputs l).

Definition fee_outputs (l : ledger) (height : Z) (txid : Hash) : Z :=
  sum_rows (λ _ o, if bool_decide (o_source_id o = txid ∧ o_kind o = KindRegular ∧
                                  o_height o = height)
                  then o_value_sats o else 0) (outputs l).

Definition fee_of (l : ledger) (height : Z) (txid : Hash) : Z :=
  Z.max (fee_inputs l height txid - fee_outputs l height txid) 0.

Definition set_fee (l : ledger) (height : Z) (txid : Hash) (t : tx_row) : tx_row :=
  if bool_decide (t_height t = height) then
    {| t_height := t_height t; t_tx_index := t_tx_index t; t_size_bytes := t_size_bytes t;
       t_fee_sats := fee_of l height txid; t_raw := t_raw t |}
  else t.

Definition setFees (height : Z) (l : ledger) : result ledger :=
  let h := int32 height in
  _ ← reject (negb (bool_decide (map_Forall (λ txid t, t_height t = h → fee_of l h txid ≤ MaxInt64) (txs l))))
        (Errorf "bigint out of range");
  Ok (Ledger (blocks l) (map_imap (λ txid t, Some (set_fee l h txid t)) (txs l)) (outputs l)).

(** [clearMempool]: one [DELETE ... WHERE key = ANY(...)] per table. *)
Definition delete_any {K} `{Countable K} {V} (ks : list K) (m : gmap K V) : gmap K V :=
  filter (λ kv, kv.1 ∉ ks) m.

Definition clear_txs (b : SBlock) (p : mempool_tables) : mempool_tables :=
  MempoolTables (delete_any (st_Txid <$> sb_Txs b) (mempool_txs p))
    (mempool_outputs p) (mempool_spends p).

Definition clear_outputs (b : SBlock) (p : mempool_tables) : mempool_tables :=
  MempoolTables (mempool_txs p)
    (delete_any ((λ o, Key (so_OutPoint o)) <$> sb_Creates b) (mempool_outputs p))
    (mempool_spends p).

Definition clear_spends (b : SBlock) (p : mempool_tables) : mempool_tables :=
  MempoolTables (mempool_txs p) (mempool_outputs p)
    (delete_any ((λ s, Key (ss_OutPoint s)) <$> sb_Spends b) (mempool_spends p)).

(** [setTip] and its [NULL] form; a missing row updates nothing. *)
Definition set_tip (tip : option (Z * Hash)) (s : option sync_row) : option sync_row :=
  (λ r, {| sy_chain := sy_chain r; sy_network := sy_network r;
           sy_tip_height := fst <$> tip; sy_tip_hash := snd <$> tip |}) <$> s.

(** ** Apply *)

Definition on_ledger (f : ledger → result ledger) : M unit :=
  exec (λ d, l ← f (chain_tables d); Ok (tt, Db l (sync_state d) (pool d))).

Definition on_pool (f : mempool_tables → mempool_tables) : M unit :=
  exec (λ d, Ok (tt, Db (chain_tables d) (sync_state d) (f (pool d)))).

(** A statement the Go code skips when its argument list is empty. *)
Definition unless_nil {A B} (l : list A) (none : B) (m : M B) : M B :=
  match l with [] => mret none | _ => m end.

Definition applySpends_stmt (b : SBlock) : M Z :=
  exec (λ d, '(n, l) ← applySpends b (chain_tables d); Ok (n, Db l (sync_state d) (pool d))).

Definition clearMempool (b : SBlock) : M unit :=
  _ ← unless_nil (sb_Txs b) tt (on_pool (clear_txs b));
  _ ← unless_nil (sb_Creates b) tt (on_pool (clear_outputs b));
  unless_nil (sb_Spends b) tt (on_pool (clear_spends b)).

Definition setTip (height : Z) (hash : Hash) : M unit :=
  exec (λ d, Ok (tt, Db (chain_tables d) (set_tip (Some (int32 height, hash)) (sync_state d)) (pool d))).

Definition Apply (b : SBlock) : M ApplyResult :=
  inTx (
    _ ← on_ledger (insertBlock b);
    _ ← unless_nil (sb_Txs b) tt (on_ledger (insertTxs b));
    _ ← unless_nil (sb_Creates b) tt (on_ledger (insertOutputs b));
    applied ← unless_nil (sb_Spends b) 0 (applySpends_stmt b);
    _ ← on_ledger (setFees (sb_Height b));
    _ ← clearMempool b;
    _ ← setTip (sb_Height b) (sb_Hash b);
    mret {| UnknownSpends := Z.of_nat (length (sb_Spends b)) - applied |}).

(** ** Rollback *)

Definition unspend_above (height : Z) (o : output_row) : output_row :=
  match o_spent o with
  | Some s =>
      if bool_decide (height < sp_height s) then
        {| o_kind := o_kind o; o_source_id := o_source_id o; o_vout := o_vout o;
           o_block_hash := o_block_hash o; o_address := o_address o;
           o_scripthash := o_scripthash o; o_value_sats := o_value_sats o;
           o_content := o_content o; o_content_type := o_content_type o;
           o_height := o_height o; o_height_exact := o_height_exact o; o_spent := None |}
      else o
  | None => o
  end.

Definition rollback_spends (height : Z) (l : ledger) : result ledger :=
  Ok (Ledger (blocks l) (txs l) (unspend_above height <$> outputs l)).

Definition rollback_outputs (height : Z) (l : ledger) : result ledger :=
  Ok (Ledger (blocks l) (txs l) (filter (λ ko, o_height ko.2 ≤ height) (outputs l))).

(** [txs.height REFERENCES blocks(height) ON DELETE CASCADE]. *)
Definition rollback_blocks (height : Z) (l : ledger) : result ledger :=
  Ok (Ledger (filter (λ hb, hb.1 ≤ height) (blocks l))
        (filter (λ ht, ¬ (height < t_height ht.2 ∧ is_Some (blocks l !! t_height ht.2))) (txs l))
        (outputs l)).

Definition Rollback (height : Z) : M unit :=
  let h := int32 height in
  inTx (
    _ ← on_ledger (rollback_spends h);
    _ ← on_ledger (rollback_outputs h);
    _ ← on_ledger (rollback_blocks h);
    hash ← query (λ d, Ok (b_hash <$> blocks (chain_tables d) !! h));
    exec (λ d, Ok (tt, Db (chain_tables d)
                         (set_tip ((λ x, (h, x)) <$> hash) (sync_state d)) (pool d)))).

(** ** Reading the sync state *)

(** [Tip]: [None] when the index holds no blocks. *)
Definition Tip : M (option (Z * Hash)) :=
  query (λ d,
    r ← of_option (Errorf "read tip") (sync_state d);
    match sy_tip_height r, sy_tip_hash r with
    | Some h, Some hash => Ok (Some (uint32 h, hash))
    | _, _ => Ok None
    end).

Definition HashAt (height : Z) : M (option Hash) :=
  query (λ d, Ok (b_hash <$> blocks (chain_tables d) !! int32 height)).

(** [Init]: claims an empty database, refuses another chain's. *)
Definition Init (chainName : string) (network : Network) : M unit :=
  inTx (
    have ← query (λ d, Ok (sync_state d));
    match have with
    | None =>
        exec (λ d, Ok (tt, Db (chain_tables d)
          (Some {| sy_chain := chainName; sy_network := network;
                   sy_tip_height := None; sy_tip_hash := None |}) (pool d)))
    | Some r =>
        if bool_decide (sy_chain r ≠ chainName ∨ sy_network r ≠ network)
        then fail (Errorf "database already holds another chain")
        else mret tt
    end).
End statements.
