(* ===== verification/Ledger.v ===== *)
(** * What the index holds

    The statements of [Write] composed into one function on the ledger, the
    invariant every reachable ledger satisfies, and the specification of a
    rollback: the ledger cut off above a height. [Sync] uses these lemmas, and
    never the statements. *)

From S2P Require Import Prelude GoStd Json Hash OutPoint Block Registry Tables Write.
Open Scope Z_scope.

Section ledger.
Context {PG : Postgres}.

(** ** One block, as a function on the ledger *)

Definition apply_ledger (b : SBlock) (l : ledger) : result (ApplyResult * ledger) :=
  l1 ← insertBlock b l;
  l2 ← insertTxs b l1;
  l3 ← insertOutputs b l2;
  '(n, l4) ← applySpends b l3;
  l5 ← setFees (sb_Height b) l4;
  Ok ({| UnknownSpends := Z.of_nat (length (sb_Spends b)) - n |}, l5).

Definition clear_pool (b : SBlock) (p : mempool_tables) : mempool_tables :=
  clear_spends b (clear_outputs b (clear_txs b p)).

Definition tip_of (b : SBlock) : Z * Hash := (int32 (sb_Height b), sb_Hash b).

Definition apply_db (b : SBlock) (d : db) : result (ApplyResult * db) :=
  '(r, l) ← apply_ledger b (chain_tables d);
  Ok (r, Db l (set_tip (Some (tip_of b)) (sync_state d)) (clear_pool b (pool d))).

(** The blocks of a chain, written from the first one on. *)
Definition index_from (l : ledger) (bs : list SBlock) : result ledger :=
  foldE (λ l b, snd <$> apply_ledger b l) l bs.

Definition rollback_ledger (height : Z) (l : ledger) : ledger :=
  Ledger (filter (λ hb, hb.1 ≤ height) (blocks l))
    (filter (λ ht, ¬ (height < t_height ht.2 ∧ is_Some (blocks l !! t_height ht.2))) (txs l))
    (filter (λ ko, o_height ko.2 ≤ height) (unspend_above height <$> outputs l)).

Definition rollback_db (height : Z) (d : db) : db :=
  let l := rollback_ledger height (chain_tables d) in
  Db l (set_tip ((λ r, (height, b_hash r)) <$> blocks l !! height) (sync_state d)) (pool d).

(** ** The statements the Go code skips change nothing *)

Lemma insertTxs_nil b l : sb_Txs b = [] → insertTxs b l = Ok l.
Proof. intros E. unfold insertTxs. rewrite E. by destruct l. Qed.

Lemma insertOutputs_nil b l : sb_Creates b = [] → insertOutputs b l = Ok l.
Proof. intros E. unfold insertOutputs. rewrite E. by destruct l. Qed.

Lemma applySpends_nil b l : sb_Spends b = [] → applySpends b l = Ok (0, l).
Proof.
  intros E. unfold applySpends. rewrite E. cbn.
  rewrite map_empty_filter_2 by (intros k o _ H; by apply H).
  rewrite map_size_empty. do 2 f_equal. apply ledger_eq; cbn; [done..|].
  apply map_eq. intros k. rewrite map_lookup_imap. by destruct (outputs l !! k).
Qed.

Lemma delete_any_nil {K} `{Countable K} {V} (m : gmap K V) : delete_any [] m = m.
Proof. apply map_filter_id. intros; cbn; set_solver. Qed.

Lemma run_on_ledger f d :
  run (on_ledger f) d =
  match f (chain_tables d) with
  | Ok l => (Ok tt, Db l (sync_state d) (pool d))
  | Err e => (Err e, d)
  end.
Proof. unfold on_ledger. rewrite run_exec. by destruct (f _). Qed.

Lemma run_on_ledger_unless {A} (xs : list A) f d :
  (xs = [] → f (chain_tables d) = Ok (chain_tables d)) →
  run (unless_nil xs tt (on_ledger f)) d = run (on_ledger f) d.
Proof.
  intros H. destruct xs; [|done]. cbn. rewrite run_on_ledger, H by done. by destruct d.
Qed.

Lemma run_on_pool_unless {A} (xs : list A) f d :
  (xs = [] → f (pool d) = pool d) →
  run (unless_nil xs tt (on_pool f)) d = (Ok tt, Db (chain_tables d) (sync_state d) (f (pool d))).
Proof. intros H. destruct xs; cbn; [|done]. rewrite H by done. by destruct d. Qed.

#[export] Instance no_faults_on_ledger f : NoFaults (on_ledger f).
Proof. apply no_faults_exec. Qed.
#[export] Instance no_faults_on_pool f : NoFaults (on_pool f).
Proof. apply no_faults_exec. Qed.
#[export] Instance no_faults_unless {A B} (l : list A) (x : B) m :
  NoFaults m → NoFaults (unless_nil l x m).
Proof. by destruct l. Qed.
#[export] Instance no_faults_applySpends b : NoFaults (applySpends_stmt b).
Proof. apply no_faults_exec. Qed.
#[export] Instance no_faults_clearMempool b : NoFaults (clearMempool b).
Proof. unfold clearMempool. apply _. Qed.
#[export] Instance no_faults_setTip h x : NoFaults (setTip h x).
Proof. apply no_faults_exec. Qed.
#[export] Instance fault_mono_unless {A B} (l : list A) (x : B) m :
  FaultMono m → FaultMono (unless_nil l x m).
Proof. destruct l; [intros; apply _ | done]. Qed.
#[export] Instance fault_mono_on_ledger f : FaultMono (on_ledger f).
Proof. apply fault_mono_exec. Qed.
#[export] Instance fault_mono_on_pool f : FaultMono (on_pool f).
Proof. apply fault_mono_exec. Qed.
#[export] Instance fault_mono_setTip h x : FaultMono (setTip h x).
Proof. apply fault_mono_exec. Qed.
#[export] Instance fault_mono_clearMempool b : FaultMono (clearMempool b).
Proof. unfold clearMempool. apply _. Qed.
#[export] Instance fault_mono_applySpends b : FaultMono (applySpends_stmt b).
Proof. apply fault_mono_exec. Qed.
#[export] Instance fault_mono_Apply b : FaultMono (Apply b).
Proof. unfold Apply. apply _. Qed.
#[export] Instance fault_mono_Rollback h : FaultMono (Rollback h).
Proof. unfold Rollback. apply _. Qed.
#[export] Instance no_faults_Apply b : NoFaults (Apply b).
Proof. unfold Apply. apply _. Qed.
#[export] Instance no_faults_Rollback h : NoFaults (Rollback h).
Proof. unfold Rollback. apply _. Qed.

Lemma run_clearMempool b d :
  run (clearMempool b) d = (Ok tt, Db (chain_tables d) (sync_state d) (clear_pool b (pool d))).
Proof.
  unfold clearMempool, clear_pool.
  rewrite run_bind, run_on_pool_unless by (apply _ || (intros E; unfold clear_txs; rewrite E; cbn;
    rewrite delete_any_nil; by destruct (pool d))). cbn.
  rewrite run_bind, run_on_pool_unless by (apply _ || (intros E; unfold clear_outputs; rewrite E; cbn;
    rewrite delete_any_nil; done)). cbn.
  rewrite run_on_pool_unless; [done|]. intros E; unfold clear_spends; rewrite E; cbn.
  by rewrite delete_any_nil.
Qed.

Lemma run_applySpends b d :
  run (unless_nil (sb_Spends b) 0 (applySpends_stmt b)) d =
  match applySpends b (chain_tables d) with
  | Ok (n, l) => (Ok n, Db l (sync_state d) (pool d))
  | Err e => (Err e, d)
  end.
Proof.
  destruct (sb_Spends b) eqn:E; cbn [unless_nil].
  - rewrite applySpends_nil by done. cbn. by destruct d.
  - unfold applySpends_stmt. rewrite run_exec. by destruct (applySpends b _) as [[]|].
Qed.

(** On a connection that holds, [Apply] is [apply_db]. *)
Lemma run_Apply b d :
  run (Apply b) d =
  match apply_db b d with Ok (r, d') => (Ok r, d') | Err e => (Err e, d) end.
Proof.
  unfold Apply, apply_db, apply_ledger. rewrite run_inTx by apply _.
  rewrite run_bind, run_on_ledger by apply _.
  destruct (insertBlock b _) as [l1|e]; [|done].
  rewrite run_bind by apply _. rewrite run_on_ledger_unless by apply insertTxs_nil.
  rewrite run_on_ledger. cbn [chain_tables sync_state pool mbind result_bind].
  destruct (insertTxs b l1) as [l2|e]; [|done].
  rewrite run_bind by apply _. rewrite run_on_ledger_unless by apply insertOutputs_nil.
  rewrite run_on_ledger. cbn [chain_tables sync_state pool mbind result_bind].
  destruct (insertOutputs b l2) as [l3|e]; [|done].
  rewrite run_bind by apply _. rewrite run_applySpends. cbn [chain_tables sync_state pool mbind result_bind].
  destruct (applySpends b l3) as [[n l4]|e]; [|done].
  rewrite run_bind, run_on_ledger by apply _. cbn [chain_tables sync_state pool mbind result_bind].
  destruct (setFees _ l4) as [l5|e]; [|done].
  rewrite run_bind, run_clearMempool by apply _.
  by rewrite run_bind by apply _.
Qed.

Lemma run_Rollback h d :
  run (Rollback h) d = (Ok tt, rollback_db (int32 h) d).
Proof.
  unfold Rollback. rewrite run_inTx by apply _.
  rewrite !run_bind, run_on_ledger by apply _. cbn.
  rewrite run_bind, run_on_ledger by apply _. cbn.
  rewrite run_bind, run_on_ledger by apply _. cbn.
  rewrite run_bind, run_query, run_exec by apply _.
  unfold rollback_db, rollback_ledger. cbn. destruct (filter _ (blocks _) !! _); done.
Qed.

(** ** Each statement, row by row *)

(** The first of the rows of a statement that carries a key. *)
Definition first_tx (txid : Hash) (l : list STx) : option STx :=
  head (filter (λ t, st_Txid t = txid) l).
Definition first_output (k : OutPointKey) (l : list SOutput) : option SOutput :=
  head (filter (λ o, Key (so_OutPoint o) = k) l).

Definition create_row (hash : Hash) (height : Z) (o : SOutput) : option output_row :=
  content ← so_Content o ≫= jsonb; Some (new_output_row hash height content o).

Definition tx_after (height : Z) (l : list STx) (m : gmap Hash tx_row) (txid : Hash) : option tx_row :=
  match m !! txid with
  | Some t => Some t
  | None => new_tx_row height <$> first_tx txid l
  end.

Definition output_after (hash : Hash) (height : Z) (l : list SOutput)
    (m : gmap OutPointKey output_row) (k : OutPointKey) : option output_row :=
  match m !! k with
  | Some o => Some o
  | None => first_output k l ≫= create_row hash height
  end.

Lemma insertTxs_lookup h l m txid :
  foldl (insertTx h) m l !! txid = tx_after h l m txid.
Proof.
  revert m; induction l as [|t l IH]; intros m; cbn.
  { unfold tx_after. by destruct (m !! txid). }
  rewrite IH. unfold tx_after, insertTx, first_tx. rewrite filter_cons.
  destruct (m !! st_Txid t) as [r|] eqn:E; case_decide as D; subst.
  - by rewrite E.
  - done.
  - by rewrite lookup_insert_eq, E.
  - by rewrite lookup_insert_ne.
Qed.

Lemma insertOutput_ok hash h m o m' :
  insertOutput hash h m o = Ok m' →
  ∃ row, create_row hash h o = Some row ∧
    m' = match m !! Key (so_OutPoint o) with
         | Some _ => m
         | None => <[Key (so_OutPoint o) := row]> m
         end.
Proof.
  unfold insertOutput, create_row. intros H. apply bind_ok in H as (content & Hc & H).
  apply of_option_ok in Hc. rewrite Hc. cbn. eexists. split; [done|].
  destruct (m !! _); inv_ok; done.
Qed.

Lemma insertOutputs_lookup hash h l m m' k :
  foldE (insertOutput hash h) m l = Ok m' → m' !! k = output_after hash h l m k.
Proof.
  revert m; induction l as [|o l IH]; intros m H; cbn in H.
  { injection H as <-. unfold output_after. by destruct (m !! k). }
  apply bind_ok in H as (m1 & H1 & H). rewrite (IH _ H). clear IH H.
  apply insertOutput_ok in H1 as (row & Hrow & ->).
  unfold output_after, first_output. rewrite filter_cons.
  destruct (m !! Key (so_OutPoint o)) as [r|] eqn:E; case_decide as D; subst.
  - by rewrite E.
  - done.
  - rewrite lookup_insert_eq, E. cbn. by rewrite Hrow.
  - by rewrite lookup_insert_ne.
Qed.

(** What [apply_ledger] writes. *)
Record applied (b : SBlock) (l l' : ledger) : Prop := {
  ap_height : blocks l !! int32 (sb_Height b) = None;
  ap_hash : ¬ hash_taken l (sb_Hash b);
  ap_blocks : blocks l' = <[int32 (sb_Height b) := new_block_row b]> (blocks l);
  ap_txs : ∀ txid, txs l' !! txid =
    set_fee l' (int32 (sb_Height b)) txid
      <$> tx_after (int32 (sb_Height b)) (sb_Txs b) (txs l) txid;
  ap_outputs : ∀ k, outputs l' !! k =
    applySpend (int32 (sb_Height b)) (sb_Spends b) k
      <$> output_after (sb_Hash b) (int32 (sb_Height b)) (sb_Creates b) (outputs l) k;
  ap_fees : ∀ txid t, txs l' !! txid = Some t → t_height t = int32 (sb_Height b) →
    fee_of l' (int32 (sb_Height b)) txid ≤ MaxInt64;
}.

Lemma fee_of_outputs l1 l2 h txid : outputs l1 = outputs l2 → fee_of l1 h txid = fee_of l2 h txid.
Proof. unfold fee_of, fee_inputs, fee_outputs. by intros ->. Qed.

Lemma set_fee_outputs l1 l2 h txid t :
  outputs l1 = outputs l2 → set_fee l1 h txid t = set_fee l2 h txid t.
Proof. unfold set_fee. intros E. by rewrite (fee_of_outputs l1 l2 h txid E). Qed.

Lemma set_fee_height l h txid t : t_height (set_fee l h txid t) = t_height t.
Proof. unfold set_fee. by case_bool_decide. Qed.

Lemma insertBlock_ok b l l' :
  insertBlock b l = Ok l' ↔
  blocks l !! int32 (sb_Height b) = None ∧ ¬ hash_taken l (sb_Hash b) ∧
  l' = Ledger (<[int32 (sb_Height b) := new_block_row b]> (blocks l)) (txs l) (outputs l).
Proof.
  unfold insertBlock. rewrite eq_None_not_Some.
  destruct (decide (is_Some (blocks l !! int32 (sb_Height b)))) as [D1|D1];
    [rewrite (bool_decide_true (is_Some _)) by done | rewrite (bool_decide_false (is_Some _)) by done]; cbn;
    [split; [done | by intros (? & _)]|].
  case_bool_decide as D2; cbn; [split; [done | by intros (_ & ? & _)]|].
  split; [by intros [= <-] | by intros (_ & _ & ->)].
Qed.

Lemma setFees_ok h l l' :
  setFees h l = Ok l' ↔
  (∀ txid t, txs l !! txid = Some t → t_height t = int32 h → fee_of l (int32 h) txid ≤ MaxInt64) ∧
  l' = Ledger (blocks l) (map_imap (λ txid t, Some (set_fee l (int32 h) txid t)) (txs l)) (outputs l).
Proof.
  unfold setFees. case_bool_decide as D; cbn; unfold map_Forall in D.
  - split; [by intros [= <-] | by intros [_ ->]].
  - split; [done | by intros [? _]].
Qed.

Lemma insertOutputs_ok b l l' :
  insertOutputs b l = Ok l' →
  blocks l' = blocks l ∧ txs l' = txs l ∧
  ∀ k, outputs l' !! k = output_after (sb_Hash b) (int32 (sb_Height b)) (sb_Creates b) (outputs l) k.
Proof.
  unfold insertOutputs. intros (outs & H & [= <-])%bind_ok. split_and!; [done..|].
  intros k. by apply insertOutputs_lookup.
Qed.

Lemma apply_ledger_applied b l r l' : apply_ledger b l = Ok (r, l') → applied b l l'.
Proof.
  unfold apply_ledger. intros (l1 & H1 & (l2 & H2 & (l3 & H3 & H)%bind_ok)%bind_ok)%bind_ok.
  apply insertBlock_ok in H1 as (Hheight & Hhash & ->).
  injection H2 as <-. apply insertOutputs_ok in H3 as (Eb & Et & Eo). cbn in Eb, Et, Eo.
  apply bind_ok in H as ([n l4] & [= _ <-] & (l5 & (Hfee & ->)%setFees_ok & [= _ <-])%bind_ok).
  cbn [txs outputs blocks] in Hfee.
  split; cbn [txs outputs blocks]; [done..| | |].
  - intros txid. rewrite map_lookup_imap, Et, insertTxs_lookup.
    by destruct (tx_after _ _ _ txid).
  - intros k. rewrite map_lookup_imap, Eo. by destruct (output_after _ _ _ _ k).
  - intros txid t. rewrite map_lookup_imap. intros (t0 & Ht0 & [= <-])%bind_Some.
    rewrite set_fee_height. apply (Hfee txid t0 Ht0).
Qed.

(** The count [Apply] reports: the spends whose output the index lacks. *)
Lemma size_filter_keys {V} (ks : list OutPointKey) (m : gmap OutPointKey V) :
  NoDup ks →
  size (filter (λ kv, kv.1 ∈ ks) m) = length (filter (λ k, is_Some (m !! k)) ks).
Proof.
  induction 1 as [|k ks Hk _ IH].
  { rewrite map_empty_filter_2; [by rewrite map_size_empty|]. intros k v _ Hin; cbn in Hin. set_solver. }
  rewrite filter_cons. destruct (m !! k) as [v|] eqn:E; case_decide as D; [| | by destruct D |].
  - assert (filter (λ kv, kv.1 ∈ k :: ks) m = <[k := v]> (filter (λ kv, kv.1 ∈ ks) m)) as ->.
    { apply map_eq. intros k'. destruct (decide (k = k')) as [<-|Hne].
      - rewrite lookup_insert_eq. apply map_lookup_filter_Some_2; [done|cbn; set_solver].
      - rewrite lookup_insert_ne by done. apply option_eq. intros v'.
        rewrite !map_lookup_filter_Some. cbn. set_solver. }
    rewrite map_size_insert_None; [by rewrite IH|].
    apply map_lookup_filter_None. right. intros v' _. cbn. done.
  - exfalso. apply D. by eexists.
  - rewrite <- IH. f_equal. apply map_filter_ext. intros k' v' Hk'. cbn.
    rewrite elem_of_cons. naive_solver congruence.
Qed.

(** ** The invariant *)

(** What the Go types and the decoders promise of a block to write. *)
Definition block_ok (b : SBlock) : Prop :=
  Forall (λ o, OutPoint_typed (so_OutPoint o) ∧ 0 ≤ so_ValueSats o ≤ MaxInt64) (sb_Creates b).

#[export] Instance block_ok_dec b : Decision (block_ok b).
Proof. unfold block_ok. apply _. Defined.

Definition row_outpoint (o : output_row) : OutPoint :=
  {| Kind := o_kind o; Source := o_source_id o; Vout := uint32 (o_vout o) |}.

(** An output row of an index that holds the blocks below [n]. *)
Record output_ok (n : Z) (l : ledger) (k : OutPointKey) (o : output_row) : Prop := {
  ok_key : k = Key (row_outpoint o);
  ok_value : 0 ≤ o_value_sats o ≤ MaxInt64;
  ok_scripthash : o_scripthash o = ScriptHash (o_address o);
  ok_height : 0 ≤ o_height o < n;
  ok_block : b_hash <$> blocks l !! o_height o = Some (o_block_hash o);
  ok_spent : ∀ s, o_spent o = Some s → o_height o ≤ sp_height s < n;
}.

Record wf (n : Z) (l : ledger) : Prop := {
  wf_blocks : ∀ h, is_Some (blocks l !! h) ↔ 0 ≤ h < n;
  wf_hashes : ∀ h1 h2 r1 r2, blocks l !! h1 = Some r1 → blocks l !! h2 = Some r2 →
    b_hash r1 = b_hash r2 → h1 = h2;
  wf_txs : ∀ txid t, txs l !! txid = Some t → 0 ≤ t_height t < n ∧ 0 ≤ t_fee_sats t ≤ MaxInt64;
  wf_outputs : ∀ k o, outputs l !! k = Some o → output_ok n l k o;
}.

Lemma wf_empty : wf 0 empty_ledger.
Proof.
  split; cbn.
  - intros h. rewrite lookup_empty. split; [by intros [] | lia].
  - intros h1 h2 r1 r2. by rewrite lookup_empty.
  - intros txid t. by rewrite lookup_empty.
  - intros k o. by rewrite lookup_empty.
Qed.

Lemma tx_after_inv h l m txid t :
  tx_after h l m txid = Some t →
  m !! txid = Some t ∨ (m !! txid = None ∧ t_height t = h).
Proof.
  unfold tx_after. destruct (m !! txid); [by left|].
  intros (x & _ & ->)%fmap_Some. by right.
Qed.

Lemma first_output_inv k l o : first_output k l = Some o → o ∈ l ∧ Key (so_OutPoint o) = k.
Proof.
  unfold first_output. intros H. apply head_Some_elem_of, list_elem_of_filter in H. tauto.
Qed.

Lemma output_after_inv hash h l m k o :
  output_after hash h l m k = Some o →
  m !! k = Some o ∨
  (m !! k = None ∧ ∃ c, c ∈ l ∧ Key (so_OutPoint c) = k ∧ create_row hash h c = Some o).
Proof.
  unfold output_after. destruct (m !! k); [by left|].
  intros (c & [Hin Hk]%first_output_inv & Hr)%bind_Some. right. eauto.
Qed.

Lemma create_row_inv hash h c o :
  create_row hash h c = Some o → ∃ content, o = new_output_row hash h content c.
Proof. unfold create_row. intros (x & _ & [= <-])%bind_Some. by eexists. Qed.

Lemma row_outpoint_new hash h content c :
  OutPoint_typed (so_OutPoint c) →
  row_outpoint (new_output_row hash h content c) = so_OutPoint c.
Proof.
  intros [HK HV]. unfold row_outpoint, new_output_row; cbn.
  destruct (so_OutPoint c) as [K S V]; cbn in *. f_equal; width.
Qed.

(** A spend changes the spent columns and nothing else. *)
Lemma applySpend_row h spends k o :
  applySpend h spends k o = o ∨ ∃ s, applySpend h spends k o = mark_spent h s o.
Proof. unfold applySpend. destruct (spends_of k spends); eauto. Qed.

Lemma output_ok_applySpend n l h spends k o :
  output_ok n l k o → 0 ≤ h < n → o_height o ≤ h → output_ok n l k (applySpend h spends k o).
Proof.
  intros [] Hh Ho. destruct (applySpend_row h spends k o) as [->|[s ->]]; [done|].
  split; cbn; try done. intros s' [= <-]. cbn. lia.
Qed.

Lemma output_ok_mono n l n' l' k o :
  output_ok n l k o → n ≤ n' →
  (∀ h r, blocks l !! h = Some r → blocks l' !! h = Some r) → output_ok n' l' k o.
Proof.
  intros [] Hn Hl. split; try done; [lia | | naive_solver lia].
  apply fmap_Some in ok_block0 as (r & Hr & ->). by rewrite (Hl _ _ Hr).
Qed.

Lemma apply_ledger_wf n b l r l' :
  0 ≤ n < 2^31 → sb_Height b = n → block_ok b → wf n l →
  apply_ledger b l = Ok (r, l') → wf (n + 1) l'.
Proof.
  intros Hn Hh Hb [Wb Wh Wt Wo] H. apply apply_ledger_applied in H as [Ah Ax Ab At Ao Af].
  assert (int32 (sb_Height b) = n) as E by (rewrite Hh; by apply int32_nonneg).
  rewrite E in *. clear E.
  assert (∀ h r, blocks l !! h = Some r → blocks l' !! h = Some r) as Hmono.
  { intros h r0 Hr. rewrite Ab, lookup_insert_ne; [done|]. intros ->. congruence. }
  split.
  - intros h. rewrite Ab, lookup_insert_is_Some, Wb. lia.
  - intros h1 h2 r1 r2. rewrite Ab, !lookup_insert_Some.
    intros [[<- <-]|[? H1]] [[<- <-]|[? H2]] E; [done| | |by eapply Wh];
      exfalso; apply Ax.
    + exists h2, r2. by split.
    + exists h1, r1. by split.
  - intros txid t Ht. pose proof (Af txid t Ht) as Hfee.
    rewrite At in Ht. apply fmap_Some in Ht as (t0 & Ht0 & ->).
    rewrite set_fee_height in *. apply tx_after_inv in Ht0 as [Ht0|[_ Ht0]].
    + apply Wt in Ht0 as ?. split; [lia|]. unfold set_fee. rewrite bool_decide_false by lia. lia.
    + split; [lia|]. unfold set_fee. rewrite bool_decide_true by done. cbn.
      specialize (Hfee Ht0). unfold fee_of in *. lia.
  - intros k o Ho. rewrite Ao in Ho. apply fmap_Some in Ho as (o0 & Ho0 & ->).
    apply output_after_inv in Ho0 as [Ho0|(_ & c & Hc & Hk & Hr)].
    + apply Wo in Ho0. apply output_ok_applySpend; [|lia|destruct Ho0; lia].
      eapply output_ok_mono; eauto; lia.
    + apply create_row_inv in Hr as [content ->].
      unfold block_ok in Hb. rewrite Forall_forall in Hb. destruct (Hb c Hc) as [Ht Hv].
      apply output_ok_applySpend; [|lia|cbn; lia]. split; cbn; try done; [|lia|].
      * by rewrite row_outpoint_new.
      * by rewrite Ab, lookup_insert_eq.
Qed.

(** ** Rollback *)

(** The specification: the ledger as it is seen from height [k]. *)
Definition view_at (k : Z) (l : ledger) : ledger :=
  Ledger (filter (λ hb, hb.1 ≤ k) (blocks l))
    (filter (λ ht, t_height ht.2 ≤ k) (txs l))
    (filter (λ ko, o_height ko.2 ≤ k) (unspend_above k <$> outputs l)).

(** The cascade of the foreign key removes just what is above. *)
Lemma rollback_view n k l : wf n l → rollback_ledger k l = view_at k l.
Proof.
  intros [Wb _ Wt _]. apply ledger_eq; cbn; [done| |done].
  apply map_filter_ext. intros txid t Ht. cbn. rewrite Wb. apply Wt in Ht. lia.
Qed.

Lemma unspend_above_height k o : o_height (unspend_above k o) = o_height o.
Proof. unfold unspend_above. destruct (o_spent o); [case_bool_decide|]; done. Qed.

(** Unspending changes the spent columns only. *)
Lemma unspend_above_cols k o :
  row_outpoint (unspend_above k o) = row_outpoint o ∧
  o_value_sats (unspend_above k o) = o_value_sats o ∧
  o_address (unspend_above k o) = o_address o ∧
  o_scripthash (unspend_above k o) = o_scripthash o ∧
  o_block_hash (unspend_above k o) = o_block_hash o.
Proof. unfold unspend_above. destruct (o_spent o); [case_bool_decide|]; done. Qed.

Lemma unspend_above_spent k o s :
  o_spent (unspend_above k o) = Some s → o_spent o = Some s ∧ sp_height s ≤ k.
Proof.
  unfold unspend_above. destruct (o_spent o) as [s0|] eqn:E; [|by rewrite E].
  case_bool_decide; [done|]. rewrite E. intros [= ->]. split; [done|lia].
Qed.

Lemma view_outputs_lookup k l key :
  outputs (view_at k l) !! key =
  o ← outputs l !! key; if bool_decide (o_height o ≤ k) then Some (unspend_above k o) else None.
Proof.
  cbn. rewrite map_lookup_filter, lookup_fmap. destruct (outputs l !! key) as [o|]; cbn; [|done].
  case_guard; cbn; rewrite unspend_above_height in *; by case_bool_decide.
Qed.

Lemma view_txs_lookup k l txid :
  txs (view_at k l) !! txid =
  t ← txs l !! txid; if bool_decide (t_height t ≤ k) then Some t else None.
Proof.
  cbn. rewrite map_lookup_filter. destruct (txs l !! txid) as [t|]; cbn; [|done].
  case_guard; cbn in *; by case_bool_decide.
Qed.

Lemma view_blocks_lookup k l h :
  blocks (view_at k l) !! h = if bool_decide (h ≤ k) then blocks l !! h else None.
Proof.
  cbn. rewrite map_lookup_filter. destruct (blocks l !! h) as [b|]; cbn; [|by case_bool_decide].
  case_guard; cbn in *; by case_bool_decide.
Qed.

(** Nothing sits above the top. *)
Lemma view_all n k l : wf n l → n - 1 ≤ k → view_at k l = l.
Proof.
  intros [Wb _ Wt Wo] Hk. apply ledger_eq; apply map_eq; intros i.
  - rewrite view_blocks_lookup. case_bool_decide; [done|]. symmetry.
    apply eq_None_not_Some. rewrite Wb. lia.
  - rewrite view_txs_lookup. destruct (txs l !! i) as [t|] eqn:Ht; cbn; [|done].
    apply Wt in Ht. by rewrite bool_decide_true by lia.
  - rewrite view_outputs_lookup. destruct (outputs l !! i) as [o|] eqn:Ho; cbn; [|done].
    apply Wo in Ho as []. rewrite bool_decide_true by lia. f_equal. unfold unspend_above.
    destruct (o_spent o) as [s|] eqn:Es; [|done].
    specialize (ok_spent0 s eq_refl). by rewrite bool_decide_false by lia.
Qed.

(** The block spends only outputs that are unspent. *)
Definition fresh_spends (l : ledger) (b : SBlock) : Prop :=
  Forall (λ s, match outputs l !! Key (ss_OutPoint s) with
               | Some o => o_spent o = None
               | None => True
               end) (sb_Spends b).

#[export] Instance fresh_spends_dec l b : Decision (fresh_spends l b).
Proof.
  unfold fresh_spends. apply Forall_dec. intros s.
  destruct (outputs l !! _) as [o|]; [|left; done].
  destruct (o_spent o); [by right | by left].
Defined.

Lemma unspend_applySpend k n l b key o :
  k < n → fresh_spends l b → outputs l !! key = Some o →
  unspend_above k (applySpend n (sb_Spends b) key o) = unspend_above k o.
Proof.
  intros Hk Hf Ho. unfold applySpend.
  destruct (spends_of key (sb_Spends b)) as [|s rest] eqn:E; [done|].
  assert (s ∈ spends_of key (sb_Spends b)) as Hs by (rewrite E; left).
  apply list_elem_of_filter in Hs as [Hkey Hs].
  unfold fresh_spends in Hf. rewrite Forall_forall in Hf. specialize (Hf s Hs).
  rewrite Hkey, Ho in Hf. unfold unspend_above at 1. cbn. rewrite bool_decide_true by lia.
  unfold unspend_above. rewrite Hf. destruct o; cbn in *. by subst.
Qed.

(** Seen from below its height, a block changed nothing. *)
Lemma view_apply n k b l r l' :
  0 ≤ n < 2^31 → sb_Height b = n → wf n l → fresh_spends l b →
  apply_ledger b l = Ok (r, l') → k < n → view_at k l' = view_at k l.
Proof.
  intros Hn Hh W Hf H Hk. apply apply_ledger_applied in H as [_ _ Ab At Ao _].
  assert (int32 (sb_Height b) = n) as E by (rewrite Hh; by apply int32_nonneg).
  rewrite E in *. clear E. apply ledger_eq; apply map_eq; intros i.
  - rewrite !view_blocks_lookup, Ab. case_bool_decide; [|done]. by rewrite lookup_insert_ne by lia.
  - rewrite !view_txs_lookup, At. unfold tx_after.
    destruct (txs l !! i) as [t|] eqn:Ht; cbn.
    + rewrite set_fee_height. case_bool_decide; [|done]. unfold set_fee.
      by rewrite bool_decide_false by lia.
    + destruct (first_tx i (sb_Txs b)); cbn; [|done]. rewrite set_fee_height. cbn.
      by rewrite bool_decide_false by lia.
  - rewrite !view_outputs_lookup, Ao. unfold output_after.
    destruct (outputs l !! i) as [o|] eqn:Ho; cbn.
    + assert (o_height (applySpend n (sb_Spends b) i o) = o_height o) as ->
        by (destruct (applySpend_row n (sb_Spends b) i o) as [->|[s ->]]; done).
      case_bool_decide; [|done]. f_equal. by apply unspend_applySpend with l.
    + destruct (first_output i (sb_Creates b) ≫= _) as [o|] eqn:Er; cbn; [|done].
      apply bind_Some in Er as (c & _ & [content ->]%create_row_inv).
      rewrite bool_decide_false; [done|].
      destruct (applySpend_row n (sb_Spends b) i (new_output_row (sb_Hash b) n content c))
        as [->|[s ->]]; cbn; lia.
Qed.

Lemma unspend_twice j k o :
  j ≤ k → unspend_above j (unspend_above k o) = unspend_above j o.
Proof.
  intros Hjk. unfold unspend_above at 2. destruct (o_spent o) as [s|] eqn:Es; [|done].
  case_bool_decide; [|done]. unfold unspend_above. cbn. rewrite Es.
  by rewrite bool_decide_true by lia.
Qed.

(** A lower view does not depend on the views taken before it. *)
Lemma view_view j k l : j ≤ k → view_at j (view_at k l) = view_at j l.
Proof.
  intros Hjk. apply ledger_eq; apply map_eq; intros i.
  - rewrite !view_blocks_lookup. repeat case_bool_decide; [done|lia|done].
  - rewrite !view_txs_lookup. destruct (txs l !! i) as [t|]; cbn; [|done].
    repeat (case_bool_decide; cbn); try done; lia.
  - rewrite !view_outputs_lookup. destruct (outputs l !! i) as [o|]; cbn; [|done].
    repeat (case_bool_decide; cbn; rewrite ?unspend_above_height in * );
      rewrite ?unspend_twice; try done; lia.
Qed.

(** ** The chain a ledger holds *)

(** [history bs l]: the index wrote the blocks [bs], from height 0 up, and
    holds [l]. Each block spends unspent outputs only, as the node's consensus
    rules demand. *)
Inductive history : list SBlock → ledger → Prop :=
  | history_nil : history [] empty_ledger
  | history_snoc bs b l r l' :
      history bs l →
      sb_Height b = Z.of_nat (length bs) →
      Z.of_nat (length bs) < 2^31 →
      block_ok b →
      fresh_spends l b →
      apply_ledger b l = Ok (r, l') →
      history (bs ++ [b]) l'.

Lemma history_wf bs l : history bs l → wf (Z.of_nat (length bs)) l.
Proof.
  induction 1 as [|bs b l r l' _ IH Hh Hn Hb _ H]; [apply wf_empty|].
  rewrite length_app. cbn. rewrite Nat2Z.inj_add. eapply apply_ledger_wf; eauto. lia.
Qed.

Lemma history_fun bs l1 l2 : history bs l1 → history bs l2 → l1 = l2.
Proof.
  intros H1. revert l2. induction H1 as [|bs b l r l' H1 IH Hh Hn Hb Hf H]; intros l2 H2.
  - inversion H2 as [|bs ? ? ? ? ? ? ? ? ? ? E]; [done|]. by destruct bs.
  - inversion H2 as [E|bs' b' l0 r0 l0' H2' ? ? ? ? H' E]; subst; [by destruct bs|].
    apply app_inj_2 in E as [-> [= ->]]; [|done].
    rewrite (IH _ H2') in H. congruence.
Qed.

Lemma history_index bs l : history bs l → index_from empty_ledger bs = Ok l.
Proof.
  induction 1 as [|bs b l r l' _ IH _ _ _ _ H]; [done|].
  unfold index_from in *. rewrite foldE_app, IH. cbn. by rewrite H.
Qed.

Lemma history_prefix bs1 bs2 l :
  history (bs1 ++ bs2) l →
  ∃ l1, history bs1 l1 ∧
    ∀ k, k < Z.of_nat (length bs1) → view_at k l = view_at k l1.
Proof.
  revert l. induction bs2 as [|b bs2 IH] using rev_ind; intros l H.
  { rewrite app_nil_r in H. eauto. }
  rewrite app_assoc in H.
  inversion H as [E|bs b' l0 r l0' H0 Hh Hn Hb Hf Ha E]; subst; [by destruct bs1, bs2|].
  apply app_inj_2 in E as [-> [= ->]]; [|done].
  destruct (IH _ H0) as (l1 & H1 & Hv). exists l1. split; [done|]. intros k Hk.
  rewrite <- (Hv k Hk). rewrite length_app in *.
  eapply view_apply; eauto; [lia| |lia]. rewrite <- length_app. by apply history_wf.
Qed.

(** A rollback to [k] leaves the index that wrote the first [k + 1] blocks and
    nothing else. *)
Lemma rollback_history bs l k :
  history bs l → 0 ≤ k < Z.of_nat (length bs) →
  history (take (Z.to_nat (k + 1)) bs) (rollback_ledger k l).
Proof.
  intros H Hk. rewrite (rollback_view _ _ _ (history_wf _ _ H)).
  rewrite <- (take_drop (Z.to_nat (k + 1)) bs) in H.
  destruct (history_prefix _ _ _ H) as (l1 & H1 & Hv).
  pose proof (history_wf _ _ H1) as W. rewrite length_take in *.
  rewrite Hv by lia. by rewrite (view_all _ _ _ W) by lia.
Qed.

(** ** The database *)

Definition chain_tip (bs : list SBlock) : option (Z * Hash) :=
  tip_of <$> last bs.

(** The database holds the chain [bs], and its tip columns say so. *)
Definition holds (bs : list SBlock) (d : db) : Prop :=
  history bs (chain_tables d) ∧
  ∃ r, sync_state d = Some r ∧
    sy_tip_height r = fst <$> chain_tip bs ∧ sy_tip_hash r = snd <$> chain_tip bs.

(** What the next block must be for the chain to grow by it. *)
Definition extends (bs : list SBlock) (d : db) (b : SBlock) : Prop :=
  sb_Height b = Z.of_nat (length bs) ∧ Z.of_nat (length bs) < 2^31 ∧
  block_ok b ∧ fresh_spends (chain_tables d) b.

Lemma holds_apply bs d b r d' :
  holds bs d → extends bs d b → apply_db b d = Ok (r, d') → holds (bs ++ [b]) d'.
Proof.
  intros [H (row & Hs & _)] (Hh & Hn & Hb & Hf) Ha. unfold apply_db in Ha.
  apply bind_ok in Ha as ([r0 l] & Hl & [= -> <-]). split; cbn.
  - by eapply history_snoc.
  - rewrite Hs. eexists. split; [done|]. unfold chain_tip. by rewrite last_snoc.
Qed.

Lemma history_lookup bs l i b :
  history bs l → bs !! i = Some b → blocks l !! Z.of_nat i = Some (new_block_row b) ∧
    sb_Height b = Z.of_nat i.
Proof.
  intros H. revert i b. induction H as [|bs b' l r l' H IH Hh Hn _ _ Ha]; intros i b Hi; [done|].
  apply apply_ledger_applied in Ha as [_ _ Ab _ _ _]. rewrite Ab, Hh, int32_nonneg by lia.
  apply lookup_app_Some in Hi as [Hi|[Hi E]].
  - apply lookup_lt_Some in Hi as ?. rewrite lookup_insert_ne by lia. by apply IH.
  - apply list_lookup_singleton_Some in E as [Ei <-].
    replace i with (length bs) by lia. by rewrite lookup_insert_eq.
Qed.

Lemma holds_rollback bs d k :
  holds bs d → 0 ≤ k < Z.of_nat (length bs) →
  holds (take (Z.to_nat (k + 1)) bs) (rollback_db k d).
Proof.
  intros [H (row & Hs & _)] Hk. pose proof (history_wf _ _ H) as W.
  assert (Z.of_nat (length bs) ≤ 2^31) as Hlen.
  { inversion H; subst; cbn; [lia|]. rewrite length_app; cbn. lia. }
  split; cbn [rollback_db chain_tables sync_state]; [by apply rollback_history|].
  rewrite Hs. eexists. split; [done|].
  destruct (lookup_lt_is_Some_2 bs (Z.to_nat k)) as [b Hb]; [lia|].
  destruct (history_lookup _ _ _ _ H Hb) as [Hr Hh]. rewrite Z2Nat.id in * by lia.
  rewrite (rollback_view _ _ _ W), view_blocks_lookup, bool_decide_true, Hr by lia.
  unfold chain_tip. replace (Z.to_nat (k + 1)) with (S (Z.to_nat k)) by lia.
  rewrite (take_S_r _ _ _ Hb), last_snoc. unfold tip_of. cbn.
  by rewrite Hh, int32_nonneg by lia.
Qed.
End ledger.
