(* ===== verification/WriteSpec.v ===== *)
(** * What [Apply] and [Rollback] guarantee

    The lemmas on fees, on the spends the index cannot match, on the mempool
    rows a block confirms and on the one choice Postgres makes, that the
    theorems of [WriteProps] rest on. *)

From S2P Require Import Prelude GoStd Json Hash OutPoint Block Registry Tables Write Ledger.
Open Scope Z_scope.

(** ** A table sum, as a sum over keys *)

Lemma sum_rows_keys {K} `{Countable K} {A} (f : K → A → Z) (m : gmap K A) (ks : list K) :
  NoDup ks →
  (∀ k a, m !! k = Some a → k ∉ ks → f k a = 0) →
  sum_rows f m = sumZ (λ k, from_option (f k) 0 (m !! k)) ks.
Proof.
  intros Hnd. revert m. induction Hnd as [|k ks Hk _ IH]; intros m Hz; cbn.
  { apply sum_rows_zero. intros k a Ha. apply (Hz k a Ha). set_solver. }
  rewrite (sumZ_ext _ (λ k', from_option (f k') 0 (delete k m !! k')))
    by (intros k' Hk'; rewrite lookup_delete_ne; [done|congruence]).
  rewrite <- (IH (delete k m)).
  - destruct (m !! k) as [a|] eqn:E; cbn; [by apply sum_rows_delete|].
    by rewrite delete_id.
  - intros k' a. rewrite lookup_delete_Some. intros [Hne Ha] Hin. apply (Hz k' a Ha). set_solver.
Qed.

Lemma sumZ_fmap {A B} (f : B → Z) (g : A → B) l : sumZ f (g <$> l) = sumZ (λ a, f (g a)) l.
Proof. induction l; cbn; lia. Qed.

Lemma sumZ_keys {K} `{Countable K} {A B} (f : K → A → Z) (key : B → K) (m : gmap K A) (l : list B) :
  NoDup (key <$> l) →
  (∀ k a, m !! k = Some a → k ∉ key <$> l → f k a = 0) →
  sum_rows f m = sumZ (λ b, from_option (f (key b)) 0 (m !! key b)) l.
Proof. intros Hnd Hz. by rewrite (sum_rows_keys f m _ Hnd Hz), sumZ_fmap. Qed.

Section write_spec.
Context {PG : Postgres}.

Definition spend_key (s : Spend) : OutPointKey := Key (ss_OutPoint s).
Definition create_key (o : SOutput) : OutPointKey := Key (so_OutPoint o).

(** ** The count of unknown spends *)

Lemma spends_of_nil k l : spends_of k l = [] ↔ k ∉ spend_key <$> l.
Proof.
  unfold spends_of. induction l as [|s l IH]; [set_solver|].
  rewrite filter_cons, fmap_cons, not_elem_of_cons. case_decide; naive_solver.
Qed.

Lemma filter_fmap_length {A B} (f : A → B) (P : B → Prop) `{∀ b, Decision (P b)} l :
  length (filter P (f <$> l)) = length (filter (λ a, P (f a)) l).
Proof.
  induction l as [|a l IH]; [done|]. rewrite fmap_cons, !filter_cons.
  case_decide; cbn; by rewrite IH.
Qed.

Lemma filter_split {A} (P : A → Prop) `{∀ a, Decision (P a)} (l : list A) :
  (length (filter P l) + length (filter (λ a, ¬ P a) l) = length l)%nat.
Proof.
  induction l as [|a l IH]; [done|]. rewrite !filter_cons.
  destruct (decide (P a)); case_decide; cbn; try lia; done.
Qed.

Lemma unknown_spends b l r l' :
  NoDup (spend_key <$> sb_Spends b) →
  apply_ledger b l = Ok (r, l') →
  UnknownSpends r = Z.of_nat (length (filter (λ s, ¬ is_Some (outputs l' !! spend_key s)) (sb_Spends b))).
Proof.
  intros Hnd H. apply apply_ledger_applied in H as Ha. destruct Ha as [_ _ _ _ Ao _].
  unfold apply_ledger in H. apply bind_ok in H as (l1 & H1 & H).
  apply bind_ok in H as (l2 & H2 & H). apply bind_ok in H as (l3 & H3 & H).
  apply insertBlock_ok in H1 as (_ & _ & ->). injection H2 as <-.
  apply insertOutputs_ok in H3 as (_ & _ & Eo). cbn in Eo.
  apply bind_ok in H as ([n l4] & [= <- _] & (l5 & _ & [= <- _])%bind_ok). cbn [UnknownSpends].
  assert (filter (λ ko, spends_of ko.1 (sb_Spends b) ≠ []) (outputs l3) =
          filter (λ ko, ko.1 ∈ spend_key <$> sb_Spends b) (outputs l3)) as ->.
  { apply map_filter_ext. intros k o _. cbn. rewrite spends_of_nil.
    destruct (decide (k ∈ spend_key <$> sb_Spends b)); tauto. }
  rewrite size_filter_keys, filter_fmap_length by done.
  pose proof (filter_split (λ s, is_Some (outputs l' !! spend_key s)) (sb_Spends b)) as Hsplit.
  rewrite (list_filter_iff _ (λ s, is_Some (outputs l' !! spend_key s))); [lia|].
  intros s. by rewrite Ao, <- Eo, fmap_is_Some.
Qed.

(** ** Fees *)

Definition value_of (l : ledger) (k : OutPointKey) : Z := from_option o_value_sats 0 (outputs l !! k).

(** What the block's own lists say a transaction takes in and gives out. *)
Definition spends_by (txid : Hash) (b : SBlock) : list Spend :=
  filter (λ s, ss_Source s = txid ∧ int16 (ss_Kind s) = SpendRegular) (sb_Spends b).
Definition creates_by (txid : Hash) (b : SBlock) : list SOutput :=
  filter (λ o, Source (so_OutPoint o) = txid ∧ Kind (so_OutPoint o) = KindRegular) (sb_Creates b).

Lemma sumZ_filter {A} (P : A → Prop) `{∀ a, Decision (P a)} (f : A → Z) l :
  sumZ f (filter P l) = sumZ (λ a, if bool_decide (P a) then f a else 0) l.
Proof.
  induction l as [|a l IH]; [done|]. rewrite filter_cons. cbn.
  case_decide; case_bool_decide; cbn; try done; lia.
Qed.

(** The key of a spend finds that very spend. *)
Lemma spends_of_unique l s :
  NoDup (spend_key <$> l) → s ∈ l → spends_of (spend_key s) l = [s].
Proof.
  induction l as [|x l IH]; [set_solver|]. rewrite fmap_cons, NoDup_cons. intros [Hx Hnd] Hs.
  unfold spends_of. rewrite filter_cons. apply elem_of_cons in Hs as [->|Hs].
  - rewrite decide_True by done. f_equal. by apply spends_of_nil.
  - rewrite decide_False; [by apply IH|]. intros E. apply Hx. change (spend_key x = spend_key s) in E. rewrite E. by apply list_elem_of_fmap_2.
Qed.

Lemma spend_lookup b l l' s :
  PostgresLaws → applied b l l' → NoDup (spend_key <$> sb_Spends b) → s ∈ sb_Spends b →
  ∀ o, outputs l' !! spend_key s = Some o →
    o_spent o = Some {| sp_source := ss_Source s; sp_kind := int16 (ss_Kind s);
                        sp_vin := int32 (ss_Vin s); sp_height := int32 (sb_Height b) |}.
Proof.
  intros HP [_ _ _ _ Ao _] Hnd Hs o. rewrite Ao. intros (o0 & _ & ->)%fmap_Some.
  unfold applySpend. rewrite spends_of_unique by done. cbn.
  pose proof (@update_pick_In _ HP _ s []) as E. apply list_elem_of_singleton in E. by rewrite E.
Qed.

Lemma applySpend_unspent h spends k o :
  k ∉ spend_key <$> spends → applySpend h spends k o = o.
Proof. unfold applySpend. by intros ->%spends_of_nil. Qed.

(** A row spent at the new height is a row the block spends. *)
Lemma spent_here n b l l' k o s :
  wf n l → int32 (sb_Height b) = n → applied b l l' →
  outputs l' !! k = Some o → o_spent o = Some s → sp_height s = n →
  k ∈ spend_key <$> sb_Spends b.
Proof.
  intros [_ _ _ Wo] Hn [_ _ _ _ Ao _] Ho Hs Hh. rewrite Ao in Ho.
  apply fmap_Some in Ho as (o0 & Ho0 & ->).
  destruct (decide (k ∈ spend_key <$> sb_Spends b)) as [|Hk]; [done|exfalso].
  rewrite applySpend_unspent in Hs by done.
  apply output_after_inv in Ho0 as [Ho0|(_ & c & _ & _ & [content ->]%create_row_inv)]; [|done].
  apply Wo in Ho0 as []. specialize (ok_spent _ Hs). lia.
Qed.

Lemma fee_inputs_sum n b l r l' txid :
  PostgresLaws → wf n l → int32 (sb_Height b) = n → NoDup (spend_key <$> sb_Spends b) →
  apply_ledger b l = Ok (r, l') →
  fee_inputs l' n txid = sumZ (λ s, value_of l' (spend_key s)) (spends_by txid b).
Proof.
  intros HP W Hn Hnd H. apply apply_ledger_applied in H as Ha.
  unfold fee_inputs, spends_by. rewrite (sumZ_keys _ spend_key _ (sb_Spends b) Hnd).
  - rewrite sumZ_filter. apply sumZ_ext. intros s Hs. unfold value_of.
    destruct (outputs l' !! spend_key s) as [o|] eqn:Ho; cbn; [|by case_bool_decide].
    rewrite (spend_lookup b l l' s HP Ha Hnd Hs o Ho). cbn.
    repeat case_bool_decide; naive_solver.
  - intros k o Ho Hk. destruct (o_spent o) as [s|] eqn:Hs; [|done].
    case_bool_decide as D; [|done]. exfalso. apply Hk. eapply spent_here; naive_solver.
Qed.

(** The keys the block creates are new to the index and distinct. *)
Definition new_creates (l : ledger) (b : SBlock) : Prop :=
  NoDup (create_key <$> sb_Creates b) ∧
  Forall (λ o, outputs l !! create_key o = None) (sb_Creates b).

#[export] Instance new_creates_dec l b : Decision (new_creates l b).
Proof. unfold new_creates. apply _. Defined.

Lemma first_output_unique l o :
  NoDup (create_key <$> l) → o ∈ l → first_output (create_key o) l = Some o.
Proof.
  unfold first_output. induction l as [|x l IH]; [set_solver|].
  rewrite fmap_cons, NoDup_cons, filter_cons. intros [Hx Hnd] Ho.
  apply elem_of_cons in Ho as [->|Ho]; [by rewrite decide_True by done|].
  rewrite decide_False; [by apply IH|]. intros E. apply Hx.
  change (create_key x = create_key o) in E. rewrite E. by apply list_elem_of_fmap_2.
Qed.

Lemma output_after_create hash h l m o row :
  NoDup (create_key <$> l) → o ∈ l → m !! create_key o = None →
  output_after hash h l m (create_key o) = Some row ↔ create_row hash h o = Some row.
Proof. intros Hnd Ho Hm. unfold output_after. by rewrite Hm, first_output_unique. Qed.

Lemma insertOutputs_rows b l l' o :
  insertOutputs b l = Ok l' → o ∈ sb_Creates b →
  ∃ row, create_row (sb_Hash b) (int32 (sb_Height b)) o = Some row.
Proof.
  unfold insertOutputs. intros (m & H & _)%bind_ok. revert H. generalize (outputs l).
  induction (sb_Creates b) as [|x xs IH]; intros m0 H Ho; [set_solver|]. cbn in H.
  apply bind_ok in H as (m1 & (row & Hrow & _)%insertOutput_ok & H).
  apply elem_of_cons in Ho as [->|Ho]; eauto.
Qed.

Lemma create_rows_exist b l r l' o :
  apply_ledger b l = Ok (r, l') → o ∈ sb_Creates b →
  ∃ row, create_row (sb_Hash b) (int32 (sb_Height b)) o = Some row.
Proof.
  unfold apply_ledger. intros (l1 & _ & (l2 & _ & (l3 & H3 & _)%bind_ok)%bind_ok)%bind_ok.
  by apply insertOutputs_rows with l2 l3.
Qed.

Lemma applySpend_fixed h spends k o :
  let o' := applySpend h spends k o in
  o_value_sats o' = o_value_sats o ∧ o_source_id o' = o_source_id o ∧
  o_kind o' = o_kind o ∧ o_height o' = o_height o ∧ o_address o' = o_address o ∧
  o_vout o' = o_vout o ∧ o_block_hash o' = o_block_hash o.
Proof. destruct (applySpend_row h spends k o) as [->|[s ->]]; done. Qed.

Lemma fee_outputs_sum n b l r l' txid :
  wf n l → int32 (sb_Height b) = n → block_ok b → new_creates l b →
  apply_ledger b l = Ok (r, l') →
  fee_outputs l' n txid = sumZ so_ValueSats (creates_by txid b).
Proof.
  intros W Hn Hb [Hnd Hnew] H. pose proof (λ o, create_rows_exist b l r l' o H) as Hrows.
  apply apply_ledger_applied in H as [_ _ _ _ Ao _]. rewrite Hn in *.
  unfold block_ok in Hb. rewrite Forall_forall in Hb, Hnew.
  unfold fee_outputs, creates_by. rewrite (sumZ_keys _ create_key _ (sb_Creates b) Hnd).
  - rewrite sumZ_filter. apply sumZ_ext. intros c Hc. rewrite Ao.
    destruct (Hrows c Hc) as [row Hrow]. pose proof Hrow as [content ->]%create_row_inv.
    rewrite (proj2 (output_after_create _ _ _ _ _ _ Hnd Hc (Hnew c Hc)) Hrow). cbn.
    pose proof (applySpend_fixed n (sb_Spends b) (create_key c)
      (new_output_row (sb_Hash b) n content c)) as (-> & -> & -> & -> & _). cbn.
    destruct (Hb c Hc) as [[HK _] _].
    assert (int16 (Kind (so_OutPoint c)) = Kind (so_OutPoint c)) as -> by width.
    repeat case_bool_decide; naive_solver.
  - intros k o Ho Hk. case_bool_decide as D; [|done]. exfalso. rewrite Ao in Ho.
    apply fmap_Some in Ho as (o0 & Ho0 & ->).
    pose proof (applySpend_fixed n (sb_Spends b) k o0) as (_ & _ & _ & E & _).
    apply output_after_inv in Ho0 as [Ho0|(_ & c & Hc & Ek & _)].
    + apply W in Ho0 as []. lia.
    + apply Hk. rewrite <- Ek. by apply (list_elem_of_fmap_2 create_key).
Qed.

(** A transaction the block brings gets what its inputs held less what its
    outputs hold, and never less than zero. *)
Lemma fee_of_block n b l r l' t :
  PostgresLaws → wf n l → int32 (sb_Height b) = n → block_ok b →
  NoDup (spend_key <$> sb_Spends b) → new_creates l b →
  apply_ledger b l = Ok (r, l') →
  t ∈ sb_Txs b → txs l !! st_Txid t = None →
  t_fee_sats <$> txs l' !! st_Txid t =
    Some (Z.max (sumZ (λ s, value_of l' (spend_key s)) (spends_by (st_Txid t) b) -
                 sumZ so_ValueSats (creates_by (st_Txid t) b)) 0).
Proof.
  intros HP W Hn Hb Hs Hc H Ht Hnew.
  pose proof (fee_inputs_sum n b l r l' (st_Txid t) HP W Hn Hs H) as Ein.
  pose proof (fee_outputs_sum n b l r l' (st_Txid t) W Hn Hb Hc H) as Eout.
  apply apply_ledger_applied in H as [_ _ _ At _ _]. rewrite At, Hn. unfold tx_after. rewrite Hnew.
  destruct (first_tx (st_Txid t) (sb_Txs b)) as [x|] eqn:Ex; cbn.
  - unfold set_fee, fee_of. rewrite bool_decide_true by done. cbn. by rewrite Ein, Eout.
  - exfalso. unfold first_tx in Ex. apply head_None in Ex.
    assert (t ∈ filter (λ x, st_Txid x = st_Txid t) (sb_Txs b)) as Hin
      by (by apply list_elem_of_filter).
    rewrite Ex in Hin. set_solver.
Qed.

(** ** The mempool tables *)

Lemma delete_any_lookup {K} `{Countable K} {V} (ks : list K) (m : gmap K V) k :
  delete_any ks m !! k = if bool_decide (k ∈ ks) then None else m !! k.
Proof.
  unfold delete_any. rewrite map_lookup_filter. destruct (m !! k); cbn; [|by case_bool_decide].
  case_guard; cbn in *; by case_bool_decide.
Qed.

(** ** Transactions *)

#[export] Instance fault_mono_Init name net : FaultMono (Init name net).
Proof.
  unfold Init. apply fault_mono_inTx, fault_mono_bind; [apply _|]. intros [row|]; [|apply _].
  case_bool_decide; apply _.
Qed.

Lemma Apply_atomic b c r c' :
  Apply b c = (r, c') →
  match r with
  | Ok res => apply_db b (c_db c) = Ok (res, c_db c')
  | Err _ => c_db c' = c_db c
  end.
Proof.
  intros H. destruct r as [res|e]; [|by eapply inTx_err].
  apply fault_mono in H. pose proof (run_Apply b (c_db c)) as E. unfold run in E. rewrite H in E.
  cbn in E. destruct (apply_db b (c_db c)) as [[]|]; congruence.
Qed.

Lemma Rollback_atomic k c r c' :
  Rollback k c = (r, c') →
  c_db c' = match r with Ok _ => rollback_db (int32 k) (c_db c) | Err _ => c_db c end.
Proof.
  intros H. destruct r as [u|e]; [|by eapply inTx_err].
  apply fault_mono in H. pose proof (run_Rollback k (c_db c)) as E. unfold run in E. rewrite H in E.
  cbn in E. congruence.
Qed.
End write_spec.

(** ** The one choice Postgres makes *)

Lemma apply_ledger_pick (P1 P2 : Postgres) b l :
  @PostgresLaws P1 → @PostgresLaws P2 →
  (∀ j, @jsonb P1 j = @jsonb P2 j) →
  NoDup (spend_key <$> sb_Spends b) →
  apply_ledger (PG := P1) b l = apply_ledger (PG := P2) b l.
Proof.
  intros L1 L2 Hj Hnd.
  assert (∀ hash h m o, insertOutput (PG := P1) hash h m o = insertOutput (PG := P2) hash h m o) as Eo.
  { intros. unfold insertOutput. destruct (so_Content o); cbn; [by rewrite Hj|done]. }
  assert (∀ l, insertOutputs (PG := P1) b l = insertOutputs (PG := P2) b l) as Eos.
  { intros l0. unfold insertOutputs. f_equal. generalize (outputs l0).
    induction (sb_Creates b) as [|o os IH]; intros m; cbn; [done|]. rewrite Eo.
    destruct (insertOutput _ _ m o); cbn; [apply IH|done]. }
  assert (∀ l, applySpends (PG := P1) b l = applySpends (PG := P2) b l) as Es.
  { intros l0. unfold applySpends. do 3 f_equal. apply map_eq. intros k. rewrite !map_lookup_imap.
    destruct (outputs l0 !! k) as [o|]; cbn; [|done]. f_equal. unfold applySpend.
    destruct (spends_of k (sb_Spends b)) as [|s rest] eqn:E; [done|].
    assert (s ∈ spends_of k (sb_Spends b)) as Hs by (rewrite E; left).
    apply list_elem_of_filter in Hs as [<- Hs].
    change (spends_of (spend_key s) (sb_Spends b) = s :: rest) in E.
    rewrite (spends_of_unique _ _ Hnd Hs) in E. injection E as <-.
    pose proof (@update_pick_In _ L1 _ s []) as E1. pose proof (@update_pick_In _ L2 _ s []) as E2.
    apply list_elem_of_singleton in E1, E2. by rewrite E1, E2. }
  unfold apply_ledger.
  destruct (insertBlock b l) as [l1|]; [|done]. cbn [mbind result_bind].
  destruct (insertTxs b l1) as [l2|]; [|done]. cbn [mbind result_bind]. rewrite Eos.
  destruct (insertOutputs (PG := P2) b l2) as [l3|]; [|done]. cbn [mbind result_bind].
  by rewrite Es.
Qed.
