(* ===== verification/WriteProps.v ===== *)
(** * The contract of the writer

    What a caller of [internal/store/write.go] may rely on, on a connection that
    may fail at any statement: the database always holds a whole chain, a block
    extends it, a rollback truncates it. *)

From S2P Require Import Prelude GoStd Json Hash OutPoint Block Registry Tables Write Ledger.
From S2P Require Import WriteSpec.
Open Scope Z_scope.

Section write_props.
Context {PG : Postgres}.

(** C7: [Apply] on a database that holds the chain [bs] either leaves it as it
    was, when any statement fails, or makes it hold [bs] with the block at its
    end: the rows, the fees and the tip columns together. *)
Theorem Apply_extends_chain bs b c r c' :
  holds bs (c_db c) → extends bs (c_db c) b → Apply b c = (r, c') →
  match r with
  | Ok _ => holds (bs ++ [b]) (c_db c')
  | Err _ => c_db c' = c_db c
  end.
Proof.
  intros Hd He H. apply Apply_atomic in H. destruct r; [|done]. by eapply holds_apply.
Qed.

(** C6: [Rollback] to a height below the tip either changes nothing, when any
    statement fails, or leaves exactly the index that writing the blocks up to
    that height would have built, spends undone and tip included. *)
Theorem Rollback_truncates bs k c r c' :
  holds bs (c_db c) → 0 ≤ k < Z.of_nat (length bs) → Rollback k c = (r, c') →
  match r with
  | Ok _ => holds (take (Z.to_nat (k + 1)) bs) (c_db c')
  | Err _ => c_db c' = c_db c
  end.
Proof.
  intros Hd Hk H. apply Rollback_atomic in H. destruct r; [|done]. rewrite H.
  assert (Z.of_nat (length bs) ≤ 2^31) as Hlen.
  { destruct Hd as [Hh _]. inversion Hh; subst; cbn; [lia|]. rewrite length_app; cbn. lia. }
  rewrite int32_nonneg by lia. by apply holds_rollback.
Qed.

(** C8: The rows [Apply] leaves, key by key: a transaction or a coin the index
    already held keeps its row, a new one comes from the first entry of the
    block with its key, every spent coin names its spend, every fee of the
    block is recomputed, and the snapshot loses what the block confirms. *)
Theorem Apply_writes_rows b c res c' :
  Apply b c = (Ok res, c') →
  let l := chain_tables (c_db c) in let l' := chain_tables (c_db c') in
  let h := int32 (sb_Height b) in
  blocks l' = <[h := new_block_row b]> (blocks l) ∧
  (∀ txid, txs l' !! txid = set_fee l' h txid <$> tx_after h (sb_Txs b) (txs l) txid) ∧
  (∀ k, outputs l' !! k = applySpend h (sb_Spends b) k
     <$> output_after (sb_Hash b) h (sb_Creates b) (outputs l) k) ∧
  sync_state (c_db c') = set_tip (Some (h, sb_Hash b)) (sync_state (c_db c)) ∧
  pool (c_db c') = clear_pool b (pool (c_db c)).
Proof.
  intros H. apply Apply_atomic in H. cbn in H. unfold apply_db in H.
  apply bind_ok in H as ([r l'] & Hl & [= -> <-]). apply apply_ledger_applied in Hl as [].
  by split_and!.
Qed.

(** A height or a block hash the index already holds is refused, and
    nothing is written. *)
Theorem Apply_refuses_duplicate b c r c' :
  is_Some (blocks (chain_tables (c_db c)) !! int32 (sb_Height b)) ∨
    hash_taken (chain_tables (c_db c)) (sb_Hash b) →
  Apply b c = (r, c') → (∃ e, r = Err e) ∧ c_db c' = c_db c.
Proof.
  intros Hdup H. apply Apply_atomic in H. destruct r as [res|e]; [|by eauto]. exfalso.
  unfold apply_db in H. apply bind_ok in H as ([r l'] & Hl%apply_ledger_applied & _).
  destruct Hl. destruct Hdup as [[? Hb]|Hb]; [congruence|done].
Qed.

(** What the index holds survives a block: a transaction keeps its row
    whole, and a coin keeps every column that says how it came about, so a
    transaction repeated in a later block stays with the first. *)
Theorem Apply_keeps_rows n b c res c' :
  wf n (chain_tables (c_db c)) → int32 (sb_Height b) = n → Apply b c = (Ok res, c') →
  (∀ txid t, txs (chain_tables (c_db c)) !! txid = Some t →
     txs (chain_tables (c_db c')) !! txid = Some t) ∧
  (∀ k o, outputs (chain_tables (c_db c)) !! k = Some o →
     ∃ o', outputs (chain_tables (c_db c')) !! k = Some o' ∧
       row_outpoint o' = row_outpoint o ∧ o_height o' = o_height o ∧
       o_block_hash o' = o_block_hash o ∧ o_address o' = o_address o ∧
       o_value_sats o' = o_value_sats o).
Proof.
  intros W Hn H. apply Apply_atomic in H. cbn in H. unfold apply_db in H.
  apply bind_ok in H as ([r l'] & Hl & [= -> <-]). apply apply_ledger_applied in Hl as [_ _ _ At Ao _].
  cbn. split.
  - intros txid t Ht. rewrite At. unfold tx_after. rewrite Ht. cbn. unfold set_fee.
    apply (wf_txs _ _ W) in Ht. by rewrite bool_decide_false by lia.
  - intros k o Ho. rewrite Ao. unfold output_after. rewrite Ho. cbn. eexists. split; [done|].
    by destruct (applySpend_row (int32 (sb_Height b)) (sb_Spends b) k o) as [->|[s ->]].
Qed.

(** After a block, the snapshot holds none of its transactions, created
    coins or spends, and everything else it held. *)
Theorem Apply_clears_mempool b c res c' :
  Apply b c = (Ok res, c') →
  let p := pool (c_db c) in let p' := pool (c_db c') in
  (∀ txid, mempool_txs p' !! txid =
     if bool_decide (txid ∈ st_Txid <$> sb_Txs b) then None else mempool_txs p !! txid) ∧
  (∀ k, mempool_outputs p' !! k =
     if bool_decide (k ∈ create_key <$> sb_Creates b) then None else mempool_outputs p !! k) ∧
  (∀ k, mempool_spends p' !! k =
     if bool_decide (k ∈ spend_key <$> sb_Spends b) then None else mempool_spends p !! k).
Proof.
  intros H. apply Apply_atomic in H. cbn in H. unfold apply_db in H.
  apply bind_ok in H as ([r l'] & _ & [= _ <-]). cbn. split_and!; intros; apply delete_any_lookup.
Qed.

(** [Init] that succeeds leaves a database claimed by this chain and
    network and no other table changed; a database another chain claimed makes
    it fail, and then nothing changes at all. *)
Lemma Init_outcome chainName network c r c' :
  Init chainName network c = (r, c') →
  match r with
  | Ok _ =>
      (λ s, (sy_chain s, sy_network s)) <$> sync_state (c_db c') = Some (chainName, network) ∧
      chain_tables (c_db c') = chain_tables (c_db c) ∧ pool (c_db c') = pool (c_db c) ∧
      (is_Some (sync_state (c_db c)) → c_db c' = c_db c)
  | Err _ => c_db c' = c_db c
  end.
Proof.
  intros H. destruct r as [[]|e]; [|by eapply inTx_err].
  apply fault_mono in H. assert (run (Init chainName network) (c_db c) = (Ok tt, c_db c')) as E
    by (unfold run; by rewrite H). clear H. revert E. unfold Init, run, inTx, exec, query, mbind, M_bind. cbn.
  destruct (sync_state (c_db c)) as [row|] eqn:Es; cbn.
  - case_bool_decide as Dc; cbn; [done|]. intros [= <-]. rewrite Es. cbn.
    split_and!; try done.
    assert (sy_chain row = chainName ∧ sy_network row = network) as [-> ->]; [|done].
    split; apply dec_stable; tauto.
  - intros [= <-]. cbn. split_and!; try done; by intros [? ?].
Qed.

Lemma Apply_ledger b c res c' :
  Apply b c = (Ok res, c') →
  apply_ledger b (chain_tables (c_db c)) = Ok (res, chain_tables (c_db c')).
Proof.
  intros H. apply Apply_atomic in H. cbn in H. unfold apply_db in H.
  by apply bind_ok in H as ([r l'] & -> & [= -> <-]).
Qed.

(** C9: The fee of a transaction a block brings is what the coins it spends
    hold less what the coins it creates hold, over the block's own lists, and
    zero when that is negative; a spend of a coin the index lacks counts for
    nothing. *)
Theorem Apply_sets_fees n b c res c' t :
  PostgresLaws → wf n (chain_tables (c_db c)) → int32 (sb_Height b) = n → block_ok b →
  NoDup (spend_key <$> sb_Spends b) → new_creates (chain_tables (c_db c)) b →
  Apply b c = (Ok res, c') → t ∈ sb_Txs b → txs (chain_tables (c_db c)) !! st_Txid t = None →
  t_fee_sats <$> txs (chain_tables (c_db c')) !! st_Txid t =
    Some (Z.max (sumZ (λ s, value_of (chain_tables (c_db c')) (spend_key s)) (spends_by (st_Txid t) b) -
                 sumZ so_ValueSats (creates_by (st_Txid t) b)) 0).
Proof. intros HP W Hn Hb Hs Hc H%Apply_ledger. by eapply fee_of_block. Qed.

(** [UnknownSpends] counts exactly the spends whose coin the index holds
    neither before nor through this block. *)
Theorem Apply_counts_unknown b c res c' :
  NoDup (spend_key <$> sb_Spends b) → Apply b c = (Ok res, c') →
  UnknownSpends res = Z.of_nat (length
    (filter (λ s, ¬ is_Some (outputs (chain_tables (c_db c')) !! spend_key s)) (sb_Spends b))).
Proof. intros Hs H%Apply_ledger. by eapply unknown_spends. Qed.
End write_props.

(** As long as a block spends no coin twice, what [Apply] leaves does not
    depend on which source row Postgres takes for an updated row. *)
Theorem Apply_deterministic (P1 P2 : Postgres) b d :
  @PostgresLaws P1 → @PostgresLaws P2 → (∀ j, @jsonb P1 j = @jsonb P2 j) →
  NoDup (spend_key <$> sb_Spends b) →
  run (@Apply P1 b) d = run (@Apply P2 b) d.
Proof.
  intros L1 L2 Hj Hnd. rewrite !run_Apply. unfold apply_db.
  by rewrite (apply_ledger_pick P1 P2 b (chain_tables d) L1 L2 Hj Hnd).
Qed.
