(* ===== verification/Migrate.v ===== *)
(** * The migration runner

    The first half of [internal/store/store.go]. Postgres runs the SQL of a
    migration: [run_body] is what a script makes of a schema. Each statement can
    fail, and a process can stop anywhere, which is a failure of every later
    statement; the runner starts over at the next start. A commit that fails has
    not happened. *)

From S2P Require Import Prelude GoStd Registry.
From stdpp Require Import relations.
Open Scope Z_scope.

Section migrate.
Context {Schema : Type} (run_body : string → Schema → result Schema).

(** ** State *)

(** The schema the scripts built, and the rows of [migrations] in insertion
    order, or [None] before the table exists. *)
Record state := State { schema : Schema; applied_names : option (list string) }.

(** The connection: the state and which of the next statements fail. *)
Record session := Session { st : state; faults : list bool }.

Definition Mig (A : Type) := session → result A * session.

#[export] Instance Mig_ret : MRet Mig := λ A a s, (Ok a, s).
#[export] Instance Mig_bind : MBind Mig := λ A B f m s,
  match m s with
  | (Ok a, s') => f a s'
  | (Err e, s') => (Err e, s')
  end.

Definition lost : error := Errorf "connection failed".

(** One statement outside any transaction, or inside one that is still open. *)
Definition statement {A} (f : state → result (A * state)) : Mig A := λ s,
  match faults s with
  | true :: fs => (Err lost, Session (st s) fs)
  | fs => match f (st s) with
          | Ok (a, x) => (Ok a, Session x (tail fs))
          | Err e => (Err e, Session (st s) (tail fs))
          end
  end.

(** [Begin], the statements, [Commit]; the deferred [Rollback] undoes all of
    them unless the commit went through. *)
Definition transaction {A} (m : Mig A) : Mig A := λ s,
  match (_ ← statement (λ x, Ok (tt, x)); a ← m; _ ← statement (λ x, Ok (tt, x)); mret a) s with
  | (Ok a, s') => (Ok a, s')
  | (Err e, s') => (Err e, Session (st s) (faults s'))
  end.

(** ** The runner *)

(** A file of the embedded directory; [None] is a subdirectory. *)
Definition entry : Type := string * option string.

(** [sort.Strings] on the names of the files. *)
Definition migrationNames (dir : list entry) : list string :=
  merge_sort (λ a b, string_leb a b) (omap (λ e : entry, (λ _, e.1) <$> e.2) dir).

(** [migrations.ReadFile]. *)
Definition ReadFile (dir : list entry) (name : string) : result string :=
  e ← of_option (Errorf "file does not exist") (head (filter (λ e : entry, e.1 = name) dir));
  of_option (Errorf "is a directory") e.2.

(** [CREATE TABLE IF NOT EXISTS migrations]. *)
Definition create_table : Mig unit :=
  statement (λ x, Ok (tt, State (schema x) (Some (default [] (applied_names x))))).

Definition no_table : error := Errorf "relation migrations does not exist".

Definition migrationApplied (name : string) : Mig bool :=
  statement (λ x, names ← of_option no_table (applied_names x); Ok (bool_decide (name ∈ names), x)).

Definition applyMigration (name body : string) : Mig unit :=
  transaction (
    _ ← statement (λ x, s ← run_body body (schema x); Ok (tt, State s (applied_names x)));
    statement (λ x,
      names ← of_option no_table (applied_names x);
      _ ← reject (bool_decide (name ∈ names)) (Errorf "duplicate key value violates unique constraint");
      Ok (tt, State (schema x) (Some (names ++ [name]))))).

(** The loop of [migrate]. *)
Fixpoint apply_all (dir : list entry) (names : list string) : Mig unit :=
  match names with
  | [] => mret tt
  | name :: names =>
      applied ← migrationApplied name;
      if (applied : bool) then apply_all dir names
      else
        body ← (λ s, (ReadFile dir name, s));
        _ ← applyMigration name body;
        apply_all dir names
  end.

Definition migrate (dir : list entry) : Mig unit :=
  _ ← create_table;
  apply_all dir (migrationNames dir).

(** [Open]: the pool, a ping, the migrations. *)
Definition Open (pool ping : result unit) (dir : list entry) : Mig unit :=
  _ ← (λ s, (wrap "connect to postgres" pool, s));
  _ ← (λ s, (wrap "ping postgres" ping, s));
  migrate dir.

(** ** What any number of starts leaves *)

Variable dir : list entry.

(** The schema after the first [k] scripts. *)
Definition scripts (names : list string) (s : Schema) : result Schema :=
  foldE (λ s name, body ← ReadFile dir name; run_body body s) s names.

(** The state after some of the migrations, in order and once each. *)
Definition migrated (s0 : Schema) (x : state) : Prop :=
  match applied_names x with
  | None => schema x = s0
  | Some names => names `prefix_of` migrationNames dir ∧ scripts names s0 = Ok (schema x)
  end.

(** One start of the program, which may stop at any statement. *)
Definition start (x x' : state) : Prop :=
  ∃ pool ping fs r s', Open pool ping dir (Session x fs) = (r, s') ∧ st s' = x'.

Lemma statement_inv {A} (f : state → result (A * state)) s r s' :
  statement f s = (r, s') →
  match r with Ok a => f (st s) = Ok (a, st s') | Err _ => st s' = st s end.
Proof.
  unfold statement. destruct (faults s) as [|[] fs]; [|by intros [= <- <-]|];
    destruct (f (st s)) as [[a x]|e] eqn:E; by intros [= <- <-].
Qed.

Lemma Mig_bind_inv {A B} (m : Mig A) (f : A → Mig B) s r s' :
  (m ≫= f) s = (r, s') →
  (∃ e, m s = (Err e, s') ∧ r = Err e) ∨ ∃ a s1, m s = (Ok a, s1) ∧ f a s1 = (r, s').
Proof.
  unfold mbind, Mig_bind. destruct (m s) as [[a|e] s1]; intros H.
  - right. by exists a, s1.
  - left. injection H as <- <-. by exists e.
Qed.

(** A migration is applied and recorded, or neither. *)
Lemma applyMigration_inv name body s r s' :
  applyMigration name body s = (r, s') →
  match r with
  | Ok _ => ∃ names sc, applied_names (st s) = Some names ∧ name ∉ names ∧
      run_body body (schema (st s)) = Ok sc ∧ st s' = State sc (Some (names ++ [name]))
  | Err _ => st s' = st s
  end.
Proof.
  unfold applyMigration, transaction.
  match goal with |- context [match ?x with _ => _ end] => destruct x as [[u|e] s1] eqn:E end; intros [= <- <-]; [|done].
  apply Mig_bind_inv in E as [(? & _ & [=])|(? & s2 & E2%statement_inv & E)].
  apply Mig_bind_inv in E as [(? & _ & [=])|(? & s3 & E3 & E)].
  apply Mig_bind_inv in E as [(? & _ & [=])|(? & s4 & E4%statement_inv & [= _ <-])].
  apply Mig_bind_inv in E3 as [(? & _ & [=])|(? & s5 & E5%statement_inv & E6%statement_inv)].
  injection E2 as _ E2. injection E4 as _ E4. rewrite <- E2 in E5.
  apply bind_ok in E5 as (sc & Hsc & [= _ E5]). rewrite <- E5 in E6. cbn in E6.
  apply bind_ok in E6 as (names & Hn%of_option_ok & (? & Hni%reject_ok & [= _ E6])%bind_ok).
  apply bool_decide_eq_false in Hni. exists names, sc. split_and!; [done..|]. by rewrite <- E4, <- E6.
Qed.

(** The names read so far are a front part of the recorded ones; the next name
    either follows them there, or nothing was recorded beyond them. *)
Lemma next_name (done have names : list string) name :
  NoDup (done ++ name :: names) → done `prefix_of` have → have `prefix_of` done ++ name :: names →
  if bool_decide (name ∈ have) then done ++ [name] `prefix_of` have else have = done.
Proof.
  intros Hnd [k ->] Hp%prefix_app_inv. destruct k as [|x k].
  - rewrite app_nil_r. case_bool_decide as Hin; [|done].
    apply NoDup_app in Hnd as (_ & Hnd & _). destruct (Hnd name Hin). by left.
  - pose proof (prefix_cons_inv_1 _ _ _ _ Hp) as ->. rewrite bool_decide_true by set_solver.
    apply prefix_app, prefix_cons, prefix_nil.
Qed.

(** The loop, from any point of the list of names. *)
Lemma apply_all_migrated s0 names done have s r s' :
  NoDup (migrationNames dir) → done ++ names = migrationNames dir →
  migrated s0 (st s) → applied_names (st s) = Some have → done `prefix_of` have →
  apply_all dir names s = (r, s') →
  migrated s0 (st s') ∧
  match r with
  | Ok _ => applied_names (st s') = Some (migrationNames dir)
  | Err _ => is_Some (applied_names (st s'))
  end.
Proof.
  intros Hnd. revert done have s. induction names as [|name names IH]; intros done have s Hd Hm Hh Hp H.
  - injection H as <- <-. split; [done|]. unfold migrated in Hm. rewrite Hh in Hm |- *.
    rewrite app_nil_r in Hd. subst done. f_equal. apply (anti_symm prefix); [apply Hm|done].
  - cbn [apply_all] in H.
    apply Mig_bind_inv in H as [(e & E%statement_inv & ->)|(b & s1 & E%statement_inv & H)].
    { rewrite E. eauto. }
    rewrite Hh in E. injection E as <- E. rewrite E in Hm, Hh.
    pose proof Hm as Hm'. unfold migrated in Hm'. rewrite Hh in Hm'. destruct Hm' as [Hall Hs].
    rewrite <- Hd in Hnd, Hall. pose proof (next_name _ _ _ _ Hnd Hp Hall) as Hnext. rewrite Hd in Hnd.
    case_bool_decide as Hin; [|subst have].
    { eapply (IH (done ++ [name])); try done. by rewrite <- app_assoc. }
    apply Mig_bind_inv in H as [(e & [= E1 <-] & ->)|(body & s2 & [= E1 <-] & H)]; [eauto|].
    apply Mig_bind_inv in H as [(e & E2%applyMigration_inv & ->)|([] & s3 & E2%applyMigration_inv & H)].
    { rewrite E2. eauto. }
    destruct E2 as (? & sc & Hh' & _ & Hrun & E3). rewrite Hh in Hh'. injection Hh' as <-.
    apply (IH (done ++ [name]) (done ++ [name]) s3); try done; [by rewrite <- app_assoc| |by rewrite E3].
    rewrite E3. unfold migrated. cbn. split; [rewrite <- Hd; apply prefix_app, prefix_cons, prefix_nil|].
    unfold scripts in *. rewrite foldE_app, Hs. cbn. rewrite E1. cbn. by rewrite Hrun.
Qed.

(** From any state earlier starts left, a start leaves one again. *)
Lemma migrate_migrated s0 s r s' :
  NoDup (migrationNames dir) → migrated s0 (st s) → migrate dir s = (r, s') →
  migrated s0 (st s') ∧ (r = Ok tt → applied_names (st s') = Some (migrationNames dir)).
Proof.
  intros Hnd Hm H. unfold migrate in H.
  apply Mig_bind_inv in H as [(e & E%statement_inv & ->)|([] & s1 & E%statement_inv & H)]; [by rewrite E|].
  injection E as E.
  destruct (apply_all_migrated s0 (migrationNames dir) [] (default [] (applied_names (st s))) s1 r s') as [H1 H2];
    try done; [| |apply prefix_nil|].
  - rewrite <- E. unfold migrated in *. cbn [applied_names schema]. destruct (applied_names (st s)); [done|].
    cbn. split; [apply prefix_nil|]. by rewrite Hm.
  - by rewrite <- E.
  - split; [done|]. intros ->. exact H2.
Qed.

(** Before the migrations a start writes nothing. *)
Lemma Open_inv pool ping s r s' :
  Open pool ping dir s = (r, s') →
  (∃ e, r = Err e ∧ s' = s ∧ ¬ (pool = Ok tt ∧ ping = Ok tt)) ∨
  (pool = Ok tt ∧ ping = Ok tt ∧ migrate dir s = (r, s')).
Proof.
  unfold Open, mbind, Mig_bind. destruct pool as [[]|e]; cbn; [|naive_solver].
  destruct ping as [[]|e]; cbn; naive_solver.
Qed.

Lemma Open_migrated s0 pool ping s r s' :
  NoDup (migrationNames dir) → migrated s0 (st s) → Open pool ping dir s = (r, s') →
  migrated s0 (st s') ∧ (r = Ok tt → applied_names (st s') = Some (migrationNames dir)).
Proof.
  intros Hnd Hm [(e & -> & -> & _)|(_ & _ & H)]%Open_inv; [done|]. by eapply migrate_migrated.
Qed.

Lemma starts_migrated s0 x :
  NoDup (migrationNames dir) → rtc start (State s0 None) x → migrated s0 x.
Proof.
  intros Hnd. apply (rtc_ind_r (migrated s0)); [done|].
  intros y z _ (pool & ping & fs & r & s' & H & <-) Hy. by eapply (Open_migrated s0 pool ping (Session y fs)).
Qed.

(** Statements that do not fail. *)
Lemma statement_ok {A} (f : state → result (A * state)) x a x' :
  f x = Ok (a, x') → statement f (Session x []) = (Ok a, Session x' []).
Proof. intros H. unfold statement. cbn. by rewrite H. Qed.

Lemma Mig_bind_ok {A B} (m : Mig A) (f : A → Mig B) s a s' :
  m s = (Ok a, s') → (m ≫= f) s = f a s'.
Proof. intros H. unfold mbind, Mig_bind. by rewrite H. Qed.

Lemma applyMigration_ok name body sc have sc' :
  run_body body sc = Ok sc' → name ∉ have →
  applyMigration name body (Session (State sc (Some have)) []) = (Ok tt, Session (State sc' (Some (have ++ [name]))) []).
Proof.
  intros Hrun Hni. unfold applyMigration, transaction.
  erewrite Mig_bind_ok by by apply statement_ok.
  erewrite Mig_bind_ok; cycle 1.
  { erewrite Mig_bind_ok; [|apply statement_ok; cbn; by rewrite Hrun].
    apply statement_ok. cbn. by rewrite bool_decide_false. }
  by erewrite Mig_bind_ok by by apply statement_ok.
Qed.

(** Undisturbed, the loop gets to the end when the scripts left to run do. *)
Lemma apply_all_ok names done have sc sc' :
  NoDup (done ++ names) → done `prefix_of` have → have `prefix_of` done ++ names →
  scripts (drop (length have) (done ++ names)) sc = Ok sc' →
  apply_all dir names (Session (State sc (Some have)) []) = (Ok tt, Session (State sc' (Some (done ++ names))) []).
Proof.
  revert done have sc. induction names as [|name names IH]; intros done have sc Hnd Hp Hall Hs; cbn [apply_all].
  - rewrite app_nil_r in *. assert (have = done) as -> by by apply (anti_symm prefix).
    rewrite drop_all in Hs. by injection Hs as ->.
  - pose proof (next_name _ _ _ _ Hnd Hp Hall) as Hnext.
    erewrite Mig_bind_ok by by apply statement_ok.
    replace (done ++ name :: names) with ((done ++ [name]) ++ names) in * by by rewrite <- app_assoc.
    case_bool_decide as Hin; [by apply IH|]. subst have.
    rewrite <- app_assoc, drop_app_length in Hs. cbn [app] in Hs. unfold scripts in Hs. cbn [foldE] in Hs.
    apply bind_ok in Hs as (sc1 & (body & Hb & Hrun)%bind_ok & Hs).
    erewrite Mig_bind_ok by by rewrite Hb.
    erewrite Mig_bind_ok by by apply applyMigration_ok.
    apply IH; [done|done|by apply prefix_app_r|]. by rewrite drop_app_length.
Qed.

(** With every name recorded a start only looks. *)
Lemma apply_all_recorded names have s r s' :
  applied_names (st s) = Some have → names ⊆ have → apply_all dir names s = (r, s') → st s' = st s.
Proof.
  revert s. induction names as [|name names IH]; intros s Hh Hsub H; cbn [apply_all] in H; [by injection H as _ <-|].
  apply Mig_bind_inv in H as [(e & E%statement_inv & _)|(b & s1 & E%statement_inv & H)]; [done|].
  rewrite Hh in E. injection E as <- E. rewrite bool_decide_true in H by set_solver.
  transitivity (st s1); [apply IH; [congruence|set_solver|done]|done].
Qed.

Lemma migrate_done s r s' :
  applied_names (st s) = Some (migrationNames dir) → migrate dir s = (r, s') → st s' = st s.
Proof.
  intros Hn H. unfold migrate in H.
  apply Mig_bind_inv in H as [(e & E%statement_inv & _)|([] & s1 & E%statement_inv & H)]; [done|].
  injection E as E. rewrite Hn in E. cbn in E.
  assert (st s1 = st s) as E' by (rewrite <- E; destruct (st s); cbn in *; congruence).
  transitivity (st s1); [eapply apply_all_recorded; [by rewrite E'|done|done]|done].
Qed.

Lemma migrationNames_NoDup : NoDup dir.*1 → NoDup (migrationNames dir).
Proof.
  intros H. unfold migrationNames. rewrite merge_sort_Permutation.
  induction dir as [|[n [c|]] d IH]; cbn in *; [constructor|..]; apply NoDup_cons in H as [Hn H]; [|by apply IH].
  constructor; [|by apply IH]. intros ([m [c'|]] & Hin & [= <-])%list_elem_of_omap.
  apply Hn. apply list_elem_of_fmap. by exists (m, Some c').
Qed.

(** C31: the migration scripts. Let the program start any number of times on an
    empty schema, each start losing its connection at any statement. Then the
    recorded names are the first few of the sorted file names, and the schema
    is those scripts run once each in order. A start that succeeds has recorded
    all of them, and a later start changes nothing. A start that loses no
    statement succeeds whenever the scripts run through. *)
Theorem migrations_run_once s0 x pool ping fs r s' :
  NoDup dir.*1 → rtc start (State s0 None) x → Open pool ping dir (Session x fs) = (r, s') →
  migrated s0 (st s') ∧
  (r = Ok tt →
   applied_names (st s') = Some (migrationNames dir) ∧
   scripts (migrationNames dir) s0 = Ok (schema (st s')) ∧
   ∀ x', start (st s') x' → x' = st s') ∧
  (pool = Ok tt → ping = Ok tt → fs = [] → (∃ sc, scripts (migrationNames dir) s0 = Ok sc) → r = Ok tt).
Proof.
  intros Hnd%migrationNames_NoDup Hx%starts_migrated H; [|done].
  pose proof (Open_migrated s0 pool ping (Session x fs) r s' Hnd Hx H) as [Hm Hok]. split_and!; [done|..].
  - intros Hr. specialize (Hok Hr). split_and!; [done| |].
    + unfold migrated in Hm. rewrite Hok in Hm. apply Hm.
    + intros x' (pl & pg & fs' & r' & s'' & [(e & _ & -> & _)|(_ & _ & Hs)]%Open_inv & <-); [done|].
      by rewrite (migrate_done (Session (st s') fs') r' s'').
  - intros -> -> -> [sc Hsc]. apply Open_inv in H as [(e & _ & _ & Hn)|(_ & _ & H)]; [by destruct Hn|].
    unfold migrated in Hx. cbn [st] in Hx.
    set (have := default [] (applied_names x)).
    assert (have `prefix_of` migrationNames dir ∧ scripts have s0 = Ok (schema x)) as [Hp Hs].
    { unfold have. destruct (applied_names x); [done|]. cbn. split; [apply prefix_nil|]. by rewrite Hx. }
    enough (migrate dir (Session x []) = (Ok tt, Session (State sc (Some (migrationNames dir))) [])) by congruence.
    unfold migrate. erewrite Mig_bind_ok by by apply statement_ok.
    apply (apply_all_ok (migrationNames dir) []); [done|apply prefix_nil|done|]. cbn [app].
    destruct Hp as [k Hk]. rewrite Hk in Hsc |- *. rewrite drop_app_length.
    unfold scripts in *. rewrite foldE_app, Hs in Hsc. exact Hsc.
Qed.
End migrate.
