(* ===== verification/Prepare.v ===== *)
(** * From node blocks to index rows

    [internal/index/prepare.go]. A block creates coins four ways and spends them
    three ways; [Prepare] turns the block and its block index into the rows
    [Apply] writes, and [PrepareMempool] does the same for the unconfirmed
    transactions. Neither reads anything but its arguments. *)

From S2P Require Import Prelude GoStd Json Hash OutPoint Block BlockIndex Registry Tables Write.
From S2P Require Import Ledger WriteSpec.
Open Scope Z_scope.

(** [store.MempoolTx] and [store.Mempool], the value a mempool pass writes. *)
Record SMempoolTx := {
  sm_Txid : Hash; sm_Index : Z; sm_SizeBytes : Z; sm_Raw : Bytes; sm_FirstSeen : Z;
}.

Record SMempool := {
  mp_Txs : list SMempoolTx;
  mp_Creates : list SOutput;
  mp_Spends : list Spend;
}.

(** [txRows]: what one transaction adds. *)
Record txRows := { tr_Spends : list Spend; tr_Creates : list SOutput }.

Definition no_rows : txRows := {| tr_Spends := []; tr_Creates := [] |}.

Section prepare.
Context {B3 : Blake3} (D : Decoder).

Definition newOutput (outpoint : OutPoint) (output : Output) (heightExact : bool) : result SOutput :=
  content ← DecodeContent (out_Content output);
  Ok {| so_OutPoint := outpoint;
        so_Address := out_Address output;
        so_ValueSats := ValueSats content;
        so_Content := out_Content output;
        so_ContentType := Type_ content;
        so_HeightExact := heightExact |}.

Definition tx_spend (txid : Hash) (vin : nat) (input : Input) : Spend :=
  {| ss_OutPoint := in_OutPoint input; ss_Source := txid;
     ss_Kind := SpendRegular; ss_Vin := uint32 (Z.of_nat vin) |}.

Definition prepareTx (txid : Hash) (tx : Transaction) : result txRows :=
  creates ← traverse (λ i output,
    wrap "transaction output"
      (newOutput {| Kind := KindRegular; Source := txid; Vout := uint32 (Z.of_nat i) |} output true))
    (Outputs tx);
  Ok {| tr_Spends := imap (tx_spend txid) (Inputs tx); tr_Creates := creates |}.

(** One turn of the loop over the body: the row every transaction writes, and
    the coins of one that was not skipped. *)
Definition body_tx (infos : list TxInfo) (i : nat) (tx : Transaction) : result (STx * txRows) :=
  info ← of_option (Errorf "index out of range") (infos !! i);
  rows ← (if ti_Skipped info then Ok no_rows else wrap "block" (prepareTx (ti_Txid info) tx));
  Ok ({| st_Txid := ti_Txid info; st_Index := Z.of_nat i; st_SizeBytes := int64 (ti_Size info);
         st_FeeSats := 0; st_Raw := ti_Raw info |}, rows).

Definition coinbase_output (source : Hash) (i : nat) (output : Output) : result SOutput :=
  wrap "coinbase output"
    (newOutput {| Kind := KindCoinbase; Source := source; Vout := uint32 (Z.of_nat i) |} output true).

Definition deposit_output (deposit : Deposit) : result SOutput :=
  _ ← reject (bool_decide (Kind (dep_OutPoint deposit) ≠ KindDeposit))
        (Errorf "block lists an outpoint that is no deposit as a deposit");
  wrap "deposit" (newOutput (dep_OutPoint deposit) (dep_Output deposit) true).

Definition bundle_spend (vin : nat) (spend : BundleSpend) : Spend :=
  {| ss_OutPoint := bun_OutPoint spend; ss_Source := bun_M6id spend;
     ss_Kind := SpendWithdrawal; ss_Vin := uint32 (Z.of_nat vin) |}.

Definition market_output (create : MarketUtxo) : result SOutput :=
  wrap "market create" (newOutput (mkt_OutPoint create) (mkt_Output create) true).

Definition market_spend (hash : Hash) (vin : nat) (del : MarketUtxo) : Spend :=
  {| ss_OutPoint := mkt_OutPoint del; ss_Source := hash;
     ss_Kind := SpendMarket; ss_Vin := uint32 (Z.of_nat vin) |}.

Definition Prepare (height : Z) (hash : Hash) (block : Block) (blockIndex : BlockIndex)
    (blockTime : option Z) : result SBlock :=
  let body := blk_Body block in
  _ ← reject (bool_decide (length (bi_Txs blockIndex) ≠ length (Transactions body)))
        (Errorf "block carries a number of transactions its index does not name");
  coinbase ← traverse (coinbase_output (CoinbaseSource block)) (cb_Outputs (body_Coinbase body));
  rows ← traverse (body_tx (bi_Txs blockIndex)) (Transactions body);
  deposits ← traverse (λ _, deposit_output) (bi_Deposits blockIndex);
  markets ← traverse (λ _, market_output) (bi_MarketCreates blockIndex);
  Ok {| sb_Height := height;
        sb_Hash := hash;
        sb_PrevHash := PrevSideHash (blk_Header block);
        sb_MerkleRoot := MerkleRoot (blk_Header block);
        sb_MainHash := PrevMainHash (blk_Header block);
        sb_MainHeight := None;
        sb_BlockTime := blockTime;
        sb_Txs := rows.*1;
        sb_Creates := coinbase ++ concat (tr_Creates <$> rows.*2) ++ deposits ++ markets;
        sb_Spends := concat (tr_Spends <$> rows.*2) ++
                     imap bundle_spend (bi_BundleSpends blockIndex) ++
                     imap (market_spend hash) (bi_MarketDeletes blockIndex) |}.

Definition mempool_tx (i : nat) (entry : MempoolTx) : result (SMempoolTx * txRows) :=
  rows ← prepareTx (ti_Txid (mt_Info entry)) (mt_Tx entry);
  Ok ({| sm_Txid := ti_Txid (mt_Info entry); sm_Index := Z.of_nat i;
         sm_SizeBytes := int64 (ti_Size (mt_Info entry)); sm_Raw := ti_Raw (mt_Info entry);
         sm_FirstSeen := 0 |}, rows).

Definition PrepareMempool (txs : list MempoolTx) : result SMempool :=
  rows ← traverse mempool_tx txs;
  Ok {| mp_Txs := rows.*1;
        mp_Creates := concat (tr_Creates <$> rows.*2);
        mp_Spends := concat (tr_Spends <$> rows.*2) |}.

(** ** The outpoints a block creates and spends, read off the block *)

(** The transactions that were not skipped, with their txids. *)
Definition live_txs (infos : list TxInfo) (txs : list Transaction) : list (Hash * Transaction) :=
  omap (λ it : TxInfo * Transaction,
    if ti_Skipped it.1 then None else Some (ti_Txid it.1, it.2)) (zip infos txs).

Definition regular (txid : Hash) (i : nat) (_ : Output) : OutPoint :=
  {| Kind := KindRegular; Source := txid; Vout := uint32 (Z.of_nat i) |}.

Definition created_outpoints (block : Block) (bi : BlockIndex) : list OutPoint :=
  imap (λ i _, {| Kind := KindCoinbase; Source := CoinbaseSource block; Vout := uint32 (Z.of_nat i) |})
    (cb_Outputs (body_Coinbase (blk_Body block))) ++
  concat ((λ tx : Hash * Transaction, imap (regular tx.1) (Outputs tx.2))
            <$> live_txs (bi_Txs bi) (Transactions (blk_Body block))) ++
  (dep_OutPoint <$> bi_Deposits bi) ++ (mkt_OutPoint <$> bi_MarketCreates bi).

Definition spent_outpoints (block : Block) (bi : BlockIndex) : list OutPoint :=
  concat ((λ tx : Hash * Transaction, in_OutPoint <$> Inputs tx.2)
            <$> live_txs (bi_Txs bi) (Transactions (blk_Body block))) ++
  (bun_OutPoint <$> bi_BundleSpends bi) ++ (mkt_OutPoint <$> bi_MarketDeletes bi).

(** The coins a block creates: their outpoints, each with the output it names. *)
Definition created_coins (block : Block) (bi : BlockIndex) : list (OutPoint * Output) :=
  imap (λ i out, ({| Kind := KindCoinbase; Source := CoinbaseSource block; Vout := uint32 (Z.of_nat i) |}, out))
    (cb_Outputs (body_Coinbase (blk_Body block))) ++
  concat ((λ tx : Hash * Transaction, imap (λ i out, (regular tx.1 i out, out)) (Outputs tx.2))
            <$> live_txs (bi_Txs bi) (Transactions (blk_Body block))) ++
  ((λ d, (dep_OutPoint d, dep_Output d)) <$> bi_Deposits bi) ++
  ((λ m, (mkt_OutPoint m, mkt_Output m)) <$> bi_MarketCreates bi).

(** ** Rows *)

(** The row of a coin: its outpoint, the address and the content of its output, and
    the amount and the type the chain's decoder reads in that content. *)
Definition row_of (coin : OutPoint * Output) (row : SOutput) : Prop :=
  so_OutPoint row = coin.1 ∧ so_Address row = out_Address coin.2 ∧ so_Content row = out_Content coin.2 ∧
  so_HeightExact row = true ∧
  DecodeContent (out_Content coin.2) = Ok {| ValueSats := so_ValueSats row; Type_ := so_ContentType row |}.

Lemma newOutput_ok o out exact row :
  newOutput o out exact = Ok row →
  so_OutPoint row = o ∧ so_Address row = out_Address out ∧ so_Content row = out_Content out ∧
  so_HeightExact row = exact ∧
  DecodeContent (out_Content out) = Ok {| ValueSats := so_ValueSats row; Type_ := so_ContentType row |}.
Proof. unfold newOutput. intros. inv_ok. cbn. split_and!; try done. by destruct x. Qed.

Lemma newOutput_total o out exact :
  is_Ok (DecodeContent (out_Content out)) → is_Ok (newOutput o out exact).
Proof. intros [c Hc]. unfold newOutput. rewrite Hc. by eexists. Qed.

Lemma newOutput_row o out row : newOutput o out true = Ok row → row_of (o, out) row.
Proof. apply newOutput_ok. Qed.

Lemma traverse_rows {A} (f : nat → A → result SOutput) (g : nat → A → OutPoint * Output) l rows :
  (∀ i a row, f i a = Ok row → row_of (g i a) row) →
  traverse f l = Ok rows → Forall2 row_of (imap g l) rows.
Proof.
  intros Hfg [Hlen Hrows]%traverse_ok. apply Forall2_same_length_lookup. rewrite length_imap. split; [by symmetry|].
  intros i c row. rewrite list_lookup_imap. intros (a & Ha & ->)%fmap_Some Hr.
  destruct (Hrows i a Ha) as (row' & Hr' & Hf). rewrite Hr in Hr'. injection Hr' as <-. by apply Hfg.
Qed.

Lemma traverse_rows_const {A} (f : A → result SOutput) (g : A → OutPoint * Output) l rows :
  (∀ a row, f a = Ok row → row_of (g a) row) →
  traverse (λ _, f) l = Ok rows → Forall2 row_of (g <$> l) rows.
Proof.
  intros Hfg H. pose proof (traverse_rows _ (λ _, g) _ _ (λ _, Hfg) H) as Hr.
  replace (g <$> l) with (imap (λ _, g) l); [done|]. apply list_eq. intros i. by rewrite list_lookup_imap, list_lookup_fmap.
Qed.

Lemma prepareTx_ok txid tx rows :
  prepareTx txid tx = Ok rows →
  tr_Spends rows = imap (tx_spend txid) (Inputs tx) ∧
  Forall2 row_of (imap (λ i out, (regular txid i out, out)) (Outputs tx)) (tr_Creates rows).
Proof.
  unfold prepareTx. intros (cs & Hcs & [= <-])%bind_ok. split; [done|]. cbn.
  eapply traverse_rows; [|done]. cbn. by intros i out row H%wrap_ok%newOutput_row.
Qed.

Lemma wrap_is_Ok {A} what (r : result A) : is_Ok r → is_Ok (wrap what r).
Proof. intros [a ->]. by eexists. Qed.

(** The spends of a block, in order: inputs, bundles, market removals. *)
Definition block_spends (hash : Hash) (block : Block) (bi : BlockIndex) : list Spend :=
  concat ((λ tx : Hash * Transaction, imap (tx_spend tx.1) (Inputs tx.2))
            <$> live_txs (bi_Txs bi) (Transactions (blk_Body block))) ++
  imap bundle_spend (bi_BundleSpends bi) ++
  imap (market_spend hash) (bi_MarketDeletes bi).

Definition block_tx (i : nat) (info : TxInfo) : STx :=
  {| st_Txid := ti_Txid info; st_Index := Z.of_nat i; st_SizeBytes := int64 (ti_Size info);
     st_FeeSats := 0; st_Raw := ti_Raw info |}.

(** The loop over the body from its [k]-th turn on, over what is left of the
    index. *)
Definition body_from (k : nat) (infos : list TxInfo) (f : nat → Transaction → result (STx * txRows))
    : Prop :=
  ∀ i tx, f i tx =
    (info ← of_option (Errorf "index out of range") (infos !! i);
     rows ← (if ti_Skipped info then Ok no_rows else wrap "block" (prepareTx (ti_Txid info) tx));
     Ok (block_tx (k + i) info, rows)).

Lemma body_from_tail k info infos f :
  body_from k (info :: infos) f → body_from (S k) infos (λ i, f (S i)).
Proof. intros Hf i tx. rewrite (Hf (S i) tx). cbn. by replace (k + S i)%nat with (S (k + i)) by lia. Qed.

Lemma body_loop_at k f infos txs rows :
  body_from k infos f → traverse f txs = Ok rows → length infos = length txs →
  rows.*1 = imap (λ i, block_tx (k + i)) infos ∧
  concat (tr_Spends <$> rows.*2) =
    concat ((λ tx : Hash * Transaction, imap (tx_spend tx.1) (Inputs tx.2)) <$> live_txs infos txs) ∧
  Forall2 row_of
    (concat ((λ tx : Hash * Transaction, imap (λ i out, (regular tx.1 i out, out)) (Outputs tx.2)) <$> live_txs infos txs))
    (concat (tr_Creates <$> rows.*2)).
Proof.
  revert k f infos rows. induction txs as [|tx txs IH]; intros k f [|info infos] rows Hf H Hlen; try done.
  { injection H as <-. split_and!; constructor. }
  cbn in H. apply bind_ok in H as ([st r] & H1 & (rows' & H2 & [= <-])%bind_ok).
  rewrite (Hf 0%nat tx) in H1. cbn in H1. apply bind_ok in H1 as (r' & Hr & [= <- <-]).
  destruct (IH (S k) (λ i, f (S i)) infos rows') as (E1 & E2 & E3);
    [by eapply body_from_tail | done | cbn in Hlen; lia|].
  rewrite !fmap_cons. cbn [concat imap fst snd]. rewrite E1, E2. split_and!.
  - rewrite Nat.add_0_r. f_equal. apply imap_ext. intros i x _. cbn. f_equal. lia.
  - unfold live_txs. cbn. destruct (ti_Skipped info); cbn; [by injection Hr as <-|].
    by apply wrap_ok, prepareTx_ok in Hr as [-> _].
  - unfold live_txs. cbn. destruct (ti_Skipped info); cbn; [by injection Hr as <-|].
    apply wrap_ok, prepareTx_ok in Hr as [_ Hr]. by apply Forall2_app.
Qed.

(** ** What [Prepare] writes *)

Lemma created_coins_outpoints block bi : (created_coins block bi).*1 = created_outpoints block bi.
Proof.
  unfold created_coins, created_outpoints. rewrite !fmap_app, fmap_imap, fmap_concat, <- !list_fmap_compose.
  do 3 f_equal. apply list_fmap_ext. intros i tx _. cbn. by rewrite fmap_imap.
Qed.

Lemma Prepare_coins height hash block bi time b :
  Prepare height hash block bi time = Ok b →
  sb_Txs b = imap block_tx (bi_Txs bi) ∧ sb_Spends b = block_spends hash block bi ∧
  Forall2 row_of (created_coins block bi) (sb_Creates b).
Proof.
  unfold Prepare. intros ([] & Hlen & (cs & Hc & (rows & Hr & (ds & Hd &
    (ms & Hm & [= <-])%bind_ok)%bind_ok)%bind_ok)%bind_ok)%bind_ok. cbn.
  apply reject_ok, bool_decide_eq_false in Hlen.
  destruct (body_loop_at 0 (body_tx (bi_Txs bi)) _ _ _ (λ _ _, eq_refl) Hr) as (E1 & E2 & E3); [lia|].
  unfold block_spends, created_coins. rewrite E1, E2. split_and!; [done..|].
  repeat apply Forall2_app; [|done|..].
  - eapply traverse_rows; [|done]. by intros i o row H%wrap_ok%newOutput_row.
  - eapply traverse_rows_const; [|done]. intros d row. unfold deposit_output.
    by intros (? & _ & H%wrap_ok%newOutput_row)%bind_ok.
  - eapply traverse_rows_const; [|done]. by intros m row H%wrap_ok%newOutput_row.
Qed.

Lemma row_of_outpoints coins rows : Forall2 row_of coins rows → so_OutPoint <$> rows = coins.*1.
Proof. induction 1 as [|c r cs rs (H & _) _ IH]; [done|]. rewrite !fmap_cons. by f_equal. Qed.

Lemma Prepare_rows height hash block bi time b :
  Prepare height hash block bi time = Ok b →
  sb_Height b = height ∧ sb_Hash b = hash ∧ sb_PrevHash b = PrevSideHash (blk_Header block) ∧
  sb_MerkleRoot b = MerkleRoot (blk_Header block) ∧
  sb_MainHash b = PrevMainHash (blk_Header block) ∧ sb_BlockTime b = time ∧
  sb_MainHeight b = None ∧
  sb_Txs b = imap block_tx (bi_Txs bi) ∧
  sb_Spends b = block_spends hash block bi ∧
  so_OutPoint <$> sb_Creates b = created_outpoints block bi.
Proof.
  intros H. pose proof (Prepare_coins _ _ _ _ _ _ H) as (Ht & Hs & Hc%row_of_outpoints).
  rewrite created_coins_outpoints in Hc. revert H. unfold Prepare.
  intros ([] & _ & (cs & _ & (rows & _ & (ds & _ & (ms & _ & [= E])%bind_ok)%bind_ok)%bind_ok)%bind_ok)%bind_ok.
  rewrite <- E in *. by split_and!.
Qed.

(** [Prepare] succeeds exactly on what it accepts: an index that names every
    transaction, deposits that are deposits, and payloads the chain decodes. *)
Definition decodes (output : Output) : Prop := is_Ok (DecodeContent (out_Content output)).

Definition acceptable (block : Block) (bi : BlockIndex) : Prop :=
  length (bi_Txs bi) = length (Transactions (blk_Body block)) ∧
  Forall decodes (cb_Outputs (body_Coinbase (blk_Body block))) ∧
  Forall (λ tx : Hash * Transaction, Forall decodes (Outputs tx.2))
    (live_txs (bi_Txs bi) (Transactions (blk_Body block))) ∧
  Forall (λ d, Kind (dep_OutPoint d) = KindDeposit ∧ decodes (dep_Output d)) (bi_Deposits bi) ∧
  Forall (λ m, decodes (mkt_Output m)) (bi_MarketCreates bi).

Lemma newOutput_is_Ok o out exact : is_Ok (newOutput o out exact) ↔ decodes out.
Proof.
  unfold newOutput, decodes. destruct (DecodeContent _); cbn; split; intros [? [=]]; by eexists.
Qed.

Lemma is_Ok_wrap {A} what (r : result A) : is_Ok (wrap what r) ↔ is_Ok r.
Proof. destruct r; split; intros [? [=]]; by eexists. Qed.

Lemma is_Ok_traverse {A B} (f : nat → A → result B) l :
  is_Ok (traverse f l) ↔ ∀ i x, l !! i = Some x → is_Ok (f i x).
Proof.
  split; [|apply traverse_total]. intros [ys [Hlen Hys]%traverse_ok] i x Hx.
  destruct (Hys i x Hx) as (y & _ & ->). by eexists.
Qed.

Lemma is_Ok_traverse_Forall {A B} (f : nat → A → result B) (P : A → Prop) l :
  (∀ i x, is_Ok (f i x) ↔ P x) → is_Ok (traverse f l) ↔ Forall P l.
Proof. intros Hf. rewrite is_Ok_traverse, Forall_lookup. by setoid_rewrite Hf. Qed.

Lemma is_Ok_bind {A B} (r : result A) (f : A → result B) :
  is_Ok (r ≫= f) ↔ ∃ a, r = Ok a ∧ is_Ok (f a).
Proof. destruct r; cbn; split; [by eauto | naive_solver | intros [? [=]] | naive_solver]. Qed.

Lemma prepareTx_is_Ok txid tx : is_Ok (prepareTx txid tx) ↔ Forall decodes (Outputs tx).
Proof.
  unfold prepareTx. rewrite is_Ok_bind.
  rewrite <- (is_Ok_traverse_Forall (λ i output, wrap "transaction output"
      (newOutput {| Kind := KindRegular; Source := txid; Vout := uint32 (Z.of_nat i) |} output true)))
    by (intros; by rewrite is_Ok_wrap, newOutput_is_Ok).
  unfold is_Ok. naive_solver.
Qed.

Lemma body_is_Ok k f infos txs :
  body_from k infos f → length infos = length txs →
  is_Ok (traverse f txs) ↔
  Forall (λ tx : Hash * Transaction, Forall decodes (Outputs tx.2)) (live_txs infos txs).
Proof.
  revert k f infos. induction txs as [|tx txs IH]; intros k f [|info infos] Hf Hlen; try done.
  { split; [done|]. by eexists. }
  specialize (IH (S k) (λ i, f (S i)) infos (body_from_tail _ _ _ _ Hf)).
  assert (is_Ok (f 0%nat tx) ↔ (ti_Skipped info = false → Forall decodes (Outputs tx))) as H0.
  { rewrite (Hf 0%nat tx). cbn. rewrite is_Ok_bind. destruct (ti_Skipped info).
    - split; [done|]. intros _. eexists; split; [done|]. by eexists.
    - rewrite <- (prepareTx_is_Ok (ti_Txid info)), <- (is_Ok_wrap "block").
      unfold is_Ok. naive_solver. }
  unfold live_txs in *. cbn. rewrite is_Ok_bind.
  transitivity (is_Ok (f 0%nat tx) ∧ is_Ok (traverse (λ i, f (S i)) txs)).
  - setoid_rewrite is_Ok_bind. unfold is_Ok. naive_solver.
  - rewrite H0, IH by (cbn in Hlen; lia). destruct (ti_Skipped info); cbn; [naive_solver|].
    rewrite Forall_cons. cbn. naive_solver.
Qed.

Lemma Prepare_is_Ok height hash block bi time :
  is_Ok (Prepare height hash block bi time) ↔ acceptable block bi.
Proof.
  unfold Prepare, acceptable. rewrite is_Ok_bind. setoid_rewrite reject_ok.
  setoid_rewrite bool_decide_eq_false.
  destruct (decide (length (bi_Txs bi) = length (Transactions (blk_Body block)))) as [E|E].
  2:{ split; [by intros ([] & ? & _) | by intros [? _]]. }
  rewrite <- (is_Ok_traverse_Forall (coinbase_output (CoinbaseSource block)))
    by (intros; unfold coinbase_output; by rewrite is_Ok_wrap, newOutput_is_Ok).
  rewrite <- (body_is_Ok 0 (body_tx (bi_Txs bi)) _ _ (λ _ _, eq_refl) E).
  rewrite <- (is_Ok_traverse_Forall (λ _, deposit_output)).
  2:{ intros _ d. unfold deposit_output. rewrite is_Ok_bind.
      setoid_rewrite reject_ok. setoid_rewrite bool_decide_eq_false.
      setoid_rewrite is_Ok_wrap. setoid_rewrite newOutput_is_Ok. destruct (decide (Kind (dep_OutPoint d) = KindDeposit)).
      - split; [by intros (_ & _ & ?) | intros [_ ?]; exists tt; naive_solver].
      - split; [by intros ([] & ? & _) | by intros [? _]]. }
  rewrite <- (is_Ok_traverse_Forall (λ _, market_output))
    by (intros; unfold market_output; by rewrite is_Ok_wrap, newOutput_is_Ok).
  repeat setoid_rewrite is_Ok_bind. unfold is_Ok. split.
  - intros (_ & _ & cs & ? & rs & ? & ds & ? & ms & ? & _). eauto 10.
  - intros (_ & [cs ?] & [rs ?] & [ds ?] & [ms ?]). exists tt. split; [naive_solver|].
    repeat (eexists; split; [done|]). by eexists.
Qed.

(** ** The rows are what [Apply] expects *)

Lemma created_typed block bi :
  index_typed bi → Forall OutPoint_typed (created_outpoints block bi).
Proof.
  intros [Hd Hm]. assert (∀ i, is_u32 (uint32 i)) by apply uint32_range.
  unfold created_outpoints. rewrite !Forall_app. split_and!; try done.
  - apply Forall_lookup. intros i o. rewrite list_lookup_imap.
    intros (x & _ & ->)%fmap_Some. split; cbn; [unfold is_u8, KindCoinbase, KindRegular; lia|auto].
  - rewrite Forall_concat, Forall_fmap, Forall_forall. intros tx _. cbn.
    apply Forall_lookup. intros i o. rewrite list_lookup_imap.
    intros (x & _ & ->)%fmap_Some. split; cbn; [unfold is_u8, KindCoinbase, KindRegular; lia|auto].
Qed.

Definition decoded (row : SOutput) : Prop :=
  DecodeContent (so_Content row) = Ok {| ValueSats := so_ValueSats row; Type_ := so_ContentType row |}.

Lemma newOutput_decoded o out exact row : newOutput o out exact = Ok row → decoded row.
Proof. intros (_ & _ & Ec & _ & H)%newOutput_ok. unfold decoded. by rewrite Ec. Qed.

Lemma prepareTx_decoded txid tx rows : prepareTx txid tx = Ok rows → Forall decoded (tr_Creates rows).
Proof.
  unfold prepareTx. intros (cs & H & [= <-])%bind_ok. cbn. eapply traverse_Forall; [done|].
  cbn. intros i out row Hr%wrap_ok. by eapply newOutput_decoded.
Qed.

Lemma Prepare_decoded height hash block bi time b :
  Prepare height hash block bi time = Ok b → Forall decoded (sb_Creates b).
Proof.
  unfold Prepare. intros ([] & _ & (cs & Hc & (rows & Hr & (ds & Hd &
    (ms & Hm & [= <-])%bind_ok)%bind_ok)%bind_ok)%bind_ok)%bind_ok. cbn.
  rewrite !Forall_app. split_and!; try (eapply traverse_Forall; [eassumption|]).
  - intros i out row H%wrap_ok. by eapply newOutput_decoded.
  - rewrite Forall_concat, !Forall_fmap. eapply traverse_Forall; [eassumption|].
    intros i tx r H. unfold body_tx in H. apply bind_ok in H as (info & _ & (tr & H & [= <-])%bind_ok).
    cbn. destruct (ti_Skipped info); [injection H as <-; constructor|].
    apply wrap_ok in H. by eapply prepareTx_decoded.
  - intros i d row H. unfold deposit_output in H.
    apply bind_ok in H as (_ & _ & H%wrap_ok). by eapply newOutput_decoded.
  - intros i m row H%wrap_ok. by eapply newOutput_decoded.
Qed.

Lemma Prepare_block_ok height hash block bi time b :
  DecoderLaws D → index_typed bi → Prepare height hash block bi time = Ok b → block_ok b.
Proof.
  intros HD Ht H. pose proof (Prepare_decoded _ _ _ _ _ _ H) as Hdec.
  apply Prepare_rows in H as (_ & _ & _ & _ & _ & _ & _ & _ & _ & Eo).
  pose proof (created_typed block bi Ht) as Htyped. rewrite <- Eo, Forall_fmap in Htyped.
  unfold block_ok. rewrite Forall_forall in *. intros o Ho. split; [by apply Htyped|].
  apply (HD _ _ (Hdec o Ho)).
Qed.

(** ** No two coins of a block share a key *)

Definition fits (l : list Output) : Prop := Z.of_nat (length l) ≤ 2^32.

#[export] Instance fits_dec l : Decision (fits l).
Proof. unfold fits. apply _. Defined.

(** What the node's own identities promise: txids, deposit outpoints and
    market outpoints are distinct, and each list names its own kinds. *)
Record distinct_ids (block : Block) (bi : BlockIndex) : Prop := {
  di_coinbase : fits (cb_Outputs (body_Coinbase (blk_Body block)));
  di_outputs : Forall (λ tx : Hash * Transaction, fits (Outputs tx.2))
    (live_txs (bi_Txs bi) (Transactions (blk_Body block)));
  di_txids : NoDup (live_txs (bi_Txs bi) (Transactions (blk_Body block))).*1;
  di_deposits : NoDup (dep_OutPoint <$> bi_Deposits bi);
  di_deposit_kind : Forall (λ d, Kind (dep_OutPoint d) = KindDeposit) (bi_Deposits bi);
  di_markets : NoDup (mkt_OutPoint <$> bi_MarketCreates bi);
  di_market_kind : Forall (λ m, KindDeposit < Kind (mkt_OutPoint m)) (bi_MarketCreates bi);
}.

Lemma imap_outputs_NoDup (f : nat → Output → OutPoint) l :
  (∀ i x, Vout (f i x) = uint32 (Z.of_nat i)) → fits l → NoDup (imap f l).
Proof.
  intros Hf Hl. apply NoDup_alt. intros i j o. rewrite !list_lookup_imap.
  intros (x & Hi & ->)%fmap_Some (y & Hj & E)%fmap_Some.
  apply lookup_lt_Some in Hi, Hj. apply (f_equal Vout) in E. rewrite !Hf in E.
  unfold fits in Hl. rewrite !uint32_small in E by (unfold is_u32; lia). lia.
Qed.

Lemma imap_elem {A B} (f : nat → A → B) l b : b ∈ imap f l → ∃ i a, a ∈ l ∧ b = f i a.
Proof.
  intros [i Hi]%list_elem_of_lookup. rewrite list_lookup_imap in Hi.
  apply fmap_Some in Hi as (a & Ha & ->). exists i, a. split; [by eapply list_elem_of_lookup_2|done].
Qed.

Lemma live_regular_elem (l : list (Hash * Transaction)) o :
  o ∈ concat ((λ tx : Hash * Transaction, imap (regular tx.1) (Outputs tx.2)) <$> l) →
  Kind o = KindRegular ∧ Source o ∈ l.*1.
Proof.
  intros Ho. apply list_elem_of_In, in_concat in Ho as (os & Hos & Ho).
  apply list_elem_of_In in Hos, Ho. apply list_elem_of_fmap in Hos as (tx & -> & Htx). apply imap_elem in Ho as (i & a & _ & ->).
  split; [done|]. by apply (list_elem_of_fmap_2 fst).
Qed.

Lemma live_regular_NoDup (l : list (Hash * Transaction)) :
  Forall (λ tx : Hash * Transaction, fits (Outputs tx.2)) l → NoDup l.*1 →
  NoDup (concat ((λ tx : Hash * Transaction, imap (regular tx.1) (Outputs tx.2)) <$> l)).
Proof.
  induction l as [|tx l IH]; cbn; [constructor|].
  rewrite Forall_cons, NoDup_cons, NoDup_app. intros [Hf Hfs] [Hx Hnd]. split_and!.
  - by apply imap_outputs_NoDup.
  - intros o Ho Hin. apply live_regular_elem in Hin as [_ Hs].
    apply imap_elem in Ho as (i & a & _ & ->). done.
  - by apply IH.
Qed.

Lemma created_NoDup block bi : distinct_ids block bi → NoDup (created_outpoints block bi).
Proof.
  intros [Hc Ho Ht Hd Hdk Hm Hmk]. rewrite Forall_forall in Hdk. rewrite Forall_forall in Hmk.
  assert (∀ o, o ∈ dep_OutPoint <$> bi_Deposits bi → Kind o = KindDeposit) as Kd
    by (intros o (d & -> & Hin)%list_elem_of_fmap; by apply Hdk).
  assert (∀ o, o ∈ mkt_OutPoint <$> bi_MarketCreates bi → KindDeposit < Kind o) as Km
    by (intros o (m & -> & Hin)%list_elem_of_fmap; by apply Hmk).
  unfold created_outpoints. rewrite !NoDup_app. split_and!; try done.
  - by apply imap_outputs_NoDup.
  - intros o (i & a & _ & ->)%imap_elem. rewrite !elem_of_app.
    intros [[Hk _]%live_regular_elem|[Hk%Kd|Hk%Km]]; cbn in Hk; done.
  - by apply live_regular_NoDup.
  - intros o [Hk _]%live_regular_elem. rewrite elem_of_app.
    intros [H%Kd|H%Km]; rewrite Hk in H; done.
  - intros o Hk%Kd Hm'%Km. rewrite Hk in Hm'. done.
Qed.

Lemma NoDup_keys (l : list OutPoint) : Forall OutPoint_typed l → NoDup l → NoDup (Key <$> l).
Proof.
  intros Ht Hnd. apply NoDup_fmap_2_strong; [|done]. rewrite Forall_forall in Ht.
  intros x y Hx Hy. apply Key_inj; auto.
Qed.

Lemma Prepare_new_keys height hash block bi time b :
  index_typed bi → distinct_ids block bi →
  Prepare height hash block bi time = Ok b → NoDup (create_key <$> sb_Creates b).
Proof.
  intros Ht Hd H. apply Prepare_rows in H as (_ & _ & _ & _ & _ & _ & _ & _ & _ & Eo).
  assert (create_key <$> sb_Creates b = Key <$> (so_OutPoint <$> sb_Creates b)) as ->
    by (by rewrite <- list_fmap_compose).
  rewrite Eo. apply NoDup_keys; [by apply created_typed | by apply created_NoDup].
Qed.
End prepare.
