(* ===== verification/Read.v ===== *)
(** * Reading the index

    [internal/store/read.go] and [internal/store/tx.go]: balances, unspent
    outputs, deposits and histories of an address or scripthash, block headers
    and transactions with the coins on both sides. A query is a function on the
    tables; an [ORDER BY] sorts whatever order the scan met the rows in. *)

From S2P Require Import Prelude GoStd Json Hash OutPoint Block Registry Tables Write Ledger.
Open Scope Z_scope.

(** ** Query plumbing *)

(** Scans a [NUMERIC] sum into an [int64]. *)
Definition scan_int64 (z : Z) : result Z :=
  _ ← reject (negb (bool_decide (is_i64 z))) (Errorf "cannot scan: out of range of int64"); Ok z.

(** The order of BYTEA values. *)
Fixpoint bytes_leb (a b : list byte) : bool :=
  match a, b with
  | [], _ => true
  | _ :: _, [] => false
  | x :: a, y :: b =>
      if byte_to_Z x =? byte_to_Z y then bytes_leb a b else byte_to_Z x <? byte_to_Z y
  end.

(** [ORDER BY height DESC, x]. *)
Definition newest_first {A} (height second : A → Z) (a b : A) : Prop :=
  height b < height a ∨ (height a = height b ∧ second a ≤ second b).

#[export] Instance newest_first_dec {A} (h s : A → Z) a b : Decision (newest_first h s a b).
Proof. unfold newest_first. apply _. Defined.

#[export] Instance newest_first_total {A} (h s : A → Z) : Total (newest_first h s).
Proof. intros a b. unfold newest_first. lia. Qed.

#[export] Instance newest_first_trans {A} (h s : A → Z) : Transitive (newest_first h s).
Proof. intros a b c. unfold newest_first. lia. Qed.

(** [ORDER BY x]. *)
Definition ascending {A} (key : A → Z) (a b : A) : Prop := key a ≤ key b.

#[export] Instance ascending_dec {A} (k : A → Z) a b : Decision (ascending k a b).
Proof. unfold ascending. apply _. Defined.

#[export] Instance ascending_total {A} (k : A → Z) : Total (ascending k).
Proof. intros a b. unfold ascending. lia. Qed.

#[export] Instance ascending_trans {A} (k : A → Z) : Transitive (ascending k).
Proof. intros a b c. unfold ascending. lia. Qed.

(** ** Key columns *)

Definition ColumnAddress : string := "address".
Definition ColumnScriptHash : string := "scripthash".

Definition checkKeyColumn (column : string) : result unit :=
  if bool_decide (column = ColumnAddress ∨ column = ColumnScriptHash) then Ok tt
  else Err (Errorf "cannot key a query on column").

(** [WHERE column = key]. *)
Definition keyed (column : string) (key : list byte) (o : output_row) : Prop :=
  (if String.eqb column ColumnAddress then bytes (o_address o) else bytes (o_scripthash o)) = key.

#[export] Instance keyed_dec column key o : Decision (keyed column key o).
Proof. unfold keyed. apply _. Defined.

(** [clampHeight]. *)
Definition clampHeight (height : Z) : Z := if MaxInt32 <? height then MaxInt32 else int32 height.

(** ** Balances *)

Record TxoStats := {
  FundedCount : Z; FundedSum : Z; SpentCount : Z; SpentSum : Z; TxCount : Z;
}.

Section read.
Context {PG : Postgres}.

Definition mine (column : string) (key : list byte) (l : ledger) : gmap OutPointKey output_row :=
  filter (λ ko, keyed column key ko.2) (outputs l).

Definition spent_row (o : output_row) : Prop := is_Some (o_spent o).

#[export] Instance spent_row_dec o : Decision (spent_row o).
Proof. unfold spent_row. apply _. Defined.

(** The transactions that funded or spent a set of rows, each once. *)
Definition touched (m : gmap OutPointKey output_row) : gset Hash :=
  list_to_set ((λ ko, o_source_id ko.2) <$> map_to_list m) ∪
  list_to_set (omap (λ ko, sp_source <$> o_spent ko.2) (map_to_list m)).

Definition Stats (column : string) (key : list byte) : M TxoStats :=
  query (λ d,
    _ ← checkKeyColumn column;
    let m := mine column key (chain_tables d) in
    let spent := filter (λ ko, spent_row ko.2) m in
    funded_sum ← scan_int64 (sum_rows (λ _ o, o_value_sats o) m);
    spent_sum ← scan_int64 (sum_rows (λ _ o, o_value_sats o) spent);
    Ok {| FundedCount := Z.of_nat (size m); FundedSum := funded_sum;
          SpentCount := Z.of_nat (size spent); SpentSum := spent_sum;
          TxCount := Z.of_nat (size (touched m)) |}).

(** ** Unspent outputs *)

Record UTXO := {
  u_OutPoint : OutPoint;
  u_ValueSats : Z;
  u_Height : Z;
  u_BlockHash : option Hash;
  u_BlockTime : option Z;
  u_ContentType : string;
  u_Content : json;
  u_HeightExact : bool;
  u_Unconfirmed : bool;
}.

(** [JOIN blocks b ON b.height = o.height]. *)
Definition with_block (l : ledger) (rows : list output_row) : list (output_row * block_row) :=
  omap (λ o, (λ b, (o, b)) <$> blocks l !! o_height o) rows.

(** One turn of [scanUTXOs]. *)
Definition scan_utxo (ob : output_row * block_row) : UTXO :=
  let '(o, b) := ob in
  {| u_OutPoint := {| Kind := uint8 (o_kind o); Source := o_source_id o; Vout := uint32 (o_vout o) |};
     u_ValueSats := o_value_sats o;
     u_Height := uint32 (o_height o);
     u_BlockHash := Some (o_block_hash o);
     u_BlockTime := b_block_time b;
     u_ContentType := o_content_type o;
     u_Content := o_content o;
     u_HeightExact := o_height_exact o;
     u_Unconfirmed := false |}.

(** The rows a predicate keeps, joined and in [ORDER BY o.height DESC, o.vout]. *)
Definition utxo_rows (P : output_row → Prop) `{∀ o, Decision (P o)} (l : ledger)
    : list (output_row * block_row) :=
  merge_sort (newest_first (λ ob, o_height ob.1) (λ ob, o_vout ob.1))
    (with_block l (filter P (snd <$> scan (map_to_list (outputs l))))).

Definition UTXOs (column : string) (key : list byte) : M (list UTXO) :=
  query (λ d,
    _ ← checkKeyColumn column;
    Ok (scan_utxo <$> utxo_rows (λ o, keyed column key o ∧ ¬ spent_row o) (chain_tables d))).

Definition deposit_row (mainchainTxid : list byte) (height : Z) (o : output_row) : Prop :=
  o_kind o = KindDeposit ∧ (mainchainTxid = [] ∨ bytes (o_source_id o) = mainchainTxid) ∧
  o_height o ≤ height.

#[export] Instance deposit_row_dec t h o : Decision (deposit_row t h o).
Proof. unfold deposit_row. apply _. Defined.

Definition Deposits (mainchainTxid : list byte) (startHeight : Z) (limit : nat) : M (list UTXO) :=
  query (λ d,
    Ok (scan_utxo <$> take limit
          (utxo_rows (deposit_row mainchainTxid (clampHeight startHeight)) (chain_tables d)))).

Definition AddressDeposits (address : Address) (limit : nat) : M (list UTXO) :=
  query (λ d,
    Ok (scan_utxo <$> take limit
          (utxo_rows (λ o, o_address o = address ∧ o_kind o = KindDeposit) (chain_tables d)))).

(** ** Histories *)

Record TxRef := { r_Txid : Hash; r_Height : Z }.

(** What a row adds to the history: the transaction that created it, if one did and
    not a deposit, a reward or a market, and what spent it. *)
Definition touches (o : output_row) : list (Hash * Z) :=
  (if bool_decide (o_kind o = KindRegular) then [(o_source_id o, o_height o)] else []) ++
  match o_spent o with Some s => [(sp_source s, sp_height s)] | None => [] end.

(** The [UNION], which keeps each pair once. *)
Definition history_set (m : gmap OutPointKey output_row) : gset (Hash * Z) :=
  list_to_set (map_to_list m ≫= λ ko, touches ko.2).

(** [ORDER BY height DESC, id]. *)
Definition history_le (a b : Hash * Z) : Prop :=
  b.2 < a.2 ∨ (a.2 = b.2 ∧ bytes_leb (bytes a.1) (bytes b.1) = true).

#[export] Instance history_le_dec a b : Decision (history_le a b).
Proof. unfold history_le. apply _. Defined.

Definition history_refs (column : string) (key : list byte) (before : Z) (l : ledger)
    : list (Hash * Z) :=
  merge_sort history_le (scan (filter (λ ih, ih.2 ≤ before) (elements (history_set (mine column key l))))).

Definition History (column : string) (key : list byte) (beforeHeight : Z) (limit : nat)
    : M (list TxRef) :=
  query (λ d,
    _ ← checkKeyColumn column;
    Ok ((λ ih, {| r_Txid := ih.1; r_Height := uint32 ih.2 |})
          <$> take limit (history_refs column key (clampHeight beforeHeight) (chain_tables d)))).

(** ** Blocks *)

Record BlockRow := {
  br_Height : Z;
  br_Hash : Hash;
  br_PrevHash : option Hash;
  br_MerkleRoot : Hash;
  br_MainHash : BitcoinHash;
  br_MainHeight : option Z;
  br_BlockTime : option Z;
  br_TxCount : Z;
  br_FeeSats : Z;
  br_ValueSats : Z;
}.

(** The two sums of [blockColumns]. *)
Definition block_fees (l : ledger) (height : Z) : Z :=
  sum_rows (λ _ t, if bool_decide (t_height t = height) then t_fee_sats t else 0) (txs l).

Definition block_value (l : ledger) (height : Z) : Z :=
  sum_rows (λ _ o, if bool_decide (o_kind o = KindRegular ∧
                                  t_height <$> txs l !! o_source_id o = Some height)
                  then o_value_sats o else 0) (outputs l).

Definition scanBlock (l : ledger) (hb : Z * block_row) : result BlockRow :=
  let '(h, b) := hb in
  fees ← scan_int64 (block_fees l h);
  value ← scan_int64 (block_value l h);
  Ok {| br_Height := uint32 h;
        br_Hash := b_hash b;
        br_PrevHash := b_prev_hash b;
        br_MerkleRoot := b_merkle_root b;
        br_MainHash := b_main_hash b;
        br_MainHeight := uint32 <$> b_main_height b;
        br_BlockTime := b_block_time b;
        br_TxCount := b_tx_count b;
        br_FeeSats := fees;
        br_ValueSats := value |}.

Definition BlockByHash (hash : Hash) : M BlockRow :=
  query (λ d,
    let l := chain_tables d in
    hb ← of_option ErrNotFound (head (filter (λ hb, b_hash hb.2 = hash) (map_to_list (blocks l))));
    scanBlock l hb).

Definition BlockAtHeight (height : Z) : M BlockRow :=
  query (λ d,
    let l := chain_tables d in
    b ← of_option ErrNotFound (blocks l !! int32 height);
    scanBlock l (int32 height, b)).

(** [ORDER BY b.height DESC]; heights are a primary key, so the order is fixed. *)
Definition blocks_where (P : Z * block_row → Prop) `{∀ hb, Decision (P hb)} (l : ledger)
    : list (Z * block_row) :=
  merge_sort (newest_first fst (λ _, 0)) (scan (filter P (map_to_list (blocks l)))).

Definition Blocks (startHeight : Z) (limit : nat) : M (list BlockRow) :=
  query (λ d,
    let l := chain_tables d in
    traverse (λ _, scanBlock l) (take limit (blocks_where (λ hb, hb.1 ≤ int32 startHeight) l))).

Definition BlocksMissingMainHeight (limit : nat) : M (list BlockRow) :=
  query (λ d,
    let l := chain_tables d in
    traverse (λ _, scanBlock l) (take limit (blocks_where (λ hb, b_main_height hb.2 = None) l))).

Definition with_main_height (mainHeight : Z) (b : block_row) : block_row :=
  {| b_hash := b_hash b; b_prev_hash := b_prev_hash b; b_merkle_root := b_merkle_root b;
     b_main_hash := b_main_hash b; b_main_height := Some mainHeight;
     b_block_time := b_block_time b; b_tx_count := b_tx_count b |}.

Definition set_main_height (height mainHeight : Z) (l : ledger) : ledger :=
  Ledger (alter (with_main_height mainHeight) height (blocks l)) (txs l) (outputs l).

Definition SetMainHeight (height mainHeight : Z) : M unit :=
  on_ledger (λ l, Ok (set_main_height (int32 height) (int32 mainHeight) l)).

Definition BlockTxids (hash : Hash) : M (list Hash) :=
  query (λ d,
    let l := chain_tables d in
    Ok ((λ it : Hash * tx_row, it.1) <$> merge_sort (ascending (λ it : Hash * tx_row, t_tx_index it.2))
          (scan (filter (λ it, b_hash <$> blocks l !! t_height it.2 = Some hash)
                   (map_to_list (txs l)))))).

(** ** Transactions and coins *)

Record Coin := {
  co_OutPoint : OutPoint;
  co_Address : Address;
  co_ValueSats : Z;
  co_Content : json;
  co_ContentType : string;
  co_Height : Z;
  co_SpentSource : option Hash;
  co_SpentKind : option InPointKind;
  co_SpentHeight : option Z;
}.

Record TxRow := {
  tx_Txid : Hash;
  tx_Height : Z;
  tx_Index : Z;
  tx_SizeBytes : Z;
  tx_FeeSats : Z;
  tx_Raw : Bytes;
  tx_Block : option BlockRow;
  tx_Vin : list Coin;
  tx_Vout : list Coin;
  tx_Unconfirmed : bool;
}.

(** One turn of the loop in [coins]. *)
Definition scan_coin (o : output_row) : Coin :=
  {| co_OutPoint := {| Kind := uint8 (o_kind o); Source := o_source_id o; Vout := uint32 (o_vout o) |};
     co_Address := o_address o;
     co_ValueSats := o_value_sats o;
     co_Content := o_content o;
     co_ContentType := o_content_type o;
     co_Height := uint32 (o_height o);
     co_SpentSource := sp_source <$> o_spent o;
     co_SpentKind := (λ s, uint8 (sp_kind s)) <$> o_spent o;
     co_SpentHeight := (λ s, uint32 (sp_height s)) <$> o_spent o |}.

Definition output_rows (P : output_row → Prop) `{∀ o, Decision (P o)} (key : output_row → Z)
    (l : ledger) : list output_row :=
  merge_sort (ascending key) (filter P (snd <$> scan (map_to_list (outputs l)))).

Definition coins (P : output_row → Prop) `{∀ o, Decision (P o)} (key : output_row → Z)
    : M (list Coin) :=
  query (λ d, Ok (scan_coin <$> output_rows P key (chain_tables d))).

Definition spent_vin (o : output_row) : Z := from_option sp_vin 0 (o_spent o).

Definition spent_by_tx (txid : Hash) (o : output_row) : Prop :=
  (λ s, (sp_source s, sp_kind s)) <$> o_spent o = Some (txid, SpendRegular).

#[export] Instance spent_by_tx_dec t o : Decision (spent_by_tx t o).
Proof. unfold spent_by_tx. apply _. Defined.

Definition created_by_tx (txid : Hash) (o : output_row) : Prop :=
  o_source_id o = txid ∧ o_kind o = KindRegular.

#[export] Instance created_by_tx_dec t o : Decision (created_by_tx t o).
Proof. unfold created_by_tx. apply _. Defined.

Definition Tx (txid : Hash) : M TxRow :=
  t ← query (λ d, of_option ErrNotFound (txs (chain_tables d) !! txid));
  block ← BlockAtHeight (uint32 (t_height t));
  vin ← coins (spent_by_tx txid) spent_vin;
  vout ← coins (created_by_tx txid) o_vout;
  mret {| tx_Txid := txid; tx_Height := uint32 (t_height t); tx_Index := t_tx_index t;
          tx_SizeBytes := t_size_bytes t; tx_FeeSats := t_fee_sats t; tx_Raw := t_raw t;
          tx_Block := Some block; tx_Vin := vin; tx_Vout := vout; tx_Unconfirmed := false |}.

Definition Outspends (txid : Hash) : M (list Coin) := coins (created_by_tx txid) o_vout.
End read.
