(* ===== verification/ReadSpec.v ===== *)
(** * What the reads answer

    Balances against unspent outputs, completeness and order of the lists, and
    the edges of the height arguments. *)

From S2P Require Import Prelude GoStd Json Hash OutPoint Block Registry Tables Write Ledger.
From S2P Require Import WriteSpec Read.
Open Scope Z_scope.

(** ** Filters of a table, as lists *)

Lemma map_to_list_filter {K} `{Countable K} {A} (P : K * A → Prop) `{∀ x, Decision (P x)} (m : gmap K A) :
  map_to_list (filter P m) ≡ₚ filter P (map_to_list m).
Proof.
  rewrite map_filter_alt. apply map_to_list_to_map.
  apply (sublist_NoDup _ (map_to_list m).*1); [apply NoDup_fst_map_to_list|].
  apply fmap_sublist, sublist_filter.
Qed.

Lemma sumZ_fst_snd {K A} (f : A → Z) (l : list (K * A)) : sumZ (λ ka, f ka.2) l = sumZ f l.*2.
Proof. induction l; cbn; lia. Qed.

Lemma filter_snd {K A} (P : A → Prop) `{∀ a, Decision (P a)} (l : list (K * A)) :
  (filter (λ ka, P ka.2) l).*2 = filter P l.*2.
Proof.
  induction l as [|[k a] l IH]; [done|]. rewrite fmap_cons, !filter_cons. cbn.
  case_decide; cbn; by rewrite IH.
Qed.

Lemma filter_filter_and {A} (P Q : A → Prop) `{∀ a, Decision (P a), ∀ a, Decision (Q a)} (l : list A) :
  filter Q (filter P l) = filter (λ a, P a ∧ Q a) l.
Proof.
  induction l as [|a l IH]; [done|]. rewrite !filter_cons.
  repeat case_decide; try tauto; rewrite ?filter_cons; repeat case_decide; try tauto; by rewrite IH.
Qed.

Lemma sumZ_split {A} (P : A → Prop) `{∀ a, Decision (P a)} (f : A → Z) (l : list A) :
  sumZ f (filter P l) + sumZ f (filter (λ a, ¬ P a) l) = sumZ f l.
Proof.
  induction l as [|a l IH]; [done|]. rewrite !filter_cons.
  destruct (decide (P a)); case_decide; cbn; try lia; done.
Qed.

Section read_spec.
Context {PG : Postgres} (HP : PostgresLaws).

(** ** Lists of outputs *)

Lemma with_block_fst l rows :
  (∀ o, o ∈ rows → is_Some (blocks l !! o_height o)) → (with_block l rows).*1 = rows.
Proof.
  unfold with_block. induction rows as [|o rows IH]; intros Hb; cbn; [done|].
  destruct (Hb o) as [b ->]; [set_solver|]. cbn. f_equal. apply IH. set_solver.
Qed.

Definition all_outputs (l : ledger) : list output_row := (map_to_list (outputs l)).*2.

Lemma row_has_block n l o : wf n l → o ∈ all_outputs l → is_Some (blocks l !! o_height o).
Proof.
  intros W ([k o'] & -> & Ho%elem_of_map_to_list)%list_elem_of_fmap. cbn.
  apply (wf_outputs _ _ W) in Ho as []. by apply (wf_blocks _ _ W).
Qed.

(** The list holds every row the predicate keeps, once each: the join with
    [blocks] loses none. *)
Lemma utxo_rows_perm n (P : output_row → Prop) `{∀ o, Decision (P o)} l :
  wf n l → (utxo_rows P l).*1 ≡ₚ filter P (all_outputs l).
Proof.
  intros W. unfold utxo_rows. rewrite merge_sort_Permutation, with_block_fst.
  - unfold all_outputs. apply filter_Permutation. by rewrite scan_perm.
  - intros o Ho. apply list_elem_of_filter in Ho as [_ Ho]. rewrite scan_perm in Ho.
    by eapply row_has_block.
Qed.

Lemma utxo_rows_sorted (P : output_row → Prop) `{∀ o, Decision (P o)} l :
  StronglySorted (newest_first (λ ob, o_height ob.1) (λ ob, o_vout ob.1)) (utxo_rows P l).
Proof. apply StronglySorted_merge_sort; apply _. Qed.

(** ** Balances *)

Lemma scan_int64_ok z x : scan_int64 z = Ok x ↔ x = z ∧ is_i64 z.
Proof.
  unfold scan_int64. case_bool_decide; cbn; [|naive_solver].
  split; [by intros [= <-] | by intros [-> _]].
Qed.

Lemma sum_rows_list {K} `{Countable K} {A} (f : A → Z) (m : gmap K A) :
  sum_rows (λ _ a, f a) m = sumZ f (map_to_list m).*2.
Proof. unfold sum_rows. apply sumZ_fst_snd. Qed.

Lemma mine_list column key l :
  (map_to_list (mine column key l)).*2 ≡ₚ filter (keyed column key) (all_outputs l).
Proof. unfold mine, all_outputs. rewrite map_to_list_filter. by rewrite filter_snd. Qed.

Lemma mine_spent_list column key l :
  (map_to_list (filter (λ ko, spent_row ko.2) (mine column key l))).*2 ≡ₚ
  filter spent_row (filter (keyed column key) (all_outputs l)).
Proof. rewrite map_to_list_filter, filter_snd. apply filter_Permutation, mine_list. Qed.

Lemma size_list {K} `{Countable K} {A} (m : gmap K A) : size m = length (map_to_list m).*2.
Proof. by rewrite length_fmap, length_map_to_list. Qed.

Lemma fmap_utxo_values rows :
  sumZ u_ValueSats (scan_utxo <$> rows) = sumZ o_value_sats rows.*1.
Proof. induction rows as [|[o b] rows IH]; [done|]. rewrite !fmap_cons. cbn. lia. Qed.

(** What an address funded less what it spent is what its unspent outputs
    hold, in number and in value. *)
Lemma balance n column key d s us :
  wf n (chain_tables d) →
  run (Stats column key) d = (Ok s, d) → run (UTXOs column key) d = (Ok us, d) →
  FundedSum s - SpentSum s = sumZ u_ValueSats us ∧
  FundedCount s - SpentCount s = Z.of_nat (length us).
Proof.
  intros W. unfold Stats, UTXOs. rewrite !run_query. intros [= Hs] [= Hu].
  apply bind_ok in Hs as (u1 & _ & (fs & [-> _]%scan_int64_ok & (ss & [-> _]%scan_int64_ok &
    [= <-])%bind_ok)%bind_ok).
  apply bind_ok in Hu as (u2 & _ & [= <-]). cbn [FundedSum SpentSum FundedCount SpentCount].
  pose proof (utxo_rows_perm n (λ o, keyed column key o ∧ ¬ spent_row o) _ W) as Hperm.
  rewrite <- filter_filter_and in Hperm.
  rewrite !sum_rows_list, !size_list, mine_spent_list, mine_list.
  rewrite length_fmap, fmap_utxo_values, Hperm.
  rewrite <- (length_fmap fst (utxo_rows _ _)), Hperm.
  pose proof (sumZ_split spent_row o_value_sats (filter (keyed column key) (all_outputs (chain_tables d)))).
  pose proof (filter_split spent_row (filter (keyed column key) (all_outputs (chain_tables d)))).
  lia.
Qed.

(** ** Block lists *)

(** The heights [m - 1], [m - 2], ..., 0. *)
Definition down_from (m : Z) : list Z := reverse (seqZ 0 m).

Lemma down_from_elem m h : h ∈ down_from m ↔ 0 ≤ h < m.
Proof. unfold down_from. rewrite elem_of_reverse, elem_of_seqZ. lia. Qed.

Lemma down_from_sorted m : 0 ≤ m → StronglySorted (λ a b : Z, b ≤ a) (down_from m).
Proof.
  intros Hm. unfold down_from. pattern m. apply natlike_ind; [constructor| |done]. clear m Hm.
  intros m Hm IH. replace (Z.succ m) with (m + 1) by lia. rewrite seqZ_app by lia. cbn.
  rewrite reverse_app. cbn. constructor; [done|]. apply Forall_forall. intros h.
  rewrite elem_of_reverse, elem_of_seqZ. lia.
Qed.

Lemma blocks_below n h l :
  wf n l → 0 ≤ n → 0 ≤ h + 1 →
  (blocks_where (λ hb, hb.1 ≤ h) l).*1 = down_from (Z.min n (h + 1)).
Proof.
  intros W Hn Hh. apply (StronglySorted_unique_strong (λ a b : Z, b ≤ a)); [intros; lia| | |].
  - apply (StronglySorted_fmap fst (newest_first fst (λ _, 0))); [unfold newest_first; intros; lia|].
    apply StronglySorted_merge_sort; apply _.
  - apply down_from_sorted. lia.
  - unfold blocks_where. rewrite merge_sort_Permutation, scan_perm. apply NoDup_Permutation.
    + apply (sublist_NoDup _ (map_to_list (blocks l)).*1); [apply NoDup_fst_map_to_list|]. apply fmap_sublist, sublist_filter.
    + unfold down_from. rewrite reverse_Permutation. apply NoDup_seqZ.
    + intros k. rewrite down_from_elem, list_elem_of_fmap. pose proof (wf_blocks _ _ W k) as Wk. split.
      * intros ([k' b] & -> & [Hk Hin%elem_of_map_to_list]%list_elem_of_filter). cbn in *.
        assert (0 ≤ k' < n) by (apply Wk; by eexists). lia.
      * intros Hk. destruct (proj2 Wk) as [b Hb]; [lia|]. exists (k, b). split; [done|].
        apply list_elem_of_filter. split; [cbn; lia|]. by apply elem_of_map_to_list.
Qed.

Lemma blocks_none n h l : wf n l → h < 0 → blocks_where (λ hb, hb.1 ≤ h) l = [].
Proof.
  intros W Hh. apply Permutation_nil_r. unfold blocks_where. rewrite merge_sort_Permutation, scan_perm.
  apply reflexive_eq.
  apply elem_of_nil_inv. intros [k b] [Hk Hin%elem_of_map_to_list]%list_elem_of_filter. cbn in Hk.
  assert (0 ≤ k < n) by (apply (wf_blocks _ _ W); by eexists). lia.
Qed.

Lemma scanBlock_height l hb row : scanBlock l hb = Ok row → br_Height row = uint32 hb.1.
Proof. destruct hb as [h b]. unfold scanBlock. intros. inv_ok. done. Qed.

Lemma Blocks_heights n start limit d rows :
  wf n (chain_tables d) → 0 ≤ n ≤ 2^31 → 0 ≤ start < 2^31 →
  run (Blocks start limit) d = (Ok rows, d) →
  br_Height <$> rows = take limit (down_from (Z.min n (start + 1))).
Proof.
  intros W Hn Hs. unfold Blocks. rewrite run_query. intros [= H]. rewrite int32_nonneg in H by lia.
  rewrite (traverse_map _ (λ hb, uint32 hb.1) br_Height _ _ (λ _, scanBlock_height _) H).
  rewrite <- (blocks_below n start _ W), <- fmap_take by lia.
  apply list_fmap_ext. intros i [h b] Hin%list_elem_of_lookup_2. cbn.
  apply elem_of_take in Hin as (j & Hin%list_elem_of_lookup_2 & _).
  unfold blocks_where in Hin. rewrite merge_sort_Permutation, scan_perm in Hin.
  apply list_elem_of_filter in Hin as [_ Hin%elem_of_map_to_list].
  assert (0 ≤ h < n) by (apply (wf_blocks _ _ W); by eexists).
  by rewrite uint32_small by (unfold is_u32; lia).
Qed.

(** A height that does not fit the column reads as a negative one. *)
Lemma Blocks_wraps n start limit d :
  wf n (chain_tables d) → 2^31 ≤ start < 2^32 → run (Blocks start limit) d = (Ok [], d).
Proof.
  intros W Hs. unfold Blocks. rewrite run_query, (blocks_none n); [by rewrite take_nil|done|].
  width.
Qed.

(** ** Histories *)

#[export] Instance history_le_trans : Transitive history_le.
Proof.
  assert (∀ a b c, bytes_leb a b = true → bytes_leb b c = true → bytes_leb a c = true) as Ht.
  { induction a as [|x a IH]; intros [|y b] [|z c]; cbn; try done.
    destruct (Z.eqb_spec (byte_to_Z x) (byte_to_Z y)), (Z.eqb_spec (byte_to_Z y) (byte_to_Z z)),
      (Z.eqb_spec (byte_to_Z x) (byte_to_Z z)); try lia; eauto. }
  intros [a h] [b i] [c j]. unfold history_le. cbn. intros [?|[-> ?]] [?|[-> ?]]; try (left; lia).
  right. split; [done|]. eauto.
Qed.

#[export] Instance history_le_total : Total history_le.
Proof.
  assert (∀ a b, bytes_leb a b = true ∨ bytes_leb b a = true) as Ht.
  { induction a as [|x a IH]; intros [|y b]; cbn; auto.
    destruct (Z.eqb_spec (byte_to_Z x) (byte_to_Z y)), (Z.eqb_spec (byte_to_Z y) (byte_to_Z x));
      try lia; auto. }
  intros [a h] [b i]. unfold history_le. cbn. destruct (Ht (bytes a) (bytes b)); 
    destruct (Z.lt_trichotomy h i) as [|[->|]]; auto.
Qed.

Lemma history_refs_perm column key before l :
  history_refs column key before l ≡ₚ
  filter (λ ih, ih.2 ≤ before) (elements (history_set (mine column key l))).
Proof. unfold history_refs. by rewrite merge_sort_Permutation, scan_perm. Qed.

Lemma history_refs_elem column key before l id h :
  (id, h) ∈ history_refs column key before l ↔
  h ≤ before ∧ ∃ k o, outputs l !! k = Some o ∧ keyed column key o ∧ (id, h) ∈ touches o.
Proof.
  rewrite history_refs_perm, list_elem_of_filter. cbn. unfold history_set.
  rewrite elem_of_elements, elem_of_list_to_set, list_elem_of_bind. unfold mine.
  split; intros [Hh Hx]; (split; [done|]).
  - destruct Hx as ([k o] & Ht & Hin%elem_of_map_to_list). apply map_lookup_filter_Some in Hin.
    exists k, o. cbn in *. tauto.
  - destruct Hx as (k & o & Ho & Hk & Ht). exists (k, o). split; [done|].
    apply elem_of_map_to_list, map_lookup_filter_Some. done.
Qed.

Lemma history_refs_sorted column key before l :
  StronglySorted history_le (history_refs column key before l).
Proof. apply StronglySorted_merge_sort; apply _. Qed.

Lemma history_refs_NoDup column key before l : NoDup (history_refs column key before l).
Proof. rewrite history_refs_perm. apply NoDup_filter, NoDup_elements. Qed.

Lemma clampHeight_range h : is_u32 h → 0 ≤ clampHeight h ≤ h ∧ (h < 2^31 → clampHeight h = h).
Proof.
  intros Hh. unfold clampHeight. destruct (Z.ltb_spec MaxInt32 h); unfold MaxInt32 in *.
  - unfold is_u32 in Hh. lia.
  - rewrite int32_nonneg by (unfold is_u32 in Hh; lia). unfold is_u32 in Hh. lia.
Qed.
End read_spec.
