(* ===== verification/Enforcer.v ===== *)
(** * The enforcer client

    [internal/mainchain/enforcer.go]: what the BIP300 enforcer says about the
    sidechains, their treasuries and the mainchain blocks, over an HTTP
    transport. *)

From S2P Require Import Prelude GoStd Json JsonText Rpc Read.
Open Scope Z_scope.

Record Sidechain := {
  Slot : Z; Title : string; Description : string; VoteCount : Z; ProposalHeight : Z;
  ActivationHeight : Z; BalanceSats : Z; sc_CtipTxid : string; sc_CtipVout : Z;
}.

Record Ctip_ := { Txid : string; ctip_Vout : Z; ctip_ValueSats : Z }.

(** ** The answers, as the enforcer writes them *)

Record v0Wire := { v0_Title : string; v0_Description : string }.
Definition zero_v0Wire := {| v0_Title := EmptyString; v0_Description := EmptyString |}.

Definition dec_v0Wire : decoder v0Wire := dec_struct [
  ("title"%string, into v0_Title
     (λ x w, {| v0_Title := x; v0_Description := v0_Description w |}) dec_string);
  ("description"%string, into v0_Description
     (λ x w, {| v0_Title := v0_Title w; v0_Description := x |}) dec_string)].

Record declarationWire := { V0 : option v0Wire }.

Definition dec_declarationWire : decoder declarationWire := dec_struct [
  ("v0"%string, into V0 (λ x _, {| V0 := x |}) (dec_ptr zero_v0Wire dec_v0Wire))].

Record sidechainWire := {
  SidechainNumber : Z; Declaration : option declarationWire; w_VoteCount : Z; w_ProposalHeight : Z;
  w_ActivationHeight : Z;
}.
Definition zero_sidechainWire :=
  {| SidechainNumber := 0; Declaration := None; w_VoteCount := 0; w_ProposalHeight := 0;
     w_ActivationHeight := 0 |}.

Definition dec_sidechainWire : decoder sidechainWire := dec_struct [
  ("sidechainNumber"%string, into SidechainNumber
     (λ x w, {| SidechainNumber := x; Declaration := Declaration w; w_VoteCount := w_VoteCount w;
                w_ProposalHeight := w_ProposalHeight w; w_ActivationHeight := w_ActivationHeight w |})
     (dec_uint 32));
  ("declaration"%string, into Declaration
     (λ x w, {| SidechainNumber := SidechainNumber w; Declaration := x; w_VoteCount := w_VoteCount w;
                w_ProposalHeight := w_ProposalHeight w; w_ActivationHeight := w_ActivationHeight w |})
     (dec_ptr {| V0 := None |} dec_declarationWire));
  ("voteCount"%string, into w_VoteCount
     (λ x w, {| SidechainNumber := SidechainNumber w; Declaration := Declaration w; w_VoteCount := x;
                w_ProposalHeight := w_ProposalHeight w; w_ActivationHeight := w_ActivationHeight w |})
     (dec_uint 32));
  ("proposalHeight"%string, into w_ProposalHeight
     (λ x w, {| SidechainNumber := SidechainNumber w; Declaration := Declaration w;
                w_VoteCount := w_VoteCount w; w_ProposalHeight := x;
                w_ActivationHeight := w_ActivationHeight w |})
     (dec_uint 32));
  ("activationHeight"%string, into w_ActivationHeight
     (λ x w, {| SidechainNumber := SidechainNumber w; Declaration := Declaration w;
                w_VoteCount := w_VoteCount w; w_ProposalHeight := w_ProposalHeight w;
                w_ActivationHeight := x |})
     (dec_uint 32))].

Definition dec_sidechains : decoder (list sidechainWire) := dec_struct [
  ("sidechains"%string, into (λ w, w) (λ x _, x) (dec_slice zero_sidechainWire dec_sidechainWire))].

Definition dec_hex : decoder string := dec_struct [
  ("hex"%string, into (λ w, w) (λ x _, x) dec_string)].

Record ctipWire := { w_Txid : string; w_Vout : Z; w_Value : string }.
Definition zero_ctipWire := {| w_Txid := EmptyString; w_Vout := 0; w_Value := EmptyString |}.

Definition dec_ctipWire : decoder ctipWire := dec_struct [
  ("txid"%string, into w_Txid
     (λ x w, {| w_Txid := x; w_Vout := w_Vout w; w_Value := w_Value w |}) dec_hex);
  ("vout"%string, into w_Vout
     (λ x w, {| w_Txid := w_Txid w; w_Vout := x; w_Value := w_Value w |}) (dec_uint 32));
  ("value"%string, into w_Value
     (λ x w, {| w_Txid := w_Txid w; w_Vout := w_Vout w; w_Value := x |}) dec_string)].

Definition dec_ctip : decoder (option ctipWire) := dec_struct [
  ("ctip"%string, into (λ w, w) (λ x _, x) (dec_ptr zero_ctipWire dec_ctipWire))].

Definition dec_headerInfo : decoder Z := dec_struct [
  ("height"%string, into (λ w, w) (λ x _, x) (dec_uint 32))].

Definition dec_headerInfos : decoder (list Z) := dec_struct [
  ("headerInfos"%string, into (λ w, w) (λ x _, x) (dec_slice 0 dec_headerInfo))].

(** ** The calls *)

(** One turn of the loop in [Sidechains]. *)
Definition new_sidechain (s : sidechainWire) : Sidechain :=
  let v0 := d ← Declaration s; V0 d in
  {| Slot := SidechainNumber s;
     Title := from_option v0_Title EmptyString v0;
     Description := from_option v0_Description EmptyString v0;
     VoteCount := w_VoteCount s; ProposalHeight := w_ProposalHeight s;
     ActivationHeight := w_ActivationHeight s; BalanceSats := 0; sc_CtipTxid := EmptyString;
     sc_CtipVout := 0 |}.

(** The client: the address, and the transport a post goes through. *)
Record Enforcer := { baseURL : string; http : transport }.

(** [New]. *)
Definition New (url : string) (t : transport) : Enforcer :=
  {| baseURL := trim_right_slashes url; http := t |}.

Section enforcer.
Context (e : Enforcer).

(** [post]. *)
Definition post {A} (d : decoder A) (zero : A) (method : string) (body : json) : result A :=
  answer ← wrap ("call " +:+ method)
    (http e (baseURL e +:+ "/cusf.mainchain.v1.ValidatorService/" +:+ method) (print body));
  if negb (StatusCode answer =? 200) then
    Err (Errorf (method +:+ " answered " +:+ fmt_int (StatusCode answer) +:+ ": " +:+ TrimSpace (ans_text answer)))
  else
    wrap ("decode the " +:+ method +:+ " answer")
      (j ← of_option (Errorf "invalid character in JSON") (parse (ans_text answer)); d j zero).

(** [call]. *)
Definition call {A} (d : decoder A) (zero : A) (method : string) : result A :=
  post d zero method (JObj []).

(** [sort.Slice] by slot; the enforcer names a slot once. *)
Definition Sidechains : result (list Sidechain) :=
  resp ← call dec_sidechains [] "GetSidechains";
  Ok (merge_sort (ascending Slot) (new_sidechain <$> resp)).

Definition Ctip (slot : Z) : result (option Ctip_) :=
  resp ← post dec_ctip None "GetCtip" (JObj [("sidechainNumber"%string, JNum (fmt_d slot))]);
  match resp with
  | None => Ok None
  | Some c =>
      match parse_int (w_Value c) with
      | Some value => Ok (Some {| Txid := w_Txid c; ctip_Vout := w_Vout c; ctip_ValueSats := value |})
      | None =>
          if String.eqb (w_Value c) EmptyString
          then Ok (Some {| Txid := w_Txid c; ctip_Vout := w_Vout c; ctip_ValueSats := 0 |})
          else Err (Errorf "the treasury holds a value which is not a number")
      end
  end.

Definition BlockHeight (hash : string) : result (option Z) :=
  resp ← post dec_headerInfos [] "GetBlockHeaderInfo"
    (JObj [("blockHash"%string, JObj [("hex"%string, JStr hash)])]);
  Ok (head resp).
End enforcer.
