(* ===== verification/Command.v ===== *)
(** * The command

    [cmd/drivechain-esplora/main.go]: the flags and what [run] settles from them
    before it starts anything, the two connectors it hands to the supervisors,
    and how it ends. *)

From S2P Require Import Prelude GoStd Json Hash OutPoint Block BlockIndex Decoders Rpc Registry Tables.
From S2P Require Import Write WriteSpec WriteProps Enforcer.
Open Scope Z_scope.

(** ** Flags *)

Record config := {
  chainName : string; network : string; nodeURL : string; enforcerURL : string;
  databaseURL : string; listen : string; logLevel : string;
}.

(** One [-name=value]; the last of a name counts. [None] is a flag that is not
    defined, which ends the process. *)
Definition set_flag (f : string * string) (c : config) : option config :=
  let '(name, v) := f in
  if String.eqb name "chain" then Some {| chainName := v; network := network c; nodeURL := nodeURL c;
    enforcerURL := enforcerURL c; databaseURL := databaseURL c; listen := listen c; logLevel := logLevel c |}
  else if String.eqb name "network" then Some {| chainName := chainName c; network := v; nodeURL := nodeURL c;
    enforcerURL := enforcerURL c; databaseURL := databaseURL c; listen := listen c; logLevel := logLevel c |}
  else if String.eqb name "node-url" then Some {| chainName := chainName c; network := network c; nodeURL := v;
    enforcerURL := enforcerURL c; databaseURL := databaseURL c; listen := listen c; logLevel := logLevel c |}
  else if String.eqb name "database-url" then Some {| chainName := chainName c; network := network c;
    nodeURL := nodeURL c; enforcerURL := enforcerURL c; databaseURL := v; listen := listen c; logLevel := logLevel c |}
  else if String.eqb name "listen" then Some {| chainName := chainName c; network := network c; nodeURL := nodeURL c;
    enforcerURL := enforcerURL c; databaseURL := databaseURL c; listen := v; logLevel := logLevel c |}
  else if String.eqb name "enforcer-url" then Some {| chainName := chainName c; network := network c;
    nodeURL := nodeURL c; enforcerURL := v; databaseURL := databaseURL c; listen := listen c; logLevel := logLevel c |}
  else if String.eqb name "log-level" then Some {| chainName := chainName c; network := network c;
    nodeURL := nodeURL c; enforcerURL := enforcerURL c; databaseURL := databaseURL c; listen := listen c; logLevel := v |}
  else None.

Definition default_config (env : string) : config :=
  {| chainName := "thunder"; network := "signet"; nodeURL := ""; enforcerURL := ""; databaseURL := env;
     listen := ""; logLevel := "info" |}.

(** What [flag.Parse] comes to: it ends the process itself at the first flag that
    is not defined, and when asked for help, which nobody need define. *)
Inductive parsed := Parsed (c : config) | Help | Undefined.

Definition parse_flag (p : parsed) (f : string * string) : parsed :=
  match p with
  | Parsed c =>
      match set_flag f c with
      | Some c' => Parsed c'
      | None => if String.eqb f.1 "help" || String.eqb f.1 "h" then Help else Undefined
      end
  | _ => p
  end.

(** [flag.Parse]; [env] is [DATABASE_URL]. *)
Definition parse_flags (env : string) (args : list (string * string)) : parsed :=
  foldl parse_flag (Parsed (default_config env)) args.

(** What [readConfig] makes of the parsed flags. *)
Definition readConfig (cfg : config) : result config :=
  _ ← reject (String.eqb (databaseURL cfg) EmptyString) (Errorf "set --database-url or DATABASE_URL");
  Ok cfg.

(** [strings.ToUpper] on a level name; a dotless i is the one other letter whose
    capital is in it. *)
Fixpoint ToUpper (s : string) : string :=
  match s with
  | EmptyString => EmptyString
  | String c s' =>
      let n := N_of_ascii c in
      match s' with
      | String c' s'' =>
          if (n =? 196)%N && (N_of_ascii c' =? 177)%N then String "I" (ToUpper s'')
          else String (if (97 <=? n)%N && (n <=? 122)%N then ascii_of_N (n - 32) else c) (ToUpper s')
      | EmptyString => String (if (97 <=? n)%N && (n <=? 122)%N then ascii_of_N (n - 32) else c) EmptyString
      end
  end.

(** The name and the signed offset of a level. *)
Fixpoint cut_sign (s : string) : string * string :=
  match s with
  | EmptyString => (EmptyString, EmptyString)
  | String c s' =>
      if ascii_dec c "+" then (EmptyString, s) else if ascii_dec c "-" then (EmptyString, s)
      else let '(name, rest) := cut_sign s' in (String c name, rest)
  end.

Definition level_base (name : string) : option Z :=
  if String.eqb name "DEBUG" then Some (-4) else if String.eqb name "INFO" then Some 0
  else if String.eqb name "WARN" then Some 4 else if String.eqb name "ERROR" then Some 8 else None.

(** [newLogger]: the level it logs from. *)
Definition newLogger (level : string) : result Z :=
  let '(name, rest) := cut_sign level in
  let bad := Errorf "log level is not debug, info, warn, or error" in
  offset ← (if String.eqb rest EmptyString then Ok 0 else of_option bad (parse_int rest));
  base ← of_option bad (level_base (ToUpper name));
  Ok (int64 (base + offset)).

(** ** What run settles first *)

Record settings := {
  st_level : Z; st_network : Network; st_spec : Spec; st_decoder : Decoder;
  st_nodeURL : string; st_listen : string;
}.

Definition configure (decoders : decoder_table) (cfg : config) : result settings :=
  level ← newLogger (logLevel cfg);
  network ← ParseNetwork (network cfg);
  found ← Lookup (chainName cfg) decoders;
  let '(spec, decoder) := found in
  nodeURL ← (if String.eqb (nodeURL cfg) EmptyString then
               port ← NodeRPCPort spec network; Ok ("http://127.0.0.1:" +:+ fmt_int port)
             else Ok (nodeURL cfg));
  listen ← (if String.eqb (listen cfg) EmptyString then
              port ← APIPort spec network; Ok ("127.0.0.1:" +:+ fmt_int port)
            else Ok (listen cfg));
  Ok {| st_level := level; st_network := network; st_spec := spec; st_decoder := decoder;
        st_nodeURL := nodeURL; st_listen := listen |}.

(** The enforcer's client, when there is one to read. *)
Definition enforcer_of (cfg : config) (t : transport) : option Enforcer :=
  if String.eqb (enforcerURL cfg) EmptyString then None else Some (Enforcer.New (enforcerURL cfg) t).

(** ** The connectors *)

Section connectors.
Context {B58 : Base58}.

(** [connect]: a node that has no block yet is a node. *)
Definition connect (post : transport) (nodeURL : string) : result Client :=
  let client := Rpc.New nodeURL in
  match @Node.TipHeight (client_caller post client) with
  | Err e => if bool_decide (e = ErrEmptyChain) then Ok client else Err e
  | Ok _ => Ok client
  end.
End connectors.

(** What the connector of the store hands to its supervisor: a store, or an
    error, with the store it opened closed again. *)
Inductive opened := Opened | NotOpened (e : error) | Closed (e : error).

Definition open_store {PG : Postgres} (open : result unit) (chainName : string) (network : Network) :
    conn → opened * conn := λ c,
  match open with
  | Err e => (NotOpened e, c)
  | Ok _ =>
      match Init chainName network c with
      | (Ok _, c') => (Opened, c')
      | (Err e, c') => (Closed e, c')
      end
  end.

(** ** How it ends *)

(** The two ways the wait in [run] is over: the server failed to serve, or a
    signal came and [Shutdown] answered. *)
Inductive stop := ServerFailed (e : error) | Signalled (shutdown : result unit).

Definition finish (s : stop) : result unit :=
  match s with
  | ServerFailed e => Err (wrapf "serve" e)
  | Signalled r => wrap "stop the server" r
  end.

(** [run] on the parsed flags; [rest] is how the settled program comes to stop. *)
Definition run (flags : config) (decoders : decoder_table) (rest : settings → stop) : result unit :=
  cfg ← readConfig flags;
  st ← configure decoders cfg;
  finish (rest st).

(** The status the process exits with: [flag.Parse] ends it with 0 after help and
    with 2 otherwise. *)
Definition main (env : string) (args : list (string * string)) (decoders : decoder_table)
    (rest : settings → stop) : Z :=
  match parse_flags env args with
  | Help => 0
  | Undefined => 2
  | Parsed flags => match run flags decoders rest with Ok _ => 0 | Err _ => 1 end
  end.

(** ** What start-up guarantees *)

Definition networks : list Network := [Signet; Regtest; Mainnet].

(** Every configuration that names a chain and a network and nothing else. *)
Definition plain (n : Network) (chain : string) : config :=
  {| chainName := chain; network := n; nodeURL := ""; enforcerURL := ""; databaseURL := "db"; listen := "";
     logLevel := "info" |}.

Definition plains : list config := n ← networks; plain n <$> chain_names.

Definition started : decoder_table := match register_init with Ok t => t | Err _ => ∅ end.

(** The two addresses of a configuration, by host and port. *)
Definition addresses (c : config) : result (string * string) :=
  st ← configure started c; Ok (st_nodeURL st, "http://" +:+ st_listen st).

Definition all_addresses : list string :=
  plains ≫= (λ c, match addresses c with Ok (a, b) => [a; b] | Err _ => [] end).

Lemma all_addresses_distinct :
  NoDup all_addresses ∧ length all_addresses = 42%nat ∧ Forall (λ c, is_Ok (addresses c)) plains.
Proof. split_and!; apply (bool_decide_unpack _); vm_compute; exact I. Qed.

Lemma portOffset_ok n z : portOffset n = Ok z → n ∈ networks.
Proof.
  unfold portOffset, networks. rewrite !elem_of_cons.
  destruct (String.eqb_spec n Signet); [auto|]. destruct (String.eqb_spec n Regtest); [auto|].
  destruct (String.eqb_spec n Mainnet); [auto|done].
Qed.

(** A decoder sits in the table under its own name. *)
Lemma registered_names : map_Forall (λ name d, @decoder_Name d = name) started.
Proof. apply (bool_decide_unpack _). vm_compute. exact I. Qed.

Lemma spec_names : map_Forall (λ name s, Name s = name ∧ name ∈ chain_names) specs.
Proof. apply (bool_decide_unpack _). vm_compute. exact I. Qed.

(** C40: What [run] settles. A configuration is accepted only for one of the
    three networks and one of the seven chains, and then the blocks are read by
    the decoder of that very chain; an address that is given is used as it is.
    With no address given every one of the 21 configurations starts, and no two
    of them, nor the two sides of one, share an address. The process ends well
    only when it was asked for help, or had a database and a configuration and
    stopped without an error. *)
Theorem configure_settles :
  (∀ cfg st, configure started cfg = Ok st →
     network cfg ∈ networks ∧ st_network st = network cfg ∧ chainName cfg ∈ chain_names ∧
     Name (st_spec st) = chainName cfg ∧ @decoder_Name (st_decoder st) = chainName cfg ∧
     (nodeURL cfg ≠ EmptyString → st_nodeURL st = nodeURL cfg) ∧
     (listen cfg ≠ EmptyString → st_listen st = listen cfg)) ∧
  Forall (λ c, is_Ok (addresses c)) plains ∧ length plains = 21%nat ∧
  NoDup all_addresses ∧ length all_addresses = 42%nat ∧
  (∀ env args rest, main env args started rest = 0 → parse_flags env args ≠ Help →
     ∃ flags st, parse_flags env args = Parsed flags ∧ databaseURL flags ≠ EmptyString ∧
       configure started flags = Ok st ∧ finish (rest st) = Ok tt).
Proof.
  pose proof all_addresses_distinct as (H1 & H2 & H3). split; [|split_and!; [done|done|done|done|]]; clear H1 H2 H3.
  2:{ intros env args rest. unfold main, run, readConfig.
      destruct (parse_flags env args) as [flags| |]; [|done..].
      destruct (String.eqb_spec (databaseURL flags) EmptyString); cbn; [done|].
      destruct (configure started flags) as [st|e] eqn:E; cbn; [|done].
      destruct (finish (rest st)) as [[]|e] eqn:Ef; [|done]. intros _ _. by exists flags, st. }
  intros cfg st H. unfold configure in H.
  apply bind_ok in H as (level & _ & (n & Hn & ([s d] & Hl & H)%bind_ok)%bind_ok).
  apply bind_ok in H as (url & Hurl & (addr & Haddr & [= <-])%bind_ok). cbn.
  apply bind_ok in Hn as (z & Hz%portOffset_ok & [= <-]).
  apply bind_ok in Hl as (s' & Hs%of_option_ok & (d' & Hd%of_option_ok & [= -> ->])%bind_ok).
  apply spec_names in Hs as [Hs1 Hs2]. apply registered_names in Hd.
  split_and!; try done.
  - intros Hne%String.eqb_neq. rewrite Hne in Hurl. by injection Hurl.
  - intros Hne%String.eqb_neq. rewrite Hne in Haddr. by injection Haddr.
Qed.

(** The two connectors. A node is taken on exactly when it answers its block
    count, however few blocks that is. A store is handed out only when the
    database is claimed for this very chain and network, with every indexed row
    as it was; in any other case the database is left alone, and a store that
    was opened is closed again. *)
Theorem connectors_guard {PG : Postgres} post nodeURL open chainName network c o c' :
  (let count := @Node.getblockcount (client_caller post (Rpc.New nodeURL)) in
   ∀ client, connect post nodeURL = Ok client ↔
     client = Rpc.New nodeURL ∧ (is_Ok count ∨ count = Err ErrEmptyChain)) ∧
  (open_store open chainName network c = (o, c') →
   match o with
   | Opened =>
       open = Ok tt ∧
       (λ s, (sy_chain s, sy_network s)) <$> sync_state (c_db c') = Some (chainName, network) ∧
       chain_tables (c_db c') = chain_tables (c_db c) ∧ pool (c_db c') = pool (c_db c)
   | NotOpened e => open = Err e ∧ c' = c
   | Closed _ => open = Ok tt ∧ c_db c' = c_db c
   end).
Proof.
  split.
  - intros count client. unfold connect, Node.TipHeight. fold count. unfold is_Ok.
    destruct count as [n|e]; cbn.
    + destruct (n =? 0); cbn; naive_solver.
    + case_bool_decide; naive_solver.
  - unfold open_store. destruct open as [[]|e]; [|by intros [= <- <-]].
    destruct (Init chainName network c) as [[u|e] c1] eqn:Hi; intros [= <- <-]; pose proof (Init_outcome _ _ _ _ _ Hi) as H.
    + destruct H as (H1 & H2 & H3 & _). done.
    + done.
Qed.
