(* ===== verification/Lifecycle.v ===== *)
(** * How the process lives and ends

    The goroutines of [run] in [cmd/drivechain-esplora/main.go] from the moment it
    is configured: three supervisors and two syncers at work, the server's own
    goroutine, and [run] itself, which waits for a failure of the server or for a
    signal and then shuts the server down. What the workers do is in [Service] and
    [Polling]; here it counts that they return only when the context has ended.
    [ListenAndServe] and [Shutdown] are net/http's, as it documents them: the first
    returns [ErrServerClosed] after a [Shutdown] and no other time; the second
    closes the listener and returns once no request is in flight, with an error only
    when the listener did not close, or it returns the context's error when the grace
    period is over. *)

From S2P Require Import Prelude GoStd Command.
From stdpp Require Import relations.
Open Scope Z_scope.

Definition ErrServerClosed : error := Errorf "http: Server closed".
Definition DeadlineExceeded : error := Errorf "context deadline exceeded".

(** Seconds. *)
Definition shutdownGrace : Z := 10.

(** ** State *)

(** The server's goroutine: in [ListenAndServe], about to send its error, or
    returned. *)
Inductive serving := Listening | Sending (e : error) | Returned.

(** [run]: in its [select], in [Shutdown], or returned. *)
Inductive position := Selecting | Stopping | Over (r : result unit).

Record process := Process {
  ctx_done : bool;
  server : serving;
  shut : bool;                     (* Shutdown was called *)
  serverFailed : option error;     (* the channel, of capacity one *)
  in_flight : nat;                 (* requests being answered *)
  workers : list bool;             (* which of them still run *)
  at_run : position;
}.

(** [nodes.Run], [mempoolNodes.Run], [stores.Run], [syncer.Run], [mempool.Run]. *)
Definition launched : process := Process false Listening false None 0 (replicate 5 true) Selecting.

(** ** Steps *)

(** What the server's goroutine does with the error of [ListenAndServe]. *)
Definition served (e : error) : serving := if bool_decide (e = ErrServerClosed) then Returned else Sending e.

(** The steps of [run] itself. *)
Inductive run_step : process → process → Prop :=
  | select_failed p e :
      at_run p = Selecting → serverFailed p = Some e →
      run_step p (Process (ctx_done p) (server p) (shut p) None (in_flight p) (workers p) (Over (finish (ServerFailed e))))
  | select_done p :
      at_run p = Selecting → ctx_done p = true →
      run_step p (Process (ctx_done p) (server p) true (serverFailed p) (in_flight p) (workers p) Stopping)
  | shutdown_returns p r :
      at_run p = Stopping → (in_flight p = 0%nat ∨ r = Err DeadlineExceeded) →
      run_step p (Process (ctx_done p) (server p) (shut p) (serverFailed p) (in_flight p) (workers p) (Over (finish (Signalled r)))).

(** The steps of everyone else; a process that is over takes none. *)
Inductive other_step : process → process → Prop :=
  | signal p :
      other_step p (Process true (server p) (shut p) (serverFailed p) (in_flight p) (workers p) (at_run p))
  | accept p :
      server p = Listening → shut p = false →
      other_step p (Process (ctx_done p) (server p) (shut p) (serverFailed p) (Datatypes.S (in_flight p)) (workers p) (at_run p))
  | answered p n :
      in_flight p = Datatypes.S n →
      other_step p (Process (ctx_done p) (server p) (shut p) (serverFailed p) n (workers p) (at_run p))
  | listen_returns p e :
      server p = Listening → (e = ErrServerClosed ↔ shut p = true) →
      other_step p (Process (ctx_done p) (served e) (shut p) (serverFailed p) (in_flight p) (workers p) (at_run p))
  | send p e :
      server p = Sending e → serverFailed p = None →
      other_step p (Process (ctx_done p) Returned (shut p) (Some e) (in_flight p) (workers p) (at_run p))
  | worker_returns p i :
      ctx_done p = true →
      other_step p (Process (ctx_done p) (server p) (shut p) (serverFailed p) (in_flight p) (<[i := false]> (workers p)) (at_run p)).

Definition over (p : process) : Prop := ∃ r, at_run p = Over r.

Inductive step : process → process → Prop :=
  | step_run p q : run_step p q → step p q
  | step_other p q : ¬ over p → other_step p q → step p q.

Definition lives (p : process) : Prop := rtc step launched p.

(** ** The invariant *)

Definition server_erred (p : process) : Prop := (∃ e, server p = Sending e) ∨ is_Some (serverFailed p).

(** A reason [run] has to end: a signal, or an error of the server. *)
Definition cause (p : process) : Prop := ctx_done p = true ∨ server_erred p.

Record sane (p : process) : Prop := {
  sane_channel : server p ≠ Returned → serverFailed p = None;
  sane_sent : ∀ e, server p = Sending e ∨ serverFailed p = Some e → e ≠ ErrServerClosed;
  sane_idle : ¬ cause p → ¬ over p → server p = Listening ∧ at_run p = Selecting ∧ shut p = false;
  sane_workers : ctx_done p = false → workers p = replicate 5 true;
  sane_shut : shut p = true → ctx_done p = true ∧ at_run p ≠ Selecting;
  sane_stopping : at_run p = Stopping → shut p = true;
  sane_over : ∀ r, at_run p = Over r →
    (∃ e, r = finish (ServerFailed e) ∧ e ≠ ErrServerClosed) ∨
    ctx_done p = true ∧ ∃ r', r = finish (Signalled r') ∧ (r' = Ok tt → in_flight p = 0%nat);
}.

Lemma launched_sane : sane launched.
Proof.
  split; cbn; try done. by intros e [?|?].
Qed.

Lemma run_step_sane p q : sane p → run_step p q → sane q.
Proof.
  intros [H1 H2 H3 H4 H5 H6 H7] Hs. destruct Hs as [p e Ha Hf|p Ha Hc|p r Ha Hr]; split; cbn in *; try done.
  - intros e' [He|?]; [|done]. apply H2. by left.
  - intros _ []. by eexists.
  - intros Hsh. by apply H5 in Hsh as [? []].
  - intros r [= <-]. left. exists e. split; [done|]. apply H2. by right.
  - intros Hn _. destruct Hn. by left.
  - intros _ []. by eexists.
  - intros Hsh. by apply H5 in Hsh as [? _].
  - intros r' [= <-]. right. split; [by apply H5, H6|]. exists r. split; [done|]. intros ->. by destruct Hr.
Qed.

Lemma other_step_sane p q : sane p → ¬ over p → other_step p q → sane q.
Proof.
  intros [H1 H2 H3 H4 H5 H6 H7] Ho Hs. unfold cause, server_erred in *.
  destruct Hs as [p|p Hl Hn|p n Hn|p e Hl He|p e Hl Hf|p i Hc]; split; unfold cause, server_erred; cbn in *; try done;
    try (by intros r Hr; destruct Ho; exists r).
  - intros Hn _. destruct Hn. by left.
  - intros Hsh. by apply H5 in Hsh as [_ ?].
  - intros _. apply H1. by rewrite Hl.
  - intros e' [He'|He']; [|apply H2; by right]. unfold served in He'. case_bool_decide; [done|]. by injection He' as <-.
  - intros Hn _. unfold served in *. case_bool_decide as D.
    + destruct Hn. left. apply He, H5 in D. by destruct D.
    + destruct Hn. right. left. by exists e.
  - intros e' [He'|He']; [done|]. injection He' as <-. apply H2. by left.
  - intros Hn _. destruct Hn. right. right. by eexists.
  - by rewrite Hc.
Qed.

Lemma lives_sane p : lives p → sane p.
Proof.
  intros H. revert H. apply (rtc_ind_r sane); [apply launched_sane|].
  intros x y _ Hxy Hx. destruct Hxy; [by eapply run_step_sane|by eapply other_step_sane].
Qed.

(** ** How run ends *)

(** How many steps [run] may still take. *)
Definition left_over (p : process) : nat :=
  match at_run p with Selecting => 2 | Stopping => 1 | Over _ => 0 end.

Lemma run_step_left p q : run_step p q → (left_over q < left_over p)%nat.
Proof. destruct 1 as [p e Ha _|p Ha _|p r Ha _]; unfold left_over; cbn; rewrite Ha; lia. Qed.

Lemma other_step_left p q : other_step p q → at_run q = at_run p ∧ (cause p → cause q).
Proof.
  unfold cause, server_erred. destruct 1 as [p|p Hl Hn|p n Hn|p e Hl He|p e Hl Hf|p i Hc]; cbn; split; try done; auto.
  intros [?|[[e' He']|?]]; [by left|by rewrite Hl in He'|by right; right].
Qed.

(** The server's goroutine never waits for its channel. *)
Lemma send_is_free p e : lives p → server p = Sending e → serverFailed p = None.
Proof. intros Hp%lives_sane He. apply (sane_channel _ Hp). by rewrite He. Qed.

(** Once there is a cause, [run] can go on: at once, or when the server has sent. *)
Lemma run_goes_on p :
  sane p → cause p → ¬ over p →
  (∃ q, run_step p q) ∨ ∃ q, other_step p q ∧ ∃ q', run_step q q'.
Proof.
  intros Hp Hc Ho. destruct (at_run p) as [| |r] eqn:Ha; [..|destruct Ho; by exists r].
  - destruct Hc as [Hc|[[e He]|[e He]]].
    + left. eexists. by apply select_done.
    + right. eexists. split; [apply (send _ e); [done|]; apply (sane_channel _ Hp); by rewrite He|].
      eexists. by apply (select_failed _ e).
    + left. eexists. by apply (select_failed _ e).
  - left. destruct (decide (in_flight p = 0%nat)).
    + eexists. apply (shutdown_returns _ (Ok tt)); auto.
    + eexists. apply (shutdown_returns _ (Err DeadlineExceeded)); auto.
Qed.

(** C18: How the process ends. Until a signal comes or the server fails, it runs:
    [run] waits and every worker is at work, whatever happens to node, database,
    enforcer or requests. From then on [run] can always take its next step, at once
    or as soon as the server has sent its error, which never has to wait; nobody
    else can take that cause away, and of its own steps there are two at most. It
    ends with the server's error, or after a signal with what [Shutdown] says, and
    without an error only when no request is left unanswered. *)
Theorem run_ends p :
  lives p →
  (¬ cause p → ¬ over p → at_run p = Selecting ∧ server p = Listening ∧ workers p = replicate 5 true) ∧
  (cause p → ¬ over p → (∃ q, run_step p q) ∨ ∃ q, other_step p q ∧ ∃ q', run_step q q') ∧
  (∀ q, other_step p q → (cause p → cause q) ∧ left_over q = left_over p) ∧
  (∀ q, run_step p q → (left_over q < left_over p ≤ 2)%nat) ∧
  (∀ e, server p = Sending e → serverFailed p = None) ∧
  (∀ r, at_run p = Over r →
     (∃ e, r = Err (wrapf "serve" e) ∧ e ≠ ErrServerClosed) ∨
     ctx_done p = true ∧ (r = Ok tt ∧ in_flight p = 0%nat ∨ ∃ e, r = Err (wrapf "stop the server" e))).
Proof.
  intros Hl. pose proof (lives_sane _ Hl) as Hp. split_and!.
  - intros Hc Ho. destruct (sane_idle _ Hp Hc Ho) as (? & ? & _). split_and!; [done..|].
    apply (sane_workers _ Hp). destruct (ctx_done p) eqn:E; [|done]. destruct Hc. by left.
  - by apply run_goes_on.
  - intros q Hq. apply other_step_left in Hq as [Ha Hc]. split; [done|]. unfold left_over. by rewrite Ha.
  - intros q Hq. split; [by apply run_step_left|]. unfold left_over. destruct (at_run p); lia.
  - intros e. by apply send_is_free.
  - intros r Hr. apply (sane_over _ Hp) in Hr as [(e & -> & He)|(Hc & [[]|e] & -> & Hn)]; [left|right|right].
    + by exists e.
    + split; [done|]. left. split; [done|]. by apply Hn.
    + split; [done|]. right. by exists e.
Qed.

(** ** Observations *)

Lemma lives_other p q : lives p → at_run p = Selecting → other_step p q → lives q.
Proof. intros Hp Ha Hq. eapply rtc_r; [exact Hp|]. apply step_other; [|done]. intros [r Hr]. congruence. Qed.

Definition refused : error := Errorf "bind: address already in use".

Definition signalled : process := Process true Listening false None 0 (replicate 5 true) Selecting.
Definition failing : process := Process true (Sending refused) false None 0 (replicate 5 true) Selecting.
Definition torn : process := Process true Returned false (Some refused) 0 (replicate 5 true) Selecting.

Lemma signalled_lives : lives signalled.
Proof. apply (lives_other launched); [by apply rtc_refl|done|apply (signal launched)]. Qed.

Lemma torn_lives : lives torn.
Proof.
  apply (lives_other failing); [|done|by apply (send failing refused)].
  apply (lives_other signalled); [exact signalled_lives|done|]. by apply (listen_returns signalled refused).
Qed.

(** When the server fails as the signal comes, [select] may take either case, so
    the process may report success although it could not serve. And [run] waits for
    the requests but not for its workers: it may be over before a supervisor has
    closed its connection. *)
Lemma either_end :
  (∃ p, rtc step torn p ∧ at_run p = Over (Err (wrapf "serve" refused))) ∧
  (∃ p, rtc step torn p ∧ at_run p = Over (Ok tt) ∧ workers p = replicate 5 true).
Proof.
  split.
  - eexists. split; [apply rtc_once, step_run; by apply (select_failed torn refused)|done].
  - eexists. split; [|].
    + eapply rtc_l; [apply step_run; by apply (select_done torn)|].
      apply rtc_once, step_run. apply (shutdown_returns _ (Ok tt)); [done|by left].
    + done.
Qed.

(** A signal, a shutdown with nothing in flight, and no error. *)
Example run_ends_witness :
  (∃ q, run_step signalled q) ∧ ∃ p, lives p ∧ at_run p = Over (Ok tt) ∧ in_flight p = 0%nat.
Proof.
  pose proof (run_ends signalled signalled_lives) as (_ & Hgo & _). split.
  - destruct Hgo as [H|(q & Hq & q' & Hr)]; [by left|by intros [r [=]]|exact H|].
    eexists. by apply (select_done signalled).
  - exists (Process true Listening true None 0 (replicate 5 true) (Over (Ok tt))). split; [|split; reflexivity].
    apply (rtc_r launched (Process true Listening true None 0 (replicate 5 true) Stopping)).
    + apply (rtc_r launched signalled); [exact signalled_lives|]. apply step_run. by apply (select_done signalled).
    + apply step_run, (shutdown_returns (Process true Listening true None 0 (replicate 5 true) Stopping) (Ok tt)); [done|by left].
Defined.
