(* ===== verification/Activity.v ===== *)
(** * The activity feed

    [internal/store/activity.go]: transactions and deposits as one list. A
    deposit appears in no block body, so the feed reads it from the outputs. *)

From S2P Require Import Prelude GoStd Json Hash OutPoint Block Registry Tables Write Ledger.
From S2P Require Import WriteSpec Read ReadSpec.
Open Scope Z_scope.

(** ** The kinds *)

Definition KindTransfer : string := "transfer".
Definition KindWithdrawal : string := "withdrawal".
Definition KindDepositRow : string := "deposit".

Record ActivityRow := {
  ac_Kind : string; ac_ID : Hash; ac_Height : Z; ac_BlockHash : Hash; ac_BlockTime : option Z;
  ac_FeeSats : Z; ac_SizeBytes : Z; ac_ValueSats : Z;
}.

(** One row of the common table expression [feed]. *)
Record feed_row := {
  f_kind : string; f_id : Hash; f_height : Z; f_ordinal : Z; f_fee_sats : Z; f_size_bytes : Z;
  f_value_sats : Z;
}.

(** ** The query *)

(** [EXISTS (SELECT 1 FROM outputs ... content_type = 'withdrawal')]. *)
Definition withdraws (l : ledger) (txid : Hash) : Prop :=
  map_Exists (λ _ o, o_source_id o = txid ∧ o_kind o = KindRegular ∧ o_content_type o = KindWithdrawal)
    (outputs l).

#[export] Instance withdraws_dec l txid : Decision (withdraws l txid).
Proof. unfold withdraws. apply _. Defined.

(** What the outputs of a transaction hold. *)
Definition paid_out (l : ledger) (txid : Hash) : Z :=
  sum_rows (λ _ o, if bool_decide (o_source_id o = txid ∧ o_kind o = KindRegular)
                  then o_value_sats o else 0) (outputs l).

Definition tx_feed (l : ledger) (it : Hash * tx_row) : feed_row :=
  let '(txid, t) := it in
  {| f_kind := if bool_decide (withdraws l txid) then KindWithdrawal else KindTransfer;
     f_id := txid; f_height := t_height t; f_ordinal := t_tx_index t; f_fee_sats := t_fee_sats t;
     f_size_bytes := t_size_bytes t; f_value_sats := paid_out l txid |}.

(** [GROUP BY o.source_id, o.height] over the deposits. *)
Definition deposit_groups (l : ledger) : gset (Hash * Z) :=
  list_to_set ((λ ko, (o_source_id ko.2, o_height ko.2))
                 <$> filter (λ ko, o_kind ko.2 = KindDeposit) (map_to_list (outputs l))).

Definition deposited (l : ledger) (ih : Hash * Z) : Z :=
  sum_rows (λ _ o, if bool_decide (o_kind o = KindDeposit ∧ o_source_id o = ih.1 ∧ o_height o = ih.2)
                  then o_value_sats o else 0) (outputs l).

Definition deposit_feed (l : ledger) (ih : Hash * Z) : feed_row :=
  {| f_kind := KindDepositRow; f_id := ih.1; f_height := ih.2; f_ordinal := -1; f_fee_sats := 0;
     f_size_bytes := 0; f_value_sats := deposited l ih |}.

Definition feed (l : ledger) : list feed_row :=
  (tx_feed l <$> map_to_list (txs l)) ++ (deposit_feed l <$> elements (deposit_groups l)).

(** [FROM feed f JOIN blocks b ON b.height = f.height]. *)
Definition feed_blocks (l : ledger) : list (feed_row * block_row) :=
  omap (λ f, (λ b, (f, b)) <$> blocks l !! f_height f) (feed l).

(** One turn of [scanActivity]. *)
Definition scanActivity (fb : feed_row * block_row) : result ActivityRow :=
  let '(f, b) := fb in
  value ← scan_int64 (f_value_sats f);
  Ok {| ac_Kind := f_kind f; ac_ID := f_id f; ac_Height := uint32 (f_height f);
        ac_BlockHash := b_hash b; ac_BlockTime := b_block_time b; ac_FeeSats := f_fee_sats f;
        ac_SizeBytes := f_size_bytes f; ac_ValueSats := value |}.

Section activity.
Context {PG : Postgres}.

(** [ORDER BY f.height DESC, f.ordinal DESC LIMIT $1]. *)
Definition Activity (limit : nat) : M (list ActivityRow) :=
  query (λ d, traverse (λ _, scanActivity)
    (take limit (merge_sort (newest_first (λ fb : feed_row * block_row, f_height fb.1) (λ fb, - f_ordinal fb.1))
       (scan (feed_blocks (chain_tables d)))))).

(** [WHERE b.hash = $1 ORDER BY f.ordinal DESC]. *)
Definition ActivityInBlock (hash : Hash) : M (list ActivityRow) :=
  query (λ d, traverse (λ _, scanActivity)
    (merge_sort (ascending (λ fb : feed_row * block_row, - f_ordinal fb.1))
       (scan (filter (λ fb, b_hash fb.2 = hash) (feed_blocks (chain_tables d)))))).
End activity.

(** ** The feed of one block adds up *)

Lemma sum_rows_swap {K1 K2 A B} `{Countable K1, Countable K2} (f : K1 → A → K2 → B → Z)
    (m1 : gmap K1 A) (m2 : gmap K2 B) :
  sum_rows (λ k a, sum_rows (f k a) m2) m1 = sum_rows (λ j b, sum_rows (λ k a, f k a j b) m1) m2.
Proof.
  unfold sum_rows. induction (map_to_list m1) as [|[k a] l IH]; cbn.
  - symmetry. induction (map_to_list m2) as [|x r IHr]; cbn; [done|]. by rewrite IHr.
  - rewrite IH. clear IH. induction (map_to_list m2) as [|x r IHr]; cbn; lia.
Qed.

(** Summing what each transaction of a block pays out counts every output of
    the block's transactions once. *)
Lemma paid_out_sum l h :
  sum_rows (λ txid t, if bool_decide (t_height t = h) then paid_out l txid else 0) (txs l) = block_value l h.
Proof.
  unfold block_value, paid_out.
  transitivity (sum_rows (λ txid t, sum_rows (λ _ o,
    if bool_decide (t_height t = h ∧ o_source_id o = txid ∧ o_kind o = KindRegular) then o_value_sats o else 0)
    (outputs l)) (txs l)).
  - apply sum_rows_ext. intros txid t _. case_bool_decide as D.
    + apply sum_rows_ext. intros k o _. by repeat case_bool_decide; try tauto.
    + symmetry. apply sum_rows_zero. intros k o _. by rewrite bool_decide_false by tauto.
  - rewrite sum_rows_swap. apply sum_rows_ext. intros k o _.
    rewrite (sum_rows_keys _ _ [o_source_id o]); [|apply NoDup_singleton|].
    + cbn. destruct (txs l !! o_source_id o) as [t|]; cbn.
      * repeat case_bool_decide; try lia; naive_solver.
      * rewrite bool_decide_false by naive_solver. done.
    + intros txid t _ Hne. rewrite bool_decide_false; [done|]. set_solver.
Qed.

Lemma sum_fees_feed l h :
  sumZ f_fee_sats (filter (λ f, f_height f = h) (feed l)) = block_fees l h.
Proof.
  unfold feed, block_fees, sum_rows. rewrite sumZ_filter, sumZ_app, !sumZ_fmap.
  rewrite (sumZ_ext _ (λ _, 0) (elements _)) by (intros; by case_bool_decide).
  rewrite (sumZ_ext _ (λ it, if bool_decide (t_height it.2 = h) then t_fee_sats it.2 else 0) (map_to_list _))
    by (by intros [txid t]).
  induction (elements (deposit_groups l)); cbn in *; lia.
Qed.

Definition is_tx (f : feed_row) : Prop := f_kind f ≠ KindDepositRow.
#[export] Instance is_tx_dec f : Decision (is_tx f).
Proof. unfold is_tx. apply _. Defined.

Lemma tx_feed_is_tx l it : is_tx (tx_feed l it).
Proof. destruct it. unfold is_tx. cbn. by case_bool_decide. Qed.

Lemma sum_values_feed l h :
  sumZ f_value_sats (filter is_tx (filter (λ f, f_height f = h) (feed l))) = block_value l h.
Proof.
  rewrite <- paid_out_sum. unfold feed, sum_rows. rewrite !sumZ_filter, sumZ_app, !sumZ_fmap.
  rewrite (sumZ_ext _ (λ _, 0) (elements _)).
  - rewrite (sumZ_ext _ (λ it, if bool_decide (t_height it.2 = h) then paid_out l it.1 else 0) (map_to_list _)).
    + induction (elements (deposit_groups l)); cbn in *; lia.
    + intros it _. rewrite (bool_decide_true (is_tx _)) by apply tx_feed_is_tx. by destruct it.
  - intros ih _. case_bool_decide; [|done]. done.
Qed.

Lemma feed_of_block n l h b :
  wf n l → blocks l !! h = Some b →
  filter (λ fb, b_hash fb.2 = b_hash b) (feed_blocks l) =
  (λ f, (f, b)) <$> filter (λ f, f_height f = h) (feed l).
Proof.
  intros W Hb. unfold feed_blocks. induction (feed l) as [|f fs IH]; [done|].
  cbn [omap list_omap]. rewrite (filter_cons _ f). destruct (decide (f_height f = h)) as [<-|Hne].
  - rewrite Hb. cbn [fmap option_fmap option_map]. rewrite filter_cons_True by done. by rewrite IH.
  - destruct (blocks l !! f_height f) as [b'|] eqn:Hb'; cbn [fmap option_fmap option_map]; [|done].
    rewrite filter_cons_False; [done|]. cbn. intros E. by apply Hne, (wf_hashes _ _ W _ _ _ _ Hb' Hb).
Qed.

Section adds_up.
Context {PG : Postgres} (HP : PostgresLaws).

(** What the feed of a block answers, row by row of the feed. *)
Lemma ActivityInBlock_rows n h b d rows :
  wf n (chain_tables d) → blocks (chain_tables d) !! h = Some b →
  run (ActivityInBlock (b_hash b)) d = (Ok rows, d) →
  ∃ fs, fs ≡ₚ filter (λ f, f_height f = h) (feed (chain_tables d)) ∧
    StronglySorted (λ x y, f_ordinal y ≤ f_ordinal x) fs ∧
    rows = (λ f, {| ac_Kind := f_kind f; ac_ID := f_id f; ac_Height := uint32 h;
                    ac_BlockHash := b_hash b; ac_BlockTime := b_block_time b;
                    ac_FeeSats := f_fee_sats f; ac_SizeBytes := f_size_bytes f;
                    ac_ValueSats := f_value_sats f |}) <$> fs.
Proof.
  intros W Hb. unfold ActivityInBlock. rewrite run_query, (feed_of_block n _ h b W Hb). intros [= Hr].
  set (sorted := merge_sort _ _) in Hr. assert (sorted ≡ₚ (λ f, (f, b)) <$> filter (λ f, f_height f = h)
    (feed (chain_tables d))) as Hp by (unfold sorted; by rewrite merge_sort_Permutation, scan_perm).
  assert (StronglySorted (ascending (λ fb : feed_row * block_row, - f_ordinal fb.1)) sorted) as Hs
    by (apply StronglySorted_merge_sort; apply _).
  exists sorted.*1. split; [|split].
  - rewrite Hp, <- list_fmap_compose. by rewrite list_fmap_id.
  - apply StronglySorted_fmap_elem with (2 := Hs). unfold ascending. intros x y _ _. lia.
  - assert (∀ fb, fb ∈ sorted → f_height fb.1 = h ∧ fb.2 = b) as Hin.
    { intros fb. rewrite Hp. intros (f & -> & [? _]%list_elem_of_filter)%list_elem_of_fmap. done. }
    clearbody sorted. clear Hp Hs. revert rows Hr. induction sorted as [|[f b'] l IH]; intros rows Hr.
    { by injection Hr as <-. }
    cbn in Hr. apply bind_ok in Hr as (y & (v & [-> _]%scan_int64_ok & [= <-])%bind_ok &
      (ys & Hys & [= <-])%bind_ok).
    rewrite !fmap_cons. destruct (Hin (f, b')) as [Hh Hb']; [by left|]. cbn in Hh, Hb'. subst.
    f_equal. apply IH; [|done]. intros fb Hfb. apply Hin. by right.
Qed.

(** The body position of a transaction. *)
Definition body_index (l : ledger) (txid : Hash) : Z := from_option t_tx_index 0 (txs l !! txid).

Lemma feed_tx l f : f ∈ feed l → is_tx f → ∃ t, txs l !! f_id f = Some t ∧ f = tx_feed l (f_id f, t).
Proof.
  unfold feed. intros [Hf|Hf]%elem_of_app Ht.
  - apply list_elem_of_fmap in Hf as ([txid t] & -> & Hin%elem_of_map_to_list). cbn. eauto.
  - apply list_elem_of_fmap in Hf as (ih & -> & _). by destruct Ht.
Qed.

Lemma feed_deposit l f : f ∈ feed l → ¬ is_tx f → f_ordinal f = -1.
Proof.
  unfold feed. intros [Hf|Hf]%elem_of_app Ht; apply list_elem_of_fmap in Hf as (it & -> & _); [|done].
  by destruct Ht; apply tx_feed_is_tx.
Qed.

Lemma feed_ids l h :
  f_id <$> filter is_tx (filter (λ f, f_height f = h) (feed l)) ≡ₚ
  (filter (λ it, t_height it.2 = h) (map_to_list (txs l))).*1.
Proof.
  unfold feed. rewrite !filter_app, fmap_app.
  assert (filter is_tx (filter (λ f, f_height f = h) (deposit_feed l <$> elements (deposit_groups l))) = []) as ->.
  { induction (elements (deposit_groups l)) as [|ih r IH]; [done|]. rewrite fmap_cons, filter_cons.
    case_decide; [|done]. rewrite filter_cons_False; [done|]. by intros []. }
  rewrite app_nil_r. induction (map_to_list (txs l)) as [|[txid t] r IH]; [done|].
  rewrite fmap_cons, !(filter_cons (λ _, _ = h)). cbn. destruct (decide (t_height t = h)); [|done].
  rewrite filter_cons_True by apply (tx_feed_is_tx l (txid, t)). cbn. by constructor.
Qed.

(** The ordinal of a transaction is its body position. *)
Lemma feed_ordinal l f : f ∈ feed l → is_tx f → f_ordinal f = body_index l (f_id f).
Proof.
  intros Hf Ht. destruct (feed_tx l f Hf Ht) as (t & Hl & ->). unfold body_index. cbn in *. by rewrite Hl.
Qed.

(** In the order of the query the deposits come last. *)
Lemma feed_split l fs :
  (∀ id t, txs l !! id = Some t → 0 ≤ t_tx_index t) → (∀ f, f ∈ fs → f ∈ feed l) →
  StronglySorted (λ x y, f_ordinal y ≤ f_ordinal x) fs →
  fs = filter is_tx fs ++ filter (λ f, ¬ is_tx f) fs.
Proof.
  intros Hpos Hfeed. apply StronglySorted_split. intros x y Hx Hy Hnx Hty.
  rewrite (feed_deposit l x (Hfeed x Hx) Hnx), (feed_ordinal l y (Hfeed y Hy) Hty).
  destruct (feed_tx l y (Hfeed y Hy) Hty) as (t & Hl & _). specialize (Hpos _ _ Hl).
  unfold body_index. rewrite Hl. cbn. lia.
Qed.

Lemma BlockTxids_rows n h b d txids :
  wf n (chain_tables d) → blocks (chain_tables d) !! h = Some b →
  run (BlockTxids (b_hash b)) d = (Ok txids, d) →
  txids ≡ₚ (filter (λ it, t_height it.2 = h) (map_to_list (txs (chain_tables d)))).*1 ∧
  StronglySorted (λ x y, body_index (chain_tables d) x ≤ body_index (chain_tables d) y) txids.
Proof.
  intros W Hb. unfold BlockTxids. rewrite run_query. intros [= <-].
  set (l := chain_tables d) in *.
  assert (filter (λ it : Hash * tx_row, b_hash <$> blocks l !! t_height it.2 = Some (b_hash b)) (map_to_list (txs l)) =
    filter (λ it, t_height it.2 = h) (map_to_list (txs l))) as ->.
  { apply list_filter_iff. intros [txid t]. cbn. split; [|by intros ->; rewrite Hb].
    intros (b' & Hb' & E)%fmap_Some. by apply (wf_hashes _ _ W _ _ _ _ Hb' Hb). }
  split; [by rewrite merge_sort_Permutation, scan_perm|].
  apply StronglySorted_fmap_elem with (R1 := ascending (λ it : Hash * tx_row, t_tx_index it.2));
    [|apply StronglySorted_merge_sort; apply _].
  assert (∀ it, it ∈ merge_sort (ascending (λ it : Hash * tx_row, t_tx_index it.2))
    (scan (filter (λ it, t_height it.2 = h) (map_to_list (txs l)))) → body_index l it.1 = t_tx_index it.2) as Hi.
  { intros [txid t]. rewrite merge_sort_Permutation, scan_perm.
    intros [_ Hin%elem_of_map_to_list]%list_elem_of_filter. unfold body_index. cbn. by rewrite Hin. }
  intros x y Hx Hy. unfold ascending. by rewrite (Hi x Hx), (Hi y Hy).
Qed.
End adds_up.
