(* ===== verification/Mempool.v ===== *)
(** * The unconfirmed set

    [internal/store/mempool.go]: [ReplaceMempool] swaps the snapshot in one
    transaction and keeps the arrival time of what stays; the other functions
    read the snapshot, joined with the confirmed outputs it spends. *)

From S2P Require Import Prelude GoStd Json Hash OutPoint Block BlockIndex Registry Tables Write.
From S2P Require Import Ledger WriteSpec Prepare Read.
Open Scope Z_scope.

(** A Go loop of statements. *)
Fixpoint for_each {A} (f : A → M unit) (l : list A) : M unit :=
  match l with
  | [] => mret tt
  | a :: l => _ ← f a; for_each f l
  end.

Section mempool.
Context {PG : Postgres}.

(** ** Replacing the snapshot *)

(** A statement that writes the mempool tables and may fail. *)
Definition on_pool_r (f : mempool_tables → result mempool_tables) : M unit :=
  exec (λ d, p ← f (pool d); Ok (tt, Db (chain_tables d) (sync_state d) p)).

Definition new_mempool_tx_row (at_ : Z) (t : SMempoolTx) : mempool_tx_row :=
  {| mp_tx_index := int32 (sm_Index t); mp_size_bytes := int32 (sm_SizeBytes t);
     mp_fee_sats := 0; mp_raw := sm_Raw t; mp_first_seen := at_ |}.

(** The row keeps the arrival time the last snapshot had. *)
Definition first_seen (seen : gmap Hash Z) (now : Z) (t : SMempoolTx) : Z :=
  default now (seen !! sm_Txid t).

Definition insert_mempool_tx (seen : gmap Hash Z) (now : Z) (t : SMempoolTx) (p : mempool_tables)
    : result mempool_tables :=
  _ ← reject (bool_decide (is_Some (mempool_txs p !! sm_Txid t))) unique_violation;
  Ok (MempoolTables (<[sm_Txid t := new_mempool_tx_row (first_seen seen now t) t]> (mempool_txs p))
        (mempool_outputs p) (mempool_spends p)).

Definition new_mempool_output_row (content : json) (o : SOutput) : mempool_output_row :=
  {| mo_kind := int16 (Kind (so_OutPoint o)); mo_source_id := Source (so_OutPoint o);
     mo_vout := int32 (Vout (so_OutPoint o)); mo_address := so_Address o;
     mo_scripthash := ScriptHash (so_Address o); mo_value_sats := so_ValueSats o;
     mo_content := content; mo_content_type := so_ContentType o |}.

Definition insert_mempool_output (o : SOutput) (p : mempool_tables) : result mempool_tables :=
  content ← of_option (Errorf "invalid input syntax for type json") (so_Content o ≫= jsonb);
  match mempool_outputs p !! Key (so_OutPoint o) with
  | Some _ => Ok p
  | None =>
      Ok (MempoolTables (mempool_txs p)
            (<[Key (so_OutPoint o) := new_mempool_output_row content o]> (mempool_outputs p))
            (mempool_spends p))
  end.

Definition insert_mempool_spend (s : Spend) (p : mempool_tables) : result mempool_tables :=
  match mempool_spends p !! Key (ss_OutPoint s) with
  | Some _ => Ok p
  | None =>
      Ok (MempoolTables (mempool_txs p) (mempool_outputs p)
            (<[Key (ss_OutPoint s) := {| ms_source := ss_Source s; ms_kind := int16 (ss_Kind s);
                                         ms_vin := int32 (ss_Vin s) |}]> (mempool_spends p)))
  end.

(** [setMempoolFees]: the joins count an input whether its coin is confirmed
    or belongs to the same snapshot. *)
Definition confirmed_value (l : ledger) (k : OutPointKey) : Z :=
  from_option o_value_sats 0 (outputs l !! k).
Definition pending_value (p : mempool_tables) (k : OutPointKey) : Z :=
  from_option mo_value_sats 0 (mempool_outputs p !! k).

Definition mempool_fee (l : ledger) (p : mempool_tables) (txid : Hash) : Z :=
  let by_tx f := sum_rows (λ k s, if bool_decide (ms_source s = txid ∧ ms_kind s = SpendRegular)
                                  then f k else 0) (mempool_spends p) in
  Z.max (by_tx (confirmed_value l) + by_tx (pending_value p) -
         sum_rows (λ _ o, if bool_decide (mo_source_id o = txid ∧ mo_kind o = KindRegular)
                          then mo_value_sats o else 0) (mempool_outputs p)) 0.

Definition with_fee (fee : Z) (t : mempool_tx_row) : mempool_tx_row :=
  {| mp_tx_index := mp_tx_index t; mp_size_bytes := mp_size_bytes t; mp_fee_sats := fee;
     mp_raw := mp_raw t; mp_first_seen := mp_first_seen t |}.

Definition set_mempool_fees (l : ledger) (p : mempool_tables) : result mempool_tables :=
  _ ← reject (negb (bool_decide (map_Forall (λ txid _, mempool_fee l p txid ≤ MaxInt64) (mempool_txs p))))
        (Errorf "bigint out of range");
  Ok (MempoolTables (map_imap (λ txid t, Some (with_fee (mempool_fee l p txid) t)) (mempool_txs p))
        (mempool_outputs p) (mempool_spends p)).

Definition setMempoolFees : M unit :=
  exec (λ d, p ← set_mempool_fees (chain_tables d) (pool d); Ok (tt, Db (chain_tables d) (sync_state d) p)).

Definition ReplaceMempool (now : Z) (new : SMempool) : M unit :=
  inTx (
    seen ← query (λ d, Ok (mp_first_seen <$> mempool_txs (pool d)));
    _ ← on_pool (λ p, MempoolTables (mempool_txs p) (mempool_outputs p) ∅);
    _ ← on_pool (λ p, MempoolTables (mempool_txs p) ∅ (mempool_spends p));
    _ ← on_pool (λ p, MempoolTables ∅ (mempool_outputs p) (mempool_spends p));
    _ ← for_each (λ t, on_pool_r (insert_mempool_tx seen now t)) (mp_Txs new);
    _ ← for_each (λ o, on_pool_r (insert_mempool_output o)) (mp_Creates new);
    _ ← for_each (λ s, on_pool_r (insert_mempool_spend s)) (mp_Spends new);
    setMempoolFees).

(** ** Reading the snapshot *)

Definition mkeyed (column : string) (key : list byte) (o : mempool_output_row) : Prop :=
  (if String.eqb column ColumnAddress then bytes (mo_address o) else bytes (mo_scripthash o)) = key.

#[export] Instance mkeyed_dec column key o : Decision (mkeyed column key o).
Proof. unfold mkeyed. apply _. Defined.

(** The rows of the [spent] subquery: the source of a spend and the value of
    the keyed coin it takes, once per table that holds the coin. *)
Definition pending_spent (column : string) (key : list byte) (l : ledger) (p : mempool_tables)
    : list (Hash * Z) :=
  omap (λ ks : OutPointKey * mempool_spend_row,
    o ← outputs l !! ks.1; if bool_decide (keyed column key o) then Some (ms_source ks.2, o_value_sats o) else None)
    (map_to_list (mempool_spends p)) ++
  omap (λ ks : OutPointKey * mempool_spend_row,
    o ← mempool_outputs p !! ks.1;
    if bool_decide (mkeyed column key o) then Some (ms_source ks.2, mo_value_sats o) else None)
    (map_to_list (mempool_spends p)).

Definition pending_funded (column : string) (key : list byte) (p : mempool_tables)
    : gmap OutPointKey mempool_output_row :=
  filter (λ ko, mkeyed column key ko.2) (mempool_outputs p).

Definition MempoolStats (column : string) (key : list byte) : M TxoStats :=
  query (λ d,
    _ ← checkKeyColumn column;
    let funded := pending_funded column key (pool d) in
    let spent := pending_spent column key (chain_tables d) (pool d) in
    funded_sum ← scan_int64 (sum_rows (λ _ o, mo_value_sats o) funded);
    spent_sum ← scan_int64 (sumZ snd spent);
    Ok {| FundedCount := Z.of_nat (size funded); FundedSum := funded_sum;
          SpentCount := Z.of_nat (length spent); SpentSum := spent_sum;
          TxCount := Z.of_nat (size (list_to_set ((λ ko, mo_source_id ko.2) <$> map_to_list funded)
                                     ∪ list_to_set spent.*1 : gset Hash)) |}).

Definition MempoolSpentOutpoints : M (gset OutPointKey) :=
  query (λ d, Ok (dom (mempool_spends (pool d)))).

(** [MempoolUTXOs]; a vout above [2^31] cannot be scanned into a [uint32]. *)
Definition scan_mempool_utxo (_ : nat) (o : mempool_output_row) : result UTXO :=
  _ ← reject (mo_vout o <? 0) (Errorf "scan mempool utxo");
  Ok {| u_OutPoint := {| Kind := uint8 (mo_kind o); Source := mo_source_id o; Vout := mo_vout o |};
        u_ValueSats := mo_value_sats o; u_Height := 0; u_BlockHash := None; u_BlockTime := None;
        u_ContentType := mo_content_type o; u_Content := mo_content o;
        u_HeightExact := false; u_Unconfirmed := true |}.

Definition pending_utxo_rows (column : string) (key : list byte) (p : mempool_tables)
    : list mempool_output_row :=
  merge_sort (ascending mo_vout)
    (snd <$> scan (map_to_list (filter (λ ko, mkeyed column key ko.2 ∧ mempool_spends p !! ko.1 = None)
                                  (mempool_outputs p)))).

Definition MempoolUTXOs (column : string) (key : list byte) : M (list UTXO) :=
  query (λ d,
    _ ← checkKeyColumn column;
    traverse scan_mempool_utxo (pending_utxo_rows column key (pool d))).

(** [ORDER BY first_seen DESC]. *)
Definition by_arrival (P : Hash * mempool_tx_row → Prop) `{∀ x, Decision (P x)} (p : mempool_tables)
    : list (Hash * mempool_tx_row) :=
  merge_sort (newest_first (λ it : Hash * mempool_tx_row, mp_first_seen it.2) (λ _, 0))
    (scan (filter P (map_to_list (mempool_txs p)))).

Definition MempoolTxids : M (list Hash) :=
  query (λ d, Ok (by_arrival (λ _, True) (pool d)).*1).

Definition MempoolSummary : M (Z * Z * Z) :=
  query (λ d,
    let m := mempool_txs (pool d) in
    vsize ← scan_int64 (sum_rows (λ _ t, mp_size_bytes t) m);
    fees ← scan_int64 (sum_rows (λ _ t, mp_fee_sats t) m);
    Ok (Z.of_nat (size m), vsize, fees)).

(** The subquery of [MempoolTxidsFor]. *)
Definition touching (column : string) (key : list byte) (l : ledger) (p : mempool_tables) : gset Hash :=
  list_to_set ((λ ko, mo_source_id ko.2) <$> map_to_list (pending_funded column key p)) ∪
  list_to_set (pending_spent column key l p).*1.

Definition MempoolTxidsFor (column : string) (key : list byte) : M (list Hash) :=
  query (λ d,
    _ ← checkKeyColumn column;
    Ok (by_arrival (λ it, it.1 ∈ touching column key (chain_tables d) (pool d)) (pool d)).*1).

(** ** One unconfirmed transaction *)

Definition pending_coin (o : mempool_output_row) : Coin :=
  {| co_OutPoint := {| Kind := uint8 (mo_kind o); Source := mo_source_id o; Vout := uint32 (mo_vout o) |};
     co_Address := mo_address o; co_ValueSats := mo_value_sats o; co_Content := mo_content o;
     co_ContentType := mo_content_type o; co_Height := 0;
     co_SpentSource := None; co_SpentKind := None; co_SpentHeight := None |}.

(** [mempoolCoins] reads no height and no spent columns. *)
Definition confirmed_coin (o : output_row) : Coin :=
  {| co_OutPoint := {| Kind := uint8 (o_kind o); Source := o_source_id o; Vout := uint32 (o_vout o) |};
     co_Address := o_address o; co_ValueSats := o_value_sats o; co_Content := o_content o;
     co_ContentType := o_content_type o; co_Height := 0;
     co_SpentSource := None; co_SpentKind := None; co_SpentHeight := None |}.

Definition mempool_vin (txid : Hash) (l : ledger) (p : mempool_tables) : list Coin :=
  let spends := filter (λ ks, ms_source ks.2 = txid ∧ ms_kind ks.2 = SpendRegular)
                  (map_to_list (mempool_spends p)) in
  snd <$> merge_sort (ascending (fst : Z * Coin → Z)) (scan
    (omap (λ ks : OutPointKey * mempool_spend_row,
       o ← outputs l !! ks.1; Some (ms_vin ks.2, confirmed_coin o)) spends ++
     omap (λ ks : OutPointKey * mempool_spend_row,
       o ← mempool_outputs p !! ks.1; Some (ms_vin ks.2, pending_coin o)) spends)).

Definition mempool_vout (txid : Hash) (p : mempool_tables) : list Coin :=
  pending_coin <$> merge_sort (ascending mo_vout)
    (filter (λ o, mo_source_id o = txid ∧ mo_kind o = KindRegular)
       (snd <$> scan (map_to_list (mempool_outputs p)))).

Definition MempoolTxRow (txid : Hash) : M TxRow :=
  t ← query (λ d, of_option ErrNotFound (mempool_txs (pool d) !! txid));
  vin ← query (λ d, Ok (mempool_vin txid (chain_tables d) (pool d)));
  vout ← query (λ d, Ok (mempool_vout txid (pool d)));
  mret {| tx_Txid := txid; tx_Height := 0; tx_Index := mp_tx_index t;
          tx_SizeBytes := mp_size_bytes t; tx_FeeSats := mp_fee_sats t; tx_Raw := mp_raw t;
          tx_Block := None; tx_Vin := vin; tx_Vout := vout; tx_Unconfirmed := true |}.

Record MempoolEntry := { me_Txid : Hash; me_FeeSats : Z; me_SizeBytes : Z; me_ValueSats : Z }.

Definition mempool_entry (p : mempool_tables) (_ : nat) (it : Hash * mempool_tx_row) : result MempoolEntry :=
  value ← scan_int64 (sum_rows (λ _ o, if bool_decide (mo_source_id o = it.1 ∧ mo_kind o = KindRegular)
                                       then mo_value_sats o else 0) (mempool_outputs p));
  Ok {| me_Txid := it.1; me_FeeSats := mp_fee_sats it.2; me_SizeBytes := mp_size_bytes it.2;
        me_ValueSats := value |}.

Definition MempoolRecent (limit : nat) : M (list MempoolEntry) :=
  query (λ d, traverse (mempool_entry (pool d)) (take limit (by_arrival (λ _, True) (pool d)))).

(** ** The snapshot a pass leaves *)

Definition replace_pool (now : Z) (new : SMempool) (l : ledger) (p : mempool_tables)
    : result mempool_tables :=
  let seen := mp_first_seen <$> mempool_txs p in
  p1 ← foldE (λ q t, insert_mempool_tx seen now t q) empty_pool (mp_Txs new);
  p2 ← foldE (λ q o, insert_mempool_output o q) p1 (mp_Creates new);
  p3 ← foldE (λ q s, insert_mempool_spend s q) p2 (mp_Spends new);
  set_mempool_fees l p3.

#[export] Instance no_faults_for_each {A} (f : A → M unit) l :
  (∀ a, NoFaults (f a)) → NoFaults (for_each f l).
Proof. intros Hf. induction l; cbn [for_each]; apply _. Qed.
#[export] Instance fault_mono_for_each {A} (f : A → M unit) l :
  (∀ a, FaultMono (f a)) → FaultMono (for_each f l).
Proof. intros Hf. induction l; cbn [for_each]; apply _. Qed.
#[export] Instance no_faults_on_pool_r f : NoFaults (on_pool_r f).
Proof. apply no_faults_exec. Qed.
#[export] Instance fault_mono_on_pool_r f : FaultMono (on_pool_r f).
Proof. apply fault_mono_exec. Qed.
#[export] Instance no_faults_setMempoolFees : NoFaults setMempoolFees.
Proof. apply no_faults_exec. Qed.
#[export] Instance fault_mono_setMempoolFees : FaultMono setMempoolFees.
Proof. apply fault_mono_exec. Qed.
#[export] Instance no_faults_ReplaceMempool now new : NoFaults (ReplaceMempool now new).
Proof. unfold ReplaceMempool. apply _. Qed.
#[export] Instance fault_mono_ReplaceMempool now new : FaultMono (ReplaceMempool now new).
Proof. unfold ReplaceMempool. apply _. Qed.

Definition pool_of (d : db) (p : mempool_tables) : db := Db (chain_tables d) (sync_state d) p.

Lemma run_for_each_pool {A} (f : A → mempool_tables → result mempool_tables) l d :
  match foldE (λ p a, f a p) (pool d) l with
  | Ok p => run (for_each (λ a, on_pool_r (f a)) l) d = (Ok tt, pool_of d p)
  | Err e => ∃ d', run (for_each (λ a, on_pool_r (f a)) l) d = (Err e, d')
  end.
Proof.
  revert d. induction l as [|a l IH]; intros d; cbn [for_each foldE]; [by destruct d|].
  rewrite run_bind by apply _. unfold on_pool_r at 1 3. rewrite !run_exec.
  destruct (f a (pool d)) as [p|e]; cbn; [|by eexists].
  apply (IH (Db (chain_tables d) (sync_state d) p)).
Qed.

Lemma run_ReplaceMempool now new d :
  run (ReplaceMempool now new) d =
  match replace_pool now new (chain_tables d) (pool d) with
  | Ok p => (Ok tt, pool_of d p)
  | Err e => (Err e, d)
  end.
Proof.
  unfold ReplaceMempool, replace_pool. rewrite run_inTx by apply _.
  rewrite run_bind, run_query by apply _.
  do 3 (rewrite run_bind by apply _; unfold on_pool at 1; rewrite run_exec; cbn [pool chain_tables sync_state]).
  set (d0 := Db (chain_tables d) (sync_state d) _).
  set (seen := mp_first_seen <$> mempool_txs (pool d)).
  pose proof (run_for_each_pool (insert_mempool_tx seen now) (mp_Txs new) d0) as H1.
  change (pool d0) with empty_pool in H1. cbn [mbind result_bind].
  destruct (foldE _ empty_pool (mp_Txs new)) as [p1|e];
    [|destruct H1 as [d' H1]; by rewrite run_bind, H1 by apply _].
  rewrite run_bind, H1 by apply _. cbn [mbind result_bind].
  pose proof (run_for_each_pool insert_mempool_output (mp_Creates new) (pool_of d0 p1)) as H2.
  cbn [pool pool_of] in H2.
  destruct (foldE _ p1 (mp_Creates new)) as [p2|e];
    [|destruct H2 as [d' H2]; by rewrite run_bind, H2 by apply _].
  rewrite run_bind, H2 by apply _. cbn [mbind result_bind].
  pose proof (run_for_each_pool insert_mempool_spend (mp_Spends new) (pool_of (pool_of d0 p1) p2)) as H3.
  cbn [pool pool_of] in H3.
  destruct (foldE _ p2 (mp_Spends new)) as [p3|e];
    [|destruct H3 as [d' H3]; by rewrite run_bind, H3 by apply _].
  rewrite run_bind, H3 by apply _. cbn [mbind result_bind].
  unfold setMempoolFees. rewrite run_exec. cbn. by destruct (set_mempool_fees _ p3).
Qed.

Lemma ReplaceMempool_atomic now new c r c' :
  ReplaceMempool now new c = (r, c') →
  match r with
  | Ok _ => ∃ p, replace_pool now new (chain_tables (c_db c)) (pool (c_db c)) = Ok p ∧
                 c_db c' = pool_of (c_db c) p
  | Err _ => c_db c' = c_db c
  end.
Proof.
  intros H. destruct r as [res|e]; [|by eapply inTx_err].
  apply fault_mono in H. pose proof (run_ReplaceMempool now new (c_db c)) as E.
  unfold run in E. rewrite H in E. cbn in E.
  destruct (replace_pool _ _ _ _) as [p|]; [|congruence]. exists p. split; congruence.
Qed.

(** ** Row by row *)

Lemma mempool_txs_loop seen now ts p p' :
  foldE (λ q t, insert_mempool_tx seen now t q) p ts = Ok p' →
  NoDup (sm_Txid <$> ts) ∧ (∀ t, t ∈ ts → mempool_txs p !! sm_Txid t = None) ∧
  mempool_outputs p' = mempool_outputs p ∧ mempool_spends p' = mempool_spends p ∧
  mempool_txs p' = list_to_map ((λ t, (sm_Txid t, new_mempool_tx_row (first_seen seen now t) t)) <$> ts)
                     ∪ mempool_txs p.
Proof.
  revert p. induction ts as [|t ts IH]; intros p H; cbn [foldE] in H.
  { injection H as <-. cbn. rewrite (left_id_L ∅ (∪)). split_and!; try done; [constructor|set_solver]. }
  apply bind_ok in H as (p1 & H1 & H). unfold insert_mempool_tx in H1.
  apply bind_ok in H1 as (u & Hn%reject_ok%bool_decide_eq_false & [= <-]).
  apply eq_None_not_Some in Hn. apply IH in H as (Hnd & Hnew & Eo & Es & Et). cbn in *.
  assert (sm_Txid t ∉ sm_Txid <$> ts) as Hni.
  { intros (t' & E & Ht')%list_elem_of_fmap. specialize (Hnew t' Ht').
    rewrite <- E, lookup_insert_eq in Hnew. done. }
  split_and!; [by constructor| |done|done|].
  - intros t' [->|Ht']%elem_of_cons; [done|]. specialize (Hnew t' Ht').
    apply lookup_insert_None in Hnew. tauto.
  - rewrite Et. rewrite <- insert_union_r, insert_union_l; [done|].
    apply not_elem_of_list_to_map. by rewrite <- list_fmap_compose.
Qed.

Definition pending_output_after (os : list SOutput) (m : gmap OutPointKey mempool_output_row)
    (k : OutPointKey) : option mempool_output_row :=
  match m !! k with
  | Some o => Some o
  | None => o ← first_output k os; content ← so_Content o ≫= jsonb; Some (new_mempool_output_row content o)
  end.

Lemma mempool_outputs_loop os p p' :
  foldE (λ q o, insert_mempool_output o q) p os = Ok p' →
  mempool_txs p' = mempool_txs p ∧ mempool_spends p' = mempool_spends p ∧
  ∀ k, mempool_outputs p' !! k = pending_output_after os (mempool_outputs p) k.
Proof.
  revert p. induction os as [|o os IH]; intros p H; cbn [foldE] in H.
  { injection H as <-. split_and!; try done. intros k. unfold pending_output_after.
    by destruct (mempool_outputs p !! k). }
  apply bind_ok in H as (p1 & H1 & H). unfold insert_mempool_output in H1.
  apply bind_ok in H1 as (content & Hc%of_option_ok & H1).
  apply IH in H as (Et & Es & Eo).
  assert (mempool_txs p1 = mempool_txs p ∧ mempool_spends p1 = mempool_spends p ∧
          mempool_outputs p1 = match mempool_outputs p !! Key (so_OutPoint o) with
            | Some _ => mempool_outputs p
            | None => <[Key (so_OutPoint o) := new_mempool_output_row content o]> (mempool_outputs p)
            end) as (E1 & E2 & E3).
  { destruct (mempool_outputs p !! Key (so_OutPoint o)); by injection H1 as <-. }
  split_and!; [congruence|congruence|]. intros k. rewrite Eo. unfold pending_output_after, first_output.
  rewrite E3, filter_cons. destruct (mempool_outputs p !! Key (so_OutPoint o)) as [r|] eqn:E;
    case_decide as Dk; subst.
  - by rewrite E.
  - done.
  - rewrite lookup_insert_eq, E. cbn. by rewrite Hc.
  - by rewrite lookup_insert_ne.
Qed.

Definition first_spend (k : OutPointKey) (ss : list Spend) : option Spend := head (spends_of k ss).

Definition new_mempool_spend_row (s : Spend) : mempool_spend_row :=
  {| ms_source := ss_Source s; ms_kind := int16 (ss_Kind s); ms_vin := int32 (ss_Vin s) |}.

Definition pending_spend_after (ss : list Spend) (m : gmap OutPointKey mempool_spend_row)
    (k : OutPointKey) : option mempool_spend_row :=
  match m !! k with
  | Some s => Some s
  | None => new_mempool_spend_row <$> first_spend k ss
  end.

Lemma mempool_spends_loop ss p p' :
  foldE (λ q s, insert_mempool_spend s q) p ss = Ok p' →
  mempool_txs p' = mempool_txs p ∧ mempool_outputs p' = mempool_outputs p ∧
  ∀ k, mempool_spends p' !! k = pending_spend_after ss (mempool_spends p) k.
Proof.
  revert p. induction ss as [|s ss IH]; intros p H; cbn [foldE] in H.
  { injection H as <-. split_and!; try done. intros k. unfold pending_spend_after.
    by destruct (mempool_spends p !! k). }
  apply bind_ok in H as (p1 & H1 & H). unfold insert_mempool_spend in H1.
  apply IH in H as (Et & Eo & Es).
  assert (mempool_txs p1 = mempool_txs p ∧ mempool_outputs p1 = mempool_outputs p ∧
          mempool_spends p1 = match mempool_spends p !! Key (ss_OutPoint s) with
            | Some _ => mempool_spends p
            | None => <[Key (ss_OutPoint s) := new_mempool_spend_row s]> (mempool_spends p)
            end) as (E1 & E2 & E3).
  { destruct (mempool_spends p !! Key (ss_OutPoint s)); by injection H1 as <-. }
  split_and!; [congruence|congruence|]. intros k. rewrite Es. unfold pending_spend_after, first_spend, spends_of.
  rewrite E3, filter_cons. destruct (mempool_spends p !! Key (ss_OutPoint s)) as [r|] eqn:E;
    case_decide as Dk; subst.
  - by rewrite E.
  - done.
  - by rewrite lookup_insert_eq, E.
  - by rewrite lookup_insert_ne.
Qed.

(** The tables after a pass, as functions of the snapshot. Nothing of the last
    snapshot is left but the arrival times of what stayed. *)
Record replaced (now : Z) (new : SMempool) (l : ledger) (p p' : mempool_tables) : Prop := {
  rp_txids : NoDup (sm_Txid <$> mp_Txs new);
  rp_txs : ∀ txid, mempool_txs p' !! txid =
    (λ t, with_fee (mempool_fee l p' txid)
            (new_mempool_tx_row (default now (mp_first_seen <$> mempool_txs p !! txid)) t))
      <$> head (filter (λ t, sm_Txid t = txid) (mp_Txs new));
  rp_outputs : ∀ k, mempool_outputs p' !! k = pending_output_after (mp_Creates new) ∅ k;
  rp_spends : ∀ k, mempool_spends p' !! k = pending_spend_after (mp_Spends new) ∅ k;
}.

Lemma list_to_map_first {V} (f : SMempoolTx → V) ts txid :
  (list_to_map ((λ t, (sm_Txid t, f t)) <$> ts) : gmap Hash V) !! txid =
  f <$> head (filter (λ t, sm_Txid t = txid) ts).
Proof.
  induction ts as [|t ts IH]; [done|]. rewrite fmap_cons, filter_cons. cbn [list_to_map].
  case_decide as E; subst; cbn.
  - by rewrite lookup_insert_eq.
  - by rewrite lookup_insert_ne.
Qed.

Lemma head_filter_key ts txid t :
  head (filter (λ t, sm_Txid t = txid) ts) = Some t → sm_Txid t = txid.
Proof. intros H%head_Some_elem_of%list_elem_of_filter. tauto. Qed.

Lemma replace_pool_replaced now new l p p' : replace_pool now new l p = Ok p' → replaced now new l p p'.
Proof.
  unfold replace_pool. intros (p1 & H1 & (p2 & H2 & (p3 & H3 & H)%bind_ok)%bind_ok)%bind_ok.
  apply mempool_txs_loop in H1 as (Hnd & _ & Eo1 & Es1 & Et1).
  apply mempool_outputs_loop in H2 as (Et2 & Es2 & Eo2).
  apply mempool_spends_loop in H3 as (Et3 & Eo3 & Es3).
  unfold set_mempool_fees in H. apply bind_ok in H as (u & _ & [= <-]). cbn in *.
  split; [done| | |]; cbn.
  - intros txid. rewrite map_lookup_imap, Et3, Et2, Et1, (right_id_L ∅ (∪)), list_to_map_first.
    destruct (head _) as [t|] eqn:E; [|done]. cbn. apply head_filter_key in E. subst.
    unfold first_seen. by rewrite lookup_fmap.
  - intros k. by rewrite Eo3, Eo2, Eo1.
  - intros k. by rewrite Es3, Es2, Es1.
Qed.
(** Every output of a snapshot that was written has a row. *)
Lemma replace_pool_creates now new l p p' o :
  replace_pool now new l p = Ok p' → o ∈ mp_Creates new →
  is_Some (mempool_outputs p' !! Key (so_OutPoint o)).
Proof.
  unfold replace_pool. intros (p1 & H1 & (p2 & H2 & (p3 & H3 & H)%bind_ok)%bind_ok)%bind_ok Ho.
  apply mempool_spends_loop in H3 as (_ & Eo3 & _).
  unfold set_mempool_fees in H. apply bind_ok in H as (u & _ & [= <-]). cbn. rewrite Eo3. clear -H2 Ho.
  revert p1 H2 Ho. induction (mp_Creates new) as [|o1 os IH]; intros p1 H2 Ho; [set_solver|].
  cbn [foldE] in H2. apply bind_ok in H2 as (q & Hq & H2). apply elem_of_cons in Ho as [->|Ho]; [|by eapply IH].
  apply mempool_outputs_loop in H2 as (_ & _ & Eo). rewrite Eo. unfold pending_output_after.
  unfold insert_mempool_output in Hq. apply bind_ok in Hq as (content & _ & Hq).
  destruct (mempool_outputs p1 !! Key (so_OutPoint o1)) as [r|] eqn:E.
  - injection Hq as <-. rewrite E. by eexists.
  - injection Hq as <-. cbn. rewrite lookup_insert_eq. by eexists.
Qed.
End mempool.
