(* ===== verification/Esplora.v ===== *)
(** * What a client reads

    [internal/api/esplora.go] and the answer types of [handlers.go] and
    [activity.go]: the JSON objects of the Esplora routes and how a row of the
    store becomes one. Go marshals a struct field by field, so an object is a
    record; a pointer that may be null is an option. *)

From S2P Require Import Prelude GoStd Json Hash OutPoint Block Registry Tables Write Read Activity.
From S2P Require Import Mempool.
Open Scope Z_scope.

Definition ScriptPubKeyType : string := "sidechain_address".

Record Status := {
  Confirmed : bool; BlockHeight : option Z; st_BlockHash : option string; BlockTime : option Z;
}.

#[export] Instance Status_eq_dec : EqDecision Status.
Proof. solve_decision. Defined.

(** The API's own [TxoStats]. *)
Record ApiTxoStats := {
  FundedTxoCount : Z; FundedTxoSum : Z; SpentTxoCount : Z; SpentTxoSum : Z; api_TxCount : Z;
}.

(** [omitempty] leaves out the one of the two keys that is empty. *)
Record AddressInfo := {
  ai_Address : string; ai_ScriptHash : string; ChainStats : ApiTxoStats; MempoolStats_ : ApiTxoStats;
}.

Record ApiVout := {
  ScriptPubKey : string; ScriptPubKeyAsm : string; vout_type : string; ScriptPubKeyAddress : string;
  vout_Value : Z; vout_OutpointKind : string; vout_ContentType : string; vout_Content : json;
}.

Record ApiVin := {
  vin_Txid : string; vin_Vout : Z; Prevout : option ApiVout; ScriptSig : string;
  Witness : list string; IsCoinbase : bool; Sequence : Z;
}.

Record ApiTx := {
  api_Txid : string; Version : Z; Locktime : Z; Size : Z; Weight : Z; Fee : Z;
  Vin : list ApiVin; api_Vout : list ApiVout; tx_Status : Status;
}.

Record ApiUTXO := {
  utxo_Txid : string; utxo_Vout : Z; utxo_Value : Z; utxo_Status : Status;
  utxo_OutpointKind : string; utxo_HeightExact : bool; utxo_ContentType : string; utxo_Content : json;
}.

Record Outspend := {
  Spent : bool; os_Txid : option string; os_Vin : option Z; os_Status : option Status; SpentBy : string;
}.

Record ApiBlock := {
  ID : string; Height : Z; bk_Version : Z; Timestamp : option Z; bk_TxCount : Z; bk_Size : Z;
  bk_Weight : Z; bk_MerkleRoot : string; PreviousHash : option string; MainchainHash : string;
  MainchainHeight : option Z; Fees : Z; bk_Value : Z;
}.

Record BlockStatus := { InBestChain : bool; bs_Height : option Z; NextBest : option string }.

Record RecentTx := { rt_Txid : string; rt_Fee : Z; rt_Vsize : Z; rt_Value : Z }.

Record ApiActivity := {
  a_Kind : string; a_ID : string; a_Value : Z; a_Fee : Z; a_Size : Z; a_Status : Status;
}.

Definition newStatus (height : Z) (hash : Hash) (blockTime : option Z) : Status :=
  {| Confirmed := true; BlockHeight := Some height; st_BlockHash := Some (Hash_String hash);
     BlockTime := blockTime |}.

Definition pendingStatus : Status :=
  {| Confirmed := false; BlockHeight := None; st_BlockHash := None; BlockTime := None |}.

(** [txStatus]; a confirmed row carries its block. *)
Definition txStatus (row : TxRow) : Status :=
  if tx_Unconfirmed row then pendingStatus
  else match tx_Block row with
       | Some b => newStatus (tx_Height row) (br_Hash b) (br_BlockTime b)
       | None => newStatus (tx_Height row) zero_hash None
       end.

Definition newTxoStats (s : TxoStats) : ApiTxoStats :=
  {| FundedTxoCount := FundedCount s; FundedTxoSum := FundedSum s; SpentTxoCount := SpentCount s;
     SpentTxoSum := SpentSum s; api_TxCount := TxCount s |}.

Definition newBlock (b : BlockRow) : ApiBlock :=
  {| ID := Hash_String (br_Hash b); Height := br_Height b; bk_Version := 0;
     Timestamp := br_BlockTime b; bk_TxCount := br_TxCount b; bk_Size := 0; bk_Weight := 0;
     bk_MerkleRoot := Hash_String (br_MerkleRoot b); PreviousHash := Hash_String <$> br_PrevHash b;
     MainchainHash := BitcoinHash_String (br_MainHash b); MainchainHeight := br_MainHeight b;
     Fees := br_FeeSats b; bk_Value := br_ValueSats b |}.

(** [sourceString] of this package. *)
Definition sourceString (o : OutPoint) : string :=
  if Kind o =? KindDeposit then BitcoinHash_String (Source o) else Hash_String (Source o).

(** [newUTXO]; a pending row carries no block. *)
Definition newUTXO (u : UTXO) : ApiUTXO :=
  {| utxo_Txid := sourceString (u_OutPoint u); utxo_Vout := Vout (u_OutPoint u);
     utxo_Value := u_ValueSats u;
     utxo_Status := if u_Unconfirmed u then pendingStatus
                    else newStatus (u_Height u) (default zero_hash (u_BlockHash u)) (u_BlockTime u);
     utxo_OutpointKind := OutPointKind_String (Kind (u_OutPoint u));
     utxo_HeightExact := u_HeightExact u; utxo_ContentType := u_ContentType u;
     utxo_Content := u_Content u |}.

Definition toUTXOs (rows : list UTXO) : list ApiUTXO := newUTXO <$> rows.

Definition newActivity (row : ActivityRow) : ApiActivity :=
  {| a_Kind := ac_Kind row; a_ID := Hash_String (ac_ID row); a_Value := ac_ValueSats row;
     a_Fee := ac_FeeSats row; a_Size := ac_SizeBytes row;
     a_Status := newStatus (ac_Height row) (ac_BlockHash row) (ac_BlockTime row) |}.

(** A row of [/txs/recent] that the mempool holds. *)
Definition pendingActivity (row : MempoolEntry) : ApiActivity :=
  {| a_Kind := KindTransfer; a_ID := Hash_String (me_Txid row); a_Value := me_ValueSats row;
     a_Fee := me_FeeSats row; a_Size := me_SizeBytes row; a_Status := pendingStatus |}.

Definition newRecentTx (row : MempoolEntry) : RecentTx :=
  {| rt_Txid := Hash_String (me_Txid row); rt_Fee := me_FeeSats row; rt_Vsize := me_SizeBytes row;
     rt_Value := me_ValueSats row |}.

Section addresses.
Context `{!Base58}.

Definition newVout (c : Coin) : ApiVout :=
  {| ScriptPubKey := hex_encode (bytes (co_Address c)); ScriptPubKeyAsm := EmptyString;
     vout_type := ScriptPubKeyType; ScriptPubKeyAddress := Address_String (co_Address c);
     vout_Value := co_ValueSats c; vout_OutpointKind := OutPointKind_String (Kind (co_OutPoint c));
     vout_ContentType := co_ContentType c; vout_Content := co_Content c |}.

Definition newVin (coin : Coin) : ApiVin :=
  {| vin_Txid := sourceString (co_OutPoint coin); vin_Vout := Vout (co_OutPoint coin);
     Prevout := Some (newVout coin); ScriptSig := EmptyString; Witness := [];
     IsCoinbase := bool_decide (Kind (co_OutPoint coin) = KindCoinbase); Sequence := 0 |}.

Definition newTx (row : TxRow) : ApiTx :=
  {| api_Txid := Hash_String (tx_Txid row); Version := 0; Locktime := 0; Size := tx_SizeBytes row;
     Weight := int64 (tx_SizeBytes row * 4); Fee := tx_FeeSats row; Vin := newVin <$> tx_Vin row;
     api_Vout := newVout <$> tx_Vout row; tx_Status := txStatus row |}.
End addresses.
