(* ===== verification/Handlers.v ===== *)
(** * The request handlers

    [internal/api/handlers.go], [address.go] and [activity.go]. A handler takes
    the values of its path, asks the supervisor for the store, reads it, and
    writes one answer: a JSON body, a text, or a status with a message. Each
    read is a statement that may fail, so an answer depends on the connection
    too. *)

From S2P Require Import Prelude GoStd Json Hash OutPoint Block Registry Tables Write Read Activity.
From S2P Require Import Enforcer Mempool Esplora.
Open Scope Z_scope.

(** ** Answers *)

(** [writeJSON], [writeText] and [writeError]. *)
Inductive reply (A : Type) :=
  | WriteJSON (body : A)
  | WriteText (body : string)
  | WriteError (status : Z) (message : string).
Arguments WriteJSON {A} body.
Arguments WriteText {A} body.
Arguments WriteError {A} status message.

Definition StatusOK : Z := 200.
Definition StatusBadRequest : Z := 400.
Definition StatusNotFound : Z := 404.
Definition StatusInternalServerError : Z := 500.
Definition StatusBadGateway : Z := 502.
Definition StatusServiceUnavailable : Z := 503.

Definition status_of {A} (r : reply A) : Z :=
  match r with WriteJSON _ | WriteText _ => StatusOK | WriteError s _ => s end.

Definition PageSize : nat := 25.
Definition blockListSize : nat := 10.
Definition recentListSize : nat := 10.
Definition activityListSize : nat := 25.
Definition depositListSize : nat := 50.

(** A handler runs against the connection of the store. *)
Definition handler (A : Type) := conn → reply A * conn.

Definition answer {A} (r : reply A) : handler A := λ c, (r, c).

(** What [failed] writes. *)
Definition failure {A} (e : error) : reply A :=
  if bool_decide (e = ErrUnavailable)
  then WriteError StatusServiceUnavailable "the index database is not reachable"
  else WriteError StatusInternalServerError "the request failed".

(** [x, err := m; if s.failed(w, r, err) { return }]. *)
Definition failed {A B} (m : M A) (k : A → handler B) : handler B := λ c,
  match m c with
  | (Ok a, c') => k a c'
  | (Err e, c') => (failure e, c')
  end.

(** [x, err := m; if s.notFound(w, r, err) { return }]. *)
Definition notFound {A B} (m : M A) (k : A → handler B) : handler B := λ c,
  match m c with
  | (Ok a, c') => k a c'
  | (Err ErrNotFound, c') => (WriteError StatusNotFound "not found", c')
  | (Err e, c') => (failure e, c')
  end.

(** [x, err := parse(...); if err != nil { writeError(400); return }]. *)
Definition parsed {A B} (r : result A) (k : A → handler B) : handler B :=
  match r with
  | Ok a => k a
  | Err e => answer (WriteError StatusBadRequest (error_text e))
  end.

(** Runs a pure result as a read. *)
Definition of_result {A} (r : result A) : M A := λ c, (r, c).

(** The loops that read one row per element; [skip] says which errors drop the
    element instead of ending the loop. *)
Fixpoint read_each {A B} (skip : error → bool) (f : A → M B) (l : list A) : M (list B) :=
  match l with
  | [] => mret []
  | x :: l => λ c,
      match f x c with
      | (Ok b, c') => (bs ← read_each skip f l; mret (b :: bs)) c'
      | (Err e, c') => if skip e then read_each skip f l c' else (Err e, c')
      end
  end.

(** [x, err := m; if errors.Is(err, store.ErrNotFound) { ... }]. *)
Definition unless_found {A B} (m : M A) (missing : M B) (ok : A → M B) : M B := λ c,
  match m c with
  | (Ok a, c') => ok a c'
  | (Err ErrNotFound, c') => missing c'
  | (Err e, c') => (Err e, c')
  end.

Definition is_not_found (e : error) : bool := bool_decide (e = ErrNotFound).
Definition never (_ : error) : bool := false.

(** The message also quotes the text, as does that of a hash or an address that
    does not parse; what a client sees of an error here is its wording alone. *)
Definition parseUint32 (raw : string) : result Z :=
  of_option (Errorf "is not a whole number") (parse_uint 32 raw).

(** [strconv.Atoi] on an int of 64 bits, refused when it fails or is negative. *)
Definition whole_number (message : string) (raw : string) : result nat :=
  n ← of_option (Errorf message) (parse_int raw);
  _ ← reject (n <? 0) (Errorf message);
  Ok (Z.to_nat n).

Definition hashStrings (hashes : list Hash) : list string := Hash_String <$> hashes.

Section handlers.
Context {PG : Postgres} `{!Base58} (stores : result unit).

(** [Server.store]: 503 when the supervisor has no connection. *)
Definition with_store {A} (k : handler A) : handler A :=
  match stores with
  | Ok _ => k
  | Err _ => answer (WriteError StatusServiceUnavailable "the index database is not reachable")
  end.

(** ** Shared by the handlers *)

(** [startHeight]: the path height, or the tip. An empty value is a route
    without one. *)
Definition startHeight (raw : string) : M Z :=
  if String.eqb raw EmptyString then
    tip ← Tip; mret (match tip with Some (height, _) => height | None => 0 end)
  else of_result (parseUint32 raw).

Definition blockByHash {A} (hash : string) (k : BlockRow → handler A) : handler A :=
  with_store (parsed (ParseHash hash) (λ hash, notFound (BlockByHash hash) k)).

Definition txid_route {A} (txid : string) (k : Hash → handler A) : handler A :=
  with_store (parsed (ParseHash txid) k).

(** [txRow]: mined, or in the snapshot. *)
Definition txRow (txid : Hash) : M TxRow := unless_found (Tx txid) (MempoolTxRow txid) mret.

(** ** Blocks *)

Definition tipHeight : handler unit :=
  with_store (failed Tip (λ tip,
    match tip with
    | None => answer (WriteError StatusNotFound "the index holds no blocks yet")
    | Some (height, _) => answer (WriteText (fmt_d height))
    end)).

Definition tipHash : handler unit :=
  with_store (failed Tip (λ tip,
    match tip with
    | None => answer (WriteError StatusNotFound "the index holds no blocks yet")
    | Some (_, hash) => answer (WriteText (Hash_String hash))
    end)).

Definition blocks_route (start_height : string) : handler (list ApiBlock) :=
  with_store (failed (startHeight start_height) (λ start,
    failed (Blocks start blockListSize) (λ rows,
      answer (WriteJSON (newBlock <$> rows))))).

Definition blockHeight (height : string) : handler unit :=
  with_store (parsed (parseUint32 height) (λ height,
    notFound (BlockAtHeight height) (λ row, answer (WriteText (Hash_String (br_Hash row)))))).

Definition block_route (hash : string) : handler ApiBlock :=
  blockByHash hash (λ row, answer (WriteJSON (newBlock row))).

Definition blockHeader (hash : string) : handler ApiBlock :=
  blockByHash hash (λ row, answer (WriteJSON (newBlock row))).

(** The next block up; a missing one is the tip and no error. *)
Definition next_block (height : Z) : M (option BlockRow) :=
  unless_found (BlockAtHeight (uint32 (height + 1))) (mret None) (λ next, mret (Some next)).

Definition blockStatus (hash : string) : handler BlockStatus :=
  blockByHash hash (λ row,
    failed (next_block (br_Height row)) (λ next,
      answer (WriteJSON {| InBestChain := true; bs_Height := Some (br_Height row);
                           NextBest := (λ b, Hash_String (br_Hash b)) <$> next |}))).

Definition blockTxids (hash : string) : handler (list string) :=
  blockByHash hash (λ row,
    failed (BlockTxids (br_Hash row)) (λ txids, answer (WriteJSON (hashStrings txids)))).

Definition blockTxid (hash index : string) : handler unit :=
  blockByHash hash (λ row,
    parsed (whole_number "index must be a whole number" index) (λ index,
      failed (BlockTxids (br_Hash row)) (λ txids,
        match txids !! index with
        | None => answer (WriteError StatusNotFound "the block has no transaction at that index")
        | Some txid => answer (WriteText (Hash_String txid))
        end))).

(** [txids[start:end]]. *)
Definition page_of (start : nat) (txids : list Hash) : list Hash :=
  let start := Nat.min start (length txids) in
  let end_ := Nat.min (start + PageSize) (length txids) in
  take (end_ - start) (drop start txids).

Definition start_index (raw : string) : result nat :=
  if String.eqb raw EmptyString then Ok 0%nat
  else whole_number "start index must be a whole number" raw.

Definition blockTxs (hash index : string) : handler (list ApiTx) :=
  blockByHash hash (λ row,
    parsed (start_index index) (λ start,
      failed (BlockTxids (br_Hash row)) (λ txids,
        failed (read_each never Tx (page_of start txids)) (λ rows,
          answer (WriteJSON (newTx <$> rows)))))).

(** ** Transactions *)

Definition tx_route (txid : string) : handler ApiTx :=
  txid_route txid (λ txid, notFound (txRow txid) (λ row, answer (WriteJSON (newTx row)))).

Definition txStatus_route (txid : string) : handler Status :=
  txid_route txid (λ txid, notFound (txRow txid) (λ row, answer (WriteJSON (txStatus row)))).

Definition txHex (txid : string) : handler unit :=
  txid_route txid (λ txid, notFound (txRow txid) (λ row, answer (WriteText (hex_encode (tx_Raw row))))).

(** Who spent a coin, before its block is read. *)
Definition spent_by (coin : Coin) (source : Hash) : Outspend :=
  let took txid by_ :=
    {| Spent := true; os_Txid := txid; os_Vin := None; os_Status := None; SpentBy := by_ |} in
  if bool_decide (co_SpentKind coin = Some SpendWithdrawal)
  then took (Some (BitcoinHash_String source)) "withdrawal_bundle"%string
  else if bool_decide (co_SpentKind coin = Some SpendMarket) then took None "market"%string
  else took (Some (Hash_String source)) "transaction"%string.

Definition with_status (status : Status) (o : Outspend) : Outspend :=
  {| Spent := Spent o; os_Txid := os_Txid o; os_Vin := os_Vin o; os_Status := Some status;
     SpentBy := SpentBy o |}.

Definition newOutspend (coin : Coin) : M Outspend :=
  match co_SpentSource coin with
  | None =>
      mret {| Spent := false; os_Txid := None; os_Vin := None; os_Status := None; SpentBy := EmptyString |}
  | Some source =>
      let out := spent_by coin source in
      match co_SpentHeight coin with
      | None => mret out
      | Some height =>
          unless_found (BlockAtHeight height) (mret out) (λ block,
            mret (with_status (newStatus (br_Height block) (br_Hash block) (br_BlockTime block)) out))
      end
  end.

Definition outspends (txid : string) : handler (list Outspend) :=
  txid_route txid (λ txid,
    failed (Outspends txid) (λ coins,
      failed (read_each never newOutspend coins) (λ out, answer (WriteJSON out)))).

Definition outspend (txid vout : string) : handler Outspend :=
  txid_route txid (λ txid,
    parsed (parseUint32 vout) (λ vout,
      failed (Outspends txid) (λ coins,
        match head (filter (λ coin, Vout (co_OutPoint coin) = vout) coins) with
        | Some coin => failed (newOutspend coin) (λ spend, answer (WriteJSON spend))
        | None => answer (WriteError StatusNotFound "the transaction has no output at that index")
        end))).

(** ** The unconfirmed set *)

Definition mempool_route : handler (Z * Z * Z) :=
  with_store (failed MempoolSummary (λ summary, answer (WriteJSON summary))).

Definition mempoolTxids : handler (list string) :=
  with_store (failed MempoolTxids (λ txids, answer (WriteJSON (hashStrings txids)))).

Definition mempoolRecent : handler (list RecentTx) :=
  with_store (failed (MempoolRecent recentListSize) (λ rows, answer (WriteJSON (newRecentTx <$> rows)))).

(** ** Addresses *)

(** [isScriptHashRoute] on the request path. *)
Definition isScriptHashRoute (path : string) : bool := String.prefix "/scripthash/" path.

(** [addressKey]: the column and the key a path names. *)
Definition addressKey (path key : string) : result (string * list byte) :=
  if isScriptHashRoute path then
    raw ← of_option (Errorf "a scripthash is 32 hex bytes") (hex_decode key);
    _ ← reject (negb (length raw =? 32)%nat) (Errorf "a scripthash is 32 hex bytes");
    Ok (ColumnScriptHash, raw)
  else address ← ParseAddress key; Ok (ColumnAddress, bytes address).

Definition address_route {A} (path key : string) (k : string → list byte → handler A) : handler A :=
  with_store (parsed (addressKey path key) (λ ck, k ck.1 ck.2)).

Definition addressInfo (path key : string) : handler AddressInfo :=
  address_route path key (λ column raw,
    failed (Stats column raw) (λ stats,
      failed (MempoolStats column raw) (λ pending,
        answer (WriteJSON
          {| ai_Address := if String.eqb column ColumnScriptHash then EmptyString else key;
             ai_ScriptHash := if String.eqb column ColumnScriptHash then key else EmptyString;
             ChainStats := newTxoStats stats; MempoolStats_ := newTxoStats pending |})))).

(** The rows that stay: a coin the mempool spends leaves the balance at once. *)
Definition still_unspent (spent : gset OutPointKey) (rows : list UTXO) : list UTXO :=
  filter (λ u, Key (u_OutPoint u) ∉ spent) rows.

Definition addressUTXOs (path key : string) : handler (list ApiUTXO) :=
  address_route path key (λ column raw,
    failed (UTXOs column raw) (λ rows,
      failed MempoolSpentOutpoints (λ spent,
        failed (MempoolUTXOs column raw) (λ pending,
          answer (WriteJSON ((newUTXO <$> still_unspent spent rows) ++ (newUTXO <$> pending))))))).

(** [mempoolTxs]: a transaction a block took meanwhile drops out. *)
Definition mempoolTxs (txids : list Hash) : M (list ApiTx) :=
  rows ← read_each is_not_found MempoolTxRow txids; mret (newTx <$> rows).

Definition addressMempoolTxs (path key : string) : handler (list ApiTx) :=
  address_route path key (λ column raw,
    failed (MempoolTxidsFor column raw) (λ txids,
      failed (mempoolTxs txids) (λ out, answer (WriteJSON out)))).

(** The last loop of [addressTxs]: each reference read as a transaction, which
    an m6id is not. *)
Definition addressPage (first : list ApiTx) (refs : list TxRef) : handler (list ApiTx) :=
  failed (read_each is_not_found (λ ref, Tx (r_Txid ref)) refs) (λ rows,
    answer (WriteJSON (first ++ (newTx <$> rows)))).

(** [addressTxs]: the first page carries the unconfirmed rows; a later one
    starts a block below the transaction its cursor names. *)
Definition addressTxs (path key last_seen : string) : handler (list ApiTx) :=
  address_route path key (λ column raw,
    failed (startHeight EmptyString) (λ tip,
      if String.eqb last_seen EmptyString then
        failed (History column raw tip PageSize) (λ refs,
          failed (MempoolTxidsFor column raw) (λ txids,
            failed (mempoolTxs txids) (λ pending, addressPage pending refs)))
      else
        parsed (ParseHash last_seen) (λ txid,
          notFound (Tx txid) (λ row,
            if tx_Height row =? 0 then answer (WriteJSON [])
            else
              let before := uint32 (tx_Height row - 1) in
              failed (History column raw before PageSize) (addressPage []))))).

(** ** Deposits *)

Definition addressDeposits (key : string) : handler (list ApiUTXO) :=
  with_store (parsed (ParseAddress key) (λ address,
    failed (AddressDeposits address depositListSize) (λ rows, answer (WriteJSON (toUTXOs rows))))).

(** The path value between quotes, read as JSON. *)
Definition parse_mainchain_txid (raw : string) : result BitcoinHash :=
  text ← of_option (Errorf "bitcoin hash is not a string") (json_unquote raw);
  parse_BitcoinHash text.

Definition deposit_route (txid : string) : handler (list ApiUTXO) :=
  with_store (parsed (parse_mainchain_txid txid) (λ mainTxid,
    failed (Deposits (bytes mainTxid) MaxUint32 depositListSize) (λ rows,
      match rows with
      | [] => answer (WriteError StatusNotFound "no deposit from that transaction")
      | _ => answer (WriteJSON (toUTXOs rows))
      end))).

Definition deposits_route (start_height : string) : handler (list ApiUTXO) :=
  with_store (failed (startHeight start_height) (λ start,
    failed (Deposits [] start depositListSize) (λ rows, answer (WriteJSON (toUTXOs rows))))).

(** ** Activity *)

Definition recentActivity : handler (list ApiActivity) :=
  with_store (failed (MempoolRecent activityListSize) (λ pending,
    failed (Activity (activityListSize - length pending)) (λ confirmed,
      answer (WriteJSON ((pendingActivity <$> pending) ++ (newActivity <$> confirmed)))))).

Definition blockActivity (hash : string) : handler (list ApiActivity) :=
  blockByHash hash (λ row,
    failed (ActivityInBlock (br_Hash row)) (λ rows, answer (WriteJSON (newActivity <$> rows)))).
End handlers.

(** ** The mainchain and the node, through their clients *)

Record Treasury := { tr_Txid : string; tr_Vout : Z; tr_ValueSats : Z }.

Record SidechainInfo := {
  si_Slot : Z; si_Title : string; si_Description : string; si_VoteCount : Z; si_ProposalHeight : Z;
  si_ActivationHeight : Z; si_Treasury : option Treasury;
}.

(** [mainchain] is the enforcer's client, or [None] on an index that reads no
    enforcer. *)
Definition sidechainInfo (e : Enforcer) (c : Sidechain) : SidechainInfo :=
  {| si_Slot := Slot c; si_Title := Title c; si_Description := Description c;
     si_VoteCount := VoteCount c; si_ProposalHeight := ProposalHeight c;
     si_ActivationHeight := ActivationHeight c;
     si_Treasury := match Ctip e (Slot c) with
                    | Ok (Some ctip) => Some {| tr_Txid := Txid ctip; tr_Vout := ctip_Vout ctip;
                                                tr_ValueSats := ctip_ValueSats ctip |}
                    | Ok None | Err _ => None
                    end |}.

Definition drivechainSidechains (mainchain : option Enforcer)
    : reply (list SidechainInfo) :=
  match mainchain with
  | None => WriteError StatusServiceUnavailable "this index reads no mainchain"
  | Some e =>
      match Sidechains e with
      | Err err => WriteError StatusBadGateway (error_text err)
      | Ok chains => WriteJSON (sidechainInfo e <$> chains)
      end
  end.

Definition drivechainSidechain (mainchain : option Enforcer) (slot : string)
    : reply SidechainInfo :=
  match mainchain with
  | None => WriteError StatusServiceUnavailable "this index reads no mainchain"
  | Some e =>
      match parse_uint 8 slot with
      | None => WriteError StatusBadRequest "the slot must be a number from 0 to 255"
      | Some slot =>
          match Sidechains e with
          | Err err => WriteError StatusBadGateway (error_text err)
          | Ok chains =>
              match head (filter (λ c, Slot c = slot) chains) with
              | Some c => WriteJSON (sidechainInfo e c)
              | None => WriteError StatusNotFound "no sidechain holds that slot"
              end
          end
      end
  end.

Record WithdrawalState := { Bundle : RawMessage; LastFailedHeight : option Z }.
