(* ===== verification/Respond.v ===== *)
(** * Answers on the wire

    [writeJSON], [writeText] and [writeError] of [internal/api/write.go]: the
    status, the content type and the bytes of an answer. A type the API answers
    with is marshalled as [encoding/json] does it: a struct by its tags in the order
    of its fields, a nil pointer as [null], a map with its keys sorted, and every
    slice as an array, since no handler writes a nil one. *)

From S2P Require Import Prelude GoStd Json JsonText Rpc Hash OutPoint Block Registry Tables Write Read Activity.
From S2P Require Import Enforcer Mempool Esplora Handlers.
Open Scope Z_scope.
Open Scope list_scope.

(** ** Marshalling *)

Class Marshal (A : Type) := marshal : A → json.

#[export] Instance marshal_unit : Marshal unit := λ _, JNull.
#[export] Instance marshal_bool : Marshal bool := JBool.
#[export] Instance marshal_int : Marshal Z := λ z, JNum (fmt_int z).
#[export] Instance marshal_string : Marshal string := JStr.
#[export] Instance marshal_list {A} `{Marshal A} : Marshal (list A) := λ l, JArr (marshal <$> l).
#[export] Instance marshal_pointer {A} `{Marshal A} : Marshal (option A) := λ o,
  match o with Some a => marshal a | None => JNull end.

(** A raw message; a nil one renders as [null]. *)
Definition marshal_raw (raw : RawMessage) : json := default JNull raw.

(** [omitempty] on a string. *)
Definition omit_empty (name s : string) : list (string * json) :=
  if String.eqb s EmptyString then [] else [(name, marshal s)].

(** The members of a map come sorted by key. *)
Fixpoint insert_member (kv : string * json) (l : list (string * json)) : list (string * json) :=
  match l with
  | [] => [kv]
  | kv' :: l' => if String.leb kv.1 kv'.1 then kv :: l else kv' :: insert_member kv l'
  end.

Definition marshal_map (members : list (string * json)) : json := JObj (foldr insert_member [] members).

#[export] Instance marshal_Status : Marshal Status := λ s, JObj [
  ("confirmed", marshal (Confirmed s)); ("block_height", marshal (BlockHeight s));
  ("block_hash", marshal (st_BlockHash s)); ("block_time", marshal (BlockTime s))]%string.

#[export] Instance marshal_TxoStats : Marshal ApiTxoStats := λ s, JObj [
  ("funded_txo_count", marshal (FundedTxoCount s)); ("funded_txo_sum", marshal (FundedTxoSum s));
  ("spent_txo_count", marshal (SpentTxoCount s)); ("spent_txo_sum", marshal (SpentTxoSum s));
  ("tx_count", marshal (api_TxCount s))]%string.

#[export] Instance marshal_AddressInfo : Marshal AddressInfo := λ a, JObj (
  omit_empty "address" (ai_Address a) ++ omit_empty "scripthash" (ai_ScriptHash a) ++
  [("chain_stats"%string, marshal (ChainStats a)); ("mempool_stats"%string, marshal (MempoolStats_ a))]).

(** A stored content is never empty, so it is never left out. *)
#[export] Instance marshal_Vout : Marshal ApiVout := λ v, JObj [
  ("scriptpubkey", marshal (ScriptPubKey v)); ("scriptpubkey_asm", marshal (ScriptPubKeyAsm v));
  ("scriptpubkey_type", marshal (vout_type v)); ("scriptpubkey_address", marshal (ScriptPubKeyAddress v));
  ("value", marshal (vout_Value v)); ("outpoint_kind", marshal (vout_OutpointKind v));
  ("content_type", marshal (vout_ContentType v)); ("content", vout_Content v)]%string.

#[export] Instance marshal_Vin : Marshal ApiVin := λ v, JObj [
  ("txid", marshal (vin_Txid v)); ("vout", marshal (vin_Vout v)); ("prevout", marshal (Prevout v));
  ("scriptsig", marshal (ScriptSig v)); ("witness", marshal (Witness v));
  ("is_coinbase", marshal (IsCoinbase v)); ("sequence", marshal (Sequence v))]%string.

#[export] Instance marshal_Tx : Marshal ApiTx := λ t, JObj [
  ("txid", marshal (api_Txid t)); ("version", marshal (Version t)); ("locktime", marshal (Locktime t));
  ("size", marshal (Size t)); ("weight", marshal (Weight t)); ("fee", marshal (Fee t));
  ("vin", marshal (Vin t)); ("vout", marshal (api_Vout t)); ("status", marshal (tx_Status t))]%string.

#[export] Instance marshal_UTXO : Marshal ApiUTXO := λ u, JObj [
  ("txid", marshal (utxo_Txid u)); ("vout", marshal (utxo_Vout u)); ("value", marshal (utxo_Value u));
  ("status", marshal (utxo_Status u)); ("outpoint_kind", marshal (utxo_OutpointKind u));
  ("height_exact", marshal (utxo_HeightExact u)); ("content_type", marshal (utxo_ContentType u));
  ("content", utxo_Content u)]%string.

#[export] Instance marshal_Outspend : Marshal Outspend := λ o, JObj ([
  ("spent", marshal (Spent o)); ("txid", marshal (os_Txid o)); ("vin", marshal (os_Vin o));
  ("status", marshal (os_Status o))]%string ++ omit_empty "spent_by" (SpentBy o)).

#[export] Instance marshal_Block : Marshal ApiBlock := λ b, JObj [
  ("id", marshal (ID b)); ("height", marshal (Height b)); ("version", marshal (bk_Version b));
  ("timestamp", marshal (Timestamp b)); ("tx_count", marshal (bk_TxCount b)); ("size", marshal (bk_Size b));
  ("weight", marshal (bk_Weight b)); ("merkle_root", marshal (bk_MerkleRoot b));
  ("previousblockhash", marshal (PreviousHash b)); ("mainchain_blockhash", marshal (MainchainHash b));
  ("mainchain_height", marshal (MainchainHeight b)); ("fees", marshal (Fees b)); ("value", marshal (bk_Value b))]%string.

#[export] Instance marshal_BlockStatus : Marshal BlockStatus := λ s, JObj [
  ("in_best_chain", marshal (InBestChain s)); ("height", marshal (bs_Height s));
  ("next_best", marshal (NextBest s))]%string.

#[export] Instance marshal_RecentTx : Marshal RecentTx := λ t, JObj [
  ("txid", marshal (rt_Txid t)); ("fee", marshal (rt_Fee t)); ("vsize", marshal (rt_Vsize t));
  ("value", marshal (rt_Value t))]%string.

#[export] Instance marshal_Activity : Marshal ApiActivity := λ a, JObj [
  ("kind", marshal (a_Kind a)); ("id", marshal (a_ID a)); ("value", marshal (a_Value a));
  ("fee", marshal (a_Fee a)); ("size", marshal (a_Size a)); ("status", marshal (a_Status a))]%string.

#[export] Instance marshal_Treasury : Marshal Treasury := λ t, JObj [
  ("txid", marshal (tr_Txid t)); ("vout", marshal (tr_Vout t)); ("value_sats", marshal (tr_ValueSats t))]%string.

#[export] Instance marshal_SidechainInfo : Marshal SidechainInfo := λ s, JObj [
  ("slot", marshal (si_Slot s)); ("title", marshal (si_Title s)); ("description", marshal (si_Description s));
  ("vote_count", marshal (si_VoteCount s)); ("proposal_height", marshal (si_ProposalHeight s));
  ("activation_height", marshal (si_ActivationHeight s)); ("treasury", marshal (si_Treasury s))]%string.

#[export] Instance marshal_WithdrawalState : Marshal WithdrawalState := λ w, JObj [
  ("bundle", marshal_raw (Bundle w)); ("last_failed_height", marshal (LastFailedHeight w))]%string.

(** The map of [mempool], from the count, the size and the fees of the summary. *)
#[export] Instance marshal_summary : Marshal (Z * Z * Z) := λ '(count, vsize, fees), marshal_map [
  ("count", marshal count); ("vsize", marshal vsize); ("total_fee", marshal fees); ("fee_histogram", JArr [])]%string.

(** The map of [feeEstimates]; a whole [float64] is written as the integer. *)
#[export] Instance marshal_estimates : Marshal (list (string * Z)) := λ m,
  marshal_map ((λ kv, (kv.1, marshal kv.2)) <$> m).

(** ** The writers *)

Record http_reply := { rp_status : Z; rp_type : string; rp_body : string }.

Definition newline : string := String (ascii_of_N 10) EmptyString.

(** [Encode] ends a value with a newline. *)
Definition Encode (j : json) : string := print j +:+ newline.

Definition writeJSON (j : json) : http_reply :=
  {| rp_status := StatusOK; rp_type := "application/json"; rp_body := Encode j |}.

Definition writeText (body : string) : http_reply :=
  {| rp_status := StatusOK; rp_type := "text/plain"; rp_body := body |}.

Definition writeError (status : Z) (message : string) : http_reply :=
  {| rp_status := status; rp_type := "text/plain"; rp_body := message |}.

(** [http.Error], with which net/http turns a request away. *)
Definition http_Error (status : Z) (message : string) : http_reply :=
  {| rp_status := status; rp_type := "text/plain; charset=utf-8"; rp_body := message +:+ newline |}.

Definition respond {A} `{Marshal A} (r : reply A) : http_reply :=
  match r with
  | WriteJSON body => writeJSON (marshal body)
  | WriteText body => writeText body
  | WriteError status message => writeError status message
  end.

Lemma respond_status {A} `{Marshal A} (r : reply A) : rp_status (respond r) = status_of r.
Proof. by destruct r. Qed.

(** ** What a client can tell

    Values of one type that render alike are equal, except for the raw message of
    a [WithdrawalState]: a nil one and a [null] look the same. *)

#[export] Instance fmt_int_inj : Inj (=) (=) fmt_int.
Proof.
  assert (∀ z z', fmt_d z = "-" +:+ z' → False) as Hs.
  { intros z z' H. pose proof (fmt_d_number z) as [Hn _]. unfold fmt_d in *.
    destruct (decide (Z.to_N z = 0%N)) as [E|E]; [by rewrite E in H|].
    unfold pretty, pretty_N in H. rewrite decide_False in H by done.
    destruct (pretty_digits (Z.to_N z) "") as (c & ds & Hc & _ & Hf); [lia|]. rewrite H in Hc. injection Hc as <- _.
    apply Forall_cons in Hf as [Hf _]. done. }
  intros z z'. unfold fmt_int. destruct (Z.ltb_spec z 0), (Z.ltb_spec z' 0); intros E.
  - assert (pretty (Z.to_N (- z)) = pretty (Z.to_N (- z'))) as E'%(inj (pretty (A := N))) by (by injection E). lia.
  - exfalso. by eapply Hs.
  - exfalso. by eapply Hs.
  - unfold fmt_d in E. apply (inj (pretty (A := N))) in E. lia.
Qed.

(** A type that never renders as [null]. *)
Class NonNull A `{Marshal A} : Prop := non_null (a : A) : marshal a ≠ JNull.

#[export] Instance non_null_int : NonNull Z. Proof. done. Qed.
#[export] Instance non_null_string : NonNull string. Proof. done. Qed.
#[export] Instance non_null_Status : NonNull Status. Proof. done. Qed.
#[export] Instance non_null_Vout : NonNull ApiVout. Proof. done. Qed.
#[export] Instance non_null_Treasury : NonNull Treasury. Proof. done. Qed.

#[export] Instance marshal_bool_inj : Inj (=) (=) (marshal (A := bool)).
Proof. by intros x y [= ->]. Qed.
#[export] Instance marshal_int_inj : Inj (=) (=) (marshal (A := Z)).
Proof. by intros x y [= ->%(inj fmt_int)]. Qed.
#[export] Instance marshal_string_inj : Inj (=) (=) (marshal (A := string)).
Proof. by intros x y [= ->]. Qed.
#[export] Instance marshal_list_inj {A} `{Marshal A} :
  Inj (=) (=) (marshal (A := A)) → Inj (=) (=) (marshal (A := list A)).
Proof. intros Hi x y [= E]. by apply (inj (fmap marshal)) in E. Qed.
#[export] Instance marshal_pointer_inj {A} `{Marshal A} :
  Inj (=) (=) (marshal (A := A)) → NonNull A → Inj (=) (=) (marshal (A := option A)).
Proof.
  intros Hi Hn [x|] [y|]; cbn; intros E; [by rewrite (inj marshal x y E)|by apply Hn in E| |done].
  symmetry in E. by apply Hn in E.
Qed.

Lemma member_inj (name name' : string) (x y : json) l l' : (name, x) :: l = (name', y) :: l' → x = y ∧ l = l'.
Proof. by intros [= -> -> ->]. Qed.

Lemma object_inj m m' : JObj m = JObj m' → m = m'.
Proof. by intros [= ->]. Qed.

(** A struct by its fields. *)
Ltac fields_inj E :=
  repeat (let H := fresh in apply member_inj in E as [H E]); clear E; f_equal; first [done|by apply (inj marshal)].

Ltac struct_inj := intros [] [] E%object_inj; fields_inj E.

#[export] Instance marshal_Status_inj : Inj (=) (=) (marshal (A := Status)).
Proof. struct_inj. Qed.
#[export] Instance marshal_TxoStats_inj : Inj (=) (=) (marshal (A := ApiTxoStats)).
Proof. struct_inj. Qed.
#[export] Instance marshal_Vout_inj : Inj (=) (=) (marshal (A := ApiVout)).
Proof. struct_inj. Qed.
#[export] Instance marshal_Vin_inj : Inj (=) (=) (marshal (A := ApiVin)).
Proof. struct_inj. Qed.
#[export] Instance marshal_Tx_inj : Inj (=) (=) (marshal (A := ApiTx)).
Proof. struct_inj. Qed.
#[export] Instance marshal_UTXO_inj : Inj (=) (=) (marshal (A := ApiUTXO)).
Proof. struct_inj. Qed.
#[export] Instance marshal_Block_inj : Inj (=) (=) (marshal (A := ApiBlock)).
Proof. struct_inj. Qed.
#[export] Instance marshal_BlockStatus_inj : Inj (=) (=) (marshal (A := BlockStatus)).
Proof. struct_inj. Qed.
#[export] Instance marshal_RecentTx_inj : Inj (=) (=) (marshal (A := RecentTx)).
Proof. struct_inj. Qed.
#[export] Instance marshal_Activity_inj : Inj (=) (=) (marshal (A := ApiActivity)).
Proof. struct_inj. Qed.
#[export] Instance marshal_Treasury_inj : Inj (=) (=) (marshal (A := Treasury)).
Proof. struct_inj. Qed.
#[export] Instance marshal_SidechainInfo_inj : Inj (=) (=) (marshal (A := SidechainInfo)).
Proof. struct_inj. Qed.

Lemma omit_empty_cases name s :
  s = EmptyString ∧ omit_empty name s = [] ∨ s ≠ EmptyString ∧ omit_empty name s = [(name, JStr s)].
Proof. unfold omit_empty. destruct (String.eqb_spec s EmptyString); auto. Qed.

#[export] Instance marshal_AddressInfo_inj : Inj (=) (=) (marshal (A := AddressInfo)).
Proof.
  intros [a s c m] [a' s' c' m'] E%object_inj. cbn [ai_Address ai_ScriptHash ChainStats MempoolStats_] in E.
  destruct (omit_empty_cases "address" a) as [[-> Ha]|[_ Ha]], (omit_empty_cases "address" a') as [[-> Ha']|[_ Ha']],
    (omit_empty_cases "scripthash" s) as [[-> Hs]|[_ Hs]], (omit_empty_cases "scripthash" s') as [[-> Hs']|[_ Hs']];
    rewrite ?Ha, ?Ha', ?Hs, ?Hs' in E; try discriminate E; fields_inj E.
Qed.

#[export] Instance marshal_Outspend_inj : Inj (=) (=) (marshal (A := Outspend)).
Proof.
  intros [s t v st b] [s' t' v' st' b'] E%object_inj. cbn [Spent os_Txid os_Vin os_Status SpentBy] in E.
  destruct (omit_empty_cases "spent_by" b) as [[-> Hb]|[_ Hb]], (omit_empty_cases "spent_by" b') as [[-> Hb']|[_ Hb']];
    rewrite ?Hb, ?Hb' in E; try discriminate E; fields_inj E.
Qed.

(** The bytes of an answer hold its value: what they parse to is what the value
    renders as, and no other value of the type has them. *)
Theorem writeJSON_faithful {A} `{Marshal A} `{!Inj (=) (=) (marshal (A := A))} (x : A) :
  textual maxNestingDepth (marshal x) →
  parse (rp_body (writeJSON (marshal x))) = Some (marshal x) ∧
  ∀ y, textual maxNestingDepth (marshal y) → writeJSON (marshal y) = writeJSON (marshal x) → y = x.
Proof.
  intros Hx. destruct (parse_textual _ newline Hx eq_refl) as [Hp _]. split; [done|].
  intros y Hy E. destruct (parse_textual _ newline Hy eq_refl) as [Hq _].
  assert (Encode (marshal y) = Encode (marshal x)) as E' by (by injection E).
  unfold Encode in E'. rewrite E', Hp in Hq. injection Hq as Hq. by apply (inj marshal).
Qed.

(** ** What a decoder takes

    The API adds numbers and texts of its own, which always render well. What
    remains are the contents of coins, which a node supplied. *)

Definition readable (d : nat) (j : json) : Prop := numbers_ok j = true ∧ (depth j ≤ d)%nat.

#[export] Instance readable_dec d j : Decision (readable d j).
Proof. unfold readable. apply _. Defined.

Lemma readable_mono d d' j : readable d j → (d ≤ d')%nat → readable d' j.
Proof. intros [H1 H2] Hd. split; [done|lia]. Qed.

Lemma readable_arr d l : Forall (readable d) l → readable (S d) (JArr l).
Proof.
  intros Hl. split; cbn [numbers_ok depth].
  - apply forallb_forall. intros x Hx%list_elem_of_In. rewrite Forall_forall in Hl. by apply Hl.
  - apply le_n_S. induction Hl as [|x l [_ Hx] _ IH]; cbn; lia.
Qed.

Lemma readable_obj d m : Forall (λ kv, readable d kv.2) m → readable (S d) (JObj m).
Proof.
  intros Hm. split; cbn [numbers_ok depth].
  - apply forallb_forall. intros x Hx%list_elem_of_In. rewrite Forall_forall in Hm. by apply Hm.
  - apply le_n_S. induction Hm as [|x m [_ Hx] _ IH]; cbn; lia.
Qed.

Class Readable {A} `{Marshal A} (d : nat) (a : A) : Prop := is_readable : readable d (marshal a).

#[export] Instance readable_int d (z : Z) : Readable d z.
Proof. destruct (textual_fmt_int d z) as (H1 & H2 & _). by split. Qed.
#[export] Instance readable_bool d (b : bool) : Readable d b.
Proof. split; [done|cbn; lia]. Qed.
#[export] Instance readable_unit d (u : unit) : Readable d u.
Proof. split; [done|cbn; lia]. Qed.
#[export] Instance readable_string d (s : string) : Readable d s.
Proof. split; [done|cbn; lia]. Qed.
#[export] Instance readable_pointer {A} `{Marshal A} d (o : option A) :
  (∀ a, Readable d a) → Readable d o.
Proof. intros Ha. destruct o; [apply Ha|]. split; [done|cbn; lia]. Qed.
#[export] Instance readable_some {A} `{Marshal A} d (a : A) : Readable d a → Readable d (Some a).
Proof. done. Qed.
#[export] Instance readable_list {A} `{Marshal A} d (l : list A) : (∀ a, Readable d a) → Readable (S d) l.
Proof. intros Ha. apply readable_arr, Forall_fmap, Forall_forall. intros a _. apply Ha. Qed.

Lemma readable_Forall {A} `{Marshal A} d (l : list A) : Forall (Readable d) l → Readable (S d) l.
Proof. intros Hl. apply readable_arr, Forall_fmap. exact Hl. Qed.

(** A struct, one level up from its fields. *)
Ltac readable_fields := repeat apply Forall_cons_2; [..|apply Forall_nil_2]; cbn [fst snd]; try apply is_readable.
Ltac readable_struct := apply readable_obj; readable_fields.

#[export] Instance readable_Status d (s : Status) : Readable (S d) s.
Proof. readable_struct. Qed.
#[export] Instance readable_TxoStats d (s : ApiTxoStats) : Readable (S d) s.
Proof. readable_struct. Qed.
#[export] Instance readable_Block d (b : ApiBlock) : Readable (S d) b.
Proof. readable_struct. Qed.
#[export] Instance readable_BlockStatus d (s : BlockStatus) : Readable (S d) s.
Proof. readable_struct. Qed.
#[export] Instance readable_RecentTx d (t : RecentTx) : Readable (S d) t.
Proof. readable_struct. Qed.
#[export] Instance readable_Activity d (a : ApiActivity) : Readable (S (S d)) a.
Proof. readable_struct. Qed.
#[export] Instance readable_Treasury d (t : Treasury) : Readable (S d) t.
Proof. readable_struct. Qed.
#[export] Instance readable_SidechainInfo d (s : SidechainInfo) : Readable (S (S d)) s.
Proof. readable_struct. Qed.
#[export] Instance readable_summary d (x : Z * Z * Z) : Readable (S (S d)) x.
Proof. destruct x as [[count vsize] fees]. readable_struct. apply readable_arr, Forall_nil_2. Qed.

Lemma omit_empty_readable d name s m :
  Forall (λ kv, readable d kv.2) m → Forall (λ kv, readable d kv.2) (omit_empty name s ++ m).
Proof. destruct (omit_empty_cases name s) as [[_ ->]|[_ ->]]; [done|]. intros Hm. constructor; [apply is_readable|done]. Qed.

#[export] Instance readable_AddressInfo d (a : AddressInfo) : Readable (S (S d)) a.
Proof. apply readable_obj. do 2 apply omit_empty_readable. readable_fields. Qed.
#[export] Instance readable_Outspend d (o : Outspend) : Readable (S (S d)) o.
Proof.
  apply readable_obj, Forall_app. split; [readable_fields|].
  rewrite <- (app_nil_r (omit_empty _ _)). by apply omit_empty_readable.
Qed.

Lemma readable_Vout d (v : ApiVout) : readable d (vout_Content v) → Readable (S d) v.
Proof. intros Hc. by readable_struct. Qed.

Lemma readable_Vin d (v : ApiVin) : (∀ p, Prevout v = Some p → Readable (S d) p) → Readable (S (S d)) v.
Proof.
  intros Hp. readable_struct. destruct (Prevout v) as [p|]; [by apply Hp|]. split; [done|cbn; lia].
Qed.

Lemma readable_Tx d (t : ApiTx) :
  Forall (Readable d) (Vin t) → Forall (Readable d) (api_Vout t) → Readable (S (S d)) t.
Proof. intros Hi Ho. readable_struct; by apply readable_Forall. Qed.

Lemma readable_UTXO d (u : ApiUTXO) : readable d (utxo_Content u) → (1 ≤ d)%nat → Readable (S d) u.
Proof. intros Hc Hd. destruct d as [|d]; [lia|]. by readable_struct. Qed.
