(* ===== verification/Escrow.v ===== *)
(** * The escrow routes

    What the drivechain routes of [internal/api/handlers.go] make of the
    enforcer's answers. *)

From S2P Require Import Prelude GoStd Json JsonText Rpc Read Enforcer Handlers.
Open Scope Z_scope.
Open Scope list_scope.

(** ** The treasury on the wire *)

(** A treasury output as Connect writes it: a zero is left out, and a 64-bit
    value is text. *)
Definition member (name : string) (absent : bool) (j : json) : list (string * json) :=
  if absent then [] else [(name, j)].

Definition enc_ctip (c : Ctip_) : json :=
  JObj [("ctip"%string, JObj (
    member "txid" false (JObj (member "hex" false (JStr (Txid c)))) ++
    member "vout" (ctip_Vout c =? 0) (JNum (fmt_d (ctip_Vout c))) ++
    member "value" (ctip_ValueSats c =? 0) (JStr (fmt_int (ctip_ValueSats c)))))].

Definition answers (e : Enforcer) (method : string) (body : json) (a : http_answer) : Prop :=
  http e (baseURL e +:+ "/cusf.mainchain.v1.ValidatorService/" +:+ method) (print body) = Ok a.

Lemma post_answers {A} e (d : decoder A) zero method body text j :
  answers e method body {| StatusCode := 200; ans_text := text |} → parse text = Some j →
  post e d zero method body = wrap ("decode the " +:+ method +:+ " answer") (d j zero).
Proof. intros H Hj. unfold post. rewrite H. cbn. by rewrite Hj. Qed.

(** A treasury survives the wire: whatever output and value the enforcer
    names, zeros included, [Ctip] reads them back; an answer without one is a
    slot without a treasury, and a status other than 200 is an error. *)
Theorem Ctip_roundtrip e slot c text :
  is_u32 (ctip_Vout c) → is_i64 (ctip_ValueSats c) →
  let body := JObj [("sidechainNumber"%string, JNum (fmt_d slot))] in
  let answer status := {| StatusCode := status; ans_text := text |} in
  (parse text = Some (enc_ctip c) → answers e "GetCtip" body (answer 200) → Ctip e slot = Ok (Some c)) ∧
  (parse text = Some (JObj []) → answers e "GetCtip" body (answer 200) → Ctip e slot = Ok None) ∧
  (∀ status, status ≠ 200 → answers e "GetCtip" body (answer status) →
     Ctip e slot = Err (Errorf ("GetCtip answered " +:+ fmt_int status +:+ ": " +:+ TrimSpace text))).
Proof.
  intros Hv Hi body answer. unfold Ctip. split_and!.
  - intros Ht H. erewrite post_answers by done. destruct c as [t v x]. unfold enc_ctip, member in *. cbn in *.
    destruct (Z.eqb_spec v 0) as [->|], (Z.eqb_spec x 0) as [->|]; cbn;
      rewrite ?parse_uint_fmt_d by (unfold is_u32 in *; lia); cbn; rewrite ?parse_int_fmt_int by done; done.
  - intros Ht H. by erewrite post_answers by done.
  - intros status Hs H. unfold post, body in *. rewrite H. cbn. by rewrite (proj2 (Z.eqb_neq _ _) Hs).
Qed.

(** ** The list and the single slot *)



