(* ===== verification/Router.v ===== *)
(** * The routes

    The requests of [internal/api/server.go] that the store answers, each with the
    handler it goes to. [Server] holds the table of patterns that leads to them
    and the requests that ask a client instead. *)

From S2P Require Import Prelude GoStd Json Hash OutPoint Block Registry Tables Write Read Activity.
From S2P Require Import Mempool Esplora Handlers Respond.
Open Scope Z_scope.
Open Scope list_scope.

(** A request the store answers, with the wildcards of its path. An absent
    wildcard reads as the empty text; [path] is the path itself, which
    [isScriptHashRoute] looks at. *)
Inductive request :=
  | GetTipHeight
  | GetTipHash
  | GetBlocks (start_height : string)
  | GetBlockHeight (height : string)
  | GetBlock (hash : string)
  | GetBlockHeader (hash : string)
  | GetBlockStatus (hash : string)
  | GetBlockTxids (hash : string)
  | GetBlockTxid (hash index : string)
  | GetBlockTxs (hash start_index : string)
  | GetBlockActivity (hash : string)
  | GetTx (txid : string)
  | GetTxStatus (txid : string)
  | GetTxHex (txid : string)
  | GetOutspends (txid : string)
  | GetOutspend (txid vout : string)
  | GetAddress (path key : string)
  | GetAddressUTXO (path key : string)
  | GetAddressTxs (path key last_seen : string)
  | GetAddressMempool (path key : string)
  | GetAddressDeposits (key : string)
  | GetDeposit (txid : string)
  | GetDeposits (start_height : string)
  | GetRecent
  | GetMempool
  | GetMempoolTxids
  | GetMempoolRecent.

(** A handler, with the type of the values it answers with. *)
Inductive handled := | Handles {A : Type} {M : Marshal A} (h : handler A).

Section serve.
Context {PG : Postgres} `{!Base58} (stores : result unit).

(** A handler up to what it writes. *)
Definition any {A} `{Marshal A} (h : handler A) : conn → http_reply * conn := λ c,
  let '(r, c') := h c in (respond r, c').

(** The handler of a request. *)
Definition handler_of (r : request) : handled :=
  match r with
  | GetTipHeight => Handles (tipHeight stores)
  | GetTipHash => Handles (tipHash stores)
  | GetBlocks start_height => Handles (blocks_route stores start_height)
  | GetBlockHeight height => Handles (blockHeight stores height)
  | GetBlock hash => Handles (block_route stores hash)
  | GetBlockHeader hash => Handles (blockHeader stores hash)
  | GetBlockStatus hash => Handles (blockStatus stores hash)
  | GetBlockTxids hash => Handles (blockTxids stores hash)
  | GetBlockTxid hash index => Handles (blockTxid stores hash index)
  | GetBlockTxs hash index => Handles (blockTxs stores hash index)
  | GetBlockActivity hash => Handles (blockActivity stores hash)
  | GetTx txid => Handles (tx_route stores txid)
  | GetTxStatus txid => Handles (txStatus_route stores txid)
  | GetTxHex txid => Handles (txHex stores txid)
  | GetOutspends txid => Handles (outspends stores txid)
  | GetOutspend txid vout => Handles (outspend stores txid vout)
  | GetAddress path key => Handles (addressInfo stores path key)
  | GetAddressUTXO path key => Handles (addressUTXOs stores path key)
  | GetAddressTxs path key last_seen => Handles (addressTxs stores path key last_seen)
  | GetAddressMempool path key => Handles (addressMempoolTxs stores path key)
  | GetAddressDeposits key => Handles (addressDeposits stores key)
  | GetDeposit txid => Handles (deposit_route stores txid)
  | GetDeposits start_height => Handles (deposits_route stores start_height)
  | GetRecent => Handles (recentActivity stores)
  | GetMempool => Handles (mempool_route stores)
  | GetMempoolTxids => Handles (mempoolTxids stores)
  | GetMempoolRecent => Handles (mempoolRecent stores)
  end.

Definition ServeHTTP (r : request) : conn → http_reply * conn :=
  match handler_of r with Handles h => any h end.
End serve.
