(* ===== verification/Mux.v ===== *)
(** * Patterns and paths

    What the program uses of [http.ServeMux]: patterns of a method and a path
    whose segments are literals or wildcards. A request comes with its method and
    the segments of its path, which net/http has cleaned and unescaped; no segment
    is empty. Of the patterns that match, ServeMux takes the most specific; it
    panics when two are registered of which neither is. *)

From S2P Require Import Prelude GoStd.
Open Scope list_scope.

Inductive segment := Lit (text : string) | Wild (name : string).

#[export] Instance segment_eq_dec : EqDecision segment.
Proof. solve_decision. Defined.

Record pattern := Pattern { pat_method : string; pat_path : list segment }.

(** ** Reading a pattern *)

(** The parts between slashes. *)
Fixpoint split_slash (s : string) : list string :=
  match s with
  | EmptyString => [EmptyString]
  | String c s' =>
      if ascii_dec c "/" then EmptyString :: split_slash s'
      else match split_slash s' with
           | part :: parts => String c part :: parts
           | [] => [String c EmptyString]
           end
  end.

Fixpoint until_brace (s : string) : string :=
  match s with
  | EmptyString => EmptyString
  | String c s' => if ascii_dec c "}" then EmptyString else String c (until_brace s')
  end.

Definition parse_segment (s : string) : segment :=
  match s with
  | String c s' => if ascii_dec c "{" then Wild (until_brace s') else Lit s
  | EmptyString => Lit EmptyString
  end.

(** ["GET /tx/{txid}"]. *)
Definition parse_pattern (s : string) : option pattern :=
  '(method, path) ← cut " " s;
  match path with
  | String c rest => if ascii_dec c "/" then Some (Pattern method (parse_segment <$> split_slash rest)) else None
  | EmptyString => None
  end.

(** ** Matching *)

(** The wildcards of a path and their values. *)
Definition values := list (string * string).

Fixpoint match_path (ps : list segment) (path : list string) : option values :=
  match ps, path with
  | [], [] => Some []
  | Lit text :: ps, x :: path => if String.eqb text x then match_path ps path else None
  | Wild name :: ps, x :: path => vs ← match_path ps path; Some ((name, x) :: vs)
  | _, _ => None
  end.

(** [Request.PathValue]: an absent wildcard reads as the empty text. *)
Fixpoint PathValue (vs : values) (name : string) : string :=
  match vs with
  | [] => EmptyString
  | (n, x) :: vs => if String.eqb n name then x else PathValue vs name
  end.

(** A pattern for GET also takes HEAD. *)
Definition allows (pattern method : string) : bool :=
  String.eqb pattern method || (String.eqb pattern "GET" && String.eqb method "HEAD").

Definition matches (p : pattern) (method : string) (path : list string) : option values :=
  if allows (pat_method p) method then match_path (pat_path p) path else None.

(** ** Conflicts *)

Definition segments_meet (a b : segment) : bool :=
  match a, b with Lit x, Lit y => String.eqb x y | _, _ => true end.

Fixpoint paths_meet (p q : list segment) : bool :=
  match p, q with
  | [], [] => true
  | a :: p, b :: q => segments_meet a b && paths_meet p q
  | _, _ => false
  end.

(** Some request matches both. *)
Definition meet (p q : pattern) : bool :=
  (allows (pat_method p) (pat_method q) || allows (pat_method q) (pat_method p)) &&
  paths_meet (pat_path p) (pat_path q).

Lemma match_path_meet p q path vp vq :
  match_path p path = Some vp → match_path q path = Some vq → paths_meet p q = true.
Proof.
  revert q path vp vq.
  induction p as [|a p IH]; intros [|b q] [|x path] vp vq; try done; [by destruct b|by destruct a..|].
  cbn [match_path paths_meet]. destruct a as [s|s], b as [t|t]; cbn [segments_meet andb];
    intros Hp Hq;
    repeat match goal with
    | H : (if String.eqb ?u ?y then _ else _) = Some _ |- _ => destruct (String.eqb_spec u y); [subst|discriminate H]
    | H : (match_path _ _ ≫= _) = Some _ |- _ => apply bind_Some in H as (? & ? & ?)
    end; rewrite ?String.eqb_refl; cbn [andb]; by eapply IH.
Qed.

Lemma matches_meet p q method path :
  is_Some (matches p method path) → is_Some (matches q method path) → meet p q = true.
Proof.
  unfold matches, meet. intros [vp Hp] [vq Hq].
  destruct (allows (pat_method p) method) eqn:Ep, (allows (pat_method q) method) eqn:Eq; try done.
  rewrite (match_path_meet _ _ _ _ _ Hp Hq), andb_true_r. unfold allows in *.
  repeat match goal with |- context [String.eqb ?a ?b] => destruct (String.eqb_spec a b); cbn; try done end;
  repeat match goal with H : context [String.eqb ?a ?b] |- _ => destruct (String.eqb_spec a b); cbn in * end;
  congruence.
Qed.

(** ** The mux *)

Inductive routed (H : Type) := Found (h : H) (vs : values) | MethodNotAllowed | PathNotFound.
Arguments Found {H} h vs.
Arguments MethodNotAllowed {H}.
Arguments PathNotFound {H}.

Section mux.
Context {H : Type} (routes : list (pattern * H)).

(** The first pattern that takes the request. *)
Fixpoint find_route (rs : list (pattern * H)) (method : string) (path : list string) : option (H * values) :=
  match rs with
  | [] => None
  | (p, h) :: rs => match matches p method path with Some vs => Some (h, vs) | None => find_route rs method path end
  end.

(** [ServeMux.ServeHTTP]: 405 for a path that other methods have. *)
Definition route (method : string) (path : list string) : routed H :=
  match find_route routes method path with
  | Some (h, vs) => Found h vs
  | None =>
      if existsb (λ r, bool_decide (is_Some (match_path (pat_path r.1) path))) routes then MethodNotAllowed
      else PathNotFound
  end.

(** No two patterns meet: which one is more specific never matters. *)
Fixpoint conflict_free (ps : list pattern) : bool :=
  match ps with
  | [] => true
  | p :: ps => forallb (λ q, negb (meet p q)) ps && conflict_free ps
  end.

Lemma find_route_elem rs method path h vs :
  find_route rs method path = Some (h, vs) → ∃ p, (p, h) ∈ rs ∧ matches p method path = Some vs.
Proof.
  induction rs as [|[p h'] rs IH]; cbn; [done|]. destruct (matches p method path) as [vs'|] eqn:E.
  - intros [= -> ->]. exists p. split; [left|done].
  - intros (p' & Hp & Hm)%IH. exists p'. split; [by right|done].
Qed.

Lemma find_route_unique rs p h method path vs :
  conflict_free rs.*1 = true → (p, h) ∈ rs → matches p method path = Some vs →
  find_route rs method path = Some (h, vs).
Proof.
  induction rs as [|[q hq] rs IH]; [set_solver|]. cbn [conflict_free fmap list_fmap fst find_route].
  intros [Hf Hc]%andb_true_iff [[= -> ->]|Hin]%elem_of_cons Hm; [by rewrite Hm|].
  destruct (matches q method path) as [vq|] eqn:Eq; [|by apply IH].
  rewrite forallb_forall in Hf.
  assert (meet q p = true) as Hmeet by (eapply matches_meet; eexists; eassumption).
  specialize (Hf p). rewrite Hmeet in Hf. discriminate Hf.
  apply list_elem_of_In. by apply (list_elem_of_fmap_2 fst rs (p, h)).
Qed.

(** A path with a method nobody has there. *)
Lemma find_route_none rs method path p h :
  find_route rs method path = None → (p, h) ∈ rs → matches p method path = None.
Proof.
  induction rs as [|[q hq] rs IH]; [set_solver|]. cbn. destruct (matches q method path) eqn:E; [done|].
  intros Hn [[= -> ->]|Hin]%elem_of_cons; [done|]. by apply IH.
Qed.
End mux.

(** ** Writing a path *)

(** The path of a pattern with values for its wildcards. *)
Definition fill (v : string → string) (ps : list segment) : list string :=
  (λ s, match s with Lit text => text | Wild name => v name end) <$> ps.

Definition wildcards (ps : list segment) : list string :=
  omap (λ s, match s with Lit _ => None | Wild name => Some name end) ps.

Lemma match_fill v ps : match_path ps (fill v ps) = Some ((λ name, (name, v name)) <$> wildcards ps).
Proof.
  induction ps as [|[text|name] ps IH]; [done|..]; unfold fill in *; rewrite fmap_cons; cbn [match_path].
  - by rewrite String.eqb_refl.
  - by rewrite IH.
Qed.

Lemma PathValue_wildcards v names name :
  PathValue ((λ n, (n, v n)) <$> names) name = if decide (name ∈ names) then v name else EmptyString.
Proof.
  induction names as [|n names IH]; [done|]. cbn. destruct (String.eqb_spec n name) as [->|Hne].
  - by rewrite decide_True by (by left).
  - rewrite IH. destruct (decide (name ∈ names)).
    + by rewrite decide_True by (by right).
    + by rewrite decide_False by (rewrite elem_of_cons; intros [->|]; done).
Qed.

(** What a matched path says, the pattern writes. *)
Lemma match_path_fill ps path vs :
  NoDup (wildcards ps) → match_path ps path = Some vs → vs.*1 = wildcards ps ∧ fill (PathValue vs) ps = path.
Proof.
  revert path vs. induction ps as [|[text|name] ps IH]; intros [|x path] vs Hnd; cbn; try done.
  - by intros [= <-].
  - destruct (String.eqb_spec text x) as [->|]; [|done]. intros Hm.
    destruct (IH _ _ Hnd Hm) as [H1 H2]. split; [done|]. unfold fill in *. cbn. by f_equal.
  - intros (vs' & Hm & [= <-])%bind_Some. apply NoDup_cons in Hnd as [Hn Hnd].
    destruct (IH _ _ Hnd Hm) as [H1 H2]. rewrite <- H2. cbn. rewrite String.eqb_refl, H1. split; [done|].
    f_equal. unfold fill. apply list_fmap_ext. intros i s Hs. destruct s as [|name']; [done|].
    cbn. destruct (String.eqb_spec name name') as [->|]; [|done]. destruct Hn.
    apply list_elem_of_omap. exists (Wild name'). split; [by eapply list_elem_of_lookup_2|done].
Qed.
