(* ===== verification/StoreProps.v ===== *)
(** * The contract of the reads

    What an answer of [internal/store] means, on a coherent index: balances,
    unspent outputs, histories, block lists, and the snapshot a mempool pass
    leaves. *)

From S2P Require Import Prelude GoStd Json Hash OutPoint Block BlockIndex Registry Tables Write.
From S2P Require Import Ledger WriteSpec Prepare Read ReadSpec Activity Mempool.
Open Scope Z_scope.

Section rows.
Context {PG : Postgres} (HP : PostgresLaws).

Lemma Key_uint8 o : Key {| Kind := uint8 (Kind o); Source := Source o; Vout := Vout o |} = Key o.
Proof.
  unfold Key. do 2 f_equal. cbn [Kind Source Vout].
  unfold byte_of_Z, uint8. by rewrite Z.mod_mod by lia.
Qed.

Lemma scan_utxo_key ob : Key (u_OutPoint (scan_utxo ob)) = Key (row_outpoint ob.1).
Proof. destruct ob as [o b]. apply (Key_uint8 (row_outpoint o)). Qed.

Lemma all_outputs_elem l o : o ∈ all_outputs l ↔ ∃ k, outputs l !! k = Some o.
Proof.
  unfold all_outputs. rewrite list_elem_of_fmap. split.
  - intros ([k o'] & -> & H%elem_of_map_to_list). by exists k.
  - intros [k H]. exists (k, o). split; [done|]. by apply elem_of_map_to_list.
Qed.

Lemma all_outputs_keys n l :
  wf n l → (λ o, Key (row_outpoint o)) <$> all_outputs l = (map_to_list (outputs l)).*1.
Proof.
  intros W. unfold all_outputs. rewrite <- list_fmap_compose. apply list_fmap_ext.
  intros i [k o] H%list_elem_of_lookup_2%elem_of_map_to_list. cbn.
  by apply (wf_outputs _ _ W) in H as [<-].
Qed.

Lemma utxo_rows_elem n (P : output_row → Prop) `{∀ o, Decision (P o)} l o b :
  wf n l → (o, b) ∈ utxo_rows P l →
  outputs l !! Key (row_outpoint o) = Some o ∧ P o ∧ blocks l !! o_height o = Some b.
Proof.
  intros W Hin. pose proof (utxo_rows_perm HP n P l W) as Hperm.
  assert (o ∈ filter P (all_outputs l)) as Ho.
  { rewrite <- Hperm. apply list_elem_of_fmap. by exists (o, b). }
  apply list_elem_of_filter in Ho as [HPo [k Hk]%all_outputs_elem].
  pose proof (wf_outputs _ _ W k o Hk) as []. rewrite <- ok_key. split_and!; [done|done|].
  unfold utxo_rows, with_block in Hin. rewrite merge_sort_Permutation in Hin.
  apply list_elem_of_omap in Hin as (o' & _ & (b' & Hb & [= -> ->])%fmap_Some). done.
Qed.

(** C12: The unspent outputs of an address or a scripthash: every unspent row
    of the key is listed, under its own outpoint and with its own value, height
    and block; nothing else is; none twice; newest first. *)
Theorem UTXOs_complete n column key d us :
  wf n (chain_tables d) → n ≤ 2^31 → run (UTXOs column key) d = (Ok us, d) →
  let l := chain_tables d in
  (∀ k o, outputs l !! k = Some o → keyed column key o → ¬ spent_row o →
     ∃ u, u ∈ us ∧ Key (u_OutPoint u) = k ∧ u_ValueSats u = o_value_sats o ∧
       u_Height u = o_height o ∧ u_BlockHash u = Some (o_block_hash o)) ∧
  (∀ u, u ∈ us → ∃ o, outputs l !! Key (u_OutPoint u) = Some o ∧ keyed column key o ∧
     ¬ spent_row o ∧ u_ValueSats u = o_value_sats o) ∧
  NoDup ((λ u, Key (u_OutPoint u)) <$> us) ∧
  StronglySorted (λ a b, u_Height b ≤ u_Height a) us.
Proof.
  intros W Hn. unfold UTXOs. rewrite run_query. intros [= (u0 & _ & [= <-])%bind_ok].
  set (P := λ o, keyed column key o ∧ ¬ spent_row o).
  pose proof (utxo_rows_perm HP n P _ W) as Hperm.
  assert (∀ o b, (o, b) ∈ utxo_rows P (chain_tables d) → uint32 (o_height o) = o_height o) as Hh.
  { intros o b Hin. apply (utxo_rows_elem n P _ _ _ W) in Hin as (Ho & _ & _).
    apply (wf_outputs _ _ W) in Ho as []. rewrite uint32_small; [done|]. unfold is_u32. lia. }
  cbn zeta. split_and!.
  - intros k o Ho Hk Hs. assert (o ∈ (utxo_rows P (chain_tables d)).*1) as Hin.
    { rewrite Hperm. apply list_elem_of_filter. split; [done|]. apply all_outputs_elem. eauto. }
    apply list_elem_of_fmap in Hin as ([o' b] & -> & Hin).
    exists (scan_utxo (o', b)). rewrite scan_utxo_key. split; [by apply list_elem_of_fmap_2|].
    pose proof (wf_outputs _ _ W _ _ Ho) as []. cbn. rewrite (Hh _ _ Hin). done.
  - intros u ([o b] & -> & Hin)%list_elem_of_fmap. rewrite scan_utxo_key.
    apply (utxo_rows_elem n P _ _ _ W) in Hin as (Ho & [Hk Hs] & _). exists o. done.
  - assert ((λ u, Key (u_OutPoint u)) <$> (scan_utxo <$> utxo_rows P (chain_tables d)) =
            (λ o, Key (row_outpoint o)) <$> (utxo_rows P (chain_tables d)).*1) as ->.
    { rewrite <- !list_fmap_compose. apply list_fmap_ext. intros. apply scan_utxo_key. }
    rewrite Hperm. eapply sublist_NoDup; [|apply fmap_sublist, sublist_filter].
    rewrite (all_outputs_keys n) by done. apply NoDup_fst_map_to_list.
  - apply (StronglySorted_fmap_elem scan_utxo _ _ _) with (2 := utxo_rows_sorted _ _).
    intros [o1 b1] [o2 b2] H1 H2. unfold newest_first. cbn.
    rewrite (Hh _ _ H1), (Hh _ _ H2). lia.
Qed.

(** ** Histories *)

Lemma touches_range n l k o id h :
  wf n l → outputs l !! k = Some o → (id, h) ∈ touches o → 0 ≤ h < n.
Proof.
  intros W Ho. apply (wf_outputs _ _ W) in Ho as []. unfold touches.
  rewrite elem_of_app. intros [Hin|Hin].
  - case_bool_decide; [|set_solver]. apply list_elem_of_singleton in Hin as [= -> ->]. done.
  - destruct (o_spent o) as [s|] eqn:Es; [|set_solver].
    apply list_elem_of_singleton in Hin as [= -> ->]. specialize (ok_spent s eq_refl). lia.
Qed.

Lemma touches_iff o id h :
  (id, h) ∈ touches o ↔
  o_kind o = KindRegular ∧ o_source_id o = id ∧ o_height o = h ∨
  ∃ s, o_spent o = Some s ∧ sp_source s = id ∧ sp_height s = h.
Proof.
  unfold touches. rewrite elem_of_app. case_bool_decide; destruct (o_spent o) as [s|];
    rewrite ?list_elem_of_singleton, ?elem_of_nil; naive_solver.
Qed.

(** C30: A page of a history: at most [limit] entries, each once, newest first;
    every entry names, at or below the height asked for, a transaction that created a
    coin of the key or something that spent one, and a page shorter than the limit
    leaves none of these out. What no transaction created is not among them: a key
    that holds nothing but unspent deposits, rewards or market coins has an empty
    history, although README.md says a deposit shows there like any other coin. *)
Theorem History_page n column key before limit d refs :
  wf n (chain_tables d) → n ≤ 2^31 → is_u32 before →
  run (History column key before limit) d = (Ok refs, d) →
  let touched id h := ∃ k o, outputs (chain_tables d) !! k = Some o ∧ keyed column key o ∧
    (o_kind o = KindRegular ∧ o_source_id o = id ∧ o_height o = h ∨
     ∃ s, o_spent o = Some s ∧ sp_source s = id ∧ sp_height s = h) in
  (length refs ≤ limit)%nat ∧
  StronglySorted (λ a b, r_Height b ≤ r_Height a) refs ∧ NoDup refs ∧
  (∀ r, r ∈ refs → r_Height r ≤ before ∧ touched (r_Txid r) (r_Height r)) ∧
  ((length refs < limit)%nat → ∀ id h, touched id h → h ≤ before →
     {| r_Txid := id; r_Height := h |} ∈ refs) ∧
  ((∀ k o, outputs (chain_tables d) !! k = Some o → keyed column key o → o_kind o ≠ KindRegular ∧ ¬ spent_row o) →
   refs = []).
Proof.
  intros W Hn Hb. unfold History. rewrite run_query. intros [= (u0 & _ & [= <-])%bind_ok].
  set (l := chain_tables d) in *. set (all := history_refs column key (clampHeight before) l).
  set (ref := λ ih : Hash * Z, {| r_Txid := ih.1; r_Height := uint32 ih.2 |}).
  pose proof (clampHeight_range before Hb) as [Hc1 Hc2].
  assert (∀ ih, ih ∈ all → uint32 ih.2 = ih.2 ∧ ih.2 ≤ before) as Hall.
  { intros [id h] Hin. apply (history_refs_elem HP) in Hin as [Hle (k & o & Ho & _ & Ht)]. cbn.
    pose proof (touches_range n l k o id h W Ho Ht). rewrite uint32_small by (unfold is_u32; lia). lia. }
  cbn zeta. split_and!.
  - rewrite length_fmap, length_take. lia.
  - apply StronglySorted_fmap_elem with (R1 := history_le).
    + intros [i h] [j k] (? & H1%list_elem_of_lookup_2 & _)%elem_of_take
        (? & H2%list_elem_of_lookup_2 & _)%elem_of_take. unfold history_le. cbn.
      destruct (Hall _ H1) as [E1 _], (Hall _ H2) as [E2 _]. cbn in E1, E2. rewrite E1, E2. lia.
    + apply StronglySorted_take, history_refs_sorted.
  - apply NoDup_fmap_2_strong.
    + intros [i h] [j k] (? & H1%list_elem_of_lookup_2 & _)%elem_of_take
        (? & H2%list_elem_of_lookup_2 & _)%elem_of_take. unfold ref. cbn.
      destruct (Hall _ H1) as [E1 _], (Hall _ H2) as [E2 _]. cbn in E1, E2. rewrite E1, E2. congruence.
    + eapply sublist_NoDup; [apply (history_refs_NoDup HP column key (clampHeight before) l)|apply sublist_take].
  - intros r ([id h] & -> & (? & Hin%list_elem_of_lookup_2 & _)%elem_of_take)%list_elem_of_fmap.
    destruct (Hall _ Hin) as [E Hle]. cbn in *. rewrite E. split; [done|].
    apply (history_refs_elem HP) in Hin as (_ & k & o & Ho & Hk & Ht%touches_iff). eauto 10.
  - intros Hlen id h (k & o & Ho & Hk & Ht%touches_iff) Hle. rewrite length_fmap, length_take in Hlen.
    rewrite take_ge by lia.
    pose proof (touches_range n l k o id h W Ho Ht) as Hh.
    assert ((id, h) ∈ all) as Hin.
    { apply (history_refs_elem HP). split; [|eauto 10].
      destruct (decide (before < 2^31)); [rewrite Hc2 by done; lia|].
      unfold clampHeight. destruct (Z.ltb_spec MaxInt32 before); unfold MaxInt32 in *; lia. }
    destruct (Hall _ Hin) as [E _]. cbn in E.
    apply list_elem_of_fmap. exists (id, h). split; [|done]. unfold ref. cbn. by rewrite E.
  - intros Hno. assert (all = []) as ->; [|by rewrite take_nil].
    apply elem_of_nil_inv. intros [id h] (_ & k & o & Ho & Hk & Ht)%(history_refs_elem HP).
    destruct (Hno k o Ho Hk) as [Hr Hs]. apply touches_iff in Ht as [[? _]|(s & Es & _)]; [done|].
    apply Hs. by eexists.
Qed.

(** The headers at or below a height, newest first: exactly the heights
    from the smaller of the tip and the height asked for, downwards without a
    gap, as many as the limit allows. *)
Theorem Blocks_page n start limit d rows :
  wf n (chain_tables d) → 0 ≤ n ≤ 2^31 → 0 ≤ start < 2^31 →
  run (Blocks start limit) d = (Ok rows, d) →
  br_Height <$> rows = take limit (down_from (Z.min n (start + 1))).
Proof. apply (Blocks_heights HP). Qed.

(** A start height beyond the largest [int32] lists no block at all,
    although every block is below it. *)
Theorem Blocks_height_wraps n start limit d :
  wf n (chain_tables d) → 2^31 ≤ start < 2^32 → run (Blocks start limit) d = (Ok [], d).
Proof. apply (Blocks_wraps HP). Qed.

(** C11: What an address funded less what it spent is what its unspent outputs
    hold, in number and in value. *)
Theorem Stats_balance n column key d s us :
  wf n (chain_tables d) →
  run (Stats column key) d = (Ok s, d) → run (UTXOs column key) d = (Ok us, d) →
  FundedSum s - SpentSum s = sumZ u_ValueSats us ∧
  FundedCount s - SpentCount s = Z.of_nat (length us).
Proof. apply (balance HP). Qed.

(** ** The activity of a block *)

(** C35: The activity of a block adds up to its header: the fees of its rows are
    the fees of the block, the values of its transactions are the value of the
    block, and every row names the block. *)
Theorem ActivityInBlock_adds_up n hash d rows br :
  wf n (chain_tables d) → run (BlockByHash hash) d = (Ok br, d) →
  run (ActivityInBlock hash) d = (Ok rows, d) →
  Forall (λ r, ac_BlockHash r = hash ∧ ac_Height r = br_Height br) rows ∧
  sumZ ac_FeeSats rows = br_FeeSats br ∧
  sumZ ac_ValueSats (filter (λ r, ac_Kind r ≠ KindDepositRow) rows) = br_ValueSats br.
Proof.
  intros W HB HR. unfold BlockByHash in HB. rewrite run_query in HB. injection HB as HB.
  apply bind_ok in HB as ([h b] & Hin%of_option_ok & (fees & [-> _]%scan_int64_ok &
    (value & [-> _]%scan_int64_ok & [= <-])%bind_ok)%bind_ok).
  apply head_Some_elem_of, list_elem_of_filter in Hin as [<- Hb%elem_of_map_to_list].
  destruct (ActivityInBlock_rows HP n h b d rows W Hb HR) as (fs & Hp & _ & ->). split_and!.
  - by apply Forall_fmap, Forall_true.
  - by rewrite sumZ_fmap, Hp, <- sum_fees_feed.
  - rewrite (filter_fmap_iff is_tx (λ r, ac_Kind r ≠ KindDepositRow)) by done. rewrite sumZ_fmap. cbn [ac_ValueSats br_ValueSats].
    by rewrite Hp, <- sum_values_feed.
Qed.

(** The activity of a block is its transactions in reverse body order, and
    then its deposits, as long as its body positions are distinct and not
    negative. *)
Theorem ActivityInBlock_reversed n h b d rows txids :
  let l := chain_tables d in
  wf n l → blocks l !! h = Some b →
  (∀ id1 id2 t1 t2, txs l !! id1 = Some t1 → txs l !! id2 = Some t2 →
     t_height t1 = h → t_height t2 = h → t_tx_index t1 = t_tx_index t2 → id1 = id2) →
  (∀ id t, txs l !! id = Some t → 0 ≤ t_tx_index t) →
  run (ActivityInBlock (b_hash b)) d = (Ok rows, d) →
  run (BlockTxids (b_hash b)) d = (Ok txids, d) →
  ∃ body deposits, rows = body ++ deposits ∧ ac_ID <$> body = reverse txids ∧
    Forall (λ r, ac_Kind r ≠ KindDepositRow) body ∧ Forall (λ r, ac_Kind r = KindDepositRow) deposits.
Proof.
  intros l W Hb Hinj Hpos HR HT.
  destruct (ActivityInBlock_rows HP n h b d rows W Hb HR) as (fs & Hp & Hs & ->).
  destruct (BlockTxids_rows HP n h b d txids W Hb HT) as [Htp Hts].
  assert (∀ f, f ∈ fs → f ∈ feed l) as Hfeed
    by (intros f; rewrite Hp; by intros [_ ?]%list_elem_of_filter).
  rewrite (feed_split l fs Hpos Hfeed Hs), fmap_app.
  eexists _, _. split; [done|]. split; [|split; apply Forall_fmap, Forall_forall; intros f;
    [by intros [? _]%list_elem_of_filter | intros [Hn _]%list_elem_of_filter; apply (dec_stable (P := f_kind f = KindDepositRow)), Hn]].
  rewrite <- list_fmap_compose.
  assert (∀ id, id ∈ txids → ∃ t, txs l !! id = Some t ∧ t_height t = h) as Hids.
  { intros id. rewrite Htp. intros ([? t] & -> & [? ?%elem_of_map_to_list]%list_elem_of_filter)%list_elem_of_fmap.
    by exists t. }
  assert (f_id <$> filter is_tx fs ≡ₚ txids) as Hperm by (by rewrite Hp, feed_ids, Htp).
  apply (StronglySorted_unique_strong (λ x y, body_index l y ≤ body_index l x)).
  - intros x y Hx Hy Hxy Hyx. rewrite elem_of_reverse in Hy.
    change (x ∈ f_id <$> filter is_tx fs) in Hx. rewrite Hperm in Hx.
    destruct (Hids x Hx) as (tx & Ex & ?), (Hids y Hy) as (ty & Ey & ?).
    unfold body_index in *. rewrite Ex, Ey in *. cbn in *. apply (Hinj x y tx ty); try done. lia.
  - apply StronglySorted_fmap_elem with (2 := StronglySorted_filter _ is_tx _ Hs).
    intros x y [Hx Hx']%list_elem_of_filter [Hy Hy']%list_elem_of_filter.
    cbn [ac_ID compose]. unfold compose. cbn.
    by rewrite <- (feed_ordinal l x), <- (feed_ordinal l y) by auto.
  - apply Sorted_StronglySorted; [intros ??? ??; lia|].
    by apply Sorted_reverse, StronglySorted_Sorted.
  - by rewrite reverse_Permutation.
Qed.
End rows.

Section pool.
Context {PG : Postgres}.

(** C13: A mempool pass leaves the new snapshot and nothing of the old one:
    every row comes from the first entry of the snapshot with its key, a
    transaction both snapshots hold keeps its arrival time, and every fee
    counts confirmed and unconfirmed inputs and is never negative. A pass that
    fails changes nothing, and no pass touches the confirmed tables. *)
Theorem ReplaceMempool_swaps now new c r c' :
  ReplaceMempool now new c = (r, c') →
  match r with
  | Ok _ => replaced now new (chain_tables (c_db c)) (pool (c_db c)) (pool (c_db c')) ∧
            chain_tables (c_db c') = chain_tables (c_db c) ∧
            sync_state (c_db c') = sync_state (c_db c)
  | Err _ => c_db c' = c_db c
  end.
Proof.
  intros H. apply ReplaceMempool_atomic in H. destruct r; [|done].
  destruct H as (p & Hp & ->). split; [by apply replace_pool_replaced|done].
Qed.

(** Two passes in a row leave what the second alone would have left,
    except for the arrival times of what the first one saw. *)
Theorem ReplaceMempool_forgets now1 now2 new1 new2 d d1 d2 d2' :
  run (ReplaceMempool now1 new1) d = (Ok tt, d1) →
  run (ReplaceMempool now2 new2) d1 = (Ok tt, d2) →
  run (ReplaceMempool now2 new2) d = (Ok tt, d2') →
  mempool_outputs (pool d2) = mempool_outputs (pool d2') ∧
  mempool_spends (pool d2) = mempool_spends (pool d2') ∧
  dom (mempool_txs (pool d2)) = dom (mempool_txs (pool d2')).
Proof.
  rewrite !run_ReplaceMempool.
  destruct (replace_pool now1 new1 _ _) as [p1|] eqn:E1; [|done]. intros [= <-].
  destruct (replace_pool now2 new2 _ _) as [p2|] eqn:E2; [|done]. intros [= <-].
  destruct (replace_pool now2 new2 (chain_tables d) (pool d)) as [p3|] eqn:E3; [|done]. intros [= <-].
  apply replace_pool_replaced in E2 as [_ Et2 Eo2 Es2], E3 as [_ Et3 Eo3 Es3]. cbn. split_and!.
  - apply map_eq. intros k. by rewrite Eo2, Eo3.
  - apply map_eq. intros k. by rewrite Es2, Es3.
  - apply set_eq. intros k. by rewrite !elem_of_dom, Et2, Et3, !fmap_is_Some.
Qed.
End pool.
