(* ===== verification/ApiSpec.v ===== *)
(** * What the handlers guarantee

    A read changes no table, and an answer that is not an internal error is the
    answer of a connection that never fails; then what a handler computes on
    such a connection. *)

From S2P Require Import Prelude GoStd Json Hash OutPoint Block Registry Tables Write Ledger.
From S2P Require Import WriteSpec Read ReadSpec Activity Mempool Esplora Handlers Respond Router.
Open Scope Z_scope.

(** ** Reads *)

(** The database stays, and a result that is not the failed statement's own
    error is the result on a connection without faults. *)
Class Reads {A} (m : M A) : Prop :=
  reads : ∀ c r c', m c = (r, c') → c_db c' = c_db c ∧
    (r ≠ Err io_error → m (Conn (c_db c) []) = (r, Conn (c_db c) [])).

#[export] Instance reads_ret {A} (a : A) : Reads (mret a : M A).
Proof. intros c r c' [= <- <-]. done. Qed.

#[export] Instance reads_of_result {A} (r : result A) : Reads (of_result r).
Proof. intros c r' c' [= <- <-]. done. Qed.

#[export] Instance reads_query {A} (q : db → result A) : Reads (query q).
Proof.
  intros [d fs] r c'. unfold query, exec. cbn.
  destruct fs as [|[] fs]; [|by intros [= <- <-]|]; destruct (q d); cbn; by intros [= <- <-].
Qed.

#[export] Instance reads_bind {A B} (m : M A) (f : A → M B) :
  Reads m → (∀ a, Reads (f a)) → Reads (m ≫= f).
Proof.
  intros Hm Hf c r c'. unfold mbind, M_bind. destruct (m c) as [[a|e] c1] eqn:E.
  - intros Hfa. destruct (Hm _ _ _ E) as [Hd Hs], (Hf a _ _ _ Hfa) as [Hd' Hs'].
    rewrite Hd', Hd. split; [done|]. intros Hr. rewrite (Hs ltac:(done)), <- Hd. by apply Hs'.
  - intros [= <- <-]. destruct (Hm _ _ _ E) as [Hd Hs]. split; [done|]. intros Hr.
    rewrite Hs; [done|]. by intros [= ->].
Qed.

(** A read whose caller turns a missing row into something else. *)
#[export] Instance reads_unless_found {A B} (m : M A) (missing : M B) (ok : A → M B) :
  Reads m → Reads missing → (∀ a, Reads (ok a)) → Reads (unless_found m missing ok).
Proof.
  intros Hm Hn Ho c r c'. unfold unless_found. destruct (m c) as [[a|e] c1] eqn:E; destruct (Hm _ _ _ E) as [Hd Hs].
  - intros Ha. destruct (Ho a _ _ _ Ha) as [Hd' Hs']. rewrite Hd', Hd. split; [done|].
    intros Hr. rewrite (Hs ltac:(done)), <- Hd. by apply Hs'.
  - destruct (decide (e = ErrNotFound)) as [->|He].
    + intros Ha. destruct (Hn _ _ _ Ha) as [Hd' Hs']. rewrite Hd', Hd. split; [done|].
      intros Hr. rewrite (Hs ltac:(done)), <- Hd. by apply Hs'.
    + intros Hx. assert (r = Err e ∧ c' = c1) as [-> ->] by (destruct e; naive_solver).
      split; [done|]. intros Hr. assert (@Err A e ≠ Err io_error) as Hne by (intros [= ->]; done).
      rewrite (Hs Hne). by destruct e.
Qed.

#[export] Instance reads_each {A B} skip (f : A → M B) l :
  skip io_error = false → (∀ a, Reads (f a)) → Reads (read_each skip f l).
Proof.
  intros Hk Hf. induction l as [|x l IH]; [apply _|].
  intros c r c'. cbn. destruct (f x c) as [[b|e] c1] eqn:E; destruct (Hf x _ _ _ E) as [Hd Hs].
  - intros Hb. assert (Reads (bs ← read_each skip f l; mret (b :: bs))) as Hr by apply _.
    destruct (Hr _ _ _ Hb) as [Hd' Hs']. rewrite Hd', Hd. split; [done|].
    intros He. rewrite (Hs ltac:(done)), <- Hd. by apply Hs'.
  - destruct (skip e) eqn:Ke.
    + intros Hl. destruct (IH _ _ _ Hl) as [Hd' Hs']. rewrite Hd', Hd. split; [done|].
      intros He. assert (@Err B e ≠ Err io_error) as Hne by (intros [= ->]; congruence).
      rewrite (Hs Hne), Ke, <- Hd. by apply Hs'.
    + intros [= <- <-]. split; [done|]. intros He.
      assert (@Err B e ≠ Err io_error) as Hne by (intros [= ->]; done). by rewrite (Hs Hne), Ke.
Qed.

#[export] Hint Extern 1 (is_not_found io_error = false) => reflexivity : typeclass_instances.
#[export] Hint Extern 1 (never io_error = false) => reflexivity : typeclass_instances.

(** ** Handlers *)

Class Honest {A} (h : handler A) : Prop :=
  honest : ∀ c r c', h c = (r, c') → c_db c' = c_db c ∧
    (status_of r ≠ StatusInternalServerError → h (Conn (c_db c) []) = (r, Conn (c_db c) [])).

#[export] Instance honest_answer {A} (r : reply A) : Honest (answer r).
Proof. intros c r' c' [= <- <-]. done. Qed.

#[export] Instance honest_parsed {A B} (r : result A) (k : A → handler B) :
  (∀ a, Honest (k a)) → Honest (parsed r k).
Proof. intros Hk. destruct r; [apply Hk | apply _]. Qed.

#[export] Instance honest_with_store {A} stores (k : handler A) : Honest k → Honest (with_store stores k).
Proof. intros Hk. destruct stores; [apply Hk | apply _]. Qed.

Lemma failure_status {A} e :
  status_of (failure e : reply A) ≠ StatusInternalServerError → e = ErrUnavailable.
Proof. unfold failure. by case_bool_decide. Qed.

#[export] Instance honest_failed {A B} (m : M A) (k : A → handler B) :
  Reads m → (∀ a, Honest (k a)) → Honest (failed m k).
Proof.
  intros Hm Hk c r c'. unfold failed. destruct (m c) as [[a|e] c1] eqn:E; destruct (Hm _ _ _ E) as [Hd Hs].
  - intros Ha. destruct (Hk a _ _ _ Ha) as [Hd' Hs']. rewrite Hd', Hd. split; [done|].
    intros Hr. rewrite (Hs ltac:(done)), <- Hd. by apply Hs'.
  - intros [= <- <-]. split; [done|]. intros ->%failure_status. by rewrite (Hs ltac:(done)).
Qed.

#[export] Instance honest_notFound {A B} (m : M A) (k : A → handler B) :
  Reads m → (∀ a, Honest (k a)) → Honest (notFound m k).
Proof.
  intros Hm Hk c r c'. unfold notFound. destruct (m c) as [[a|e] c1] eqn:E; destruct (Hm _ _ _ E) as [Hd Hs].
  - intros Ha. destruct (Hk a _ _ _ Ha) as [Hd' Hs']. rewrite Hd', Hd. split; [done|].
    intros Hr. rewrite (Hs ltac:(done)), <- Hd. by apply Hs'.
  - intros Hr. assert (r = match e with ErrNotFound => WriteError StatusNotFound "not found" | _ => failure e end ∧
      c' = c1) as [-> ->] by (destruct e; naive_solver).
    split; [done|]. intros Hst.
    assert (e = ErrNotFound ∨ e = ErrUnavailable) as [-> | ->]; [|by rewrite (Hs ltac:(done))..].
    destruct e; auto; by apply failure_status in Hst.
Qed.

(** ** The reads the handlers make *)

Section handlers.
Context {PG : Postgres} `{!Base58}.

#[export] Instance reads_Tip : Reads Tip.
Proof. apply reads_query. Qed.

#[export] Instance reads_Tx txid : Reads (Tx txid).
Proof. unfold Tx, BlockAtHeight, coins. apply _. Qed.

#[export] Instance reads_MempoolTxRow txid : Reads (MempoolTxRow txid).
Proof. unfold MempoolTxRow. apply _. Qed.

#[export] Instance reads_startHeight raw : Reads (startHeight raw).
Proof. unfold startHeight. destruct (String.eqb _ _); apply _. Qed.

#[export] Instance reads_txRow txid : Reads (txRow txid).
Proof. unfold txRow. apply _. Qed.

#[export] Instance reads_next_block height : Reads (next_block height).
Proof. unfold next_block, BlockAtHeight. apply _. Qed.

#[export] Instance reads_newOutspend coin : Reads (newOutspend coin).
Proof.
  unfold newOutspend. destruct (co_SpentSource coin); [|apply _].
  destruct (co_SpentHeight coin); [|apply _]. unfold BlockAtHeight. apply _.
Qed.

#[export] Instance reads_mempoolTxs txids : Reads (mempoolTxs txids).
Proof. unfold mempoolTxs. apply _. Qed.

#[export] Instance honest_blockByHash {A} stores hash (k : BlockRow → handler A) :
  (∀ b, Honest (k b)) → Honest (blockByHash stores hash k).
Proof. unfold blockByHash, BlockByHash. apply _. Qed.

#[export] Instance honest_txid_route {A} stores txid (k : Hash → handler A) :
  (∀ b, Honest (k b)) → Honest (txid_route stores txid k).
Proof. unfold txid_route. apply _. Qed.

#[export] Instance honest_address_route {A} stores path key (k : string → list byte → handler A) :
  (∀ c b, Honest (k c b)) → Honest (address_route stores path key k).
Proof. unfold address_route. apply _. Qed.

#[export] Instance honest_addressPage first refs : Honest (addressPage first refs).
Proof. unfold addressPage. apply _. Qed.

#[export] Instance honest_addressTxs stores path key last_seen : Honest (addressTxs stores path key last_seen).
Proof.
  unfold addressTxs, History, MempoolTxidsFor. apply honest_address_route. intros column raw.
  apply honest_failed; [apply _|]. intros tip. destruct (String.eqb _ _); [apply _|].
  apply honest_parsed. intros txid. apply honest_notFound; [apply _|]. intros row.
  destruct (_ =? 0); apply _.
Qed.

#[local] Hint Extern 5 (Honest (match ?x with _ => _ end)) => destruct x : typeclass_instances.

(** Every answer of the router comes from a handler of this kind. *)
Lemma honest_any {A} `{Marshal A} (h : handler A) c r c' :
  Honest h → any h c = (r, c') → c_db c' = c_db c ∧
    (rp_status r ≠ StatusInternalServerError → any h (Conn (c_db c) []) = (r, Conn (c_db c) [])).
Proof.
  intros Hh. unfold any. destruct (h c) as [r0 c0] eqn:E. intros [= <- <-].
  destruct (Hh _ _ _ E) as [Hd Hs]. split; [done|]. rewrite respond_status. intros Hr. by rewrite (Hs Hr).
Qed.

Lemma ServeHTTP_honest stores r c a c' :
  ServeHTTP stores r c = (a, c') → c_db c' = c_db c ∧
    (rp_status a ≠ StatusInternalServerError → ServeHTTP stores r (Conn (c_db c) []) = (a, Conn (c_db c) [])).
Proof.
  destruct r; apply honest_any;
    unfold tipHeight, tipHash, blocks_route, blockHeight, block_route, blockHeader, blockStatus,
      blockTxids, blockTxid, blockTxs, blockActivity, tx_route, txStatus_route, txHex, outspends, outspend,
      addressInfo, addressUTXOs, addressMempoolTxs, addressDeposits, deposit_route,
      deposits_route, recentActivity, mempool_route, mempoolTxids, mempoolRecent;
    unfold Blocks, BlockAtHeight, BlockTxids, ActivityInBlock, Outspends, coins, Stats, MempoolStats, UTXOs,
      MempoolSpentOutpoints, MempoolUTXOs, MempoolTxidsFor, AddressDeposits, Deposits, MempoolRecent,
      Activity, MempoolSummary, MempoolTxids; apply _.
Qed.
End handlers.

(** ** Answers on a sound connection *)

Definition serve {A} (h : handler A) (d : db) : reply A := (h (Conn d [])).1.

Lemma serve_failed {A B} (m : M A) (k : A → handler B) d :
  NoFaults m →
  serve (failed m k) d = match run m d with (Ok a, d') => serve (k a) d' | (Err e, _) => failure e end.
Proof.
  intros Hm. unfold serve, failed, run. pose proof (Hm d) as Hf.
  destruct (m (Conn d [])) as [[a|e] [d' fs]]; cbn in *; by subst.
Qed.

Lemma serve_notFound {A B} (m : M A) (k : A → handler B) d :
  NoFaults m →
  serve (notFound m k) d =
  match run m d with
  | (Ok a, d') => serve (k a) d'
  | (Err ErrNotFound, _) => WriteError StatusNotFound "not found"
  | (Err e, _) => failure e
  end.
Proof.
  intros Hm. unfold serve, notFound, run. pose proof (Hm d) as Hf.
  destruct (m (Conn d [])) as [[a|e] [d' fs]]; cbn in *; [by subst | by destruct e].
Qed.

Lemma failed_json {A B} (m : M A) (k : A → handler B) d x :
  NoFaults m → Reads m → serve (failed m k) d = WriteJSON x →
  ∃ a, run m d = (Ok a, d) ∧ serve (k a) d = WriteJSON x.
Proof.
  intros Hm Hr. rewrite serve_failed by done. unfold run.
  destruct (m (Conn d [])) as [[a|e] c'] eqn:E; [|unfold failure; by case_bool_decide].
  destruct (Hr _ _ _ E) as [Hd _]. cbn in Hd. rewrite Hd. eauto.
Qed.

Lemma notFound_json {A B} (m : M A) (k : A → handler B) d x :
  NoFaults m → Reads m → serve (notFound m k) d = WriteJSON x →
  ∃ a, run m d = (Ok a, d) ∧ serve (k a) d = WriteJSON x.
Proof.
  intros Hm Hr. rewrite serve_notFound by done. unfold run.
  destruct (m (Conn d [])) as [[a|e] c'] eqn:E; [|unfold failure; destruct e; by try case_bool_decide].
  destruct (Hr _ _ _ E) as [Hd _]. cbn in Hd. rewrite Hd. eauto.
Qed.

Lemma parsed_json {A B} (r : result A) (k : A → handler B) d x :
  serve (parsed r k) d = WriteJSON x → ∃ a, r = Ok a ∧ serve (k a) d = WriteJSON x.
Proof. destruct r; [eauto | done]. Qed.

Lemma with_store_json {A} stores (k : handler A) d x :
  serve (with_store stores k) d = WriteJSON x → serve k d = WriteJSON x.
Proof. by destruct stores. Qed.

#[export] Instance no_faults_each {A B} skip (f : A → M B) l :
  (∀ a, NoFaults (f a)) → NoFaults (read_each skip f l).
Proof.
  intros Hf. induction l as [|x l IH]; [apply _|]. intros d. cbn. pose proof (Hf x d) as Hx.
  destruct (f x (Conn d [])) as [[b|e] [d' fs]]; cbn in Hx; subst.
  - assert (NoFaults (bs ← read_each skip f l; mret (b :: bs))) as Hr by apply _. apply Hr.
  - destruct (skip e); [apply IH | done].
Qed.

#[export] Instance no_faults_unless_found {A B} (m : M A) (missing : M B) (ok : A → M B) :
  NoFaults m → NoFaults missing → (∀ a, NoFaults (ok a)) → NoFaults (unless_found m missing ok).
Proof.
  intros Hm Hn Ho d. unfold unless_found. pose proof (Hm d) as H.
  destruct (m (Conn d [])) as [[a|e] [d' fs]]; cbn in H; subst; [apply Ho|].
  destruct e; [apply Hn|..]; done.
Qed.

(** ** Sums over joined tables *)

(** A join summed from either side. *)
Lemma sum_join {K} `{Countable K} {A B} (f : K → B → Z) (m1 : gmap K A) (m2 : gmap K B) :
  sum_rows (λ k _, from_option (f k) 0 (m2 !! k)) m1 =
  sum_rows (λ k b, if bool_decide (k ∈ dom m1) then f k b else 0) m2.
Proof.
  set (ks := elements (dom m1 ∪ dom m2)).
  assert (NoDup ks) as Hnd by apply NoDup_elements.
  assert (∀ k, k ∈ ks ↔ is_Some (m1 !! k) ∨ is_Some (m2 !! k)) as Hks
    by (intros k; unfold ks; by rewrite elem_of_elements, elem_of_union, !elem_of_dom).
  rewrite !(sum_rows_keys _ _ ks) by (try done; intros k a Hk Hn; destruct Hn; apply Hks; eauto).
  apply sumZ_ext. intros k _. destruct (m1 !! k) as [a|] eqn:E1, (m2 !! k) as [b|] eqn:E2; cbn; try done.
  - by rewrite bool_decide_true by (apply elem_of_dom; eauto).
  - rewrite bool_decide_false; [done|]. rewrite elem_of_dom, E1. by intros [].
Qed.

Lemma sumZ_omap {A B} (f : B → Z) (g : A → option B) l :
  sumZ f (omap g l) = sumZ (λ a, from_option f 0 (g a)) l.
Proof. induction l as [|a l IH]; [done|]. cbn. destruct (g a); cbn; lia. Qed.

Lemma sum_rows_filter {K} `{Countable K} {A} (f : A → Z) (P : K * A → Prop) `{∀ x, Decision (P x)} (m : gmap K A) :
  sum_rows (λ _ a, f a) (filter P m) = sum_rows (λ k a, if bool_decide (P (k, a)) then f a else 0) m.
Proof.
  unfold sum_rows. rewrite map_to_list_filter, sumZ_filter. apply sumZ_ext. by intros [k a] _.
Qed.

Section balance.
Context {PG : Postgres} (HP : PostgresLaws).

(** The rows of one key, weighed. *)
Definition weigh (f : Z → Z) (P : OutPointKey → output_row → Prop) `{∀ k o, Decision (P k o)} (l : ledger) : Z :=
  sum_rows (λ k o, if bool_decide (P k o) then f (o_value_sats o) else 0) (outputs l).

Lemma scan_utxo_outpoint ob : Key (u_OutPoint (scan_utxo ob)) = Key (row_outpoint ob.1).
Proof.
  destruct ob as [o b]. unfold Key. do 2 f_equal. cbn.
  unfold byte_of_Z, uint8. by rewrite Z.mod_mod by lia.
Qed.

Lemma utxos_weigh (f : Z → Z) n column key d us (Q : OutPointKey → Prop) `{∀ k, Decision (Q k)} :
  wf n (chain_tables d) → run (UTXOs column key) d = (Ok us, d) →
  sumZ (λ u, f (u_ValueSats u)) (filter (λ u, Q (Key (u_OutPoint u))) us) =
  weigh f (λ k o, Q k ∧ keyed column key o ∧ ¬ spent_row o) (chain_tables d).
Proof.
  intros W. unfold UTXOs. rewrite run_query. intros [= (u0 & _ & [= <-])%bind_ok].
  set (P := λ o, keyed column key o ∧ ¬ spent_row o). set (l := chain_tables d) in *.
  transitivity (sumZ (λ o, if bool_decide (Q (Key (row_outpoint o))) then f (o_value_sats o) else 0)
    (utxo_rows P l).*1).
  - rewrite sumZ_filter, !sumZ_fmap. apply sumZ_ext. intros [o b] _.
    by rewrite scan_utxo_outpoint.
  - rewrite (utxo_rows_perm HP n P l W), sumZ_filter. unfold weigh, sum_rows, all_outputs.
    rewrite sumZ_fmap. apply sumZ_ext. intros [k o] Hin%elem_of_map_to_list. cbn.
    destruct (wf_outputs _ _ W _ _ Hin) as [<-]. unfold P. repeat case_bool_decide; tauto.
Qed.

(** The coins of a key that the snapshot spends although the chain already has. *)
Definition spent_twice (column : string) (key : list byte) (d : db) : gmap OutPointKey output_row :=
  filter (λ ko, ko.1 ∈ dom (mempool_spends (pool d)) ∧ keyed column key ko.2 ∧ spent_row ko.2)
    (outputs (chain_tables d)).

(** What the mempool takes from the confirmed coins of a key. *)
Lemma confirmed_spends_weigh (f : Z → Z) column key d :
  sumZ (λ sv : Hash * Z, f sv.2) (omap (λ ks : OutPointKey * mempool_spend_row,
    o ← outputs (chain_tables d) !! ks.1;
    if bool_decide (keyed column key o) then Some (ms_source ks.2, o_value_sats o) else None)
    (map_to_list (mempool_spends (pool d)))) =
  weigh f (λ k o, k ∈ dom (mempool_spends (pool d)) ∧ keyed column key o ∧ ¬ spent_row o) (chain_tables d) +
  sum_rows (λ _ o, f (o_value_sats o)) (spent_twice column key d).
Proof.
  unfold spent_twice. rewrite sumZ_omap, sum_rows_filter. unfold weigh. rewrite <- sum_rows_plus.
  transitivity (sum_rows (λ k (_ : mempool_spend_row),
    from_option (λ o, if bool_decide (keyed column key o) then f (o_value_sats o) else 0) 0
      (outputs (chain_tables d) !! k)) (mempool_spends (pool d))).
  - apply sumZ_ext. intros [k s] _. cbn. destruct (outputs _ !! k); cbn; [|done]. by case_bool_decide.
  - rewrite (sum_join (λ _ o, if bool_decide (keyed column key o) then f (o_value_sats o) else 0)).
    apply sum_rows_ext. intros k o _. cbn [fst snd]. repeat case_bool_decide; tauto || lia.
Qed.
(** The rows of the snapshot, weighed. *)
Definition pool_weigh (f : Z → Z) (P : OutPointKey → mempool_output_row → Prop) `{∀ k o, Decision (P k o)}
    (p : mempool_tables) : Z :=
  sum_rows (λ k o, if bool_decide (P k o) then f (mo_value_sats o) else 0) (mempool_outputs p).

Lemma pending_spends_weigh (f : Z → Z) column key p :
  sumZ (λ sv : Hash * Z, f sv.2) (omap (λ ks : OutPointKey * mempool_spend_row,
    o ← mempool_outputs p !! ks.1;
    if bool_decide (mkeyed column key o) then Some (ms_source ks.2, mo_value_sats o) else None)
    (map_to_list (mempool_spends p))) =
  pool_weigh f (λ k o, k ∈ dom (mempool_spends p) ∧ mkeyed column key o) p.
Proof.
  rewrite sumZ_omap.
  transitivity (sum_rows (λ k (_ : mempool_spend_row),
    from_option (λ o, if bool_decide (mkeyed column key o) then f (mo_value_sats o) else 0) 0
      (mempool_outputs p !! k)) (mempool_spends p)).
  - apply sumZ_ext. intros [k s] _. cbn. destruct (mempool_outputs p !! k); cbn; [|done]. by case_bool_decide.
  - rewrite (sum_join (λ _ o, if bool_decide (mkeyed column key o) then f (mo_value_sats o) else 0)).
    apply sum_rows_ext. intros k o _. repeat case_bool_decide; tauto.
Qed.

Lemma pending_utxos_weigh (f : Z → Z) column key d us :
  run (MempoolUTXOs column key) d = (Ok us, d) →
  sumZ (λ u, f (u_ValueSats u)) us =
  pool_weigh f (λ k o, (k ∉ dom (mempool_spends (pool d))) ∧ mkeyed column key o) (pool d).
Proof.
  unfold MempoolUTXOs. rewrite run_query. intros [= (u0 & _ & H)%bind_ok].
  assert ((u_ValueSats <$> us) = (mo_value_sats <$> pending_utxo_rows column key (pool d))) as E.
  { eapply (traverse_map scan_mempool_utxo); [|done]. intros i o u Hu. unfold scan_mempool_utxo in Hu.
    apply bind_ok in Hu as (x & _ & [= <-]). done. }
  rewrite <- (sumZ_fmap f u_ValueSats), E, sumZ_fmap. unfold pending_utxo_rows.
  rewrite merge_sort_Permutation, sumZ_fmap, scan_perm.
  transitivity (sum_rows (λ _ o, f (mo_value_sats o))
    (filter (λ ko, mkeyed column key ko.2 ∧ mempool_spends (pool d) !! ko.1 = None) (mempool_outputs (pool d)))).
  - done.
  - rewrite sum_rows_filter. apply sum_rows_ext. intros k o _. rewrite (bool_decide_ext _ ((k ∉ dom (mempool_spends (pool d))) ∧ mkeyed column key o)); [done|].
    cbn. rewrite not_elem_of_dom. tauto.
Qed.
End balance.

(** ** A balance with its unconfirmed part *)

Lemma sumZ_length {A} (l : list A) : sumZ (λ _, 1) l = Z.of_nat (length l).
Proof. induction l; cbn; lia. Qed.

Lemma sum_rows_size {K} `{Countable K} {A} (m : gmap K A) : sum_rows (λ _ _, 1) m = Z.of_nat (size m).
Proof. rewrite (sum_rows_list (λ _, 1)), sumZ_length. by rewrite size_list. Qed.

Lemma pool_weigh_split (f : Z → Z) (P : OutPointKey → mempool_output_row → Prop) `{∀ k o, Decision (P k o)}
    (s : gset OutPointKey) p :
  pool_weigh f (λ k o, k ∈ s ∧ P k o) p + pool_weigh f (λ k o, (k ∉ s) ∧ P k o) p =
  pool_weigh f P p.
Proof.
  unfold pool_weigh. rewrite <- sum_rows_plus. apply sum_rows_ext. intros k o _.
  repeat case_bool_decide; try tauto; lia.
Qed.

(** What the snapshot adds to a key and takes from it, weighed by [f]: its own
    unspent coins, less the confirmed coins it spends, those the chain has spent
    too included. *)
Lemma pending_weigh (f : Z → Z) column key d :
  sum_rows (λ _ o, f (mo_value_sats o)) (pending_funded column key (pool d)) -
  sumZ (λ sv : Hash * Z, f sv.2) (pending_spent column key (chain_tables d) (pool d)) =
  pool_weigh f (λ k o, (k ∉ dom (mempool_spends (pool d))) ∧ mkeyed column key o) (pool d) -
  weigh f (λ k o, k ∈ dom (mempool_spends (pool d)) ∧ keyed column key o ∧ ¬ spent_row o) (chain_tables d) -
  sum_rows (λ _ o, f (o_value_sats o)) (spent_twice column key d).
Proof.
  unfold pending_funded, pending_spent.
  rewrite sumZ_app, (confirmed_spends_weigh f column key d), pending_spends_weigh, sum_rows_filter.
  pose proof (pool_weigh_split f (λ _ o, mkeyed column key o) (dom (mempool_spends (pool d))) (pool d)) as Hs.
  unfold pool_weigh in Hs at 3. cbn [fst snd]. lia.
Qed.

(** ** Loops of reads *)

(** Every element reads or is dropped, and the answer holds what was read, in
    order. *)
Lemma read_each_ok {A B} skip (f : A → M B) l d ys :
  (∀ a, NoFaults (f a)) → (∀ a, Reads (f a)) →
  run (read_each skip f l) d = (Ok ys, d) →
  ys = omap (λ x, match run (f x) d with (Ok y, _) => Some y | (Err _, _) => None end) l ∧
  ∀ x, x ∈ l → (∃ y, run (f x) d = (Ok y, d)) ∨ (∃ e, skip e = true ∧ run (f x) d = (Err e, d)).
Proof.
  intros Hn Hr. revert ys. induction l as [|x l IH]; intros ys H.
  { injection H as <-. split; [done|]. set_solver. }
  assert (NoFaults (read_each skip f l)) as Hnl by apply _.
  cbn [read_each] in H. unfold run in H. pose proof (Hn x d) as Hf.
  destruct (f x (Conn d [])) as [r [d' fs]] eqn:E; cbn in Hf; subst fs.
  destruct (Hr x _ _ _ E) as [Hd _]. cbn in Hd. subst d'.
  assert (run (f x) d = (r, d)) as Ef by (unfold run; by rewrite E).
  destruct r as [y|e].
  - change (run (bs ← read_each skip f l; mret (y :: bs)) d = (Ok ys, d)) in H.
    rewrite run_bind in H by done. destruct (run (read_each skip f l) d) as [[bs|e] d1] eqn:El; [|done].
    injection H as <- ->. destruct (IH bs eq_refl) as [-> Hl]. cbn [omap list_omap]. rewrite Ef.
    split; [done|]. intros z [->|Hz]%elem_of_cons; [left; by eexists|by apply Hl].
  - destruct (skip e) eqn:Ke; [|done].
    destruct (IH ys H) as [-> Hl]. cbn [omap list_omap]. rewrite Ef.
    split; [done|]. intros z [->|Hz]%elem_of_cons; [right; by exists e|by apply Hl].
Qed.

Lemma length_omap_le {A B} (f : A → option B) l : (length (omap f l) ≤ length l)%nat.
Proof. induction l as [|a l IH]; [done|]. cbn. destruct (f a); cbn; lia. Qed.

(** A loop that drops nothing reads every element. *)
Lemma read_each_all {A B} (f : A → M B) l d ys :
  (∀ a, NoFaults (f a)) → (∀ a, Reads (f a)) →
  run (read_each never f l) d = (Ok ys, d) → Forall2 (λ x y, run (f x) d = (Ok y, d)) l ys.
Proof.
  intros Hn Hr H. apply read_each_ok in H as [-> Hl]; [|done..].
  induction l as [|x l IH]; [done|]. cbn [omap list_omap].
  destruct (Hl x) as [[y Hy]|(e & [=] & _)]; [by left|]. rewrite Hy. constructor; [done|].
  apply IH. intros z Hz. apply Hl. by right.
Qed.

(** ** One transaction *)

Section one_tx.
Context {PG : Postgres}.

#[export] Instance no_faults_Tx txid : NoFaults (Tx txid).
Proof. unfold Tx, BlockAtHeight, coins. apply _. Qed.

#[export] Instance no_faults_MempoolTxRow txid : NoFaults (MempoolTxRow txid).
Proof. unfold MempoolTxRow. apply _. Qed.

#[export] Instance no_faults_newOutspend coin : NoFaults (newOutspend coin).
Proof.
  unfold newOutspend. destruct (co_SpentSource coin); [|apply _].
  destruct (co_SpentHeight coin); [|apply _]. unfold BlockAtHeight. apply _.
Qed.

Lemma run_BlockAtHeight h d :
  run (BlockAtHeight h) d =
  (b ← of_option ErrNotFound (blocks (chain_tables d) !! int32 h); scanBlock (chain_tables d) (int32 h, b), d).
Proof. unfold BlockAtHeight. by rewrite run_query. Qed.

(** A transaction the index holds, read whole. *)
Lemma run_Tx n txid d t :
  wf n (chain_tables d) → n ≤ 2^31 → txs (chain_tables d) !! txid = Some t →
  ∃ b, blocks (chain_tables d) !! t_height t = Some b ∧
    run (Tx txid) d =
    (block ← scanBlock (chain_tables d) (t_height t, b);
     Ok {| tx_Txid := txid; tx_Height := t_height t; tx_Index := t_tx_index t;
           tx_SizeBytes := t_size_bytes t; tx_FeeSats := t_fee_sats t; tx_Raw := t_raw t;
           tx_Block := Some block;
           tx_Vin := scan_coin <$> output_rows (spent_by_tx txid) spent_vin (chain_tables d);
           tx_Vout := scan_coin <$> output_rows (created_by_tx txid) o_vout (chain_tables d);
           tx_Unconfirmed := false |}, d).
Proof.
  intros W Hn Ht. pose proof (wf_txs _ _ W _ _ Ht) as [Hh _].
  destruct (proj2 (wf_blocks _ _ W (t_height t)) Hh) as [b Hb]. exists b. split; [done|].
  unfold Tx. rewrite run_bind, run_query, Ht by apply _. cbn [of_option].
  rewrite run_bind, run_BlockAtHeight by (unfold BlockAtHeight; apply _).
  rewrite (uint32_small (t_height t)) by (unfold is_u32; lia). rewrite int32_nonneg by lia. rewrite Hb.
  cbn [of_option mbind result_bind]. destruct (scanBlock _ _) as [row|e]; [|done].
  unfold coins. rewrite run_bind, run_query by apply _. rewrite run_bind, run_query by apply _. done.
Qed.

Lemma run_Tx_missing txid d :
  txs (chain_tables d) !! txid = None → run (Tx txid) d = (Err ErrNotFound, d).
Proof.
  intros Ht. unfold Tx. rewrite run_bind, run_query, Ht by apply _. done.
Qed.

Lemma Tx_row txid d row d' :
  run (Tx txid) d = (Ok row, d') →
  ∃ t, txs (chain_tables d) !! txid = Some t ∧ tx_Txid row = txid ∧ tx_Height row = uint32 (t_height t).
Proof.
  unfold Tx, BlockAtHeight, coins. rewrite run_bind, run_query by apply _.
  destruct (txs (chain_tables d) !! txid) as [t|]; [|done]. cbn [of_option].
  rewrite run_bind, run_query by apply _. cbn [run]. set (b := mbind _ _). destruct b; [|done].
  rewrite !run_bind, run_query by apply _. rewrite run_bind, run_query by apply _. intros [= <- <-]. by exists t.
Qed.

Lemma run_MempoolTxRow txid d :
  run (MempoolTxRow txid) d =
  (t ← of_option ErrNotFound (mempool_txs (pool d) !! txid);
   Ok {| tx_Txid := txid; tx_Height := 0; tx_Index := mp_tx_index t;
         tx_SizeBytes := mp_size_bytes t; tx_FeeSats := mp_fee_sats t; tx_Raw := mp_raw t;
         tx_Block := None; tx_Vin := mempool_vin txid (chain_tables d) (pool d);
         tx_Vout := mempool_vout txid (pool d); tx_Unconfirmed := true |}, d).
Proof.
  unfold MempoolTxRow. rewrite run_bind, run_query by apply _.
  destruct (mempool_txs (pool d) !! txid); [|done]. cbn [of_option mbind result_bind].
  rewrite run_bind, run_query by apply _. by rewrite run_bind, run_query by apply _.
Qed.
End one_tx.
