(* ===== verification/ApiProps.v ===== *)
(** * The contract of the API

    What a client may rely on: an answer is never a mix of a failed read and a
    good one, the balance of an address is what its coins add up to, and pages
    follow each other without a gap where the code keeps that promise. *)

From S2P Require Import Prelude GoStd Json Hash OutPoint Block Registry Tables Write Ledger.
From S2P Require Import WriteSpec Read ReadSpec Activity Mempool Esplora Handlers Respond Router ApiSpec StoreProps.
Open Scope Z_scope.

Section api.
Context {PG : Postgres} (HP : PostgresLaws) {B58 : Base58}.

(** No request changes the database; without a store every request answers
    503 and reads nothing; and an answer that is no internal error is the
    answer the same tables give when no statement fails. *)
Theorem ServeHTTP_safe stores r c a c' :
  ServeHTTP stores r c = (a, c') →
  c_db c' = c_db c ∧
  (∀ e, stores = Err e → rp_status a = StatusServiceUnavailable ∧ c' = c) ∧
  (rp_status a ≠ StatusInternalServerError →
     ServeHTTP stores r (Conn (c_db c) []) = (a, Conn (c_db c) [])).
Proof.
  intros H. destruct (ServeHTTP_honest stores r c a c' H) as [Hd Hs]. split_and!; [done| |done].
  intros e ->. by destruct r; injection H as <- <-.
Qed.

(** ** Balances *)

Lemma addressInfo_json stores path key d info :
  serve (addressInfo stores path key) d = WriteJSON info →
  ∃ ck s p, addressKey path key = Ok ck ∧
    run (Stats ck.1 ck.2) d = (Ok s, d) ∧ run (MempoolStats ck.1 ck.2) d = (Ok p, d) ∧
    ChainStats info = newTxoStats s ∧ MempoolStats_ info = newTxoStats p.
Proof.
  unfold addressInfo, address_route, Stats, MempoolStats.
  intros (ck & Hck & (s & Hs & (p & Hp & [= <-])%failed_json)%failed_json)%with_store_json%parsed_json;
    [|apply _..].
  by exists ck, s, p.
Qed.

Lemma addressUTXOs_json stores path key d us :
  serve (addressUTXOs stores path key) d = WriteJSON us →
  ∃ ck rows pending, addressKey path key = Ok ck ∧
    run (UTXOs ck.1 ck.2) d = (Ok rows, d) ∧ run (MempoolUTXOs ck.1 ck.2) d = (Ok pending, d) ∧
    us = (newUTXO <$> still_unspent (dom (mempool_spends (pool d))) rows) ++ (newUTXO <$> pending).
Proof.
  unfold addressUTXOs, address_route, UTXOs, MempoolUTXOs, MempoolSpentOutpoints.
  intros (ck & Hck & (rows & Hr & (spent & Hs & (p & Hp & [= <-])%failed_json)%failed_json)%failed_json)%with_store_json%parsed_json;
    [|apply _..].
  rewrite run_query in Hs. injection Hs as <-. by exists ck, rows, p.
Qed.

(** C14: The balance of an address: what the chain and the unconfirmed set funded,
    less what both spent, is what the listed coins of the address hold, in number and
    in value, less the coins that a pending transaction spends although the chain has
    already spent them. A snapshot that is no older than the chain has no such spend,
    and then the balance is what the coins hold; an older one may, and the balance is
    short by exactly those coins. *)
Theorem address_balance n stores path key d info us column raw :
  wf n (chain_tables d) → addressKey path key = Ok (column, raw) →
  serve (addressInfo stores path key) d = WriteJSON info →
  serve (addressUTXOs stores path key) d = WriteJSON us →
  let chain := ChainStats info in let pending := MempoolStats_ info in
  let value := FundedTxoSum chain + FundedTxoSum pending - (SpentTxoSum chain + SpentTxoSum pending) in
  let count := FundedTxoCount chain + FundedTxoCount pending - (SpentTxoCount chain + SpentTxoCount pending) in
  let stale := spent_twice column raw d in
  value = sumZ utxo_Value us - sum_rows (λ _ o, o_value_sats o) stale ∧
  count = Z.of_nat (length us) - Z.of_nat (size stale) ∧
  ((∀ k s o, mempool_spends (pool d) !! k = Some s → outputs (chain_tables d) !! k = Some o → ¬ spent_row o) →
   value = sumZ utxo_Value us ∧ count = Z.of_nat (length us)).
Proof.
  intros W Hkey (ck & s & p & Hck & Hs & Hp & -> & ->)%addressInfo_json
    (ck' & rows & pending & Hck' & Hrows & Hpend & ->)%addressUTXOs_json.
  rewrite Hkey in Hck, Hck'. injection Hck as <-. injection Hck' as <-. cbn [fst snd] in *.
  destruct (balance HP n column raw d s rows W Hs Hrows) as [Hsum Hcount].
  assert (∀ f, sumZ (λ u, f (utxo_Value u)) ((newUTXO <$> still_unspent (dom (mempool_spends (pool d))) rows) ++
      (newUTXO <$> pending)) =
    sumZ (λ u, f (u_ValueSats u)) rows +
    (sum_rows (λ _ o, f (mo_value_sats o)) (pending_funded column raw (pool d)) -
     sumZ (λ sv : Hash * Z, f sv.2) (pending_spent column raw (chain_tables d) (pool d))) +
    sum_rows (λ _ o, f (o_value_sats o)) (spent_twice column raw d)) as Hw.
  { intros f. rewrite (pending_weigh f column raw d), sumZ_app, !sumZ_fmap. cbn [utxo_Value newUTXO].
    rewrite (pending_utxos_weigh HP f column raw d pending Hpend).
    rewrite <- (utxos_weigh HP f n column raw d rows (λ k, k ∈ dom (mempool_spends (pool d))) W Hrows).
    rewrite <- (sumZ_split (λ u : UTXO, Key (u_OutPoint u) ∈ dom (mempool_spends (pool d)))
      (λ u, f (u_ValueSats u)) rows).
    unfold still_unspent. set (spent := sumZ _ (filter _ rows)). set (kept := sumZ _ (filter _ rows)).
    set (mine := pool_weigh _ _ _). lia. }
  unfold MempoolStats in Hp. rewrite run_query in Hp. injection Hp as (u & _ & (fs & [-> _]%scan_int64_ok &
    (ss & [-> _]%scan_int64_ok & [= <-])%bind_ok)%bind_ok)%bind_ok.
  cbn [newTxoStats FundedTxoSum SpentTxoSum FundedTxoCount SpentTxoCount FundedSum SpentSum FundedCount SpentCount].
  set (stale := spent_twice column raw d) in *. pose proof (Hw (λ _, 1)) as Hn. cbn beta in Hn.
  set (us := (newUTXO <$> still_unspent _ rows) ++ (newUTXO <$> pending)) in *.
  assert (sumZ utxo_Value us = sumZ u_ValueSats rows +
    (sum_rows (λ _ o, mo_value_sats o) (pending_funded column raw (pool d)) -
     sumZ snd (pending_spent column raw (chain_tables d) (pool d))) +
    sum_rows (λ _ o, o_value_sats o) stale) as Hv by exact (Hw (λ x, x)).
  rewrite (sumZ_length us), !sum_rows_size, !sumZ_length in Hn.
  assert ((∀ k s o, mempool_spends (pool d) !! k = Some s → outputs (chain_tables d) !! k = Some o → ¬ spent_row o) →
    stale = ∅) as Hfresh.
  { intros Hu. apply map_empty_filter. intros k o Ho [[sp Hsp]%elem_of_dom [_ Hsr]]. by destruct (Hu k sp o Hsp Ho). }
  split_and!; [lia|lia|]. intros ->%Hfresh. split; [|].
  - rewrite sum_rows_empty in Hv. lia.
  - rewrite map_size_empty in Hn. lia.
Qed.

(** ** Pages of a block *)




(** ** Pages of an address *)

Lemma addressTxs_json stores path key cursor d txid t rows :
  cursor ≠ EmptyString → ParseHash cursor = Ok txid → txs (chain_tables d) !! txid = Some t →
  serve (addressTxs stores path key cursor) d = WriteJSON rows →
  ∃ ck, addressKey path key = Ok ck ∧
    ((uint32 (t_height t) = 0 ∧ rows = []) ∨
     uint32 (t_height t) ≠ 0 ∧
     ∃ refs ts, run (History ck.1 ck.2 (uint32 (uint32 (t_height t) - 1)) PageSize) d = (Ok refs, d) ∧
       run (read_each is_not_found (λ ref, Tx (r_Txid ref)) refs) d = (Ok ts, d) ∧ rows = newTx <$> ts).
Proof.
  intros Hc Hp Ht. unfold addressTxs, address_route, addressPage, History.
  apply String.eqb_neq in Hc. rewrite Hc, Hp.
  intros (ck & Hck & (tip & Htip & (row & Hrow & H)%notFound_json)%failed_json)%with_store_json%parsed_json;
    [|apply _..].
  exists ck. split; [done|].
  assert (tx_Height row = uint32 (t_height t)) as Hh
    by (apply Tx_row in Hrow as (t' & ? & _ & ->); by simplify_eq).
  rewrite <- Hh. destruct (Z.eqb_spec (tx_Height row) 0).
  - left. by injection H as <-.
  - right. split; [done|]. apply failed_json in H as (refs & Hrefs & (ts & Hts & [= <-])%failed_json); [|apply _..]. by exists refs, ts.
Qed.
(** What a history page names lies at or below the height asked for. *)
Lemma History_sound n column key before limit d refs :
  wf n (chain_tables d) → n ≤ 2^31 → is_u32 before →
  run (History column key before limit) d = (Ok refs, d) →
  (length refs ≤ limit)%nat ∧
  ∀ r, r ∈ refs → ∃ h k o, h ≤ before ∧ outputs (chain_tables d) !! k = Some o ∧ keyed column key o ∧
    (r_Txid r, h) ∈ touches o.
Proof.
  intros W Hn Hb. unfold History. rewrite run_query. intros [= (u0 & _ & [= <-])%bind_ok]. split.
  - rewrite length_fmap, length_take. lia.
  - intros r ([id h] & -> & (? & Hin%list_elem_of_lookup_2 & _)%elem_of_take)%list_elem_of_fmap.
    apply (history_refs_elem HP) in Hin as [Hle (k & o & Ho & Hk & Ht)].
    pose proof (clampHeight_range before Hb) as [Hc _]. exists h, k, o. split_and!; [lia|done..].
Qed.

(** C26: A page of an address history that starts from a cursor holds at most 25
    transactions, each of which touched the address strictly below the block of
    the cursor. So a transaction of the cursor's own block is on no later page,
    also when the page before was cut in the middle of that block. *)
Theorem addressTxs_cursor n stores path key cursor d txid t column raw rows :
  let touched id h := ∃ k o, outputs (chain_tables d) !! k = Some o ∧ keyed column raw o ∧
                             (id, h) ∈ touches o in
  wf n (chain_tables d) → n ≤ 2^31 →
  cursor ≠ EmptyString → ParseHash cursor = Ok txid → txs (chain_tables d) !! txid = Some t →
  addressKey path key = Ok (column, raw) →
  serve (addressTxs stores path key cursor) d = WriteJSON rows →
  (length rows ≤ 25)%nat ∧
  (∀ a, a ∈ rows → ∃ id h, api_Txid a = Hash_String id ∧ h < t_height t ∧ touched id h) ∧
  (∀ id, (∀ h, touched id h → t_height t ≤ h) → Hash_String id ∉ api_Txid <$> rows).
Proof.
  intros touched W Hn Hc Hp Ht Hck Hj.
  destruct (addressTxs_json stores path key cursor d txid t rows Hc Hp Ht Hj) as (ck & Hck' & Hrows).
  rewrite Hck in Hck'. injection Hck' as <-. cbn [fst snd] in Hrows.
  pose proof (wf_txs _ _ W _ _ Ht) as [Hh _]. rewrite (uint32_small (t_height t)) in Hrows by (unfold is_u32; lia).
  assert ((length rows ≤ 25)%nat ∧
    ∀ a, a ∈ rows → ∃ id h, api_Txid a = Hash_String id ∧ h < t_height t ∧ touched id h) as [Hlen Hin].
  { destruct Hrows as [[_ ->]|(Hne & refs & ts & Hrefs & Hts & ->)]; [split; [cbn; lia|set_solver]|].
    apply read_each_ok in Hts as [-> _]; [|apply _..].
    rewrite uint32_small in Hrefs by (unfold is_u32; lia).
    apply (History_sound n) in Hrefs as [Hl Hr]; [|done|done|unfold is_u32; lia]. split.
    - rewrite length_fmap. etransitivity; [apply length_omap_le|]. done.
    - intros a (row & -> & (ref & Href & Hrow)%list_elem_of_omap)%list_elem_of_fmap.
      destruct (run (Tx (r_Txid ref)) d) as [[row'|] d'] eqn:E; [|done]. injection Hrow as ->.
      apply Tx_row in E as (t' & _ & Hid & _).
      destruct (Hr ref Href) as (h & k & o & Hle & Htouch). exists (r_Txid ref), h.
      split_and!; [cbn; by rewrite Hid|lia|by exists k, o]. }
  split_and!; [done..|]. intros id Hid (a & Ha & Hina)%list_elem_of_fmap.
  destruct (Hin a Hina) as (id' & h & Ha' & Hlt & Htouch). rewrite Ha' in Ha.
  assert (id = id') as -> by (apply (f_equal ParseHash) in Ha; rewrite !ParseHash_String in Ha; by injection Ha).
  specialize (Hid h Htouch). lia.
Qed.
(** ** Transactions *)

Lemma serve_txRow txid d :
  serve (tx_route (Ok tt) (Hash_String txid)) d =
  match run (Tx txid) d with
  | (Ok row, _) => WriteJSON (newTx row)
  | (Err ErrNotFound, d') =>
      match run (MempoolTxRow txid) d' with
      | (Ok row, _) => WriteJSON (newTx row)
      | (Err ErrNotFound, _) => WriteError StatusNotFound "not found"
      | (Err e, _) => failure e
      end
  | (Err e, _) => failure e
  end.
Proof.
  unfold tx_route, txid_route, with_store. rewrite ParseHash_String. cbn [parsed].
  rewrite serve_notFound by (unfold txRow; apply _). unfold txRow, unless_found, run.
  pose proof (no_faults_Tx txid d) as Hf.
  destruct (Tx txid (Conn d [])) as [[row|e] [d' fs]]; [done|]. cbn in Hf. subst fs.
  by destruct e.
Qed.

(** C28: A transaction is answered from its block when one carries it, with the
    status of that block, its fee and its outputs; else from the unconfirmed
    set, as unconfirmed; else with 404. A block always wins over the snapshot. *)
Theorem tx_route_answers n txid d :
  wf n (chain_tables d) → n ≤ 2^31 →
  let l := chain_tables d in
  let r := serve (tx_route (Ok tt) (Hash_String txid)) d in
  match txs l !! txid, mempool_txs (pool d) !! txid with
  | Some t, _ =>
      is_i64 (block_fees l (t_height t)) → is_i64 (block_value l (t_height t)) →
      ∃ a b, r = WriteJSON a ∧ api_Txid a = Hash_String txid ∧ Fee a = t_fee_sats t ∧
        blocks l !! t_height t = Some b ∧
        tx_Status a = newStatus (t_height t) (b_hash b) (b_block_time b) ∧
        vout_Value <$> api_Vout a = o_value_sats <$> output_rows (created_by_tx txid) o_vout l
  | None, Some t =>
      ∃ a, r = WriteJSON a ∧ api_Txid a = Hash_String txid ∧ Fee a = mp_fee_sats t ∧
        tx_Status a = pendingStatus
  | None, None => r = WriteError StatusNotFound "not found"
  end.
Proof.
  intros W Hn l r. subst r. rewrite serve_txRow.
  destruct (txs l !! txid) as [t|] eqn:Ht.
  - intros Hf Hv. destruct (run_Tx n txid d t W Hn Ht) as (b & Hb & ->). fold l. cbn [scanBlock].
    rewrite (proj2 (scan_int64_ok _ _) (conj eq_refl Hf)). cbn [mbind result_bind].
    rewrite (proj2 (scan_int64_ok _ _) (conj eq_refl Hv)). cbn [mbind result_bind].
    eexists _, b. split_and!; [done..|]. cbn. by rewrite <- !list_fmap_compose.
  - rewrite (run_Tx_missing txid d Ht), run_MempoolTxRow.
    destruct (mempool_txs (pool d) !! txid) as [t|]; [|done]. by eexists.
Qed.

(** ** Spent outputs *)

Definition spend_kind (s : spent_cols) : string :=
  if bool_decide (uint8 (sp_kind s) = SpendWithdrawal) then "withdrawal_bundle"
  else if bool_decide (uint8 (sp_kind s) = SpendMarket) then "market" else "transaction".

(** What the API says of a coin. *)
Definition outspend_of (l : ledger) (o : output_row) (s : Outspend) : Prop :=
  os_Vin s = None ∧
  match o_spent o with
  | None => Spent s = false ∧ os_Status s = None ∧ SpentBy s = EmptyString
  | Some sp =>
      Spent s = true ∧ SpentBy s = spend_kind sp ∧
      ∃ b, blocks l !! sp_height sp = Some b ∧
        os_Status s = Some (newStatus (sp_height sp) (b_hash b) (b_block_time b))
  end.

Lemma spent_by_fields coin source :
  Spent (spent_by coin source) = true ∧ os_Vin (spent_by coin source) = None.
Proof. unfold spent_by. by repeat case_bool_decide. Qed.

Lemma spent_by_kind o sp :
  o_spent o = Some sp → SpentBy (spent_by (scan_coin o) (sp_source sp)) = spend_kind sp.
Proof.
  intros Es. unfold spent_by, spend_kind, scan_coin. rewrite Es. cbn.
  repeat case_bool_decide; simplify_eq; try done;
    match goal with H : Some _ ≠ Some _ |- _ => destruct H; by f_equal end.
Qed.

Lemma scanBlock_found l hb : scanBlock l hb ≠ Err ErrNotFound.
Proof.
  destruct hb as [h b]. unfold scanBlock, scan_int64.
  destruct (bool_decide (is_i64 (block_fees l h))); [|done].
  by destruct (bool_decide (is_i64 (block_value l h))).
Qed.

Lemma run_newOutspend n k o d s :
  wf n (chain_tables d) → n ≤ 2^31 → outputs (chain_tables d) !! k = Some o →
  run (newOutspend (scan_coin o)) d = (Ok s, d) → outspend_of (chain_tables d) o s.
Proof.
  intros W Hn Ho. pose proof (wf_outputs _ _ W k o Ho) as Hok. unfold newOutspend, outspend_of.
  destruct (o_spent o) as [sp|] eqn:Es; cbn [scan_coin co_SpentSource co_SpentHeight]; rewrite Es;
    cbn [fmap option_fmap option_map]; [|intros H; by injection H as <-].
  pose proof (ok_spent _ _ _ _ Hok sp Es) as Hh. pose proof (ok_height _ _ _ _ Hok) as Hh0.
  rewrite (uint32_small (sp_height sp)) by (unfold is_u32; lia).
  destruct (proj2 (wf_blocks _ _ W (sp_height sp))) as [b Hb]; [lia|].
  unfold unless_found, run. pose proof (run_BlockAtHeight (sp_height sp) d) as Hr. unfold run in Hr.
  destruct (BlockAtHeight (sp_height sp) (Conn d [])) as [r [d' fs]]. cbn in Hr.
  rewrite int32_nonneg, Hb in Hr by lia. injection Hr as Hr ->.
  destruct (spent_by_fields (scan_coin o) (sp_source sp)) as [E1 E2].
  pose proof (spent_by_kind o sp Es) as E3.
  destruct r as [row|e].
  - intros [= <-]. symmetry in Hr. apply bind_ok in Hr as (f & _ & (v & _ & [= <-])%bind_ok).
    cbn. rewrite (uint32_small (sp_height sp)) by (unfold is_u32; lia). split; [done|].
    split_and!; [done..|]. by exists b.
  - destruct e; try done. by destruct (scanBlock_found (chain_tables d) (sp_height sp, b) (eq_sym Hr)).
Qed.
(** C29: The outspends of a transaction are its outputs in [vout] order, each
    reported spent exactly when it is, with the kind of the spender and the
    block of the spend. The answer never names the spending input. *)
Theorem outspends_report n txid d out :
  let l := chain_tables d in
  wf n l → n ≤ 2^31 →
  serve (outspends (Ok tt) (Hash_String txid)) d = WriteJSON out →
  ∃ rows, rows ≡ₚ filter (created_by_tx txid) (all_outputs l) ∧
    StronglySorted (λ a b, o_vout a ≤ o_vout b) rows ∧ Forall2 (outspend_of l) rows out.
Proof.
  intros l W Hn. unfold outspends, txid_route, with_store, Outspends, coins. rewrite ParseHash_String. cbn [parsed].
  intros (cs & Hcs & (ss & Hss & [= <-])%failed_json)%failed_json; [|apply _..].
  rewrite run_query in Hcs. injection Hcs as <-.
  exists (output_rows (created_by_tx txid) o_vout l).
  assert (output_rows (created_by_tx txid) o_vout l ≡ₚ filter (created_by_tx txid) (all_outputs l)) as Hp.
  { unfold output_rows, all_outputs. rewrite merge_sort_Permutation. apply filter_Permutation. by rewrite scan_perm. }
  split_and!; [done|apply StronglySorted_merge_sort; apply _|].
  apply read_each_all, Forall2_fmap_l in Hss; [|apply _..].
  eapply Forall2_impl_elem; [exact Hss|]. intros o s Hin Hs.
  rewrite Hp in Hin. apply list_elem_of_filter in Hin as [_ Hin].
  apply all_outputs_elem in Hin as [k Hk]. by eapply run_newOutspend.
Qed.

(** ** Malformed heights *)

(** A height that is no number is the client's error on /block-height, which
    answers 400; the lists that take a start height answer the same text with
    500. *)
Theorem start_height_refused raw d :
  raw ≠ EmptyString → parse_uint 32 raw = None →
  status_of (serve (blockHeight (Ok tt) raw) d) = StatusBadRequest ∧
  serve (blocks_route (Ok tt) raw) d = WriteError StatusInternalServerError "the request failed" ∧
  serve (deposits_route (Ok tt) raw) d = WriteError StatusInternalServerError "the request failed".
Proof.
  intros Hr Hp. apply String.eqb_neq in Hr.
  unfold serve, blockHeight, blocks_route, deposits_route, with_store, failed, startHeight, of_result, parseUint32.
  by rewrite Hr, Hp.
Qed.
(** ** Deposits *)

Lemma parse_mainchain_hex l :
  parse_mainchain_txid (hex_encode l) = parse_BitcoinHash (hex_encode l).
Proof. unfold parse_mainchain_txid. by rewrite json_unquote_hex. Qed.

Lemma no_deposits n src limit d :
  wf n (chain_tables d) → src ≠ [] →
  (∀ k o, outputs (chain_tables d) !! k = Some o → o_kind o = KindDeposit → bytes (o_source_id o) ≠ src) →
  run (Deposits src MaxUint32 limit) d = (Ok [], d).
Proof.
  intros W Hs Hno. unfold Deposits. rewrite run_query. do 2 f_equal.
  set (rows := utxo_rows _ _). assert (rows = []) as ->; [|by rewrite take_nil].
  apply elem_of_nil_inv. intros [o b] (Ho & (Hk & [?|Hsrc] & _) & _)%(utxo_rows_elem HP n); [done| |done].
  by apply (Hno _ _ Ho).
Qed.

(** The txid of a deposit in a list of coins leads back to the deposit. The
    id of the same deposit in an activity feed does not: it is in the byte order
    of the sidechain, so /deposit reads it reversed and, unless some other
    deposit has that txid, answers 404. *)
Theorem deposit_ids n d u row :
  wf n (chain_tables d) → Kind (u_OutPoint u) = KindDeposit →
  parse_mainchain_txid (utxo_Txid (newUTXO u)) = Ok (Source (u_OutPoint u)) ∧
  parse_mainchain_txid (a_ID (newActivity row)) = Ok (flip_hash (ac_ID row)) ∧
  ((∀ k o, outputs (chain_tables d) !! k = Some o → o_kind o = KindDeposit →
      o_source_id o ≠ flip_hash (ac_ID row)) →
   serve (deposit_route (Ok tt) (a_ID (newActivity row))) d =
     WriteError StatusNotFound "no deposit from that transaction").
Proof.
  intros W Hk.
  assert (parse_mainchain_txid (a_ID (newActivity row)) = Ok (flip_hash (ac_ID row))) as Hid.
  { cbn [newActivity a_ID]. unfold Hash_String. rewrite parse_mainchain_hex.
    rewrite <- (flip_hash_involutive (ac_ID row)) at 1. apply parse_BitcoinHash_String. }
  split_and!; [|done|].
  - cbn [newUTXO utxo_Txid]. unfold sourceString. rewrite Hk. cbn.
    unfold BitcoinHash_String. rewrite parse_mainchain_hex. apply parse_BitcoinHash_String.
  - intros Hno. unfold deposit_route, with_store. rewrite Hid. cbn [parsed].
    rewrite serve_failed by (unfold Deposits; apply _). rewrite (no_deposits n); [done|done|..].
    + intros Hb. by apply (f_equal length) in Hb; rewrite array_length in Hb.
    + intros k o Ho Hd Hb. apply (Hno k o Ho Hd). by apply array_ext.
Qed.
End api.
