(* ===== verification/Sync.v ===== *)
(** * The block syncer

    [internal/index/sync.go] over [internal/chain/node.go]. A pass reads the
    node through a sequence of calls, and the node may change between any two of
    them, so it is a function of the number of calls made so far. The database
    is a connection that may fail at any statement, and other goroutines commit
    to it between the calls of a pass. *)

From S2P Require Import Prelude GoStd Json Hash OutPoint Block BlockIndex Registry Tables Write.
From S2P Require Import Ledger WriteSpec Prepare Read.
Open Scope Z_scope.

(** ** The world outside *)

(** What one call finds. [sn_count] is what [getblockcount] answers, and the
    fields after it are the answers of the other node methods; an [Err] is a
    failed call. [sn_node_up] and
    [sn_store_up] are what [Service.Get] answers, [sn_height] and [sn_time] the
    two mainchain sources, and [sn_ctx] the context's error. *)
Record snapshot := {
  sn_node_up : result unit;
  sn_store_up : result unit;
  sn_count : result Z;
  sn_hash : Z → result (option Hash);
  sn_block : Hash → result (option Block);
  sn_index : Hash → result BlockIndex;
  sn_mempool : result (list MempoolTx);
  sn_submit : json → result Hash;
  sn_bundle : result RawMessage;
  sn_failed_height : result (option Z);
  sn_height : string → result (option Z);
  sn_time : BitcoinHash → result Z;
  sn_ctx : option error;
}.

(** The world at each call, which of the two sources are configured, and what
    other goroutines have committed by the time a call reaches the database. *)
Record world := {
  at_call : nat → snapshot;
  has_heights : bool;
  has_times : bool;
  others : nat → db → db;
}.

(** The state of a pass: the connection, the number of calls made, and how often
    it told the service of the node to drop its connection. *)
Record pass := MkPass { p_conn : conn; p_clock : nat; p_drops : nat }.

(** A pass that has dropped nothing. *)
Notation Pass c k := (MkPass c k 0).

Definition S (A : Type) := pass → result A * pass.

#[export] Instance S_ret : MRet S := λ A a p, (Ok a, p).
#[export] Instance S_bind : MBind S := λ A B f m p,
  match m p with
  | (Ok a, p') => f a p'
  | (Err e, p') => (Err e, p')
  end.

Definition lift {A} (r : result A) : S A := λ p, (r, p).

(** [x, err := m; if err != nil ...]: a call whose error the caller inspects. *)
Definition handle {A B} (m : S A) (bad : error → S B) (ok : A → S B) : S B := λ p,
  match m p with
  | (Ok a, p') => ok a p'
  | (Err e, p') => bad e p'
  end.

(** [fmt.Errorf("...: %w", err)] around a call. *)
Definition named {A} (context : string) (m : S A) : S A := λ p,
  let '(r, p') := m p in (wrap context r, p').

(** One call to something outside. *)
Definition ask {A} (w : world) (f : snapshot → result A) : S A := λ p,
  (f (at_call w (p_clock p)), MkPass (p_conn p) (Datatypes.S (p_clock p)) (p_drops p)).

(** What the others have committed is in the database. *)
Definition interfere (w : world) (p : pass) : conn :=
  Conn (others w (p_clock p) (c_db (p_conn p))) (c_faults (p_conn p)).

(** One call to the store. *)
Definition db_call {A} (w : world) (m : M A) : S A := λ p,
  let '(r, c) := m (interfere w p) in (r, MkPass c (Datatypes.S (p_clock p)) (p_drops p)).

(** [s.nodes.Drop()]. *)
Definition drop_node : S unit := λ p, (Ok tt, MkPass (p_conn p) (p_clock p) (Datatypes.S (p_drops p))).

(** ** The node client *)

(** [Node.TipHeight]: the node reports a count, and genesis has height 0. *)
Definition TipHeight (w : world) : S Z :=
  count ← ask w sn_count;
  if count =? 0 then lift (Err ErrEmptyChain) else mret (uint32 (count - 1)).

Definition BlockHashAt (w : world) (height : Z) : S (option Hash) := ask w (λ s, sn_hash s height).
Definition GetBlock (w : world) (hash : Hash) : S (option Block) :=
  named "get block" (ask w (λ s, sn_block s hash)).
Definition GetBlockIndex (w : world) (hash : Hash) : S BlockIndex :=
  named "get index for block" (ask w (λ s, sn_index s hash)).

Section sync.
Context {PG : Postgres} {B3 : Blake3} (D : Decoder) (w : world).

(** [mainHeight]: a failed read leaves the height empty. *)
Definition mainHeight (mainHash : BitcoinHash) : S (option Z) :=
  if has_heights w then
    ask w (λ s, match sn_height s (BitcoinHash_String mainHash) with
                | Ok (Some h) => Ok (Some h)
                | Ok None | Err _ => Ok None
                end)
  else mret None.

Definition blockTime (mainHash : BitcoinHash) : S (option Z) :=
  if has_times w then
    named "read mainchain time" (ask w (λ s, Some <$> sn_time s mainHash))
  else mret None.

Definition with_height (h : option Z) (b : SBlock) : SBlock :=
  {| sb_Height := sb_Height b; sb_Hash := sb_Hash b; sb_PrevHash := sb_PrevHash b;
     sb_MerkleRoot := sb_MerkleRoot b; sb_MainHash := sb_MainHash b; sb_MainHeight := h;
     sb_BlockTime := sb_BlockTime b; sb_Txs := sb_Txs b; sb_Creates := sb_Creates b;
     sb_Spends := sb_Spends b |}.

(** [applyHeight]: [false] when the node no longer holds the height. *)
Definition applyHeight (height : Z) : S bool :=
  hash ← named "read node hash at height" (BlockHashAt w height);
  match hash with
  | None => mret false
  | Some hash =>
      block ← GetBlock w hash;
      match block with
      | None => lift (Err (Errorf "node has a hash at height but no header"))
      | Some block =>
          blockIndex ← GetBlockIndex w hash;
          time ← blockTime (PrevMainHash (blk_Header block));
          write ← lift (Prepare D height hash block blockIndex time);
          mh ← mainHeight (PrevMainHash (blk_Header block));
          _ ← db_call w (Apply (with_height mh write));
          mret true
      end
  end.

(** [findFork], with [n] heights left below [from]. *)
Fixpoint findFork (n : nat) : S Z :=
  match n with
  | O => _ ← db_call w (Rollback 0); mret 0
  | Datatypes.S rest =>
      let below := Z.of_nat rest in
      ours ← db_call w (HashAt below);
      match ours with
      | None => findFork rest
      | Some ours =>
          theirs ← named "read node hash at height" (BlockHashAt w below);
          if bool_decide (theirs = Some ours) then mret below else findFork rest
      end
  end.

(** [resolveStart]: the next height to read, after any rollback. *)
Definition resolveStart : S Z :=
  tip ← db_call w Tip;
  match tip with
  | None => mret 0
  | Some (tip, tipHash) =>
      nodeHash ← named "read node hash at height" (BlockHashAt w tip);
      if bool_decide (nodeHash = Some tipHash) then mret (uint32 (tip + 1))
      else
        fork ← findFork (Z.to_nat tip);
        _ ← db_call w (Rollback fork);
        mret (uint32 (fork + 1))
  end.

(** [ctx.Err()]. *)
Definition ctx_err : S unit :=
  ask w (λ s, match sn_ctx s with Some e => Err e | None => Ok tt end).

(** The loop of [Once] from [height] up to [nodeTip]; [None] when the fuel is
    spent, [Some false] when the node moved under the pass. *)
Fixpoint walk (fuel : nat) (height nodeTip : Z) : S (option bool) :=
  match fuel with
  | O => mret None
  | Datatypes.S fuel =>
      if height <=? nodeTip then
        applied ← applyHeight height;
        if negb applied then mret (Some false)
        else _ ← ctx_err; walk fuel (uint32 (height + 1)) nodeTip
      else mret (Some true)
  end.

Definition backfillHeightsPerPass : nat := 20.

(** The loop of [backfillMainHeights]. *)
Fixpoint backfill (rows : list BlockRow) : S unit :=
  match rows with
  | [] => mret tt
  | row :: rows =>
      height ← mainHeight (br_MainHash row);
      match height with
      | None => backfill rows
      | Some height =>
          _ ← db_call w (SetMainHeight (br_Height row) height);
          _ ← ctx_err;
          backfill rows
      end
  end.

Definition backfillMainHeights : S unit :=
  if has_heights w then
    rows ← db_call w (BlocksMissingMainHeight backfillHeightsPerPass);
    backfill rows
  else mret tt.

(** How many turns the loop of one pass needs at most. *)
Definition turns (next nodeTip : Z) : nat := Datatypes.S (Z.to_nat (nodeTip + 1 - next)).

(** What [Once] does once both services answered and the node has a tip. *)
Definition follow (nodeTip : Z) : S unit :=
  next ← resolveStart;
  finished ← walk (turns next nodeTip) next nodeTip;
  match finished with
  | Some true => backfillMainHeights
  | Some false => mret tt
  | None => lift (Err (Errorf "out of fuel"))
  end.

Definition Once : S unit :=
  _ ← ask w sn_node_up;
  _ ← ask w sn_store_up;
  handle (TipHeight w)
    (λ e, if bool_decide (e = ErrEmptyChain) then mret tt
          else _ ← drop_node; lift (Err (wrapf "read node tip" e)))
    follow.
End sync.
