(* ===== verification/SyncSpec.v ===== *)
(** * What a sync pass guarantees

    A small program logic for the passes of [Sync], the invariant every pass
    keeps whatever the node answers and whichever statement fails, and the proof
    that each step of [Sync] keeps it. *)

From S2P Require Import Prelude GoStd Json Hash OutPoint Block BlockIndex Registry Tables Write.
From S2P Require Import Ledger WriteSpec Prepare Read Sync.
Open Scope Z_scope.

(** ** A program logic for passes *)

Definition pass_db (p : pass) : db := c_db (p_conn p).

(** The tables of the unconfirmed set belong to the mempool syncer, the others to
    the block syncer. *)
Definition set_pool (q : mempool_tables) (d : db) : db := Db (chain_tables d) (sync_state d) q.

(** The others write the unconfirmed set and nothing else. *)
Class PoolOnly (w : world) : Prop := pool_only k d : ∃ q, others w k d = set_pool q d.

(** With nobody else about. *)
Lemma alone_pool_only w : (∀ k d, others w k d = d) → PoolOnly w.
Proof. intros H k d. exists (pool d). rewrite H. by destruct d. Qed.

(** A property of the tables no mempool pass can end. *)
Class PoolFree (P : db → Prop) : Prop := pool_free q d : P d → P (set_pool q d).

#[export] Instance pool_free_and (P Q : db → Prop) : PoolFree P → PoolFree Q → PoolFree (λ d, P d ∧ Q d).
Proof. intros HP HQ q d [H1 H2]. split; by apply pool_free. Qed.
#[export] Instance pool_free_or (P Q : db → Prop) : PoolFree P → PoolFree Q → PoolFree (λ d, P d ∨ Q d).
Proof. intros HP HQ q d [H|H]; [left|right]; by apply pool_free. Qed.
#[export] Instance pool_free_ex {A} (P : A → db → Prop) : (∀ a, PoolFree (P a)) → PoolFree (λ d, ∃ a, P a d).
Proof. intros HP q d [a H]. exists a. by apply pool_free. Qed.
#[export] Instance pool_free_fact (F : Prop) : PoolFree (λ _, F).
Proof. by intros q d H. Qed.

Lemma others_keep w (P : db → Prop) `{!PoolOnly w, !PoolFree P} p :
  P (pass_db p) → P (c_db (interfere w p)).
Proof. intros H. cbn. destruct (pool_only (p_clock p) (c_db (p_conn p))) as [q ->]. by apply pool_free. Qed.

(** From a database in [P], the call ends in [Q] with a value or in [E] with an
    error. *)
Definition hoare {A} (P : db → Prop) (m : S A) (Q : A → db → Prop) (E : db → Prop) : Prop :=
  ∀ p r p', P (pass_db p) → m p = (r, p') →
    match r with Ok a => Q a (pass_db p') | Err _ => E (pass_db p') end.


Lemma hoare_ret {A} (a : A) (P : db → Prop) (Q : A → db → Prop) E :
  (∀ d, P d → Q a d) → hoare P (mret a : S A) Q E.
Proof. intros H p r p' HP [= <- <-]. by apply H. Qed.

Lemma hoare_lift {A} (r : result A) (P : db → Prop) (Q : A → db → Prop) (E : db → Prop) :
  (∀ a d, r = Ok a → P d → Q a d) → (∀ d, P d → E d) → hoare P (lift r) Q E.
Proof. intros HQ HE p r' p' HP [= <- <-]. destruct r; auto. Qed.

Lemma hoare_bind {A B} (m : S A) (f : A → S B) P R Q E :
  hoare P m R E → (∀ a, hoare (R a) (f a) Q E) → hoare P (m ≫= f) Q E.
Proof.
  intros Hm Hf p r p' HP. unfold mbind, S_bind. destruct (m p) as [[a|e] p1] eqn:E1.
  - intros H. exact (Hf a p1 r p' (Hm _ _ _ HP E1) H).
  - intros [= <- <-]. exact (Hm _ _ _ HP E1).
Qed.

Lemma hoare_handle {A B} (m : S A) bad (ok : A → S B) P R Q E :
  hoare P m R P → (∀ a, hoare (R a) (ok a) Q E) → (∀ e, hoare P (bad e) Q E) →
  hoare P (handle m bad ok) Q E.
Proof.
  intros Hm Hok Hbad p r p' HP. unfold handle. destruct (m p) as [[a|e] p1] eqn:E1; intros H.
  - exact (Hok a p1 r p' (Hm _ _ _ HP E1) H).
  - exact (Hbad e p1 r p' (Hm _ _ _ HP E1) H).
Qed.

Lemma hoare_weaken {A} (m : S A) (P P' : db → Prop) (Q Q' : A → db → Prop) (E E' : db → Prop) :
  hoare P' m Q' E' → (∀ d, P d → P' d) → (∀ a d, Q' a d → Q a d) → (∀ d, E' d → E d) →
  hoare P m Q E.
Proof. intros H HP HQ HE p r p' Hp Hr. specialize (H p r p' (HP _ Hp) Hr). destruct r; auto. Qed.

Lemma hoare_conseq {A} (m : S A) (P : db → Prop) (Q Q' : A → db → Prop) (E E' : db → Prop) :
  hoare P m Q' E' → (∀ a d, Q' a d → Q a d) → (∀ d, E' d → E d) → hoare P m Q E.
Proof. intros H. by apply (hoare_weaken _ _ _ _ _ _ _ H). Qed.

(** A fact that does not depend on the database. *)
Lemma hoare_fact {A} (m : S A) (P : db → Prop) (F : Prop) (Q : A → db → Prop) E :
  (F → hoare P m Q E) → hoare (λ d, P d ∧ F) m Q E.
Proof. intros H p r p' [HP HF]. by apply H. Qed.

(** A fact the precondition implies. *)
Lemma hoare_learn {A} (m : S A) (P : db → Prop) (F : Prop) (Q : A → db → Prop) E :
  (∀ d, P d → F) → (F → hoare P m Q E) → hoare P m Q E.
Proof. intros HF H p r p' HP. by eapply H; [eapply HF|]. Qed.

(** Adding context to an error changes no outcome. *)
Lemma hoare_named {A} context (m : S A) P (Q : A → db → Prop) E :
  hoare P m Q E → hoare P (named context m) Q E.
Proof.
  intros H p r p' HP. unfold named. destruct (m p) as [[a|e] p1] eqn:E1; intros [= <- <-];
    exact (H _ _ _ HP E1).
Qed.

(** A call outside leaves the database alone. *)
Lemma hoare_ask {A} w (f : snapshot → result A) (P : db → Prop) :
  hoare P (ask w f) (λ a d, P d ∧ ∃ k, f (at_call w k) = Ok a) P.
Proof. intros p r p' HP [= <- <-]. destruct (f _) eqn:Ef; cbn; eauto. Qed.

Lemma hoare_ask' {A} w (f : snapshot → result A) (P : db → Prop) :
  hoare P (ask w f) (λ _, P) P.
Proof. eapply hoare_weaken; [apply hoare_ask | done | | done]. by intros a d [? _]. Qed.

Lemma hoare_named_ask {A} context w (f : snapshot → result A) (P : db → Prop) :
  hoare P (named context (ask w f)) (λ a d, P d ∧ ∃ k, f (at_call w k) = Ok a) P.
Proof. apply hoare_named, hoare_ask. Qed.

Lemma hoare_named_ask' {A} context w (f : snapshot → result A) (P : db → Prop) :
  hoare P (named context (ask w f)) (λ _, P) P.
Proof. apply hoare_named, hoare_ask'. Qed.

(** One step of a pass: proves the call by a rule, and leaves its continuation
    and whatever the rule's error case does not settle. *)
Ltac pass_step rule :=
  eapply hoare_bind;
  [ eapply hoare_conseq; [apply rule; apply _ | let H := fresh in intros ? ? H; exact H |];
    try done; try (by intros ? [? _]); try (by intros ? ?; eexists)
  | cbn beta ].

(** The drop of a connection leaves the database alone. *)
Lemma hoare_drop (P : db → Prop) : hoare P drop_node (λ _, P) P.
Proof. by intros p r p' HP [= <- <-]. Qed.

(** A call to the store, among others who write the unconfirmed set. *)
Section store_calls.
Context {PG : Postgres} (w : world) `{!PoolOnly w} (P : db → Prop) `{!PoolFree P}.

Lemma hoare_db {A} (m : M A) (Q : A → db → Prop) (E : db → Prop) :
  (∀ c r c', P (c_db c) → m c = (r, c') → match r with Ok a => Q a (c_db c') | Err _ => E (c_db c') end) →
  hoare P (db_call w m) Q E.
Proof.
  intros H p r p' HP. unfold db_call. destruct (m (interfere w p)) as [r' c'] eqn:Em. intros [= <- <-].
  eapply H; [|exact Em]. by apply others_keep.
Qed.

(** A query that answers, answers from the database as it is then. *)
Lemma hoare_query {A} (q : db → result A) :
  hoare P (db_call w (query q)) (λ a d, P d ∧ q d = Ok a) P.
Proof.
  apply hoare_db. intros [d fs] r c' HP. unfold query, exec. cbn in *.
  destruct fs as [|[] fs]; [|by intros [= <- <-]|];
    (destruct (q d) as [a|e] eqn:Eq; cbn; intros [= <- <-]; cbn; auto).
Qed.

Lemma hoare_Apply b :
  hoare P (db_call w (Apply b)) (λ r d', ∃ d, P d ∧ apply_db b d = Ok (r, d')) P.
Proof.
  apply hoare_db. intros c r c' HP EA%Apply_atomic. destruct r; [eauto|]. by rewrite EA.
Qed.

Lemma hoare_Rollback h :
  hoare P (db_call w (Rollback h)) (λ _ d', ∃ d, P d ∧ d' = rollback_db (int32 h) d) P.
Proof.
  apply hoare_db. intros c r c' HP EA%Rollback_atomic. rewrite EA. destruct r; [eauto|done].
Qed.

Lemma hoare_SetMainHeight h x :
  (∀ d, P d → P (Db (set_main_height (int32 h) (int32 x) (chain_tables d)) (sync_state d) (pool d))) →
  hoare P (db_call w (SetMainHeight h x)) (λ _, P) P.
Proof.
  intros HI. apply hoare_db. intros [d fs] r c' HP. unfold SetMainHeight, on_ledger, exec. cbn in *.
  destruct fs as [|[] fs]; intros [= <- <-]; cbn; auto.
Qed.
End store_calls.

(** ** Dropping the node *)

(** A call that leaves the node's connection alone. *)
Class Holds {A} (m : S A) : Prop := holds_on p : p_drops (m p).2 = p_drops p.

Section holds_on.
Context {PG : Postgres} {B3 : Blake3} (D : Decoder) (w : world).

#[export] Instance holds_ret {A} (a : A) : Holds (mret a : S A).
Proof. done. Qed.
#[export] Instance holds_lift {A} (r : result A) : Holds (lift r).
Proof. done. Qed.
#[export] Instance holds_ask {A} (f : snapshot → result A) : Holds (ask w f).
Proof. done. Qed.
#[export] Instance holds_db_call {A} (m : M A) : Holds (db_call w m).
Proof. intros p. unfold db_call. by destruct (m _). Qed.
#[export] Instance holds_named {A} context (m : S A) : Holds m → Holds (named context m).
Proof. intros H p. unfold named. rewrite <- (H p). by destruct (m p). Qed.
#[export] Instance holds_bind {A B} (m : S A) (f : A → S B) : Holds m → (∀ a, Holds (f a)) → Holds (m ≫= f).
Proof.
  intros Hm Hf p. unfold mbind, S_bind. pose proof (Hm p) as H. destruct (m p) as [[a|e] p1]; [|done].
  rewrite <- H. apply Hf.
Qed.
#[export] Instance holds_if {A} (b : bool) (m1 m2 : S A) : Holds m1 → Holds m2 → Holds (if b then m1 else m2).
Proof. by destruct b. Qed.

#[export] Instance holds_mainHeight m : Holds (mainHeight w m).
Proof. unfold mainHeight. apply _. Qed.
#[export] Instance holds_blockTime m : Holds (blockTime w m).
Proof. unfold blockTime. apply _. Qed.
#[export] Instance holds_applyHeight n : Holds (applyHeight D w n).
Proof.
  unfold applyHeight. apply holds_bind; [apply _|]. intros [hash|]; [|apply _].
  apply holds_bind; [apply _|]. intros [block|]; apply _.
Qed.
#[export] Instance holds_findFork n : Holds (findFork w n).
Proof.
  induction n as [|n IH]; cbn [findFork]; [apply _|]. apply holds_bind; [apply _|]. intros []; apply _.
Qed.
#[export] Instance holds_resolveStart : Holds (resolveStart w).
Proof. unfold resolveStart. apply holds_bind; [apply _|]. intros [[tip hash]|]; apply _. Qed.
#[export] Instance holds_walk fuel n tip : Holds (walk D w fuel n tip).
Proof. revert n. induction fuel as [|fuel IH]; intros n; cbn [walk]; unfold ctx_err; apply _. Qed.
#[export] Instance holds_backfill rows : Holds (backfill w rows).
Proof.
  induction rows as [|row rows IH]; cbn [backfill]; [apply _|]. apply holds_bind; [apply _|].
  intros []; unfold ctx_err; apply _.
Qed.
#[export] Instance holds_backfillMainHeights : Holds (backfillMainHeights w).
Proof. unfold backfillMainHeights. apply _. Qed.
#[export] Instance holds_follow tip : Holds (follow D w tip).
Proof. unfold follow. apply holds_bind; [apply _|]. intros n. apply holds_bind; [apply _|]. intros [[]|]; apply _. Qed.
End holds_on.

(** ** The invariant *)

Section invariant.
Context {PG : Postgres} {B3 : Blake3}.

(** The tip columns name the highest block, or nothing on an empty index. *)
Definition tip_at (n : Z) (d : db) : Prop :=
  ∃ r, sync_state d = Some r ∧
    sy_tip_height r = (if decide (n = 0) then None else Some (n - 1)) ∧
    sy_tip_hash r = b_hash <$> blocks (chain_tables d) !! (n - 1).

(** The index holds the blocks below [n], and says so. *)
Definition at_height (n : Z) (d : db) : Prop :=
  0 ≤ n ≤ 2^31 ∧ wf n (chain_tables d) ∧ tip_at n d.

Definition indexed (d : db) : Prop := ∃ n, at_height n d.

#[export] Instance pool_free_at_height n : PoolFree (at_height n).
Proof. by intros q d. Qed.
#[export] Instance pool_free_indexed : PoolFree indexed.
Proof. unfold indexed. apply _. Qed.
#[export] Instance pool_free_holds bs : PoolFree (holds bs).
Proof. by intros q d. Qed.

Lemma holds_len bs d : holds bs d → Z.of_nat (length bs) ≤ 2^31.
Proof. intros [H _]. inversion H; subst; cbn; [lia|]. rewrite length_app; cbn. lia. Qed.

(** A database that holds a chain is coherent. *)
Lemma holds_at_height bs d : holds bs d → at_height (Z.of_nat (length bs)) d.
Proof.
  intros H. pose proof (holds_len _ _ H). destruct H as [Hh (row & Hs & Hth & Htx)]. pose proof (history_wf _ _ Hh) as W.
  split_and!; [lia|lia|done|]. exists row. split; [done|]. rewrite Hth, Htx. unfold chain_tip.
  destruct (last bs) as [b|] eqn:E; cbn.
  - rewrite last_lookup in E. pose proof (lookup_lt_Some _ _ _ E).
    destruct (history_lookup _ _ _ _ Hh E) as [Hr Hb].
    rewrite decide_False by lia. replace (Z.of_nat (length bs) - 1) with (Z.of_nat (pred (length bs))) by lia.
    rewrite Hr, Hb, int32_nonneg by lia. done.
  - apply last_None in E as ->. cbn. split; [done|]. symmetry. apply fmap_None, eq_None_not_Some.
    rewrite (wf_blocks _ _ W). cbn. lia.
Qed.

Lemma view_wf n k l : wf n l → 0 ≤ k < n → wf (k + 1) (view_at k l).
Proof.
  intros [Wb Wh Wt Wo] Hk. split.
  - intros h. rewrite view_blocks_lookup. case_bool_decide.
    + rewrite Wb. lia.
    + split; [by intros [] | lia].
  - intros h1 h2 r1 r2. rewrite !view_blocks_lookup. repeat case_bool_decide; try done. apply Wh.
  - intros txid t. rewrite view_txs_lookup. destruct (txs l !! txid) as [t0|] eqn:E; cbn; [|done].
    case_bool_decide; [|done]. intros [= <-]. apply Wt in E. lia.
  - intros key o. rewrite view_outputs_lookup.
    destruct (outputs l !! key) as [o0|] eqn:E; cbn; [|done].
    case_bool_decide as D; [|done]. intros [= <-]. apply Wo in E as [].
    assert (blocks (view_at k l) !! o_height o0 = blocks l !! o_height o0) as Eb
      by (rewrite view_blocks_lookup; by case_bool_decide).
    pose proof (unspend_above_cols k o0) as (E1 & E2 & E3 & E4 & E5).
    split; rewrite ?E1, ?E2, ?E3, ?E4, ?E5, ?unspend_above_height, ?Eb; try done; [lia|].
    intros s [Hs Hle]%unspend_above_spent. specialize (ok_spent _ Hs). lia.
Qed.

Lemma at_height_apply n b d r d' :
  at_height n d → n < 2^31 → sb_Height b = n → block_ok b →
  apply_db b d = Ok (r, d') → at_height (n + 1) d'.
Proof.
  intros (Hn & W & (row & Hs & _)) Hlt Hh Hb H. unfold apply_db in H.
  apply bind_ok in H as ([r0 l'] & Hl & [= -> <-]).
  split_and!; [lia..|by eapply apply_ledger_wf; eauto; lia|].
  unfold tip_at. cbn. rewrite Hs. eexists. split; [done|]. cbn.
  apply apply_ledger_applied in Hl as [_ _ Ab _ _ _].
  unfold tip_of. rewrite Ab, Hh, int32_nonneg by lia.
  replace (n + 1 - 1) with n by lia. rewrite lookup_insert_eq, decide_False by lia. done.
Qed.

Lemma at_height_rollback n k d :
  at_height n d → 0 ≤ k < n → at_height (k + 1) (rollback_db (int32 k) d).
Proof.
  intros (Hn & W & (row & Hs & _)) Hk. rewrite int32_nonneg by lia.
  unfold rollback_db. rewrite (rollback_view n) by done.
  split_and!; [lia..|by apply view_wf with n|].
  unfold tip_at. cbn [sync_state chain_tables]. rewrite Hs. eexists. split; [done|]. cbn [sy_tip_height sy_tip_hash].
  replace (k + 1 - 1) with k by lia. rewrite view_blocks_lookup, bool_decide_true, decide_False by lia.
  assert (is_Some (blocks (chain_tables d) !! k)) as [b ->] by (apply W; lia). done.
Qed.

Lemma at_height_main n h x d :
  at_height n d →
  at_height n (Db (set_main_height h x (chain_tables d)) (sync_state d) (pool d)).
Proof.
  intros (Hn & [Wb Wh Wt Wo] & (row & Hs & Hth & Htx)).
  assert (∀ i, b_hash <$> alter (with_main_height x) h (blocks (chain_tables d)) !! i =
               b_hash <$> blocks (chain_tables d) !! i) as Eh.
  { intros i. destruct (decide (h = i)) as [<-|Hne]; [|by rewrite lookup_alter_ne].
    rewrite lookup_alter_eq. by destruct (blocks (chain_tables d) !! h). }
  split_and!; [lia..| |].
  - split; cbn; [|..|done|].
    + intros i. rewrite <- Wb. rewrite <- (fmap_is_Some b_hash), Eh, fmap_is_Some. done.
    + intros h1 h2 r1 r2 H1 H2 E.
      pose proof (Eh h1) as E1. pose proof (Eh h2) as E2. rewrite H1 in E1. rewrite H2 in E2.
      destruct (blocks (chain_tables d) !! h1) as [b1|] eqn:B1; [|done].
      destruct (blocks (chain_tables d) !! h2) as [b2|] eqn:B2; [|done].
      apply (Wh _ _ _ _ B1 B2). cbn in *. congruence.
    + intros k o Ho. apply Wo in Ho as []. split; cbn; try done. by rewrite Eh.
  - exists row. cbn. by rewrite Eh.
Qed.
End invariant.

(** ** Every pass keeps the invariant *)

Section pass.
Context {PG : Postgres} {B3 : Blake3} (D : Decoder) (HD : DecoderLaws D) (w : world) `{!PoolOnly w}.

(** The node counts at most as many blocks as an INTEGER column can number,
    and hands out outpoints within their Go types. *)
Definition counts_fit : Prop := ∀ k c, sn_count (at_call w k) = Ok c → 0 ≤ c ≤ 2^31.
Definition indexes_typed : Prop :=
  ∀ k hash bi, sn_index (at_call w k) hash = Ok bi → index_typed bi.

Context (Hcount : counts_fit) (Hindex : indexes_typed).

Lemma hoare_mainHeight mh (P : db → Prop) : hoare P (mainHeight w mh) (λ _, P) P.
Proof. unfold mainHeight. destruct (has_heights w); [apply hoare_ask' | by apply hoare_ret]. Qed.

Lemma hoare_blockTime mh (P : db → Prop) : hoare P (blockTime w mh) (λ _, P) P.
Proof. unfold blockTime. destruct (has_times w); [apply hoare_named_ask' | by apply hoare_ret]. Qed.

Lemma hoare_applyHeight n :
  n < 2^31 →
  hoare (at_height n) (applyHeight D w n)
    (λ applied d, if applied then at_height (n + 1) d else at_height n d) (at_height n).
Proof.
  intros Hn. unfold applyHeight.
  pass_step @hoare_named_ask'. intros [hash|]; [|by apply hoare_ret].
  pass_step @hoare_named_ask'. intros [block|]; [|by apply hoare_lift].
  pass_step @hoare_named_ask. intros bi.
  pass_step @hoare_blockTime. intros time.
  eapply hoare_bind.
  { apply (hoare_lift _ _ (λ write d, at_height n d ∧ block_ok write ∧ sb_Height write = n)).
    - intros write d HP [Hd [k Hk]]. split; [done|]. split.
      + eapply Prepare_block_ok; eauto.
      + by apply Prepare_rows in HP as [? _].
    - by intros d [Hd _]. }
  intros write. pass_step @hoare_mainHeight. intros mh. pass_step @hoare_Apply.
  intros r. apply hoare_ret. intros d' (d & (Hd & Hb & Hh) & Ha).
  by apply (at_height_apply n (with_height mh write) d r d' Hd Hn Hh Hb).
Qed.

Lemma hoare_findFork m n :
  Z.of_nat m < n →
  hoare (at_height n) (findFork w m)
    (λ k d, ∃ n', at_height n' d ∧ 0 ≤ k < n') (at_height n).
Proof.
  intros Hm. induction m as [|m IH]; cbn [findFork].
  - pass_step @hoare_Rollback. intros u. apply hoare_ret.
    intros d' (d & Hd & ->). exists 1. split; [|lia]. apply (at_height_rollback n 0 d Hd). lia.
  - eapply hoare_bind; [apply hoare_query; apply _|]. intros [ours|]; cbn beta.
    2:{ eapply hoare_weaken; [apply IH; lia | | done | done]. by intros d [? _]. }
    pass_step @hoare_named_ask'. intros theirs.
    case_bool_decide.
    + apply hoare_ret. intros d [Hd _]. exists n. split; [done|lia].
    + eapply hoare_weaken; [apply IH; lia | | done | done]. by intros d [? _].
Qed.

Lemma Tip_at n d r : at_height n d → 
  (r' ← of_option (Errorf "read tip") (sync_state d);
   match sy_tip_height r', sy_tip_hash r' with
   | Some h, Some hash => Ok (Some (uint32 h, hash))
   | _, _ => Ok None
   end) = Ok r →
  match r with
  | None => n = 0
  | Some (tip, hash) => tip = n - 1 ∧ 0 < n ∧ b_hash <$> blocks (chain_tables d) !! tip = Some hash
  end.
Proof.
  intros (Hn & W & (row & Hs & Hth & Htx)). rewrite Hs. cbn. rewrite Hth, Htx.
  case_decide as E; [by intros [= <-]|].
  assert (is_Some (blocks (chain_tables d) !! (n - 1))) as [b Hb] by (apply W; lia).
  rewrite Hb. cbn. intros [= <-]. rewrite uint32_small by (unfold is_u32; lia).
  rewrite Hb. split_and!; [lia|lia|done].
Qed.

Lemma hoare_resolveStart :
  hoare indexed (resolveStart w) at_height indexed.
Proof.
  intros p r p' [n Hn]. revert p r p' Hn.
  change (hoare (at_height n) (resolveStart w) at_height indexed).
  assert (∀ d, at_height n d → indexed d) as Hi by (intros d ?; by exists n).
  unfold resolveStart. pass_step @hoare_query. intros [[tip hash]|].
  2:{ apply hoare_ret. intros d [Hd Ht]. by apply (Tip_at n d) in Ht as ->. }
  intros p r p' [Hd Ht]. apply (Tip_at n _ _ Hd) in Ht as (-> & Hpos & Hb).
  revert p r p' Hd Hb. intros p r p' Hd _. revert p r p' Hd.
  change (hoare (at_height n) (nodeHash ← named "read node hash at height" (BlockHashAt w (n - 1));
    (if bool_decide (nodeHash = Some hash) then mret (uint32 (n - 1 + 1)) else
     fork ← findFork w (Z.to_nat (n - 1)); _ ← db_call w (Rollback fork); mret (uint32 (fork + 1))))
    at_height indexed).
  pass_step @hoare_named_ask'. intros nodeHash. case_bool_decide.
  - apply hoare_ret. intros d Hd. replace (n - 1 + 1) with n by lia.
    assert (0 ≤ n ≤ 2^31) by apply Hd. by rewrite uint32_small by (unfold is_u32; lia).
  - pass_step (hoare_findFork (Z.to_nat (n - 1)) n ltac:(lia)). intros k.
    pass_step @hoare_Rollback; [by intros d (n' & Hd & _); exists n'|]. intros u. apply hoare_ret. intros d' (d & (n' & Hd & Hk) & ->).
    pose proof (at_height_rollback n' k d Hd Hk) as [Hn Hr].
    rewrite uint32_small by (unfold is_u32; lia). by split.
Qed.

Lemma hoare_walk fuel n nodeTip :
  nodeTip < 2^31 → n ≤ 2^31 →
  hoare (at_height n) (walk D w fuel n nodeTip) (λ _, indexed) indexed.
Proof.
  intros Htip. revert n. induction fuel as [|fuel IH]; intros n Hn; cbn [walk].
  { apply hoare_ret. intros d Hd. by exists n. }
  destruct (Z.leb_spec n nodeTip); [|apply hoare_ret; intros d Hd; by exists n].
  pass_step (hoare_applyHeight n ltac:(lia)). intros []; cbn [negb].
  - pass_step @hoare_ask'. intros u p r p' Hd. assert (0 ≤ n + 1 ≤ 2^31) as Hb by apply Hd.
    rewrite uint32_small by (unfold is_u32; lia). revert p r p' Hd. apply IH. lia.
  - apply hoare_ret. intros d Hd. by exists n.
Qed.

Lemma hoare_backfill rows : hoare indexed (backfill w rows) (λ _, indexed) indexed.
Proof.
  induction rows as [|row rows IH]; cbn [backfill]; [by apply hoare_ret|].
  eapply hoare_bind; [apply hoare_mainHeight|]. intros [h|]; [|done].
  eapply hoare_bind; [apply hoare_SetMainHeight; [apply _|apply _|]|].
  { intros d [n Hd]. exists n. by apply at_height_main. }
  intros u. eapply hoare_bind; [apply hoare_ask'|done].
Qed.

Lemma hoare_backfillMainHeights : hoare indexed (backfillMainHeights w) (λ _, indexed) indexed.
Proof.
  unfold backfillMainHeights. destruct (has_heights w); [|by apply hoare_ret].
  eapply hoare_bind; [apply hoare_query; apply _|]. intros rows.
  eapply hoare_weaken; [apply hoare_backfill | by intros d [? _] | done | done].
Qed.

Lemma hoare_follow nodeTip :
  nodeTip < 2^31 → hoare indexed (follow D w nodeTip) (λ _, indexed) indexed.
Proof.
  intros Htip. unfold follow. eapply hoare_bind; [apply hoare_resolveStart|]. intros next.
  eapply hoare_bind.
  { intros p r p' Hd. assert (0 ≤ next ≤ 2^31) as Hn by apply Hd. revert p r p' Hd.
    apply hoare_walk; lia. }
  intros [[]|]; [apply hoare_backfillMainHeights | by apply hoare_ret | by apply hoare_lift].
Qed.

Lemma hoare_TipHeight (P : db → Prop) : hoare P (TipHeight w) (λ tip d, P d ∧ 0 ≤ tip < 2^31) P.
Proof.
  unfold TipHeight. pass_step @hoare_ask. intros c. apply hoare_fact. intros [k Hc%Hcount].
  destruct (Z.eqb_spec c 0); [by apply hoare_lift|]. apply hoare_ret. intros d Hd. split; [done|].
  rewrite uint32_small by (unfold is_u32; lia). lia.
Qed.

(** What a pass does when the node's tip cannot be read. *)
Lemma hoare_no_tip e (P : db → Prop) :
  hoare P (if bool_decide (e = ErrEmptyChain) then mret tt : S unit
           else _ ← drop_node; lift (Err (wrapf "read node tip" e))) (λ _, P) P.
Proof.
  case_bool_decide; [by apply hoare_ret|]. pass_step @hoare_drop. intros u. by apply hoare_lift.
Qed.

Lemma hoare_Once : hoare indexed (Once D w) (λ _, indexed) indexed.
Proof.
  unfold Once. pass_step @hoare_ask'. intros up1. pass_step @hoare_ask'. intros up2.
  eapply hoare_handle; [apply hoare_TipHeight| |intros e; apply hoare_no_tip].
  intros tip. apply hoare_fact. intros Htip. apply hoare_follow. lia.
Qed.
End pass.
