(* ===== verification/MempoolSync.v ===== *)
(** * The mempool syncer and the node's other readers

    [internal/index/mempool_sync.go], [broadcast.go] and [withdrawals.go]: what
    goes to the node besides the block pass. Each asks its service for the node,
    makes one call, and hands the answer on. *)

From S2P Require Import Prelude GoStd Json Hash OutPoint Block BlockIndex Registry Tables Write.
From S2P Require Import Ledger WriteSpec Prepare Read Mempool Sync SyncSpec.
Open Scope Z_scope.

(** A call of the node whose failure drops the connection: [Drop], then the error
    with its context. *)
Definition dropping {A} (context : string) (m : S A) : S A :=
  handle m (λ e, _ ← drop_node; lift (Err (wrapf context e))) mret.

Module MempoolSyncer.
Section once.
Context {PG : Postgres} (D : Decoder) (w : world).

(** [Node.ListMempool]. *)
Definition ListMempool : S (list MempoolTx) := named "list the mempool" (ask w sn_mempool).

(** [Once]; [now] is the clock of the database. *)
Definition Once (now : Z) : S unit :=
  _ ← ask w sn_node_up;
  _ ← ask w sn_store_up;
  txs ← dropping "read the mempool" ListMempool;
  pool ← lift (PrepareMempool D txs);
  db_call w (ReplaceMempool now pool).
End once.
End MempoolSyncer.

Module Broadcaster.
(** [Broadcast]. *)
Definition Broadcast (w : world) (tx : json) : S Hash :=
  _ ← ask w sn_node_up;
  dropping "submit transaction" (ask w (λ s, sn_submit s tx)).
End Broadcaster.

Module Withdrawals.
Definition Pending (w : world) : S RawMessage :=
  _ ← ask w sn_node_up;
  dropping "read the pending withdrawal bundle" (ask w sn_bundle).

Definition LastFailedHeight (w : world) : S (option Z) :=
  _ ← ask w sn_node_up;
  dropping "read the last failed bundle height" (ask w sn_failed_height).
End Withdrawals.

(** ** A pass *)

Section props.
Context {PG : Postgres} (D : Decoder) (w : world).

Lemma named_inv {A} context (m : S A) p r p' :
  named context m p = (r, p') → ∃ r0, m p = (r0, p') ∧ r = wrap context r0.
Proof. unfold named. destruct (m p) as [r0 p0]. intros [= <- <-]. by exists r0. Qed.

(** What a call comes to when its failure drops the connection. *)
Lemma dropping_ask {A} context (f : snapshot → result A) p :
  dropping context (ask w f) p =
  match f (at_call w (p_clock p)) with
  | Ok a => (Ok a, MkPass (p_conn p) (Datatypes.S (p_clock p)) (p_drops p))
  | Err e => (Err (wrapf context e), MkPass (p_conn p) (Datatypes.S (p_clock p)) (Datatypes.S (p_drops p)))
  end.
Proof. unfold dropping, handle, ask. by destruct (f _). Qed.

(** How the calls of a pass come out: both services, the list, its rows. *)
Lemma Once_calls now c k n :
  let listed := sn_mempool (at_call w (Datatypes.S (Datatypes.S k))) in
  let at_list n := MkPass c (Datatypes.S (Datatypes.S (Datatypes.S k))) n in
  MempoolSyncer.Once D w now (MkPass c k n) =
  match sn_node_up (at_call w k), sn_store_up (at_call w (Datatypes.S k)), listed with
  | Err e, _, _ => (Err e, MkPass c (Datatypes.S k) n)
  | Ok _, Err e, _ => (Err e, MkPass c (Datatypes.S (Datatypes.S k)) n)
  | Ok _, Ok _, Err e => (Err (wrapf "read the mempool" (wrapf "list the mempool" e)), at_list (Datatypes.S n))
  | Ok _, Ok _, Ok txs =>
      match PrepareMempool D txs with
      | Err e => (Err e, at_list n)
      | Ok new => db_call w (ReplaceMempool now new) (at_list n)
      end
  end.
Proof.
  unfold MempoolSyncer.Once, MempoolSyncer.ListMempool, dropping, handle, named, ask, mbind, S_bind.
  cbn. destruct (sn_node_up _); cbn; [|done]. destruct (sn_store_up _); cbn; [|done].
  destruct (sn_mempool _); cbn; [|done]. by destruct (PrepareMempool D a1); cbn.
Qed.

(** A mempool pass replaces the snapshot by the one prepared from what the node
    listed at the third call, in the database as the block syncer has left it by
    then, and leaves the confirmed tables alone; or it writes nothing. It
    succeeds whenever both services answer, the list arrives, every entry decodes
    and the snapshot fits the tables, on a connection that holds. It drops the
    connection when the list does not arrive, and only then. *)
Theorem mempool_pass now p r p' :
  MempoolSyncer.Once D w now p = (r, p') →
  let k := p_clock p in let d := pass_db p in
  let listed := sn_mempool (at_call w (Datatypes.S (Datatypes.S k))) in
  let d1 := others w (Datatypes.S (Datatypes.S (Datatypes.S k))) d in
  let both := is_Ok (sn_node_up (at_call w k)) ∧ is_Ok (sn_store_up (at_call w (Datatypes.S k))) in
  match r with
  | Ok _ => ∃ txs new, listed = Ok txs ∧ PrepareMempool D txs = Ok new ∧
      replaced now new (chain_tables d1) (pool d1) (pool (pass_db p')) ∧
      chain_tables (pass_db p') = chain_tables d1 ∧ sync_state (pass_db p') = sync_state d1
  | Err _ => (pass_db p' = d ∨ pass_db p' = d1) ∧
      ¬ (both ∧ c_faults (p_conn p) = [] ∧
         ∃ txs new, listed = Ok txs ∧ PrepareMempool D txs = Ok new ∧
           is_Ok (replace_pool now new (chain_tables d1) (pool d1)))
  end ∧
  (p_drops p' = p_drops p ∨ p_drops p' = Datatypes.S (p_drops p)) ∧
  (p_drops p' = Datatypes.S (p_drops p) ↔ both ∧ ¬ is_Ok listed).
Proof.
  destruct p as [c k n]. rewrite Once_calls. unfold is_Ok, pass_db. cbn [p_conn p_clock p_drops c_db].
  destruct (sn_node_up (at_call w k)) as [?|e]; [|intros [= <- <-]; cbn; split_and!; [by left|naive_solver|by left|split; [intros; exfalso; lia|naive_solver]]].
  destruct (sn_store_up (at_call w (Datatypes.S k))) as [?|e]; [|intros [= <- <-]; cbn; split_and!; [by left|naive_solver|by left|split; [intros; exfalso; lia|naive_solver]]].
  destruct (sn_mempool (at_call w (Datatypes.S (Datatypes.S k)))) as [txs|e]; [|intros [= <- <-]; cbn; split_and!; [by left|naive_solver|by right|naive_solver]].
  destruct (PrepareMempool D txs) as [new|e] eqn:En; [|intros [= <- <-]; cbn; split_and!; [by left|by intros (_ & _ & ? & ? & [= <-] & ? & _); congruence|by left|split; [intros; exfalso; lia|naive_solver]]].
  unfold db_call. destruct (ReplaceMempool now new _) as [r0 c'] eqn:E. intros [= <- <-]. cbn [p_conn p_drops].
  split; [|split; [by left|split; [intros; exfalso; lia|naive_solver]]].
  set (d1 := others w (Datatypes.S (Datatypes.S (Datatypes.S k))) (c_db c)) in *.
  pose proof (ReplaceMempool_atomic _ _ _ _ _ E) as Ha. destruct r0 as [u|e].
  - destruct Ha as (q & Hq & Hd). exists txs, new. rewrite Hd. cbn in *.
    split_and!; [done|done|by apply replace_pool_replaced|done|done].
  - split; [by right|]. intros (_ & Hf & txs' & new' & [= <-] & En' & [q Hq]).
    rewrite En in En'. injection En' as <-.
    pose proof (run_ReplaceMempool now new d1) as Hr. rewrite Hq in Hr. unfold run in Hr.
    unfold interfere in E. cbn in E. rewrite Hf in E. fold d1 in E. by rewrite E in Hr.
Qed.

(** A mempool pass writes the unconfirmed set only, which is what the block pass
    relies on of the others. *)
Theorem mempool_pass_pool_only now p r p' :
  MempoolSyncer.Once D w now p = (r, p') → (∀ k d, others w k d = d) →
  ∃ q, pass_db p' = set_pool q (pass_db p).
Proof.
  intros H Ho. apply mempool_pass in H as [H _]. rewrite Ho in H.
  destruct (pass_db p) as [t s q], (pass_db p') as [t' s' q']. destruct r; cbn in *; [exists q'|exists q]; naive_solver.
Qed.

(** A mempool pass does not look at the confirmed tables: a coin that a listed
    transaction creates and that the block syncer has confirmed by the time the
    pass writes sits in both after it. *)
Theorem stale_listing_duplicates now p u p' txs new o :
  MempoolSyncer.Once D w now p = (Ok u, p') →
  sn_mempool (at_call w (Datatypes.S (Datatypes.S (p_clock p)))) = Ok txs →
  PrepareMempool D txs = Ok new → o ∈ mp_Creates new →
  let d1 := others w (Datatypes.S (Datatypes.S (Datatypes.S (p_clock p)))) (pass_db p) in
  is_Some (outputs (chain_tables d1) !! Key (so_OutPoint o)) →
  is_Some (outputs (chain_tables (pass_db p')) !! Key (so_OutPoint o)) ∧
  is_Some (mempool_outputs (pool (pass_db p')) !! Key (so_OutPoint o)).
Proof.
  intros H Hl Hp Ho d1 Hc. destruct p as [c k n]. rewrite Once_calls in H. cbn [p_clock] in *.
  destruct (sn_node_up (at_call w k)); [|done]. destruct (sn_store_up (at_call w (Datatypes.S k))); [|done].
  rewrite Hl, Hp in H. unfold db_call in H. destruct (ReplaceMempool now new _) as [r0 c'] eqn:E.
  injection H as -> <-. apply ReplaceMempool_atomic in E as (q & Hq & Hd).
  unfold pass_db in *. cbn in *. rewrite Hd. cbn. split; [done|]. by apply (replace_pool_creates _ _ _ _ _ o Hq).
Qed.
End props.
