(* ===== verification/Relay.v ===== *)
(** * Relaying a transaction

    [POST /tx]: [readTransactionBody] of [internal/api/write.go], the
    [broadcast] handler of [internal/api/handlers.go], and the broadcaster it
    hands the transaction to. *)

From S2P Require Import Prelude GoStd Json JsonText Hash OutPoint Block BlockIndex Registry Tables Write.
From S2P Require Import Ledger WriteSpec Prepare Read Mempool Esplora Handlers Sync SyncSpec MempoolSync.
Open Scope Z_scope.

(** What reading the body of a request comes to. *)
Definition request_body : Type := result string.

Definition maxBroadcastBytes : Z := 2 ^ 20.

Definition readTransactionBody (r : request_body) : result json :=
  body ← wrap "read the request body" r;
  let trimmed := TrimSpace (LimitReader maxBroadcastBytes body) in
  _ ← reject (String.eqb trimmed EmptyString) (Errorf "the body is empty");
  of_option (Errorf "the body must be the transaction as JSON") (parse trimmed).

(** [broadcast]; [None] is a server without a broadcaster. *)
Definition broadcast (broadcaster : option (json → Sync.S Hash)) (r : request_body) : Sync.S (reply unit) :=
  match broadcaster with
  | None => mret (WriteError StatusServiceUnavailable "no node connection for a broadcast")
  | Some send =>
      match readTransactionBody r with
      | Err e => mret (WriteError StatusBadRequest (error_text e))
      | Ok raw =>
          handle (send raw)
            (λ e, mret (WriteError StatusBadRequest (error_text e)))
            (λ txid, mret (WriteText (Hash_String txid)))
      end
  end.

Lemma readTransactionBody_ok r tx :
  readTransactionBody r = Ok tx ↔
  ∃ body, r = Ok body ∧ TrimSpace (LimitReader maxBroadcastBytes body) ≠ EmptyString ∧
    parse (TrimSpace (LimitReader maxBroadcastBytes body)) = Some tx.
Proof.
  unfold readTransactionBody. split.
  - intros (body & Hb%wrap_ok & (u & Hr%reject_ok & Hj%of_option_ok)%bind_ok)%bind_ok.
    exists body. apply String.eqb_neq in Hr. done.
  - intros (body & -> & Hne%String.eqb_neq & Hj). cbn [wrap mbind result_bind]. rewrite Hne. cbn. by rewrite Hj.
Qed.

(** Of a body up to the limit nothing is lost; of a larger one the tail is, and
    what is left is taken for the whole. *)
Lemma LimitReader_short n s : Z.of_nat (String.length s) ≤ n → LimitReader n s = s.
Proof.
  revert n. induction s as [|c s IH]; intros n Hn; cbn [LimitReader String.length] in *; [done|].
  destruct (Z.leb_spec n 0); [lia|]. f_equal. apply IH. lia.
Qed.

(** C38: A broadcast reaches the node as the JSON the body holds between its
    surrounding white space, and once, with no other call after it: the answer is the node's transaction id
    in a text that reads back as that id, or 400 with the node's own words, and
    then the connection is dropped. A body that is missing, blank or not JSON is
    refused without asking the node, and the index is not touched in any case. *)
Theorem broadcast_relays w r p rep p' :
  broadcast (Some (Broadcaster.Broadcast w)) r p = (rep, p') →
  let k := p_clock p in
  pass_db p' = pass_db p ∧
  (∀ body tx, r = Ok body → Z.of_nat (String.length body) ≤ maxBroadcastBytes →
     readTransactionBody r = Ok tx ↔ TrimSpace body ≠ EmptyString ∧ parse (TrimSpace body) = Some tx) ∧
  (∀ e, readTransactionBody r = Err e → rep = Ok (WriteError StatusBadRequest (error_text e)) ∧ p' = p) ∧
  (∀ tx, readTransactionBody r = Ok tx →
     (∀ id, sn_node_up (at_call w k) = Ok tt → sn_submit (at_call w (Datatypes.S k)) tx = Ok id →
        rep = Ok (WriteText (Hash_String id)) ∧ ParseHash (Hash_String id) = Ok id ∧ p_drops p' = p_drops p ∧
        p_clock p' = Datatypes.S (Datatypes.S k)) ∧
     (∀ e, sn_node_up (at_call w k) = Ok tt → sn_submit (at_call w (Datatypes.S k)) tx = Err e →
        rep = Ok (WriteError StatusBadRequest (error_text (wrapf "submit transaction" e))) ∧
        p_drops p' = Datatypes.S (p_drops p) ∧ p_clock p' = Datatypes.S (Datatypes.S k)) ∧
     (∀ e, sn_node_up (at_call w k) = Err e →
        rep = Ok (WriteError StatusBadRequest (error_text e)) ∧ p_drops p' = p_drops p ∧ p_clock p' = Datatypes.S k)).
Proof.
  destruct p as [c k n]. intros H. cbn [p_clock p_drops].
  assert (∀ body tx, r = Ok body → Z.of_nat (String.length body) ≤ maxBroadcastBytes →
     readTransactionBody r = Ok tx ↔ TrimSpace body ≠ EmptyString ∧ parse (TrimSpace body) = Some tx) as Hbody.
  { intros body tx Hb Hn. rewrite readTransactionBody_ok, Hb. split.
    - intros (b & [= <-] & H1). by rewrite LimitReader_short in H1.
    - intros H1. exists body. by rewrite LimitReader_short. }
  unfold broadcast in H.
  destruct (readTransactionBody r) as [tx|e0] eqn:Er.
  2:{ injection H as <- <-. split_and!; [done|done| |done]. by intros e [= <-]. }
  unfold handle, Broadcaster.Broadcast, dropping, handle, ask, mbind, S_bind in H. cbn in H.
  destruct (sn_node_up (at_call w k)) as [[]|e1] eqn:En; cbn in H.
  - destruct (sn_submit (at_call w (Datatypes.S k)) tx) as [id|e2] eqn:Es; cbn in H; injection H as <- <-;
      (split_and!; [done|done|done|]); intros tx' [= <-]; rewrite Es; split_and!; try done.
    + intros id' _ [= <-]. split_and!; [done| |done..]. apply ParseHash_String.
    + by intros e _ [= <-].
  - injection H as <- <-. split_and!; [done|done|done|]. intros tx' [= <-]. split_and!; try done. by intros e [= <-].
Qed.
