(* ===== verification/Server.v ===== *)
(** * The server

    [internal/api/server.go]: what a server is given, the table of its patterns,
    and what becomes of a request, store routes, node routes and all. A request is
    a sequence of calls like a pass, so it runs in the same world. *)

From S2P Require Import Prelude GoStd Json Hash OutPoint Block Registry Tables Write Read Activity.
From S2P Require Import Ledger WriteSpec Enforcer Mempool Esplora Handlers Respond Router Mux ApiSpec ApiProps.
From S2P Require Import Sync SyncSpec MempoolSync Relay.
Open Scope Z_scope.
Open Scope list_scope.

(** ** What a server is given *)

(** The interfaces [Broadcaster] and [Withdrawals]. [Mainchain] is the enforcer's
    client. *)
Definition Broadcaster : Type := json → Sync.S Hash.
Record Withdrawals := { Pending : Sync.S RawMessage; LastFailed : Sync.S (option Z) }.

(** [None] is a nil interface. The store stands in the world. *)
Record Server := {
  broadcaster : option Broadcaster;
  mainchain : option Enforcer;
  withdrawals : option Withdrawals;
}.

Definition NewServer (b : option Broadcaster) (m : option Enforcer) (w : option Withdrawals) : Server :=
  {| broadcaster := b; mainchain := m; withdrawals := w |}.

(** [index.NewBroadcaster] and [index.NewWithdrawals] over the service of the
    node. *)
Definition NewBroadcaster (w : world) : Broadcaster := MempoolSync.Broadcaster.Broadcast w.
Definition NewWithdrawals (w : world) : Withdrawals :=
  {| Pending := MempoolSync.Withdrawals.Pending w; LastFailed := MempoolSync.Withdrawals.LastFailedHeight w |}.

(** ** The routes *)

(** The handler a request goes to, with what it reads of the path. *)
Inductive target :=
  | Store (r : Router.request)
  | PostTransaction
  | FeeEstimates
  | DrivechainWithdrawals
  | DrivechainSidechains
  | DrivechainSidechain (slot : string)
  | Health.

(** A handler looks at the whole path and at its wildcards. *)
Definition registered : Type := string * (string → (string → string) → target).

Definition GET (pattern : string) (r : (string → string) → Router.request) : registered :=
  ("GET " +:+ pattern, λ _ v, Store (r v)).

Definition address_routes (prefix : string) : list registered := [
  ("GET /" +:+ prefix +:+ "/{key}", λ path v, Store (GetAddress path (v "key")));
  ("GET /" +:+ prefix +:+ "/{key}/utxo", λ path v, Store (GetAddressUTXO path (v "key")));
  ("GET /" +:+ prefix +:+ "/{key}/txs", λ path v, Store (GetAddressTxs path (v "key") (v "last_seen")));
  ("GET /" +:+ prefix +:+ "/{key}/txs/chain", λ path v, Store (GetAddressTxs path (v "key") (v "last_seen")));
  ("GET /" +:+ prefix +:+ "/{key}/txs/chain/{last_seen}",
     λ path v, Store (GetAddressTxs path (v "key") (v "last_seen")));
  ("GET /" +:+ prefix +:+ "/{key}/txs/mempool", λ path v, Store (GetAddressMempool path (v "key")))]%string.

(** What [Handler] registers, in its order. *)
Definition Handler : list registered := [
  GET "/blocks/tip/height" (λ v, GetTipHeight);
  GET "/blocks/tip/hash" (λ v, GetTipHash);
  GET "/blocks" (λ v, GetBlocks (v "start_height"));
  GET "/blocks/{start_height}" (λ v, GetBlocks (v "start_height"));
  GET "/block-height/{height}" (λ v, GetBlockHeight (v "height"));
  GET "/block/{hash}" (λ v, Router.GetBlock (v "hash"));
  GET "/block/{hash}/header" (λ v, GetBlockHeader (v "hash"));
  GET "/block/{hash}/status" (λ v, GetBlockStatus (v "hash"));
  GET "/block/{hash}/txids" (λ v, GetBlockTxids (v "hash"));
  GET "/block/{hash}/txid/{index}" (λ v, GetBlockTxid (v "hash") (v "index"));
  GET "/block/{hash}/txs" (λ v, GetBlockTxs (v "hash") (v "start_index"));
  GET "/block/{hash}/txs/{start_index}" (λ v, GetBlockTxs (v "hash") (v "start_index"));
  GET "/tx/{txid}" (λ v, GetTx (v "txid"));
  GET "/tx/{txid}/status" (λ v, GetTxStatus (v "txid"));
  GET "/tx/{txid}/hex" (λ v, GetTxHex (v "txid"));
  GET "/tx/{txid}/raw" (λ v, GetTxHex (v "txid"));
  GET "/tx/{txid}/outspends" (λ v, GetOutspends (v "txid"));
  GET "/tx/{txid}/outspend/{vout}" (λ v, GetOutspend (v "txid") (v "vout"));
  ("POST /tx", λ _ _, PostTransaction)]%string
  ++ (["address"; "scripthash"]%string ≫= address_routes) ++ [
  GET "/address/{key}/deposits" (λ v, GetAddressDeposits (v "key"));
  GET "/deposit/{txid}" (λ v, GetDeposit (v "txid"));
  GET "/deposits" (λ v, GetDeposits (v "start_height"));
  GET "/deposits/{start_height}" (λ v, GetDeposits (v "start_height"));
  GET "/txs/recent" (λ v, GetRecent);
  GET "/block/{hash}/activity" (λ v, GetBlockActivity (v "hash"));
  GET "/mempool" (λ v, GetMempool);
  GET "/mempool/txids" (λ v, GetMempoolTxids);
  GET "/mempool/recent" (λ v, GetMempoolRecent);
  ("GET /fee-estimates", λ _ _, FeeEstimates);
  ("GET /drivechain/withdrawals", λ _ _, DrivechainWithdrawals);
  ("GET /drivechain/sidechains", λ _ _, DrivechainSidechains);
  ("GET /drivechain/sidechain/{slot}", λ _ v, DrivechainSidechain (v "slot"));
  ("GET /health", λ _ _, Health)]%string.

Definition routes : list (pattern * (string → (string → string) → target)) :=
  omap (λ r, p ← parse_pattern r.1; Some (p, r.2)) Handler.

(** The path as text, which the handlers of addresses look at. *)
Definition path_text (path : list string) : string := foldr (λ s t, "/" +:+ s +:+ t) EmptyString path.

Definition Route (method : string) (path : list string) : routed target :=
  match route routes method path with
  | Found h vs => Found (h (path_text path) (PathValue vs)) vs
  | MethodNotAllowed => MethodNotAllowed
  | PathNotFound => PathNotFound
  end.

(** ** Answers *)

Definition StatusMethodNotAllowed : Z := 405.
Definition FeeRateSatPerVByte : Z := 1.

(** The rate for each of 25 targets, by their number. *)
Definition feeEstimates : list (string * Z) :=
  (λ target, (fmt_d (Z.of_nat target), FeeRateSatPerVByte)) <$> seq 1 25.

(** [health]: whether the store's supervisor is connected, as JSON under either
    status. *)
Definition health (connected : bool) : http_reply :=
  {| rp_status := if connected then StatusOK else StatusServiceUnavailable; rp_type := "application/json";
     rp_body := Encode (marshal_map [("database"%string, marshal connected)]) |}.

Section serve.
Context {PG : Postgres} `{!Base58} (w : world) (s : Server).

(** A handler on the connection, as the others have left the database by then. *)
Definition on_conn {A} (h : conn → A * conn) : Sync.S A := λ p,
  let '(a, c) := h (interfere w p) in (Ok a, MkPass c (Datatypes.S (p_clock p)) (p_drops p)).

Definition from_store (r : Router.request) : Sync.S http_reply :=
  handle (ask w sn_store_up)
    (λ e, a ← on_conn (Router.ServeHTTP (Err e) r); mret a)
    (λ _, a ← on_conn (Router.ServeHTTP (Ok tt) r); mret a).

(** [drivechainWithdrawals]: the second question only after an answer to the
    first. *)
Definition drivechainWithdrawals : Sync.S (reply WithdrawalState) :=
  match withdrawals s with
  | None => mret (WriteError StatusServiceUnavailable "this index reads no node")
  | Some node =>
      let bad e := mret (WriteError StatusBadGateway (error_text e)) in
      handle (Pending node) bad (λ bundle,
      handle (LastFailed node) bad (λ height,
      mret (WriteJSON {| Bundle := bundle; LastFailedHeight := height |})))
  end.

(** What the handler of a target does; [connected] is what [IsConnected] answers,
    [body] the body of the request. *)
Definition handle_target (connected : bool) (body : request_body) (t : target) : Sync.S http_reply :=
  match t with
  | Store r => from_store r
  | PostTransaction => r ← broadcast (broadcaster s) body; mret (respond r)
  | FeeEstimates => mret (respond (WriteJSON feeEstimates))
  | DrivechainWithdrawals => r ← drivechainWithdrawals; mret (respond r)
  | DrivechainSidechains => mret (respond (drivechainSidechains (mainchain s)))
  | DrivechainSidechain slot => mret (respond (drivechainSidechain (mainchain s) slot))
  | Health => mret (health connected)
  end.

Definition ServeHTTP (connected : bool) (method : string) (path : list string) (body : request_body) : Sync.S http_reply :=
  match Route method path with
  | Found t _ => handle_target connected body t
  | MethodNotAllowed => mret (http_Error StatusMethodNotAllowed "Method Not Allowed")
  | PathNotFound => mret (http_Error StatusNotFound "404 page not found")
  end.
End serve.

(** ** The table *)

Lemma routes_parse : length routes = length Handler ∧ length routes = 45%nat.
Proof. by vm_compute. Qed.

Lemma routes_conflict_free : conflict_free routes.*1 = true.
Proof. by vm_compute. Qed.

Lemma routes_wildcards : Forall (λ p, NoDup (wildcards (pat_path p))) routes.*1.
Proof. apply (bool_decide_unpack _). vm_compute. exact I. Qed.

(** C16: The router. All 45 patterns parse, and no two of them can match one
    request, so building the mux cannot panic and the order of registration and
    the rule of the most specific pattern never matter. A request made from a
    pattern, with whatever values for its wildcards, reaches the handler of that
    very pattern with those values; conversely a request that reaches a handler
    is made from its pattern. Every other request is 405 when its path has a
    pattern under another method, and 404 otherwise. *)
Theorem Handler_routes :
  length routes = length Handler ∧ length Handler = 45%nat ∧ conflict_free routes.*1 = true ∧
  (∀ p h method v, (p, h) ∈ routes → allows (pat_method p) method = true →
     let path := fill v (pat_path p) in
     ∃ vs, Route method path = Found (h (path_text path) (PathValue vs)) vs ∧
       ∀ name, PathValue vs name = if decide (name ∈ wildcards (pat_path p)) then v name else EmptyString) ∧
  (∀ method path t vs, Route method path = Found t vs →
     ∃ p h, (p, h) ∈ routes ∧ allows (pat_method p) method = true ∧ fill (PathValue vs) (pat_path p) = path ∧
       t = h (path_text path) (PathValue vs)) ∧
  (∀ method path, Route method path = MethodNotAllowed →
     ∃ p h v, (p, h) ∈ routes ∧ fill v (pat_path p) = path ∧ allows (pat_method p) method = false) ∧
  (∀ method path, Route method path = PathNotFound →
     ∀ p h v, (p, h) ∈ routes → fill v (pat_path p) ≠ path).
Proof.
  pose proof routes_parse as [H1 H2]. split_and!; [done|congruence|apply routes_conflict_free|..].
  - intros p h method v Hin Ha path. exists ((λ name, (name, v name)) <$> wildcards (pat_path p)). split.
    + assert (matches p method path = Some ((λ name, (name, v name)) <$> wildcards (pat_path p))) as Hm
        by (unfold matches; rewrite Ha; apply match_fill).
      unfold Route, route. by rewrite (find_route_unique routes p h method path _ routes_conflict_free Hin Hm).
    + intros name. apply PathValue_wildcards.
  - intros method path t vs. unfold Route, route.
    destruct (find_route routes method path) as [[h vs']|] eqn:E; [|by destruct (existsb _ _)].
    intros [= <- <-]. apply find_route_elem in E as (p & Hin & Hm). exists p, h. unfold matches in Hm.
    destruct (allows (pat_method p) method); [|done]. split_and!; [done|done| |done].
    eapply match_path_fill; [|exact Hm]. pose proof routes_wildcards as Hw. rewrite Forall_forall in Hw.
    apply Hw. by apply (list_elem_of_fmap_2 fst routes (p, h)).
  - intros method path. unfold Route, route.
    destruct (find_route routes method path) as [[h vs']|] eqn:E; [done|].
    destruct (existsb _ _) eqn:Ex; [|done]. intros _. apply existsb_exists in Ex as ([p h] & Hin & Hm).
    apply bool_decide_eq_true in Hm as [vs Hm]. apply list_elem_of_In in Hin. exists p, h, (PathValue vs).
    pose proof routes_wildcards as Hw. rewrite Forall_forall in Hw.
    split_and!; [done|eapply match_path_fill; [|exact Hm]; apply Hw; by apply (list_elem_of_fmap_2 fst routes (p, h))|].
    pose proof (find_route_none _ _ _ _ _ E Hin) as Hn. unfold matches in Hn. cbn in Hm. rewrite Hm in Hn.
    by destruct (allows (pat_method p) method).
  - intros method path. unfold Route, route.
    destruct (find_route routes method path) as [[h vs']|] eqn:E; [done|].
    destruct (existsb _ _) eqn:Ex; [done|]. intros _ p h v Hin Hf.
    assert (existsb (λ r : pattern * _, bool_decide (is_Some (match_path (pat_path r.1) path))) routes = true) as Ht; [|congruence].
    apply existsb_exists. exists (p, h). split; [by apply list_elem_of_In|]. apply bool_decide_eq_true. cbn.
    rewrite <- Hf, match_fill. by eexists.
Qed.

(** ** What every request keeps *)

Section safe.
Context {PG : Postgres} `{!Base58} (w : world).

(** The server [run] builds. *)
Definition running (m : option Enforcer) : Server :=
  NewServer (Some (NewBroadcaster w)) m (Some (NewWithdrawals w)).

Lemma on_conn_store stores r p a p' :
  on_conn w (Router.ServeHTTP stores r) p = (a, p') →
  let d := others w (p_clock p) (pass_db p) in
  ∃ x, a = Ok x ∧ pass_db p' = d ∧ p_drops p' = p_drops p ∧
    (∀ e, stores = Err e → rp_status x = StatusServiceUnavailable) ∧
    (rp_status x ≠ StatusInternalServerError → Router.ServeHTTP stores r (Conn d []) = (x, Conn d [])).
Proof.
  unfold on_conn. destruct (Router.ServeHTTP stores r (interfere w p)) as [x c] eqn:E. intros [= <- <-].
  exists x. apply ServeHTTP_honest in E as Hh. destruct Hh as [Hd Hh]. split_and!; [done|exact Hd|done| |exact Hh].
  intros e ->. by destruct r; injection E as <- <-.
Qed.

(** What a node route comes to: nothing written, and a drop only with its error. *)
Definition node_reply (p : pass) (r : result http_reply) (p' : pass) : Prop :=
  ∃ a, r = Ok a ∧ pass_db p' = pass_db p ∧
    (p_drops p' = p_drops p ∨
     p_drops p' = Datatypes.S (p_drops p) ∧ (rp_status a = StatusBadRequest ∨ rp_status a = StatusBadGateway)).

Lemma broadcast_reply m body p r p' :
  handle_target w (running m) true body PostTransaction p = (r, p') → node_reply p r p'.
Proof.
  destruct p as [c k n]. unfold handle_target, broadcast, running, NewServer, NewBroadcaster. cbn [broadcaster].
  unfold mbind, S_bind. destruct (readTransactionBody body) as [tx|e];
    [|intros [= <- <-]; eexists; split_and!; [done|done|by left]].
  unfold handle, MempoolSync.Broadcaster.Broadcast, dropping, handle, mbind, S_bind, ask. cbn.
  destruct (sn_node_up _) as [u|e]; cbn; [|intros [= <- <-]; eexists; split_and!; [done|done|by left]].
  destruct (sn_submit _ tx) as [id|e]; cbn; intros [= <- <-]; eexists;
    (split_and!; [done|done|]); [by left|right; by split; [|left]].
Qed.

Lemma withdrawals_reply m body p r p' :
  handle_target w (running m) true body DrivechainWithdrawals p = (r, p') → node_reply p r p'.
Proof.
  destruct p as [c k n]. unfold handle_target, drivechainWithdrawals, running, NewServer, NewWithdrawals, handle. cbn [withdrawals Pending LastFailed].
  unfold MempoolSync.Withdrawals.Pending, MempoolSync.Withdrawals.LastFailedHeight, dropping, handle, mbind, S_bind, ask. cbn.
  destruct (sn_node_up _) as [u|e]; cbn; [|intros [= <- <-]; eexists; split_and!; [done|done|by left]].
  destruct (sn_bundle _) as [b|e]; cbn;
    [|intros [= <- <-]; eexists; split_and!; [done|done|right; by split; [|right]]].
  destruct (sn_node_up _) as [u'|e]; cbn; [|intros [= <- <-]; eexists; split_and!; [done|done|by left]].
  destruct (sn_failed_height _) as [x|e]; cbn; intros [= <- <-]; eexists;
    (split_and!; [done|done|]); [by left|right; by split; [|right]].
Qed.

(** What a handler comes to. *)
Lemma handle_target_reply m connected body t p r p' :
  handle_target w (running m) connected body t p = (r, p') →
  ∃ a, r = Ok a ∧
    (pass_db p' = pass_db p ∨ pass_db p' = others w (Datatypes.S (p_clock p)) (pass_db p)) ∧
    (p_drops p' = p_drops p ∨
     p_drops p' = Datatypes.S (p_drops p) ∧ (rp_status a = StatusBadRequest ∨ rp_status a = StatusBadGateway)) ∧
    match t with
    | Store rq =>
        let stores := sn_store_up (at_call w (p_clock p)) in
        let d := others w (Datatypes.S (p_clock p)) (pass_db p) in
        (∀ e, stores = Err e → rp_status a = StatusServiceUnavailable) ∧
        (rp_status a ≠ StatusInternalServerError → Router.ServeHTTP stores rq (Conn d []) = (a, Conn d []))
    | FeeEstimates => rp_status a = StatusOK
    | Health => rp_status a = if connected then StatusOK else StatusServiceUnavailable
    | _ => True
    end.
Proof.
  destruct t as [rq| | | | |slot|]; try (intros [= <- <-]; eexists; by split_and!; [|left|left|]).
  - destruct p as [c k n]. cbn [handle_target]. unfold from_store, handle, ask. cbn.
    destruct (sn_store_up (at_call w k)) as [[]|e]; unfold mbind, S_bind;
      destruct (on_conn w _ _) as [a p1] eqn:E; apply on_conn_store in E as (x & -> & Hd & Hn & Hs & Hh);
      intros [= <- <-]; exists x; (split_and!; [done|by right|by left|done|done]).
  - intros (a & -> & Hd & Hn)%(broadcast_reply m). exists a. split_and!; [done|by left|done|done].
  - intros (a & -> & Hd & Hn)%(withdrawals_reply m body). exists a. split_and!; [done|by left|done|done].
Qed.

(** A request leaves the database to the others. *)
Lemma ServeHTTP_db m connected method path body p :
  let d := pass_db (ServeHTTP w (running m) connected method path body p).2 in
  d = pass_db p ∨ d = others w (Datatypes.S (p_clock p)) (pass_db p).
Proof.
  destruct (ServeHTTP w (running m) connected method path body p) as [r p'] eqn:E. revert E. unfold ServeHTTP.
  destruct (Route method path) as [t vs| |]; [|intros [= _ <-]; by left..].
  by intros (a & _ & Hd & _)%handle_target_reply.
Qed.

(** C17: What every request keeps, whatever its method, path and body and whatever
    state the node, the enforcer and the store are in. It gets one answer; it writes
    nothing to the database; it drops the node's connection at most once, and only
    where the node's own failure is answered with 400 or 502. Without a store the
    store routes answer 503, and with one an answer that is no internal error is the
    answer the same tables give when no statement fails: no failed read is ever
    mixed into it. The other routes answer as ever: the fee estimates 200, the
    health route what it is asked about. *)
Theorem Server_safe m connected method path body p r p' :
  ServeHTTP w (running m) connected method path body p = (r, p') →
  ∃ a, r = Ok a ∧
    (pass_db p' = pass_db p ∨ pass_db p' = others w (Datatypes.S (p_clock p)) (pass_db p)) ∧
    (p_drops p' = p_drops p ∨
     p_drops p' = Datatypes.S (p_drops p) ∧ (rp_status a = StatusBadRequest ∨ rp_status a = StatusBadGateway)) ∧
    match Route method path with
    | Found (Store rq) _ =>
        let stores := sn_store_up (at_call w (p_clock p)) in
        let d := others w (Datatypes.S (p_clock p)) (pass_db p) in
        (∀ e, stores = Err e → rp_status a = StatusServiceUnavailable) ∧
        (rp_status a ≠ StatusInternalServerError → Router.ServeHTTP stores rq (Conn d []) = (a, Conn d []))
    | Found FeeEstimates _ => rp_status a = StatusOK
    | Found Health _ => rp_status a = if connected then StatusOK else StatusServiceUnavailable
    | Found _ _ => True
    | MethodNotAllowed => rp_status a = StatusMethodNotAllowed
    | PathNotFound => rp_status a = StatusNotFound
    end.
Proof.
  unfold ServeHTTP. destruct (Route method path) as [t vs| |];
    [|intros [= <- <-]; eexists; by split_and!; [|left|left|]..].
  intros (a & Hr & Hd & Hn & Hs)%handle_target_reply. exists a. split_and!; [done..|]. by destruct t.
Qed.
End safe.
