(* ===== verification/ReplyText.v ===== *)
(** * Every answer is text a client can read

    The JSON of an answer parses, because the API adds numbers and texts of its own
    to what a node supplied: the contents of coins, which the tables hold. *)

From S2P Require Import Prelude GoStd Json JsonText Hash OutPoint Block Registry Tables Write Ledger.
From S2P Require Import WriteSpec Read ReadSpec Activity Mempool Enforcer Esplora Handlers Respond Router ApiSpec.
From S2P Require Import Mux Sync SyncSpec MempoolSync Relay Server.
Open Scope Z_scope.
Open Scope list_scope.

#[local] Notation S := Datatypes.S.

(** ** What a read yields *)

Class Yields {A} (d : db) (m : M A) (Q : A → Prop) : Prop :=
  yields c a c' : c_db c = d → m c = (Ok a, c') → Q a.

Lemma yields_query {A} d (q : db → result A) (Q : A → Prop) :
  (∀ a, q d = Ok a → Q a) → Yields d (query q) Q.
Proof.
  intros HQ [d' fs] a c' <-. unfold query, exec. cbn.
  destruct fs as [|[] fs]; cbn; [|done|]; destruct (q d') as [x|e] eqn:E; cbn; intros; simplify_eq; by apply HQ.
Qed.

Lemma yields_any {A} d (m : M A) : Yields d m (λ _, True).
Proof. done. Qed.

Lemma yields_ret {A} d (a : A) (Q : A → Prop) : Q a → Yields d (mret a) Q.
Proof. by intros HQ c a' c' _ [= <- _]. Qed.

Lemma yields_bind {A B} d (m : M A) (f : A → M B) P Q :
  Reads m → Yields d m P → (∀ a, P a → Yields d (f a) Q) → Yields d (m ≫= f) Q.
Proof.
  intros Hr Hm Hf c b c' Hc. unfold mbind, M_bind. destruct (m c) as [[a|e] c1] eqn:E; [|done].
  intros Hb. destruct (Hr _ _ _ E) as [Hd _]. refine (Hf a (Hm _ _ _ Hc E) c1 b c' _ Hb). congruence.
Qed.

Lemma yields_unless_found {A B} d (m : M A) (missing : M B) (ok : A → M B) P Q :
  Reads m → Yields d m P → Yields d missing Q → (∀ a, P a → Yields d (ok a) Q) →
  Yields d (unless_found m missing ok) Q.
Proof.
  intros Hr Hm Hn Ho c b c' Hc. unfold unless_found. destruct (m c) as [[a|e] c1] eqn:E;
    destruct (Hr _ _ _ E) as [Hd _]; intros Hb.
  - refine (Ho a (Hm _ _ _ Hc E) c1 b c' _ Hb). congruence.
  - destruct e; try done. refine (Hn c1 b c' _ Hb). congruence.
Qed.

Lemma yields_read_each {A B} d skip (f : A → M B) l Q :
  (∀ a, Reads (f a)) → (∀ a, Yields d (f a) Q) → Yields d (read_each skip f l) (Forall Q).
Proof.
  intros Hr Hf. induction l as [|x l IH]; [by apply yields_ret|].
  intros c ys c' Hc. cbn [read_each]. destruct (f x c) as [[y|e] c1] eqn:E; destruct (Hr _ _ _ _ E) as [Hd _].
  - unfold mbind, M_bind. destruct (read_each skip f l c1) as [[zs|e] c2] eqn:E2; [|done]. intros [= <- _].
    constructor; [by eapply Hf|]. refine (IH c1 zs c2 _ E2). congruence.
  - destruct (skip e); [|done]. apply IH. congruence.
Qed.

(** ** What a handler writes *)

(** The level a content may have, below the five the API opens around it. *)
Definition content_level : nat := 9995.

Lemma content_level_fits : S (S (S (S (S content_level)))) = maxNestingDepth.
Proof. vm_compute. reflexivity. Qed.

#[global] Arguments content_level : simpl never.

Class Writes {A} `{Marshal A} (d : db) (h : handler A) : Prop :=
  writes c x c' : c_db c = d → h c = (WriteJSON x, c') → Readable maxNestingDepth x.

Lemma readable_max {A} `{Marshal A} n (x : A) :
  Readable n x → (n ≤ S (S (S (S (S content_level)))))%nat → Readable maxNestingDepth x.
Proof. intros Hx Hn. rewrite <- content_level_fits. by eapply readable_mono. Qed.

(** Types that hold no content. *)
Lemma writes_plain {A} `{Marshal A} d (h : handler A) :
  (∀ x : A, Readable (S (S (S content_level))) x) → Writes d h.
Proof. intros Hx c x c' _ _. eapply readable_max; [apply Hx|lia]. Qed.

Lemma writes_json {A} `{Marshal A} d n (x : A) :
  Readable n x → (n ≤ S (S (S (S (S content_level)))))%nat → Writes d (answer (WriteJSON x)).
Proof. intros Hx Hn c x' c' _ [= <- _]. by eapply readable_max. Qed.

#[export] Instance writes_text {A} `{Marshal A} d s : Writes d (answer (WriteText (A := A) s)).
Proof. by intros c x c' _ [=]. Qed.

#[export] Instance writes_error {A} `{Marshal A} d s m : Writes d (answer (WriteError (A := A) s m)).
Proof. by intros c x c' _ [=]. Qed.

Lemma writes_parsed {A B} `{Marshal B} d (r : result A) (k : A → handler B) :
  (∀ a, Writes d (k a)) → Writes d (parsed r k).
Proof. intros Hk. destruct r; [apply Hk|apply _]. Qed.

Lemma writes_with_store {A} `{Marshal A} d stores (k : handler A) : Writes d k → Writes d (with_store stores k).
Proof. intros Hk. destruct stores; [apply Hk|apply _]. Qed.

Lemma failure_not_json {A} e (x : A) : failure e = WriteJSON x → False.
Proof. unfold failure. by case_bool_decide. Qed.

Lemma writes_failed {A B} `{Marshal B} d (m : M A) (k : A → handler B) P :
  Reads m → Yields d m P → (∀ a, P a → Writes d (k a)) → Writes d (failed m k).
Proof.
  intros Hr Hm Hk c x c' Hc. unfold failed. destruct (m c) as [[a|e] c1] eqn:E; destruct (Hr _ _ _ E) as [Hd _].
  - apply (Hk a (Hm _ _ _ Hc E)). congruence.
  - intros H1. exfalso. by eapply failure_not_json; injection H1.
Qed.

Lemma writes_notFound {A B} `{Marshal B} d (m : M A) (k : A → handler B) P :
  Reads m → Yields d m P → (∀ a, P a → Writes d (k a)) → Writes d (notFound m k).
Proof.
  intros Hr Hm Hk c x c' Hc. unfold notFound. destruct (m c) as [[a|e] c1] eqn:E; destruct (Hr _ _ _ E) as [Hd _].
  - apply (Hk a (Hm _ _ _ Hc E)). congruence.
  - intros H1. exfalso. destruct e; try discriminate H1; by eapply failure_not_json; injection H1.
Qed.

(** ** What the tables hold *)

Definition contents_readable (d : db) : Prop :=
  map_Forall (λ _ o, readable content_level (o_content o)) (outputs (chain_tables d)) ∧
  map_Forall (λ _ o, readable content_level (mo_content o)) (mempool_outputs (pool d)).

#[export] Instance contents_readable_dec d : Decision (contents_readable d).
Proof. unfold contents_readable. apply _. Defined.

Definition coin_readable (c : Coin) : Prop := readable content_level (co_Content c).
Definition row_readable (row : TxRow) : Prop := Forall coin_readable (tx_Vin row) ∧ Forall coin_readable (tx_Vout row).
Definition utxo_readable (u : UTXO) : Prop := readable content_level (u_Content u).

Section rows.
Context {PG : Postgres} (HP : PostgresLaws) `{!Base58} (d : db) (Hd : contents_readable d).

(** A row a query meets is a row of its table. *)
Lemma scanned_output o :
  o ∈ snd <$> scan (map_to_list (outputs (chain_tables d))) → readable content_level (o_content o).
Proof.
  intros ([k o'] & -> & Hin)%list_elem_of_fmap. rewrite scan_perm in Hin. apply elem_of_map_to_list in Hin.
  by apply (proj1 Hd k).
Qed.

Lemma scanned_pending (P : OutPointKey * mempool_output_row → Prop) `{∀ x, Decision (P x)} o :
  o ∈ snd <$> scan (map_to_list (filter P (mempool_outputs (pool d)))) → readable content_level (mo_content o).
Proof.
  intros ([k o'] & -> & Hin)%list_elem_of_fmap. rewrite scan_perm in Hin. apply elem_of_map_to_list in Hin.
  apply map_lookup_filter_Some in Hin as [Hin _]. by apply (proj2 Hd k).
Qed.

Lemma coins_readable (P : output_row → Prop) `{∀ o, Decision (P o)} key : Yields d (coins P key) (Forall coin_readable).
Proof.
  apply yields_query. intros cs [= <-]. apply Forall_fmap, Forall_forall. intros o Ho.
  unfold output_rows in Ho. rewrite merge_sort_Permutation in Ho. apply list_elem_of_filter in Ho as [_ Ho].
  by apply scanned_output.
Qed.

Lemma Tx_readable txid : Yields d (Tx txid) row_readable.
Proof.
  unfold Tx. do 2 (eapply yields_bind; [unfold BlockAtHeight; apply _|apply yields_any|intros ? _]).
  eapply yields_bind; [unfold coins; apply _|apply coins_readable|intros vin Hi].
  eapply yields_bind; [unfold coins; apply _|apply coins_readable|intros vout Ho].
  by apply yields_ret.
Qed.

Lemma mempool_vin_readable txid : Forall coin_readable (mempool_vin txid (chain_tables d) (pool d)).
Proof.
  unfold mempool_vin. apply Forall_fmap, Forall_forall. intros [vin c] Hc.
  rewrite merge_sort_Permutation, scan_perm in Hc.
  apply elem_of_app in Hc as [(ks & _ & (o & Ho & [= _ <-])%bind_Some)%list_elem_of_omap|
    (ks & _ & (o & Ho & [= _ <-])%bind_Some)%list_elem_of_omap]; [by apply (proj1 Hd ks.1)|by apply (proj2 Hd ks.1)].
Qed.

Lemma mempool_vout_readable txid : Forall coin_readable (mempool_vout txid (pool d)).
Proof.
  unfold mempool_vout. apply Forall_fmap, Forall_forall. intros o Ho. rewrite merge_sort_Permutation in Ho.
  apply list_elem_of_filter in Ho as [_ ([k o'] & -> & Hin)%list_elem_of_fmap]. rewrite scan_perm in Hin.
  apply elem_of_map_to_list in Hin. by apply (proj2 Hd k).
Qed.

Lemma MempoolTxRow_readable txid : Yields d (MempoolTxRow txid) row_readable.
Proof.
  unfold MempoolTxRow. eapply yields_bind; [apply _|apply yields_any|intros t _].
  eapply yields_bind; [apply _|apply yields_query; intros vin [= <-]; apply mempool_vin_readable|intros vin Hi].
  eapply yields_bind; [apply _|apply yields_query; intros vout [= <-]; apply mempool_vout_readable|intros vout Ho].
  by apply yields_ret.
Qed.

Lemma txRow_readable txid : Yields d (txRow txid) row_readable.
Proof.
  eapply yields_unless_found; [apply _|apply Tx_readable|apply MempoolTxRow_readable|].
  intros row Hr. by apply yields_ret.
Qed.

Lemma utxo_rows_readable (P : output_row → Prop) `{∀ o, Decision (P o)} :
  Forall utxo_readable (scan_utxo <$> utxo_rows P (chain_tables d)).
Proof.
  apply Forall_fmap, Forall_forall. intros [o b] Ho. unfold utxo_rows in Ho. rewrite merge_sort_Permutation in Ho.
  apply list_elem_of_omap in Ho as (o' & [_ Ho]%list_elem_of_filter & Hb). destruct (blocks _ !! _); [|done].
  injection Hb as -> _. by apply scanned_output.
Qed.

Lemma UTXOs_readable column key : Yields d (UTXOs column key) (Forall utxo_readable).
Proof. apply yields_query. intros us (u & _ & [= <-])%bind_ok. apply utxo_rows_readable. Qed.

Lemma Deposits_readable txid height limit : Yields d (Deposits txid height limit) (Forall utxo_readable).
Proof. apply yields_query. intros us [= <-]. rewrite fmap_take. apply Forall_take, utxo_rows_readable. Qed.

Lemma AddressDeposits_readable address limit : Yields d (AddressDeposits address limit) (Forall utxo_readable).
Proof. apply yields_query. intros us [= <-]. rewrite fmap_take. apply Forall_take, utxo_rows_readable. Qed.

Lemma MempoolUTXOs_readable column key : Yields d (MempoolUTXOs column key) (Forall utxo_readable).
Proof.
  apply yields_query. intros us (u & _ & Hus)%bind_ok. apply Forall_lookup. intros i x Hx.
  destruct (traverse_lookup _ _ _ _ _ Hus Hx) as (o & Ho & (? & _ & [= <-])%bind_ok).
  apply list_elem_of_lookup_2 in Ho. unfold pending_utxo_rows in Ho. rewrite merge_sort_Permutation in Ho.
  by apply scanned_pending in Ho.
Qed.

(** ** What the rows become *)

Lemma readable_newTx row : row_readable row → Readable (S (S (S (S content_level)))) (newTx row).
Proof.
  intros [Hi Ho]. apply readable_Tx; apply Forall_fmap.
  - eapply Forall_impl; [exact Hi|]. intros c Hc. apply readable_Vin. intros p [= <-]. by apply readable_Vout.
  - eapply Forall_impl; [exact Ho|]. intros c Hc. eapply readable_mono; [by apply (readable_Vout content_level)|lia].
Qed.

Lemma readable_newTxs rows : Forall row_readable rows → Readable (S (S (S (S (S content_level))))) (newTx <$> rows).
Proof. intros Hr. apply readable_Forall, Forall_fmap. eapply Forall_impl; [exact Hr|]. apply readable_newTx. Qed.

Lemma readable_newUTXOs us : Forall utxo_readable us → Forall (Readable (S content_level)) (newUTXO <$> us).
Proof.
  intros Hu. apply Forall_fmap. eapply Forall_impl; [exact Hu|]. intros u Hc.
  apply readable_UTXO; [done|]. apply Nat.leb_le. vm_compute. reflexivity.
Qed.

(** ** The routes *)

Lemma writes_txs (rows : list TxRow) (first : list ApiTx) :
  Forall (Readable (S (S (S (S content_level))))) first → Forall row_readable rows →
  Writes d (answer (WriteJSON (first ++ (newTx <$> rows)))).
Proof.
  intros Hf Hr. eapply writes_json; [|done]. apply readable_Forall, Forall_app. split; [done|].
  apply Forall_fmap. eapply Forall_impl; [exact Hr|]. apply readable_newTx.
Qed.

Lemma writes_utxos us : Forall utxo_readable us → Writes d (answer (WriteJSON (toUTXOs us))).
Proof. intros Hu. eapply writes_json; [by apply readable_Forall, readable_newUTXOs|lia]. Qed.

#[local] Hint Extern 4 (Reads (Blocks _ _)) => apply reads_query : typeclass_instances.

Lemma writes_blockTxs stores hash index : Writes d (blockTxs stores hash index).
Proof.
  apply writes_with_store, writes_parsed. intros h.
  eapply writes_notFound; [apply reads_query|apply yields_any|intros row _]. apply writes_parsed. intros start.
  eapply writes_failed; [apply reads_query|apply yields_any|intros txids _].
  eapply writes_failed; [apply _|apply yields_read_each; intros; [apply _|apply Tx_readable]|].
  intros rows Hr. by apply (writes_txs rows []).
Qed.

Lemma writes_tx_route stores txid : Writes d (tx_route stores txid).
Proof.
  apply writes_with_store, writes_parsed. intros t.
  eapply writes_notFound; [apply _|apply txRow_readable|intros row Hr].
  eapply writes_json; [by apply readable_newTx|lia].
Qed.

Lemma mempoolTxs_readable txids :
  Yields d (mempoolTxs txids) (Forall (Readable (S (S (S (S content_level)))))).
Proof.
  unfold mempoolTxs.
  eapply yields_bind; [apply _|apply yields_read_each; intros; [apply _|apply MempoolTxRow_readable]|].
  intros rows Hr. apply yields_ret, Forall_fmap. eapply Forall_impl; [exact Hr|]. apply readable_newTx.
Qed.

Lemma writes_addressUTXOs stores path key : Writes d (addressUTXOs stores path key).
Proof.
  apply writes_with_store, writes_parsed. intros [column raw].
  eapply writes_failed; [apply reads_query|apply UTXOs_readable|intros rows Hr].
  eapply writes_failed; [apply reads_query|apply yields_any|intros spent _].
  eapply writes_failed; [apply reads_query|apply MempoolUTXOs_readable|intros pending Hp].
  rewrite <- fmap_app. apply writes_utxos, Forall_app. split; [|done].
  apply Forall_forall. intros u [_ Hu]%list_elem_of_filter. rewrite Forall_forall in Hr. by apply Hr.
Qed.

Lemma writes_addressMempoolTxs stores path key : Writes d (addressMempoolTxs stores path key).
Proof.
  apply writes_with_store, writes_parsed. intros [column raw].
  eapply writes_failed; [apply reads_query|apply yields_any|intros txids _].
  eapply writes_failed; [apply _|apply mempoolTxs_readable|intros out Ho].
  eapply writes_json; [by apply readable_Forall|done].
Qed.

Lemma writes_addressPage first refs :
  Forall (Readable (S (S (S (S content_level))))) first → Writes d (addressPage first refs).
Proof.
  intros Hf. eapply writes_failed; [apply _|apply yields_read_each; intros; [apply _|apply Tx_readable]|].
  intros rows Hr. by apply writes_txs.
Qed.

Lemma writes_addressTxs stores path key last_seen : Writes d (addressTxs stores path key last_seen).
Proof.
  apply writes_with_store, writes_parsed. intros [column raw].
  eapply writes_failed; [apply _|apply yields_any|intros tip _]. destruct (String.eqb _ _).
  - eapply writes_failed; [apply reads_query|apply yields_any|intros refs _].
    eapply writes_failed; [apply reads_query|apply yields_any|intros txids _].
    eapply writes_failed; [apply _|apply mempoolTxs_readable|intros out Ho]. by apply writes_addressPage.
  - apply writes_parsed. intros t. eapply writes_notFound; [apply _|apply yields_any|intros row _].
    destruct (_ =? 0); [by apply (writes_txs [] [])|].
    eapply writes_failed; [apply reads_query|apply yields_any|intros refs _]. by apply writes_addressPage.
Qed.

Lemma writes_deposits stores start : Writes d (deposits_route stores start).
Proof.
  apply writes_with_store. eapply writes_failed; [apply _|apply yields_any|intros h _].
  eapply writes_failed; [apply reads_query|apply Deposits_readable|]. apply writes_utxos.
Qed.

Lemma writes_deposit stores txid : Writes d (deposit_route stores txid).
Proof.
  apply writes_with_store, writes_parsed. intros t.
  eapply writes_failed; [apply reads_query|apply Deposits_readable|intros rows Hr].
  destruct rows; [apply _|by apply writes_utxos].
Qed.

Lemma writes_addressDeposits stores key : Writes d (addressDeposits stores key).
Proof.
  apply writes_with_store, writes_parsed. intros a.
  eapply writes_failed; [apply reads_query|apply AddressDeposits_readable|]. apply writes_utxos.
Qed.

(** The form of an answer: JSON a client can read, with its newline, or a text. *)
Definition well_formed (a : http_reply) : Prop :=
  rp_type a = "application/json"%string ∧ (rp_status a = StatusOK ∨ rp_status a = StatusServiceUnavailable) ∧
    (∃ j, rp_body a = Encode j ∧ parse (rp_body a) = Some (clean j)) ∨
  rp_type a ∈ ["text/plain"; "text/plain; charset=utf-8"]%string.

(** What the bytes of an answer say: a value as JSON that parses to it, or a text as
    it is. *)
Definition says {A} `{Marshal A} (r : reply A) (a : http_reply) : Prop :=
  match r with
  | WriteJSON x =>
      rp_status a = StatusOK ∧ rp_type a = "application/json"%string ∧ rp_body a = Encode (marshal x) ∧
      parse (rp_body a) = Some (clean (marshal x))
  | WriteText s => rp_status a = StatusOK ∧ rp_type a = "text/plain"%string ∧ rp_body a = s
  | WriteError status s => rp_status a = status ∧ rp_type a = "text/plain"%string ∧ rp_body a = s
  end.

Lemma says_well_formed {A} `{Marshal A} (r : reply A) a : says r a → well_formed a.
Proof.
  destruct r as [x|s|status s]; cbn; [|intros (_ & Ht & _); right; rewrite Ht; left..].
  intros (Hs & Ht & Hb & Hp). left. split_and!; [done|by left|]. by exists (marshal x).
Qed.

Lemma respond_says {A} `{Marshal A} (r : reply A) :
  (∀ x, r = WriteJSON x → readable maxNestingDepth (marshal x)) → says r (respond r).
Proof.
  intros Hr. destruct r as [x|s|status s]; [|done..]. split_and!; [done..|].
  apply (parse_tail (marshal x) newline); [by apply Hr|done].
Qed.

Lemma encoded_well_formed status j :
  readable maxNestingDepth j → status = StatusOK ∨ status = StatusServiceUnavailable →
  well_formed {| rp_status := status; rp_type := "application/json"; rp_body := Encode j |}.
Proof. intros Hj Hs. left. split_and!; [done..|]. exists j. split; [done|]. by apply (parse_tail j newline). Qed.

Lemma handler_says {A} `{Marshal A} (h : handler A) c r c' :
  Writes d h → c_db c = d → any h c = (r, c') → says (h c).1 r.
Proof.
  intros Hw Hc. unfold any. destruct (h c) as [x c1] eqn:E. intros [= <- _].
  apply respond_says. intros y ->. by eapply Hw.
Qed.

Lemma store_route_says stores r c a c' :
  c_db c = d → Router.ServeHTTP stores r c = (a, c') →
  match handler_of stores r with Handles h => says (h c).1 a end.
Proof.
  intros Hc. destruct r; apply handler_says; try done;
    first [by apply writes_plain; intros; apply _|idtac].
  - apply writes_blockTxs.
  - apply writes_tx_route.
  - apply writes_addressUTXOs.
  - apply writes_addressTxs.
  - apply writes_addressMempoolTxs.
  - apply writes_addressDeposits.
  - apply writes_deposit.
  - apply writes_deposits.
Qed.
End rows.

(** ** The whole server *)

Section server.
Context {PG : Postgres} (HP : PostgresLaws) `{!Base58} (w : world) (m : option Enforcer).

Lemma FeeEstimates_readable : readable maxNestingDepth (marshal feeEstimates).
Proof. split; [by vm_compute|apply Nat.leb_le; by vm_compute]. Qed.

Lemma withdrawals_readable p r p' :
  (∀ k b, sn_bundle (at_call w k) = Ok (Some b) → readable (S content_level) b) →
  drivechainWithdrawals (running w m) p = (Ok r, p') → says r (respond r).
Proof.
  intros Hb E. apply respond_says. intros x ->. revert E.
  destruct p as [c k n]. unfold drivechainWithdrawals, running, NewServer, NewWithdrawals, handle.
  cbn [Server.withdrawals Pending LastFailed].
  unfold Withdrawals.Pending, Withdrawals.LastFailedHeight, dropping, handle, mbind, S_bind, ask. cbn.
  destruct (sn_node_up _) as [u|e]; cbn; [|done].
  destruct (sn_bundle _) as [b|e] eqn:Eb; cbn; [|done].
  destruct (sn_node_up _) as [u'|e]; cbn; [|done].
  destruct (sn_failed_height _) as [y|e]; cbn; [|done]. intros [= <- _].
  rewrite <- content_level_fits. apply (readable_mono (S (S content_level))); [|lia].
  readable_struct. destruct b as [b|]; [by eapply Hb|]. split; [done|cbn; lia].
Qed.

(** What the answer to a request has to say: what its handler comes to. *)
Definition to_say (connected : bool) (body : request_body) (t : routed target) (p p' : pass) (a : http_reply) : Prop :=
  match t with
  | Found (Store r) _ =>
      match handler_of (sn_store_up (at_call w (p_clock p))) r with
      | Handles h => says (h (interfere w (MkPass (p_conn p) (S (p_clock p)) (p_drops p)))).1 a
      end
  | Found PostTransaction _ => ∃ r, broadcast (broadcaster (running w m)) body p = (Ok r, p') ∧ says r a
  | Found FeeEstimates _ => says (WriteJSON feeEstimates) a
  | Found DrivechainWithdrawals _ => ∃ r, drivechainWithdrawals (running w m) p = (Ok r, p') ∧ says r a
  | Found DrivechainSidechains _ => says (drivechainSidechains m) a
  | Found (DrivechainSidechain slot) _ => says (drivechainSidechain m slot) a
  | Found Health _ =>
      rp_type a = "application/json"%string ∧
      parse (rp_body a) = Some (JObj [("database"%string, JBool connected)])
  | MethodNotAllowed | PathNotFound => rp_type a = "text/plain; charset=utf-8"%string
  end.

(** C34: Every answer is one a client can read, and says what the handler of its
    request came to: a text, byte for byte, or JSON that parses, whole and with its
    newline, to the value the handler answered with; whatever was requested, in
    whatever state tables, node and enforcer are and whichever statements fail. It
    takes contents and a bundle that leave the levels the API opens around them;
    nothing else that a node, an enforcer or a client supplied can spoil an answer. *)
Theorem ServeHTTP_readable connected method path body p a p' :
  contents_readable (others w (S (p_clock p)) (pass_db p)) →
  (∀ k b, sn_bundle (at_call w k) = Ok (Some b) → readable (S content_level) b) →
  Server.ServeHTTP w (running w m) connected method path body p = (Ok a, p') →
  well_formed a ∧ to_say connected body (Route method path) p p' a.
Proof.
  intros Hc Hb. unfold Server.ServeHTTP. destruct (Route method path) as [t vs| |];
    [|by intros [= <- _]; split; [right; right; left|]..].
  destruct t as [r| | | | |slot|]; cbn [handle_target to_say].
  - destruct p as [c k n]. unfold from_store, handle, ask. cbn [p_clock p_conn p_drops].
    destruct (sn_store_up (at_call w k)) as [[]|e]; unfold mbind, S_bind, on_conn;
      destruct (Router.ServeHTTP _ r _) as [x c1] eqn:E; intros [= <- _];
      apply (store_route_says HP _ Hc) in E; try done;
      (split; [|exact E]); destruct (handler_of _ r); exact (says_well_formed _ _ E).
  - unfold mbind, S_bind. destruct (broadcast _ body p) as [[x|e] p1] eqn:E; [|done]. intros [= <- <-].
    assert (says x (respond x)) as Hs by (apply respond_says; intros [] _; split; [done|cbn; lia]).
    split; [exact (says_well_formed _ _ Hs)|]. by exists x.
  - intros [= <- _]. assert (says (WriteJSON feeEstimates) (respond (WriteJSON feeEstimates))) as Hs.
    { apply respond_says. intros x [= <-]. apply FeeEstimates_readable. }
    split; [exact (says_well_formed _ _ Hs)|done].
  - unfold mbind, S_bind. destruct (drivechainWithdrawals _ p) as [[x|e] p1] eqn:E; [|done]. intros [= <- <-].
    pose proof (withdrawals_readable _ _ _ Hb E) as Hs. split; [exact (says_well_formed _ _ Hs)|]. by exists x.
  - intros [= <- _]. assert (says (drivechainSidechains m) (respond (drivechainSidechains m))) as Hs.
    { apply respond_says. intros x _. eapply readable_max; [apply (readable_list (S (S content_level))), _|lia]. }
    split; [exact (says_well_formed _ _ Hs)|done].
  - intros [= <- _]. assert (says (drivechainSidechain m slot) (respond (drivechainSidechain m slot))) as Hs.
    { apply respond_says. intros x _. eapply readable_max; [apply (readable_SidechainInfo content_level)|lia]. }
    split; [exact (says_well_formed _ _ Hs)|done].
  - intros [= <- _]. split.
    + apply encoded_well_formed; destruct connected; auto; (split; [done|apply Nat.leb_le; by vm_compute]).
    + split; [done|]. by destruct connected; vm_compute.
Qed.
End server.
