(* ===== verification/Converge.v ===== *)
(** * Catching up with a node

    Termination of the sync loop, and convergence: a pass over a node that
    holds still ends with exactly the index that writing the node's chain from
    scratch would build, whatever branch the index was on before. *)

From S2P Require Import Prelude GoStd Json Hash OutPoint Block BlockIndex Registry Tables Write.
From S2P Require Import Ledger WriteSpec Prepare Read Sync SyncSpec.
Open Scope Z_scope.

(** ** The loop ends *)

Section fuel.
Context {PG : Postgres} {B3 : Blake3} (D : Decoder) (w : world).

Lemma walk_enough fuel n nodeTip p :
  0 ≤ n < 2^32 → nodeTip < 2^32 - 1 → Z.max 0 (nodeTip + 1 - n) < Z.of_nat fuel →
  fst (walk D w fuel n nodeTip p) ≠ Ok None.
Proof.
  intros Hn Htip. revert n p Hn. induction fuel as [|fuel IH]; intros n p Hn Hf; cbn [walk].
  { lia. }
  destruct (Z.leb_spec n nodeTip); [|done]. unfold mbind, S_bind.
  destruct (applyHeight D w n p) as [[[]|e] p1]; cbn [negb]; try done.
  destruct (ctx_err w p1) as [[u|e] p2]; [|done].
  rewrite uint32_small by (unfold is_u32; lia). apply IH; lia.
Qed.

(** More fuel changes nothing. *)
Lemma walk_more fuel fuel' n nodeTip p :
  0 ≤ n < 2^32 → nodeTip < 2^32 - 1 → Z.max 0 (nodeTip + 1 - n) < Z.of_nat fuel →
  (fuel ≤ fuel')%nat → walk D w fuel' n nodeTip p = walk D w fuel n nodeTip p.
Proof.
  intros Hn Htip. revert fuel' n p Hn.
  induction fuel as [|fuel IH]; intros [|fuel'] n p Hn Hf Hle; try (done || lia); cbn [walk].
  destruct (Z.leb_spec n nodeTip); [|done]. unfold mbind, S_bind.
  destruct (applyHeight D w n p) as [[[]|e] p1]; cbn [negb]; try done.
  destruct (ctx_err w p1) as [[u|e] p2]; [|done].
  rewrite uint32_small by (unfold is_u32; lia). apply IH; lia.
Qed.
End fuel.

(** ** A pass on a connection that holds *)

(** From a database in [P] the call answers [a], leaves the database in [Q] and
    drops nothing. *)
Definition goes {A} (P : db → Prop) (m : S A) (a : A) (Q : db → Prop) : Prop :=
  ∀ d k n, P d → ∃ d' k', m (MkPass (Conn d []) k n) = (Ok a, MkPass (Conn d' []) k' n) ∧ Q d'.

Lemma goes_ret {A} (a : A) P : goes P (mret a) a P.
Proof. intros d k n Hd. by exists d, k. Qed.

Lemma goes_lift {A} (r : result A) a P : r = Ok a → goes P (lift r) a P.
Proof. intros -> d k n Hd. by exists d, k. Qed.

Lemma goes_bind {A B} (m : S A) (f : A → S B) P a R b Q :
  goes P m a R → goes R (f a) b Q → goes P (m ≫= f) b Q.
Proof.
  intros Hm Hf d k n Hd. destruct (Hm d k n Hd) as (d1 & k1 & E1 & H1).
  destruct (Hf d1 k1 n H1) as (d2 & k2 & E2 & H2). exists d2, k2. unfold mbind, S_bind. by rewrite E1.
Qed.

Lemma goes_weaken {A} (m : S A) (P P' : db → Prop) a (Q Q' : db → Prop) :
  goes P' m a Q' → (∀ d, P d → P' d) → (∀ d, Q' d → Q d) → goes P m a Q.
Proof.
  intros H HP HQ d k n Hd. destruct (H d k n (HP _ Hd)) as (d' & k' & E & Hd'). exists d', k'. eauto.
Qed.

(** A fact the precondition implies. *)
Lemma goes_learn {A} (m : S A) P (F : Prop) a Q : (∀ d, P d → F) → (F → goes P m a Q) → goes P m a Q.
Proof. intros HF H d k n Hd. by apply H; [eapply HF|]. Qed.

Lemma goes_ask {A} w (f : snapshot → result A) a P :
  (∀ k, f (at_call w k) = Ok a) → goes P (ask w f) a P.
Proof. intros H d k n Hd. exists d, (Datatypes.S k). unfold ask. cbn. by rewrite H. Qed.

Lemma goes_named_ask {A} context w (f : snapshot → result A) a P :
  (∀ k, f (at_call w k) = Ok a) → goes P (named context (ask w f)) a P.
Proof. intros H d k n Hd. exists d, (Datatypes.S k). unfold named, ask. cbn. by rewrite H. Qed.

Lemma goes_db {A} w (m : M A) (P : db → Prop) a (Q : db → Prop) :
  PoolOnly w → PoolFree P → NoFaults m →
  (∀ d, P d → ∃ d', run m d = (Ok a, d') ∧ Q d') → goes P (db_call w m) a Q.
Proof.
  intros Hw HP Hn Hr d k n Hd. pose proof (others_keep w P (MkPass (Conn d []) k n) Hd) as Hd1.
  unfold db_call, interfere in *. cbn in *. destruct (Hr _ Hd1) as (d' & Hm & Hd').
  specialize (Hn (others w k d)). unfold run in Hm. exists d', (Datatypes.S k).
  destruct (m (Conn (others w k d) [])) as [r [d2 fs]]. cbn in *. by simplify_eq.
Qed.

(** ** A node that holds still *)

Record chain_block := { ch_Hash : Hash; ch_Block : Block; ch_Index : BlockIndex }.

Section converge.
Context {PG : Postgres} {B3 : Blake3} (D : Decoder) (w : world) `{!PoolOnly w} (C : list chain_block)
  (heights : string → result (option Z)) (times : BitcoinHash → result Z).

(** Every call finds the chain [C] and the same two mainchain sources. *)
Record serves : Prop := {
  sv_node : ∀ k, sn_node_up (at_call w k) = Ok tt;
  sv_store : ∀ k, sn_store_up (at_call w k) = Ok tt;
  sv_count : ∀ k, sn_count (at_call w k) = Ok (Z.of_nat (length C));
  sv_hash : ∀ k i, is_u32 (Z.of_nat i) → sn_hash (at_call w k) (Z.of_nat i) = Ok (ch_Hash <$> C !! i);
  sv_block : ∀ k c, c ∈ C → sn_block (at_call w k) (ch_Hash c) = Ok (Some (ch_Block c));
  sv_index : ∀ k c, c ∈ C → sn_index (at_call w k) (ch_Hash c) = Ok (ch_Index c);
  sv_height : ∀ k, sn_height (at_call w k) = heights;
  sv_time : ∀ k, sn_time (at_call w k) = times;
  sv_ctx : ∀ k, sn_ctx (at_call w k) = None;
}.

Definition height_answer (main : BitcoinHash) : option Z :=
  if has_heights w then
    match heights (BitcoinHash_String main) with Ok o => o | Err _ => None end
  else None.

Definition time_answer (main : BitcoinHash) : result (option Z) :=
  if has_times w then wrap "read mainchain time" (Some <$> times main) else Ok None.

(** The row set one block of the chain comes to. *)
Definition prepared (i : nat) (c : chain_block) : result SBlock :=
  let main := PrevMainHash (blk_Header (ch_Block c)) in
  time ← time_answer main;
  write ← Prepare D (Z.of_nat i) (ch_Hash c) (ch_Block c) (ch_Index c) time;
  Ok (with_height (height_answer main) write).

Definition prepared_chain : result (list SBlock) := traverse prepared C.

Context (Hs : serves) (bs : list SBlock) (Hbs : prepared_chain = Ok bs)
  (l : ledger) (Hl : history bs l).

Lemma bs_lookup i c : C !! i = Some c → ∃ b, bs !! i = Some b ∧ prepared i c = Ok b.
Proof. apply (proj1 (traverse_ok _ _ _) Hbs). Qed.

Lemma bs_length : length bs = length C.
Proof. by eapply traverse_length. Qed.

Lemma prepared_hash i c b : prepared i c = Ok b →
  sb_Hash b = ch_Hash c ∧ sb_MainHash b = PrevMainHash (blk_Header (ch_Block c)) ∧
  sb_MainHeight b = height_answer (sb_MainHash b).
Proof.
  unfold prepared. intros (t & _ & (x & Hx & [= <-])%bind_ok)%bind_ok. cbn.
  apply Prepare_rows in Hx as (_ & -> & _ & _ & -> & _). done.
Qed.

Lemma bs_hash i : sb_Hash <$> bs !! i = ch_Hash <$> C !! i.
Proof.
  destruct (C !! i) as [c|] eqn:E.
  - destruct (bs_lookup i c E) as (b & -> & Hb). cbn. f_equal. by eapply prepared_hash.
  - apply lookup_ge_None in E. by rewrite (proj2 (lookup_ge_None bs i)) by (rewrite bs_length; lia).
Qed.

Lemma len_bound : Z.of_nat (length bs) ≤ 2^31.
Proof. inversion Hl; subst; cbn; [lia|]. rewrite length_app; cbn. lia. Qed.

(** The next block of the chain can be written. *)
Lemma next_applies n b :
  bs !! n = Some b →
  ∃ r, ∀ d, holds (take n bs) d →
    ∃ d', apply_db b d = Ok (r, d') ∧ holds (take (Datatypes.S n) bs) d'.
Proof.
  intros Hb. pose proof (lookup_lt_Some _ _ _ Hb) as Hn.
  rewrite <- (take_drop (Datatypes.S n) bs) in Hl.
  destruct (history_prefix _ _ _ Hl) as (l1 & H1 & _).
  rewrite (take_S_r _ _ _ Hb) in H1 |- *.
  inversion H1 as [E|bs' b' l0 r l0' H0 Hh Hlt Hok Hf Ha E]; subst; [by destruct (take n bs)|].
  apply app_inj_2 in E as [-> [= ->]]; [|done]. exists r. intros d [Hd Htip].
  rewrite (history_fun _ _ _ H0 Hd) in *.
  assert (∃ d', apply_db b d = Ok (r, d')) as [d' Hd'] by (unfold apply_db; rewrite Ha; by eexists).
  exists d'. split; [done|]. by eapply holds_apply; [split | split_and! |].
Qed.

Lemma goes_applyHeight n c :
  C !! n = Some c →
  goes (holds (take n bs)) (applyHeight D w (Z.of_nat n)) true (holds (take (Datatypes.S n) bs)).
Proof.
  intros Hc. destruct (bs_lookup n c Hc) as (b & Hb & Hp). destruct (next_applies n b Hb) as [r Ha].
  assert (c ∈ C) as Hin by by eapply list_elem_of_lookup_2.
  unfold prepared in Hp. apply bind_ok in Hp as (t & Ht & (x & Hx & [= <-])%bind_ok).
  assert (is_u32 (Z.of_nat n)) as Hu.
  { pose proof len_bound. apply lookup_lt_Some in Hb. unfold is_u32. lia. }
  destruct Hs as [_ _ _ Hhash Hblock Hindex Hheight Htime _].
  unfold applyHeight.
  eapply goes_bind; [apply goes_named_ask; intros k; by rewrite Hhash, Hc by done|]. cbn.
  eapply goes_bind; [apply goes_named_ask; intros k; by rewrite Hblock|]. cbn.
  eapply goes_bind; [apply goes_named_ask; intros k; by rewrite Hindex|]. cbn.
  eapply goes_bind.
  { unfold blockTime. unfold time_answer in Ht. destruct (has_times w).
    - apply wrap_ok in Ht. apply goes_named_ask. intros k. by rewrite Htime.
    - injection Ht as <-. apply goes_ret. }
  eapply goes_bind; [by apply goes_lift|].
  eapply (goes_bind _ _ _ (height_answer (PrevMainHash (blk_Header (ch_Block c)))) (holds (take n bs))).
  { unfold mainHeight, height_answer. destruct (has_heights w); [|apply goes_ret].
    apply goes_ask. intros k. rewrite Hheight. by destruct (heights _) as [[]|]. }
  eapply goes_bind; [|apply goes_ret]. apply (goes_db _ _ _ r); [apply _..|].
  intros d Hd. destruct (Ha d Hd) as (d' & Ha' & Hd'). exists d'. by rewrite run_Apply, Ha'.
Qed.

(** The loop writes the rest of the chain. *)
Lemma goes_walk fuel n :
  (n ≤ length C)%nat → (length C - n < fuel)%nat →
  goes (holds (take n bs)) (walk D w fuel (Z.of_nat n) (Z.of_nat (length C) - 1)) (Some true) (holds bs).
Proof.
  pose proof len_bound as Hbound. rewrite bs_length in Hbound.
  revert n. induction fuel as [|fuel IH]; intros n Hn Hf; [lia|]. cbn [walk].
  destruct (Z.leb_spec (Z.of_nat n) (Z.of_nat (length C) - 1)).
  - destruct (lookup_lt_is_Some_2 C n) as [c Hc]; [lia|].
    eapply goes_bind; [exact (goes_applyHeight n c Hc)|]. cbn [negb].
    eapply goes_bind; [apply goes_ask; intros k; by rewrite (sv_ctx Hs)|].
    rewrite uint32_small by (unfold is_u32; lia).
    replace (Z.of_nat n + 1) with (Z.of_nat (Datatypes.S n)) by lia. apply IH; lia.
  - eapply goes_weaken; [apply goes_ret|done|]. intros d Hd. rewrite take_ge in Hd; [done|]. rewrite bs_length. lia.
Qed.

(** ** Finding the fork *)

(** The branch the index is on. *)
Context (bs0 : list SBlock) (Hbr : Z.of_nat (length bs0) ≤ 2^31).

(** The index and the node name the same block at a height. *)
Definition shared (i : nat) : Prop :=
  ∃ b, bs0 !! i = Some b ∧ ch_Hash <$> C !! i = Some (sb_Hash b).

Lemma run_HashAt d i :
  holds bs0 d → (i < length bs0)%nat →
  run (HashAt (Z.of_nat i)) d = (Ok (sb_Hash <$> bs0 !! i), d).
Proof.
  intros [Hh _] Hi. unfold HashAt. rewrite run_query. do 2 f_equal.
  destruct (lookup_lt_is_Some_2 bs0 i Hi) as [b Hb].
  destruct (history_lookup _ _ _ _ Hh Hb) as [Hr _].
  rewrite int32_nonneg by lia. by rewrite Hr, Hb.
Qed.

(** What is read on the way down stays true of the database. *)
Section down.
Context (P : db → Prop) `{!PoolFree P} (HP : ∀ d, P d → holds bs0 d).

Lemma goes_HashAt i :
  (i < length bs0)%nat → goes P (db_call w (HashAt (Z.of_nat i))) (sb_Hash <$> bs0 !! i) P.
Proof.
  intros Hi. apply goes_db; [apply _..|]. intros d Hd. exists d. split; [|done]. apply run_HashAt; [by apply HP|done].
Qed.

(** [findFork] stops at the highest height below its start that both share. *)
Lemma goes_findFork m :
  (m ≤ length bs0)%nat → (∃ i, (i < m)%nat ∧ shared i) →
  ∃ k, goes P (findFork w m) (Z.of_nat k) P ∧ (k < m)%nat ∧ shared k ∧
    ∀ j, (k < j < m)%nat → ¬ shared j.
Proof.
  induction m as [|m IH]; intros Hm (i & Hi & Hshared); [lia|]. cbn [findFork].
  pose proof (goes_HashAt m ltac:(lia)) as Hours.
  destruct (lookup_lt_is_Some_2 bs0 m ltac:(lia)) as [b Hb]. rewrite Hb in Hours.
  assert (∀ k, sn_hash (at_call w k) (Z.of_nat m) = Ok (ch_Hash <$> C !! m)) as Htheirs
    by (intros k; apply (sv_hash Hs); unfold is_u32; lia).
  destruct (decide (ch_Hash <$> C !! m = Some (sb_Hash b))) as [E|E].
  - exists m. split_and!; [|lia|by exists b|lia].
    eapply goes_bind; [exact Hours|]. cbn.
    eapply goes_bind; [apply goes_named_ask; exact Htheirs|].
    rewrite bool_decide_true by done. apply goes_ret.
  - assert (¬ shared m) as Hm' by (intros (b' & Hb' & E'); simplify_eq).
    destruct IH as (k & Hk & Hkm & Hks & Hkmax); [lia| |].
    { exists i. split; [|done]. destruct (decide (i = m)) as [->|]; [done|lia]. }
    exists k. split_and!; [|lia|done|].
    + eapply goes_bind; [exact Hours|]. cbn.
      eapply goes_bind; [apply goes_named_ask; exact Htheirs|].
      by rewrite bool_decide_false by done.
    + intros j Hj. destruct (decide (j = m)) as [->|]; [done|]. apply Hkmax. lia.
Qed.
End down.

(** ** Resuming *)

(** A block hash commits to everything below it. *)
Definition hashes_commit : Prop :=
  ∀ i, shared i → take (Datatypes.S i) bs0 = take (Datatypes.S i) bs.

Lemma run_Tip d : holds bs0 d →
  run Tip d = (Ok ((λ b, (Z.of_nat (length bs0) - 1, sb_Hash b)) <$> last bs0), d).
Proof.
  intros [Hh (row & Hrow & Hth & Htx)]. unfold Tip. rewrite run_query, Hrow. cbn.
  rewrite Hth, Htx. unfold chain_tip. destruct (last bs0) as [b|] eqn:E; cbn; [|done].
  rewrite last_lookup in E. destruct (history_lookup _ _ _ _ Hh E) as [_ Hb].
  pose proof (lookup_lt_Some _ _ _ E).
  rewrite Hb, int32_nonneg, uint32_small by (unfold is_u32; lia).
  do 4 f_equal. lia.
Qed.

Lemma shared_below i : shared i → (i < length C)%nat.
Proof. intros (b' & _ & Hi). apply fmap_Some in Hi as (c & Hi & _). by eapply lookup_lt_Some. Qed.

Lemma goes_Tip :
  goes (holds bs0) (db_call w Tip) ((λ b, (Z.of_nat (length bs0) - 1, sb_Hash b)) <$> last bs0) (holds bs0).
Proof. apply goes_db; [apply _..|]. intros d Hd. exists d. split; [by apply run_Tip|done]. Qed.

(** A rollback keeps the front of the branch. *)
Lemma goes_Rollback k bs' :
  (k < length bs')%nat →
  goes (holds bs') (db_call w (Rollback (Z.of_nat k))) tt (holds (take (Datatypes.S k) bs')).
Proof.
  intros Hk. apply goes_db; [apply _..|]. intros d Hd. pose proof (holds_len _ _ Hd) as Hlen.
  exists (rollback_db (Z.of_nat k) d). rewrite run_Rollback, int32_nonneg by lia. split; [done|].
  pose proof (holds_rollback bs' d (Z.of_nat k) Hd ltac:(lia)) as Hr.
  by replace (Z.to_nat (Z.of_nat k + 1)) with (Datatypes.S k) in Hr by lia.
Qed.

Lemma goes_resolveStart :
  hashes_commit → (bs0 = [] ∨ shared 0) →
  ∃ n, goes (holds bs0) (resolveStart w) (Z.of_nat n) (holds (take n bs)) ∧ (n ≤ length C)%nat.
Proof.
  intros Hc Hgen. pose proof goes_Tip as Hgo. unfold resolveStart. destruct (last bs0) as [b|] eqn:E.
  2:{ apply last_None in E as Hnil. exists 0%nat. split; [|lia]. eapply goes_bind; [exact Hgo|].
      cbn. rewrite Hnil. apply goes_ret. }
  assert (bs0 ≠ []) as Hne by (by intros H0; rewrite H0 in E). destruct Hgen as [|Hgen]; [done|].
  rewrite last_lookup in E. pose proof (lookup_lt_Some _ _ _ E) as Hlt.
  set (tip := pred (length bs0)) in *.
  cbn in Hgo. replace (Z.of_nat (length bs0) - 1) with (Z.of_nat tip) in Hgo by lia.
  destruct (decide (ch_Hash <$> C !! tip = Some (sb_Hash b))) as [Eh|Eh].
  - assert (shared tip) as Hsh by (by exists b). exists (Datatypes.S tip). split.
    + eapply goes_bind; [exact Hgo|]. cbn.
      eapply goes_bind; [apply goes_named_ask; intros k; apply (sv_hash Hs); unfold is_u32; lia|].
      rewrite bool_decide_true by done. rewrite uint32_small by (unfold is_u32; lia).
      replace (Z.of_nat tip + 1) with (Z.of_nat (Datatypes.S tip)) by lia.
      rewrite <- (Hc tip Hsh), take_ge by lia. apply goes_ret.
    + apply shared_below in Hsh. lia.
  - destruct (goes_findFork (holds bs0) (λ _ H, H) tip) as (k & Hk & Hkt & Hsh & _); [lia| |].
    { exists 0%nat. split; [|done]. destruct (decide (tip = 0%nat)) as [E0|]; [|lia].
      exfalso. apply Eh. destruct Hgen as (b' & Hb' & Hc'). rewrite E0 in *. by simplify_eq. }
    exists (Datatypes.S k). split.
    + eapply goes_bind; [exact Hgo|]. cbn.
      eapply goes_bind; [apply goes_named_ask; intros k'; apply (sv_hash Hs); unfold is_u32; lia|].
      rewrite bool_decide_false by done. rewrite Nat2Z.id.
      eapply goes_bind; [exact Hk|]. rewrite <- (Hc k Hsh).
      eapply goes_bind; [apply goes_Rollback; lia|]. rewrite uint32_small by (unfold is_u32; lia).
      replace (Z.of_nat k + 1) with (Z.of_nat (Datatypes.S k)) by lia. apply goes_ret.
    + apply shared_below in Hsh. lia.
Qed.

(** With no shared height, the walk down ends in a rollback to 0. *)
Lemma goes_findFork_none m :
  (m ≤ length bs0)%nat → bs0 ≠ [] → (∀ i, ¬ shared i) →
  goes (holds bs0) (findFork w m) 0 (holds (take 1 bs0)).
Proof.
  intros Hm Hne Hno. induction m as [|m IH]; cbn [findFork].
  - eapply goes_bind; [apply (goes_Rollback 0); by destruct bs0; [|cbn; lia]|]. apply goes_ret.
  - pose proof (goes_HashAt (holds bs0) (λ _ H, H) m ltac:(lia)) as Hours.
    destruct (lookup_lt_is_Some_2 bs0 m ltac:(lia)) as [b Hb]. rewrite Hb in Hours.
    eapply goes_bind; [exact Hours|]. cbn.
    eapply goes_bind; [apply goes_named_ask; intros k; apply (sv_hash Hs); unfold is_u32; lia|].
    rewrite bool_decide_false; [apply IH; lia|]. intros E. apply (Hno m). by exists b.
Qed.

(** The rollback of [resolveStart] is then a second one, to the same height. *)
Lemma resolve_disjoint :
  bs0 ≠ [] → (∀ i, ¬ shared i) → goes (holds bs0) (resolveStart w) 1 (holds (take 1 bs0)).
Proof.
  intros Hne Hno. pose proof goes_Tip as Hgo. unfold resolveStart.
  destruct (last bs0) as [b|] eqn:E; [|by apply last_None in E].
  rewrite last_lookup in E. pose proof (lookup_lt_Some _ _ _ E) as Hlt.
  eapply goes_bind; [exact Hgo|]. cbn.
  replace (Z.of_nat (length bs0) - 1) with (Z.of_nat (pred (length bs0))) by lia.
  eapply goes_bind; [apply goes_named_ask; intros k; apply (sv_hash Hs); unfold is_u32; lia|].
  rewrite bool_decide_false; [|intros Eh; apply (Hno (pred (length bs0))); by exists b].
  eapply goes_bind; [apply goes_findFork_none; [lia|done|done]|].
  eapply goes_bind; [|apply goes_ret].
  eapply goes_weaken; [apply (goes_Rollback 0 (take 1 bs0)); rewrite length_take; lia|done|].
  intros d. by rewrite take_take.
Qed.

(** ** The whole pass *)

(** Heights that stayed unknown stay unknown on a source that holds still. *)
Lemma backfill_nothing rows (P : db → Prop) :
  (∀ k, sn_height (at_call w k) = heights) →
  Forall (λ row, height_answer (br_MainHash row) = None) rows →
  hoare P (backfill w rows) (λ _, P) P.
Proof.
  intros Hheight. induction 1 as [|row rows Hrow _ IH]; cbn [backfill]; [by apply hoare_ret|].
  eapply (hoare_bind _ _ _ (λ h d, P d ∧ h = None)).
  - unfold mainHeight, height_answer in *. destruct (has_heights w); [|by apply hoare_ret].
    eapply hoare_weaken; [apply hoare_ask | done | | done]. intros h d [Hd [k Hk]].
    split; [done|]. rewrite Hheight in Hk. destruct (heights _) as [[]|]; naive_solver.
  - intros [h|]; [by intros p r p' [_ [=]]|].
    eapply hoare_weaken; [apply IH | by intros d [? _] | done | done].
Qed.

Lemma missing_rows limit d rows :
  PostgresLaws → holds bs d →
  traverse (λ _, scanBlock (chain_tables d))
    (take limit (blocks_where (λ hb, b_main_height hb.2 = None) (chain_tables d))) = Ok rows →
  Forall (λ row, height_answer (br_MainHash row) = None) rows.
Proof.
  clear Hbr. intros HP [Hh _] Hr. apply Forall_lookup. intros i row Hrow.
  destruct (traverse_lookup _ _ _ _ _ Hr Hrow) as ([h b] & Hin & Hscan).
  apply list_elem_of_lookup_2, elem_of_take in Hin as (j & Hin%list_elem_of_lookup_2 & _).
  unfold blocks_where in Hin. rewrite merge_sort_Permutation, scan_perm in Hin.
  apply list_elem_of_filter in Hin as [Hnone Hin%elem_of_map_to_list]. cbn in Hnone.
  pose proof (history_wf _ _ Hh) as W.
  assert (0 ≤ h < Z.of_nat (length bs)) as Hrange by (apply (wf_blocks _ _ W); by eexists).
  destruct (lookup_lt_is_Some_2 bs (Z.to_nat h)) as [x Hx]; [lia|].
  destruct (history_lookup _ _ _ _ Hh Hx) as [Hx' _]. rewrite Z2Nat.id in Hx' by lia.
  rewrite Hin in Hx'. injection Hx' as ->. cbn in Hnone.
  unfold scanBlock in Hscan. inv_ok. cbn.
  pose proof (lookup_lt_Some _ _ _ Hx) as Hlt. rewrite bs_length in Hlt.
  destruct (lookup_lt_is_Some_2 C _ Hlt) as [c Hc].
  destruct (bs_lookup _ _ Hc) as (x' & Hx' & Hp). simplify_eq.
  apply prepared_hash in Hp as (_ & _ & Em). rewrite <- Em.
  by destruct (sb_MainHeight x).
Qed.

Lemma hoare_backfill_stable :
  PostgresLaws → (∀ k, sn_height (at_call w k) = heights) → hoare (holds bs) (backfillMainHeights w) (λ _, holds bs) (holds bs).
Proof.
  intros HP Hheight. unfold backfillMainHeights. destruct (has_heights w); [|by apply hoare_ret].
  pass_step @hoare_query. intros rows p r p' [Hd Hr] Hp.
  apply (backfill_nothing rows (holds bs) Hheight (missing_rows _ _ _ HP Hd Hr) p r p' Hd Hp).
Qed.

(** One pass ends on the node's chain, whatever branch the index was on. *)
Lemma Once_converges d k n :
  PostgresLaws → holds bs0 d → hashes_commit → (bs0 = [] ∨ shared 0) → C ≠ [] →
  ∃ r p', Once D w (MkPass (Conn d []) k n) = (r, p') ∧ holds bs (pass_db p') ∧ p_drops p' = n ∧
    (has_heights w = false → r = Ok tt).
Proof.
  intros HP Hd Hc Hgen Hne.
  destruct (goes_resolveStart Hc Hgen) as (m & H1 & Hm).
  pose proof (goes_walk (turns (Z.of_nat m) (Z.of_nat (length C) - 1)) m Hm ltac:(unfold turns; lia)) as H2.
  pose proof len_bound as Hb. rewrite bs_length in Hb.
  assert (length C ≠ 0%nat) as Hlen by (by destruct C).
  unfold Once, mbind, S_bind, ask, handle, TipHeight, mbind, ask. cbn.
  rewrite (sv_node Hs), (sv_store Hs). cbn. unfold S_bind, ask. cbn. rewrite (sv_count Hs).
  destruct (Z.eqb_spec (Z.of_nat (length C)) 0); [lia|]. cbn.
  rewrite uint32_small by (unfold is_u32; lia).
  unfold follow, mbind, S_bind.
  destruct (H1 d (Datatypes.S (Datatypes.S (Datatypes.S k))) n Hd) as (d1 & k1 & -> & Hd1).
  destruct (H2 d1 k1 n Hd1) as (d2 & k2 & -> & Hd2).
  destruct (backfillMainHeights w (MkPass (Conn d2 []) k2 n)) as [r p'] eqn:E. exists r, p'.
  split; [done|]. pose proof (hoare_backfill_stable HP (sv_height Hs) (MkPass (Conn d2 []) k2 n) r p' Hd2 E) as Hfin.
  pose proof (holds_on (m := backfillMainHeights w) (MkPass (Conn d2 []) k2 n)) as Hn. rewrite E in Hn.
  split_and!; [by destruct r|done|].
  intros Hf. unfold backfillMainHeights in E. rewrite Hf in E. by injection E as <- <-.
Qed.
End converge.
