(* ===== verification/Polling.v ===== *)
(** * The two polling loops

    [Run] of [internal/index/sync.go] and of [internal/index/mempool_sync.go]:
    a pass, a look at the context, a wait, and again. And what the loop comes to
    when the node keeps telling the truth about one chain, though its answers
    may fail to arrive, the services may be down and any statement may fail. *)

From S2P Require Import Prelude GoStd Json Hash OutPoint Block BlockIndex Registry Tables Write.
From S2P Require Import Ledger WriteSpec Prepare Read Mempool Sync SyncSpec MempoolSync Converge.
Open Scope Z_scope.

(** ** The loop *)

(** What one turn meets: the world of the pass, the failures of its connection,
    the clock of the database, and the context's error after the pass and after
    the wait. *)
Record turn := Turn {
  t_world : world; t_faults : list bool; t_now : Z; t_done : option error; t_woken : option error;
}.

Section loop.
Context (once : turn → S unit).

Definition attempt (t : turn) (d : db) : db := pass_db (once t (Pass (Conn d (t_faults t)) 0)).2.

(** Either loop over the turns it gets. It hands back the error of a context
    that ended, and goes on after any other. *)
Fixpoint Run (ts : list turn) (d : db) : option error * db :=
  match ts with
  | [] => (None, d)
  | t :: ts =>
      let d' := attempt t d in
      match t_done t, t_woken t with
      | Some e, _ | None, Some e => (Some e, d')
      | None, None => Run ts d'
      end
  end.

(** A property every pass keeps is one the loop keeps. *)
Lemma Run_keeps (P : db → Prop) ts d r d' :
  (∀ t d, t ∈ ts → P d → P (attempt t d)) → P d → Run ts d = (r, d') → P d'.
Proof.
  revert d. induction ts as [|t ts IH]; intros d HP Hd H; cbn [Run] in H; [by injection H as _ <-|].
  assert (P (attempt t d)) as Ht by (apply HP; [by left|done]).
  destruct (t_done t), (t_woken t); try (by injection H as _ <-).
  eapply IH; [|exact Ht|exact H]. intros t' d0 Hin. apply HP. by right.
Qed.

Lemma Run_app ts1 ts2 d d1 :
  Run ts1 d = (None, d1) → Run (ts1 ++ ts2) d = Run ts2 d1.
Proof.
  revert d. induction ts1 as [|t ts1 IH]; intros d H; cbn [Run app] in *; [by injection H as <-|].
  destruct (t_done t), (t_woken t); try done. by apply IH.
Qed.

Definition never_done (t : turn) : Prop := t_done t = None ∧ t_woken t = None.

Lemma Run_goes_on ts d : Forall never_done ts → (Run ts d).1 = None.
Proof.
  intros H. revert d. induction H as [|t ts [H1 H2] _ IH]; intros d; cbn [Run]; [done|]. by rewrite H1, H2.
Qed.
End loop.

(** ** An honest node *)

Section honest.
Context {PG : Postgres} {B3 : Blake3} (D : Decoder) (w : world) `{!PoolOnly w} (C : list chain_block)
  (heights : string → result (option Z)) (times : BitcoinHash → result Z).

(** What the node answers is true of [C]; it need not answer. The source of
    mainchain heights answers one way. *)
Record honest : Prop := {
  hn_count : ∀ k c, sn_count (at_call w k) = Ok c → c = Z.of_nat (length C);
  hn_hash : ∀ k i x, is_u32 (Z.of_nat i) → sn_hash (at_call w k) (Z.of_nat i) = Ok x → x = ch_Hash <$> C !! i;
  hn_block : ∀ k c x, c ∈ C → sn_block (at_call w k) (ch_Hash c) = Ok x → x = Some (ch_Block c);
  hn_index : ∀ k c x, c ∈ C → sn_index (at_call w k) (ch_Hash c) = Ok x → x = ch_Index c;
  hn_height : ∀ k, sn_height (at_call w k) = heights;
  hn_time : ∀ k m t, sn_time (at_call w k) m = Ok t → times m = Ok t;
}.

Context (Hw : honest) (bs : list SBlock) (Hbs : prepared_chain D w C heights times = Ok bs)
  (l : ledger) (Hl : history bs l).

Lemma hoare_blockTime_honest m (P : db → Prop) :
  hoare P (blockTime w m) (λ t d, P d ∧ time_answer w times m = Ok t) P.
Proof.
  unfold blockTime, time_answer. destruct (has_times w); [|by apply hoare_ret].
  eapply hoare_weaken; [apply hoare_named_ask|done| |done].
  intros t d [Hd [k Hk]]. split; [done|].
  destruct (sn_time (at_call w k) m) as [x|e] eqn:E; [|done]. injection Hk as <-.
  apply (hn_time Hw) in E. by rewrite E.
Qed.

Lemma hoare_mainHeight_honest m (P : db → Prop) :
  hoare P (mainHeight w m) (λ h d, P d ∧ h = height_answer w heights m) P.
Proof.
  unfold mainHeight, height_answer. destruct (has_heights w); [|by apply hoare_ret].
  eapply hoare_weaken; [apply hoare_ask|done| |done].
  intros h d [Hd [k Hk]]. split; [done|]. rewrite (hn_height Hw) in Hk. destruct (heights _) as [[]|]; naive_solver.
Qed.

(** A block is written as the chain has it, or not at all. *)
Lemma hoare_applyHeight_honest n :
  is_u32 (Z.of_nat n) →
  hoare (holds (take n bs)) (applyHeight D w (Z.of_nat n))
    (λ applied d, if applied then (n < length C)%nat ∧ holds (take (Datatypes.S n) bs) d else holds (take n bs) d)
    (holds (take n bs)).
Proof.
  intros Hu. unfold applyHeight.
  eapply hoare_bind; [apply hoare_named_ask|]. intros hash. apply hoare_fact. intros [k Hk]. apply (hn_hash Hw) in Hk as ->; [|done].
  destruct (C !! n) as [c|] eqn:Hc; cbn; [|by apply hoare_ret].
  destruct (bs_lookup D w C heights times bs Hbs n c Hc) as (b & Hb & Hp).
  assert (c ∈ C) as Hin by by eapply list_elem_of_lookup_2.
  eapply hoare_bind; [apply hoare_named_ask|]. intros block. apply hoare_fact. intros [? ->%(hn_block Hw)]; [|done].
  eapply hoare_bind; [apply hoare_named_ask|]. intros bi. apply hoare_fact. intros [? ->%(hn_index Hw)]; [|done].
  eapply hoare_bind; [apply hoare_blockTime_honest|]. intros t. apply hoare_fact. intros Ht.
  eapply hoare_bind.
  { apply (hoare_lift _ _ (λ write d, holds (take n bs) d ∧
      Prepare D (Z.of_nat n) (ch_Hash c) (ch_Block c) (ch_Index c) t = Ok write)); auto. }
  intros write. apply hoare_fact. intros Hwr.
  eapply hoare_bind; [apply hoare_mainHeight_honest|]. intros h. apply hoare_fact. intros ->.
  unfold prepared in Hp. rewrite Ht in Hp. cbn in Hp. rewrite Hwr in Hp. injection Hp as Hp. rewrite Hp.
  eapply hoare_bind; [apply hoare_Apply; apply _|]. intros res. apply hoare_ret. intros d' (d & Hd & Ha).
  split; [by eapply lookup_lt_Some|].
  destruct (next_applies bs l Hl n b Hb) as [r1 H1]. destruct (H1 d Hd) as (d1 & Ha1 & Hd1). congruence.
Qed.

Lemma hoare_walk_honest fuel n :
  (n ≤ length C)%nat →
  hoare (holds (take n bs)) (walk D w fuel (Z.of_nat n) (Z.of_nat (length C) - 1))
    (λ o d, ∃ m, (n ≤ m ≤ length C)%nat ∧ holds (take m bs) d ∧ (o = Some true → m = length C))
    (λ d, ∃ m, (n ≤ m ≤ length C)%nat ∧ holds (take m bs) d).
Proof.
  assert (Z.of_nat (length bs) ≤ 2^31) as Hbound by by eapply len_bound. rewrite (bs_length D w C heights times bs Hbs) in Hbound.
  revert n. induction fuel as [|fuel IH]; intros n Hn; cbn [walk].
  { apply hoare_ret. intros d Hd. exists n. split; [lia|]. split; [done|done]. }
  destruct (Z.leb_spec (Z.of_nat n) (Z.of_nat (length C) - 1)).
  2:{ apply hoare_ret. intros d Hd. exists n. split; [lia|]. split; [done|lia]. }
  eapply hoare_bind.
  { eapply hoare_weaken; [apply hoare_applyHeight_honest; unfold is_u32; lia|done|intros a d Hd; exact Hd|].
    intros d Hd. exists n. split; [lia|done]. }
  cbn beta. intros []; cbn [negb].
  2:{ apply hoare_ret. intros d Hd. exists n. split; [lia|]. by split. }
  eapply hoare_bind.
  { eapply hoare_weaken; [apply hoare_ask'|intros d Hd; exact Hd|intros a d Hd; exact Hd|].
    intros d [Hlt Hd]. exists (Datatypes.S n). split; [lia|done]. }
  cbn beta. intros _. rewrite uint32_small by (unfold is_u32; lia).
  replace (Z.of_nat n + 1) with (Z.of_nat (Datatypes.S n)) by lia.
  eapply hoare_weaken; [apply (IH (Datatypes.S n)); lia|by intros d [_ ?]|..].
  - intros o d (m & Hm & Hd & Ho). exists m. split; [lia|]. by split.
  - intros d (m & Hm & Hd). exists m. split; [lia|done].
Qed.

(** From the branch [bs1]. *)
Context (bs1 : list SBlock).

Lemma hoare_HashAt_held i :
  (i < length bs1)%nat →
  hoare (holds bs1) (db_call w (HashAt (Z.of_nat i))) (λ o d, holds bs1 d ∧ o = sb_Hash <$> bs1 !! i) (holds bs1).
Proof.
  intros Hi. eapply hoare_weaken; [apply hoare_query; apply _|done| |done]. intros o d [Hd Hq]. split; [done|].
  pose proof (run_HashAt bs1 (holds_len _ _ Hd) d i Hd Hi) as Hr. unfold HashAt in Hr. rewrite run_query, Hq in Hr. by injection Hr.
Qed.

Lemma hoare_Tip_held :
  hoare (holds bs1) (db_call w Tip)
    (λ o d, holds bs1 d ∧ o = (λ b, (Z.of_nat (length bs1) - 1, sb_Hash b)) <$> last bs1) (holds bs1).
Proof.
  eapply hoare_weaken; [apply hoare_query; apply _|done| |done]. intros o d [Hd Hq]. split; [done|].
  pose proof (run_Tip bs1 (holds_len _ _ Hd) d Hd) as Hr. unfold Tip in Hr. rewrite run_query, Hq in Hr. by injection Hr.
Qed.

(** The walk down finds a block both have, and changes nothing. *)
Lemma hoare_findFork_honest m :
  (m ≤ length bs1)%nat → (∃ i, (i < m)%nat ∧ shared C bs1 i) →
  hoare (holds bs1) (findFork w m)
    (λ k d, holds bs1 d ∧ ∃ j, k = Z.of_nat j ∧ (j < m)%nat ∧ shared C bs1 j) (holds bs1).
Proof.
  intros Hm Hi. eapply hoare_learn; [apply holds_len|]. intros Hlen. revert Hm Hi.
  induction m as [|m IH]; intros Hm (i & Hi & Hsh); [lia|]. cbn [findFork].
  eapply hoare_bind; [by apply hoare_HashAt_held|]. intros o. apply hoare_fact. intros ->.
  destruct (lookup_lt_is_Some_2 bs1 m ltac:(lia)) as [b Hb]. rewrite Hb. cbn.
  eapply hoare_bind; [apply hoare_named_ask|]. intros theirs. apply hoare_fact. intros [k Hk].
  apply (hn_hash Hw) in Hk as ->; [|unfold is_u32; lia].
  case_bool_decide as E.
  - apply hoare_ret. intros d Hd. split; [done|]. exists m. split_and!; [done|lia|by exists b].
  - eapply hoare_weaken; [apply IH; [lia|]|done| |done].
    + exists i. split; [|done]. destruct (decide (i = m)) as [->|]; [|lia].
      destruct Hsh as (b' & Hb' & E'). congruence.
    + intros k' d [Hd (j & -> & Hj & Hs)]. split; [done|]. exists j. split_and!; [done|lia|done].
Qed.

(** Resuming leads onto the chain, or fails and changes nothing. On the chain
    itself there is nothing to undo. *)
Lemma hoare_resolveStart_honest :
  hashes_commit C bs bs1 → (bs1 = [] ∨ shared C bs1 0) →
  hoare (holds bs1) (resolveStart w)
    (λ n d, ∃ m, n = Z.of_nat m ∧ (m ≤ length C)%nat ∧ holds (take m bs) d ∧ (bs1 = bs → m = length C))
    (holds bs1).
Proof.
  intros Hc Hgen. pose proof (bs_length D w C heights times bs Hbs) as Hlen0.
  pose proof (shared_below C bs1) as HC. eapply hoare_learn; [apply holds_len|]. intros Hb.
  unfold resolveStart. eapply hoare_bind; [apply hoare_Tip_held|]. intros o. apply hoare_fact. intros ->.
  destruct (last bs1) as [b|] eqn:E; cbn.
  2:{ apply last_None in E as ->. apply hoare_ret. intros d Hd. exists 0%nat.
      split_and!; [done|lia|done|]. intros <-. done. }
  rewrite last_lookup in E. pose proof (lookup_lt_Some _ _ _ E) as Hlt.
  set (tip := pred (length bs1)) in *.
  replace (Z.of_nat (length bs1) - 1) with (Z.of_nat tip) by lia.
  eapply hoare_bind; [apply hoare_named_ask|]. intros theirs. apply hoare_fact. intros [k Hk].
  apply (hn_hash Hw) in Hk as ->; [|unfold is_u32; lia].
  case_bool_decide as Eh.
  - assert (shared C bs1 tip) as Hsh by by exists b.
    rewrite uint32_small by (unfold is_u32; lia). apply hoare_ret. intros d Hd.
    exists (Datatypes.S tip). split_and!; [lia| |rewrite <- (Hc tip Hsh); by rewrite take_ge by lia|].
    + apply HC in Hsh. lia.
    + intros <-. lia.
  - assert (bs1 ≠ bs) as Hne.
    { intros ->. apply Eh. rewrite <- (bs_hash D w C heights times bs Hbs), E. done. }
    destruct Hgen as [->|Hgen]; [done|].
    rewrite Nat2Z.id. eapply hoare_bind.
    { apply hoare_findFork_honest; [lia|]. exists 0%nat. split; [|done].
      destruct (decide (tip = 0%nat)) as [E0|]; [|lia]. exfalso. apply Eh.
      destruct Hgen as (b' & Hb' & Hc'). rewrite E0 in *. congruence. }
    intros f. apply hoare_fact. intros (j & -> & Hj & Hsh).
    eapply hoare_bind; [apply hoare_Rollback; apply _|]. intros u. apply hoare_ret. intros d' (d & Hd & ->).
    exists (Datatypes.S j). split_and!; [rewrite uint32_small by (unfold is_u32; lia); lia| | |done].
    + apply HC in Hsh. lia.
    + rewrite int32_nonneg by lia. pose proof (holds_rollback bs1 d (Z.of_nat j) Hd ltac:(lia)) as Hr.
      replace (Z.to_nat (Z.of_nat j + 1)) with (Datatypes.S j) in Hr by lia. by rewrite (Hc j Hsh) in Hr.
Qed.

(** The branch the index was on, or a front part of the chain. *)
Definition tracked (d : db) : Prop :=
  holds bs1 d ∨ ∃ m, (m ≤ length C)%nat ∧ holds (take m bs) d ∧ (bs1 = bs → m = length C).

Lemma hoare_follow_honest :
  PostgresLaws → hashes_commit C bs bs1 → (bs1 = [] ∨ shared C bs1 0) →
  hoare (holds bs1) (follow D w (Z.of_nat (length C) - 1)) (λ _, tracked) tracked.
Proof.
  intros HP Hc Hgen. pose proof (bs_length D w C heights times bs Hbs) as Hlen.
  unfold follow. eapply hoare_bind.
  { eapply hoare_weaken; [by apply hoare_resolveStart_honest|done|intros n d Hd; exact Hd|by left]. }
  intros n p r p' (m & -> & Hm & Hd & Hsame). revert p r p' Hd.
  eapply hoare_bind.
  { eapply hoare_weaken; [by apply hoare_walk_honest|done|intros o d Hd; exact Hd|].
    intros d (m' & Hm' & Hd). right. exists m'. split_and!; [lia|done|]. intros ->%Hsame. lia. }
  intros o p r p' (m' & Hm' & Hd & Ho).
  assert (∀ d, holds (take m' bs) d → tracked d) as Ht.
  { intros d0 H0. right. exists m'. split_and!; [lia|done|]. intros ->%Hsame. lia. }
  revert p r p' Hd. destruct o as [[]|].
  - rewrite (Ho eq_refl), take_ge in Ht |- * by lia.
    eapply hoare_weaken; [apply (hoare_backfill_stable D w C heights times bs Hbs HP (hn_height Hw))|done|..];
      [intros u d Hd; by apply Ht|done].
  - apply hoare_ret. exact Ht.
  - by apply hoare_lift.
Qed.

Lemma hoare_TipHeight_honest (P : db → Prop) :
  hoare P (TipHeight w) (λ tip d, P d ∧ tip = Z.of_nat (length C) - 1) P.
Proof.
  unfold TipHeight. eapply hoare_bind; [apply hoare_ask|]. intros c. apply hoare_fact. intros [k ->%(hn_count Hw)].
  assert (Z.of_nat (length bs) ≤ 2^31) as Hb by by eapply len_bound.
  rewrite (bs_length D w C heights times bs Hbs) in Hb.
  destruct (Z.eqb_spec (Z.of_nat (length C)) 0); [by apply hoare_lift|]. apply hoare_ret. intros d Hd.
  split; [done|]. rewrite uint32_small by (unfold is_u32; lia). done.
Qed.

Lemma hoare_Once_honest :
  PostgresLaws → hashes_commit C bs bs1 → (bs1 = [] ∨ shared C bs1 0) →
  hoare (holds bs1) (Once D w) (λ _, tracked) tracked.
Proof.
  intros HP Hc Hgen. pose proof (bs_length D w C heights times bs Hbs) as Hlen.
  assert (∀ d, holds bs1 d → tracked d) as Ht by by left.
  unfold Once.
  eapply hoare_bind; [eapply hoare_weaken; [apply hoare_ask'|intros d Hd; exact Hd|intros u d Hd; exact Hd|done]|]. intros ?.
  eapply hoare_bind; [eapply hoare_weaken; [apply hoare_ask'|intros d Hd; exact Hd|intros u d Hd; exact Hd|done]|]. intros ?.
  eapply hoare_handle; [apply hoare_TipHeight_honest|..].
  - intros tip. apply hoare_fact. intros ->. by apply hoare_follow_honest.
  - intros e. eapply hoare_weaken; [apply (hoare_no_tip e (holds bs1))|done|by intros u d ?%Ht|exact Ht].
Qed.
End honest.

(** ** The loop on an honest node *)

Module Syncer.
Section syncer.
Context {PG : Postgres} {B3 : Blake3} (D : Decoder).

Definition pass_of (t : turn) : S unit := Once D (t_world t).

(** [Syncer.Run]. *)
Definition Run : list turn → db → option error * db := Run pass_of.
End syncer.
End Syncer.

Module MempoolSyncer.
Section syncer.
Context {PG : Postgres} (D : Decoder).

Definition pass_of (t : turn) : S unit := MempoolSync.MempoolSyncer.Once D (t_world t) (t_now t).

(** [MempoolSyncer.Run]. *)
Definition Run : list turn → db → option error * db := Run pass_of.
End syncer.
End MempoolSyncer.

Section converges.
Context {PG : Postgres} {B3 : Blake3} (D : Decoder) (C : list chain_block)
  (heights : string → result (option Z)) (times : BitcoinHash → result Z)
  (bs : list SBlock) (l : ledger) (HP : PostgresLaws) (Hl : history bs l).

Lemma serves_honest w : serves w C heights times → honest w C heights times.
Proof.
  intros Hs. split.
  - intros k c. rewrite (sv_count _ _ _ _ Hs). by intros [= <-].
  - intros k i x. intros Hi. rewrite (sv_hash _ _ _ _ Hs) by done. by intros [= <-].
  - intros k c x Hc. rewrite (sv_block _ _ _ _ Hs) by done. by intros [= <-].
  - intros k c x Hc. rewrite (sv_index _ _ _ _ Hs) by done. by intros [= <-].
  - apply (sv_height _ _ _ _ Hs).
  - intros k m t. by rewrite (sv_time _ _ _ _ Hs).
Qed.

(** A turn on an honest node with the same two mainchain sources, among others
    who write the unconfirmed set. *)
Definition honest_turn (t : turn) : Prop :=
  PoolOnly (t_world t) ∧ honest (t_world t) C heights times ∧ prepared_chain D (t_world t) C heights times = Ok bs.

(** The index is on a branch that the chain can take over. *)
Definition on_track (d : db) : Prop :=
  ∃ bs1, holds bs1 d ∧ hashes_commit C bs bs1 ∧ (bs1 = [] ∨ shared C bs1 0).

Lemma front_on_track w m d :
  prepared_chain D w C heights times = Ok bs → holds (take m bs) d → on_track d.
Proof.
  intros Hbs Hd. exists (take m bs). split_and!; [done| |].
  - intros i (b & Hb & _). apply lookup_lt_Some in Hb. rewrite length_take in Hb. rewrite take_take. f_equal. lia.
  - destruct (take m bs) as [|b bs'] eqn:E; [by left|right]. exists b. split; [done|].
    rewrite <- (bs_hash D w C heights times bs Hbs).
    assert (take m bs !! 0%nat = Some b) as H0 by by rewrite E.
    apply lookup_take_Some in H0 as [-> _]. done.
Qed.

Lemma attempt_on_track t d : honest_turn t → on_track d → on_track (attempt (Syncer.pass_of D) t d).
Proof.
  intros (Ho & Hw & Hbs) (bs1 & Hd & Hc & Hg). unfold attempt, Syncer.pass_of.
  destruct (Once D (t_world t) (Pass (Conn d (t_faults t)) 0)) as [r p'] eqn:E.
  pose proof (hoare_Once_honest D _ C heights times Hw bs Hbs l Hl bs1 HP Hc Hg (Pass (Conn d (t_faults t)) 0) r p' Hd E) as H.
  assert (tracked C bs bs1 (pass_db p')) as [H1|(m & _ & H1 & _)] by (by destruct r).
  - by exists bs1.
  - by eapply front_on_track.
Qed.

Lemma attempt_stays t d : honest_turn t → holds bs d → holds bs (attempt (Syncer.pass_of D) t d).
Proof.
  intros (Ho & Hw & Hbs) Hd. unfold attempt, Syncer.pass_of.
  destruct (Once D (t_world t) (Pass (Conn d (t_faults t)) 0)) as [r p'] eqn:E.
  assert (hashes_commit C bs bs) as Hc by done.
  assert (bs = [] ∨ shared C bs 0) as Hg.
  { destruct bs as [|b bs'] eqn:Eb; [by left|right]. exists b. split; [done|].
    by rewrite <- (bs_hash D (t_world t) C heights times _ Hbs). }
  pose proof (hoare_Once_honest D _ C heights times Hw bs Hbs l Hl bs HP Hc Hg (Pass (Conn d (t_faults t)) 0) r p' Hd E) as H.
  assert (tracked C bs bs (pass_db p')) as [H1|(m & _ & H1 & Hm)] by (by destruct r); [done|].
  rewrite (Hm eq_refl), <- (bs_length D (t_world t) C heights times bs Hbs), firstn_all in H1. done.
Qed.

(** A turn that nothing disturbs. *)
Definition calm_turn (t : turn) : Prop :=
  PoolOnly (t_world t) ∧ serves (t_world t) C heights times ∧ prepared_chain D (t_world t) C heights times = Ok bs ∧ t_faults t = [].

(** C3: The syncer gets there, and stays there. Let the loop run on a node that
    only ever tells the truth about one chain, however many turns fail because
    the node or the database is away, an answer is lost or a statement fails,
    and from whatever branch of the same genesis; block hashes commit to the
    blocks below them. Once one turn goes undisturbed the index is the one that
    writing the node's chain from scratch builds, and no later turn, disturbed or
    not, takes it away. *)
Theorem Run_converges bs0 ts1 t ts2 d r d' :
  holds bs0 d → hashes_commit C bs bs0 → (bs0 = [] ∨ shared C bs0 0) → C ≠ [] →
  Forall honest_turn ts1 → calm_turn t → Forall honest_turn ts2 → Forall never_done (ts1 ++ [t]) →
  Syncer.Run D (ts1 ++ t :: ts2) d = (r, d') →
  holds bs d' ∧ chain_tables d' = l.
Proof.
  rewrite !(Forall_forall honest_turn).
  intros Hd Hc Hg Hne H1 (Ho & Hs & Hbs & Hf) H2 [Hn1 Hn2]%Forall_app H. rewrite Forall_singleton in Hn2.
  unfold Syncer.Run in H. pose proof (Run_goes_on (Syncer.pass_of D) ts1 d Hn1) as Hgo.
  destruct (Run (Syncer.pass_of D) ts1 d) as [r1 d1] eqn:E1. cbn in Hgo. subst r1.
  assert (on_track d1) as (bs1 & Hd1 & Hc1 & Hg1).
  { refine (Run_keeps (Syncer.pass_of D) on_track ts1 d None d1 _ _ E1); [|by exists bs0].
    intros t' d0 Ht. by apply attempt_on_track, H1. }
  rewrite (Run_app _ _ _ _ _ E1) in H. cbn [Run] in H.
  destruct Hn2 as [Hn2 Hn3]. rewrite Hn2, Hn3 in H.
  assert (holds bs (attempt (Syncer.pass_of D) t d1)) as Hd2.
  { unfold attempt, Syncer.pass_of. rewrite Hf.
    destruct (Once_converges D _ C heights times Hs bs Hbs l Hl bs1 (holds_len _ _ Hd1) d1 0 0 HP Hd1 Hc1 Hg1 Hne) as (r2 & p2 & -> & H3 & _).
    exact H3. }
  assert (holds bs d') as Hd'.
  { refine (Run_keeps (Syncer.pass_of D) (holds bs) ts2 _ r d' _ Hd2 H).
    intros t' d0 Ht. by apply attempt_stays, H2. }
  split; [done|]. destruct Hd' as [Hd' _]. by eapply history_fun.
Qed.
End converges.
