(* ===== verification/Wire.v ===== *)
(** * The syncer over the wire

    The world of a pass with the node behind its JSON-RPC client: each answer of
    the node is whatever [Call] makes of what the transport brings back. What the
    decoders guarantee then holds of every node. *)

From S2P Require Import Prelude GoStd Json JsonText Hash OutPoint Block BlockIndex Rpc Enforcer Registry.
From S2P Require Import Tables Write.
From S2P Require Import Ledger WriteSpec Prepare Read Sync SyncSpec Converge.
Open Scope Z_scope.

Section wire.
Context {B58 : Base58}.

(** ** Calls *)

(** C37: An answer of a node that speaks JSON-RPC reaches the target as the node
    meant it, whatever the HTTP status: a result is decoded into the target, an
    error is reported with its code and message and the target is not touched.
    Anything else is an error: a body that is no JSON, or JSON that is no response,
    is an HTTP error with its beginning, or under status 200 an error of its decoding;
    a request that got no answer is the transport's error; and a call succeeds only
    with what the result of a response decodes to. *)
Theorem Call_answers {A} (post : transport) (c : Client) method params (d : decoder A) zero status text j code message :
  is_i64 code →
  let answer := {| StatusCode := status; ans_text := text |} in
  let res := (Call post c method params d zero).1 in
  let answered := post (url c) (print (enc_request (int64 (nextID c + 1)) method params)) in
  (∀ id, answered = Ok answer → parse text = Some (enc_result id j) →
     res = wrap (method +:+ ": decode result") (d j zero)) ∧
  (∀ id, answered = Ok answer → parse text = Some (enc_failure id code message) →
     res = Err (node_error method code message)) ∧
  (∀ e, answered = Ok answer → (v ← of_option (Errorf "invalid character in JSON") (parse text); dec_response v zero_response) = Err e →
     res = Err (if status =? 200 then wrapf (method +:+ ": decode response") e
                else http_error method status (truncate text))) ∧
  (∀ e, answered = Err e → res = Err (wrapf (method +:+ ": call node") e)) ∧
  (∀ x, res = Ok x → ∃ a v resp r,
     answered = Ok a ∧ parse (ans_text a) = Some v ∧ dec_response v zero_response = Ok resp ∧
     Error resp = None ∧ Result resp = Some r ∧ d r zero = Ok x) ∧
  nextID (Call post c method params d zero).2 = int64 (nextID c + 1).
Proof.
  intros Hc answer res answered. unfold res, Call, answered, answer. cbn [fst snd nextID]. split_and!; [..|done].
  - intros id -> Ht. cbn [wrap mbind result_bind]. unfold read_answer. by rewrite (parse_result id j).
  - intros id -> Ht. cbn [wrap mbind result_bind]. unfold read_answer. by rewrite (parse_failure id code message).
  - intros e -> Ht. cbn. unfold read_answer, parse_response. cbn [ans_text StatusCode]. rewrite Ht.
    by destruct (status =? 200).
  - by intros e ->.
  - intros x (a & Ha%wrap_ok & Hr)%bind_ok. exists a. unfold read_answer, parse_response in Hr.
    destruct (of_option _ (parse (ans_text a)) ≫= _) as [resp|e] eqn:Ep; [|by destruct (StatusCode a =? 200)].
    apply bind_ok in Ep as (v & Hv%of_option_ok & Hd). destruct (Error resp) as [[cd msg]|] eqn:He; [done|].
    apply wrap_ok in Hr. unfold Unmarshal in Hr. destruct (Result resp) as [r|] eqn:Er; [|done]. exists v, resp, r. done.
Qed.

(** ** The tip *)

Section tip.
Context {R : Caller}.

(** [TipHeight] turns a block count into a height: one below the count, and no
    height for a count of zero. A node that answers [null] is taken for one
    without blocks. *)
Theorem TipHeight_count c :
  0 ≤ c < 2 ^ 32 →
  (caller "getblockcount" JNull (dec_uint 32) 0 = dec_uint 32 (JNum (fmt_d c)) 0 →
     Node.TipHeight = if c =? 0 then Err ErrEmptyChain else Ok (c - 1)) ∧
  (caller "getblockcount" JNull (dec_uint 32) 0 = dec_uint 32 JNull 0 → Node.TipHeight = Err ErrEmptyChain).
Proof.
  intros Hc. unfold Node.TipHeight, Node.getblockcount. split; intros ->; [|done].
  cbn [dec_uint]. rewrite parse_uint_fmt_d by done. cbn [of_option mbind result_bind].
  destruct (Z.eqb_spec c 0); [done|]. by rewrite uint32_small by (unfold is_u32; lia).
Qed.
End tip.

(** ** The world of a pass *)

Variables (post : nat → transport) (clients : nat → Client) (enforcers : nat → Enforcer)
  (rest : nat → snapshot) (goroutines : nat → db → db).

(** At call [k] the node answers through [post k] and the enforcer through
    [enforcers k]; the services, the time source and the context answer as
    [rest k] says, and the other goroutines write as [goroutines] says. *)
Definition rpc_snapshot (k : nat) : snapshot :=
  let R : Caller := client_caller (post k) (clients k) in
  {| sn_node_up := sn_node_up (rest k); sn_store_up := sn_store_up (rest k);
     sn_count := Node.getblockcount; sn_hash := Node.BlockHashAt; sn_block := Node.get_block;
     sn_index := Node.get_block_index; sn_mempool := Node.list_mempool;
     sn_submit := Node.SubmitTransaction; sn_bundle := Node.PendingWithdrawalBundle;
     sn_failed_height := Node.LatestFailedWithdrawalBundleHeight;
     sn_height := BlockHeight (enforcers k); sn_time := sn_time (rest k); sn_ctx := sn_ctx (rest k) |}.

Definition rpc_world (heights times : bool) : world :=
  {| at_call := rpc_snapshot; has_heights := heights; has_times := times; others := goroutines |}.

(** A successful call decoded something. *)
Lemma caller_decodes {A} k method params (d : decoder A) zero x :
  @caller (client_caller (post k) (clients k)) A method params d zero = Ok x → ∃ j, d j zero = Ok x.
Proof.
  unfold caller, client_caller, Call. cbn [fst]. intros (a & _ & H)%bind_ok. unfold read_answer in H.
  destruct (parse_response a) as [parsed|e]; [|by destruct (StatusCode a =? 200)].
  destruct (Error parsed) as [[code message]|]; [done|]. apply wrap_ok in H. unfold Unmarshal in H.
  destruct (Result parsed) as [j|]; [|done]. by exists j.
Qed.

Lemma rpc_world_typed heights times : indexes_typed (rpc_world heights times).
Proof. intros k hash bi H. apply caller_decodes in H as [j H]. by apply dec_BlockIndex_typed in H. Qed.

(** Whatever bytes come back over the wire, a pass that starts on a coherent
    index ends on one: no answer of a node or an enforcer, honest or not, and no
    transport failure corrupts the index. The node may count up to [2^31] blocks. *)
Theorem Once_survives_any_node {PG : Postgres} {B3 : Blake3} (D : Decoder) heights times p r p' :
  DecoderLaws D → PoolOnly (rpc_world heights times) → counts_fit (rpc_world heights times) →
  indexed (pass_db p) → Once D (rpc_world heights times) p = (r, p') → indexed (pass_db p').
Proof.
  intros HD Ho Hc Hd H.
  pose proof (hoare_Once D HD _ Hc (rpc_world_typed heights times) p r p' Hd H). by destruct r.
Qed.
End wire.
