(* ===== verification/IndexProps.v ===== *)
(** * The contract of the index

    What [internal/index] promises on top of the store: which rows a block
    comes to, that those rows are ones the store accepts, that every pass keeps
    the database coherent, and where a reorganisation resumes. *)

From S2P Require Import Prelude GoStd Json Hash OutPoint Block BlockIndex Registry Tables Write.
From S2P Require Import Ledger WriteSpec Prepare Read Mempool Sync SyncSpec Converge.
Open Scope Z_scope.

Section prepare_props.
Context {PG : Postgres} {B3 : Blake3} (D : Decoder).


(** [Prepare] succeeds exactly when the block index names as many
    transactions as the body carries, every deposit is a deposit, and the
    chain decodes every payload of a coin the block creates; the outputs of a
    skipped transaction need not decode. *)
Theorem Prepare_accepts height hash block bi time :
  is_Ok (Prepare D height hash block bi time) ↔ acceptable D block bi.
Proof. apply Prepare_is_Ok. Qed.

(** C32: With distinct txids, deposit outpoints and market outpoints, no two
    coins of a prepared block share a storage key, every coin fits its
    columns and holds an amount from 0 to the largest [int64]. *)
Theorem Prepare_fits_store height hash block bi time b :
  DecoderLaws D → index_typed bi → distinct_ids block bi →
  Prepare D height hash block bi time = Ok b →
  block_ok b ∧ NoDup (create_key <$> sb_Creates b).
Proof.
  intros HD Ht Hd H. split; [by eapply Prepare_block_ok | by eapply Prepare_new_keys].
Qed.

(** The unconfirmed set follows the same rule as a block: transaction by
    transaction the inputs and outputs under its own txid. *)
Theorem PrepareMempool_writes txs pool :
  PrepareMempool D txs = Ok pool →
  sm_Txid <$> mp_Txs pool = (λ e, ti_Txid (mt_Info e)) <$> txs ∧
  mp_Spends pool = concat ((λ e, imap (tx_spend (ti_Txid (mt_Info e))) (Inputs (mt_Tx e))) <$> txs) ∧
  so_OutPoint <$> mp_Creates pool =
    concat ((λ e, imap (regular (ti_Txid (mt_Info e))) (Outputs (mt_Tx e))) <$> txs).
Proof.
  unfold PrepareMempool. intros (rows & H & [= <-])%bind_ok. cbn.
  assert (∀ i e r, mempool_tx D i e = Ok r →
    sm_Txid r.1 = ti_Txid (mt_Info e) ∧
    tr_Spends r.2 = imap (tx_spend (ti_Txid (mt_Info e))) (Inputs (mt_Tx e)) ∧
    so_OutPoint <$> tr_Creates r.2 = imap (regular (ti_Txid (mt_Info e))) (Outputs (mt_Tx e))) as Hrow.
  { intros i e r (tr & [Hs Hc%row_of_outpoints]%prepareTx_ok & [= <-])%bind_ok. cbn. rewrite Hc.
    split_and!; [done..|]. by rewrite fmap_imap. }
  split_and!; rewrite <- ?list_fmap_compose.
  - by eapply (traverse_map (mempool_tx D)); [|done]; intros i e r [? _]%Hrow.
  - f_equal. by eapply (traverse_map (mempool_tx D)); [|done]; intros i e r (_ & ? & _)%Hrow.
  - rewrite fmap_concat, <- list_fmap_compose. f_equal.
    by eapply (traverse_map (mempool_tx D)); [|done]; intros i e r (_ & _ & ?)%Hrow.
Qed.
End prepare_props.

Section sync_props.
Context {PG : Postgres} {B3 : Blake3} (D : Decoder) (w : world).

(** C5: Whatever the node, the mainchain sources and the context answer at
    each call, whichever statement fails, and whatever other goroutines write to
    the unconfirmed set between two statements, a pass that starts on a coherent
    index ends on one: heights without gaps, unique block hashes, every row
    inside the indexed range and under its own key, and tip columns that name
    the highest block. *)
Theorem Once_keeps_index p r p' :
  DecoderLaws D → PoolOnly w → counts_fit w → indexes_typed w →
  indexed (pass_db p) → Once D w p = (r, p') → indexed (pass_db p').
Proof.
  intros HD Ho Hc Hi Hd H. pose proof (hoare_Once D HD w Hc Hi p r p' Hd H). by destruct r.
Qed.

(** C22: The loop of a pass ends: from any height a [uint32] holds to any tip a
    node can report, the fuel is enough, more fuel changes nothing, and the
    loop counter never wraps. *)
Theorem Once_loop_ends next nodeTip fuel p :
  is_u32 next → nodeTip < MaxUint32 → (turns next nodeTip ≤ fuel)%nat →
  walk D w fuel next nodeTip p = walk D w (turns next nodeTip) next nodeTip p ∧
  fst (walk D w fuel next nodeTip p) ≠ Ok None.
Proof.
  unfold is_u32, MaxUint32. intros Hn Ht Hf.
  assert (Z.max 0 (nodeTip + 1 - next) < Z.of_nat (turns next nodeTip)) as Hturns by (unfold turns; lia).
  assert (walk D w fuel next nodeTip p = walk D w (turns next nodeTip) next nodeTip p) as E
    by (apply walk_more; lia || done).
  split; [done|]. rewrite E. apply walk_enough; lia.
Qed.

(** C23: What a pass makes of its dependencies. When node or store is not there, the
    pass fails with that very error. When the tip cannot be read, it fails, and it
    drops the node's connection, which it does at no other failure. A node without
    blocks is no failure: the pass ends well and drops nothing. In all these cases the
    database is as it was. *)
Theorem Once_drops p r p' :
  Once D w p = (r, p') →
  let k := p_clock p in
  let up := is_Ok (sn_node_up (at_call w k)) ∧ is_Ok (sn_store_up (at_call w (Datatypes.S k))) in
  let count := sn_count (at_call w (Datatypes.S (Datatypes.S k))) in
  let tip_failed := up ∧ ∃ e, count = Err e ∧ e ≠ ErrEmptyChain in
  (∀ e, sn_node_up (at_call w k) = Err e → r = Err e ∧ p_conn p' = p_conn p) ∧
  (∀ e, is_Ok (sn_node_up (at_call w k)) → sn_store_up (at_call w (Datatypes.S k)) = Err e →
     r = Err e ∧ p_conn p' = p_conn p) ∧
  (tip_failed →
     p_drops p' = Datatypes.S (p_drops p) ∧ p_conn p' = p_conn p ∧
     ∀ e, count = Err e → r = Err (wrapf "read node tip" e)) ∧
  (up → count = Ok 0 ∨ count = Err ErrEmptyChain → r = Ok tt ∧ p_conn p' = p_conn p) ∧
  (¬ tip_failed → p_drops p' = p_drops p).
Proof.
  destruct p as [c k n]. unfold Once, handle, TipHeight, ask, mbind, S_bind, is_Ok. cbn.
  destruct (sn_node_up _); cbn; [|intros [= <- <-]; naive_solver].
  destruct (sn_store_up _); cbn; [|intros [= <- <-]; naive_solver].
  destruct (sn_count _) as [x|e] eqn:Ec; cbn.
  - destruct (Z.eqb_spec x 0) as [->|Hx]; cbn; [intros [= <- <-]; naive_solver|]. intros H. split_and!; [naive_solver..|].
    intros _. pose proof (holds_on (m := follow D w (uint32 (x - 1))) (MkPass c (Datatypes.S (Datatypes.S (Datatypes.S k))) n)) as Hn.
    by rewrite H in Hn.
  - case_bool_decide; cbn; intros [= <- <-]; naive_solver.
Qed.

(** On a node that holds still, [findFork] answers the highest height
    below its start at which the index and the node name the same block, and
    what does not depend on the unconfirmed set stays as it is. *)
Theorem findFork_highest C heights times bs0 (P : db → Prop) m :
  PoolOnly w → serves w C heights times → PoolFree P → (∀ d, P d → holds bs0 d) → Z.of_nat (length bs0) ≤ 2^31 →
  (m ≤ length bs0)%nat → (∃ i, (i < m)%nat ∧ shared C bs0 i) →
  ∃ k, goes P (findFork w m) (Z.of_nat k) P ∧ (k < m)%nat ∧ shared C bs0 k ∧
    ∀ j, (k < j < m)%nat → ¬ shared C bs0 j.
Proof. intros Ho Hs HP HP' Hb. by apply (goes_findFork w C heights times Hs bs0 Hb P HP'). Qed.

(** When the node shares no block with the index, not even genesis, the
    rollback still keeps the block at height 0, and the pass resumes at
    height 1 on top of it. *)
Theorem disjoint_genesis_survives C heights times bs0 :
  PoolOnly w → serves w C heights times → Z.of_nat (length bs0) ≤ 2^31 → bs0 ≠ [] → (∀ i, ¬ shared C bs0 i) →
  goes (holds bs0) (resolveStart w) 1 (holds (take 1 bs0)).
Proof. intros Ho Hs Hb. by apply (resolve_disjoint w C heights times Hs). Qed.

(** C1: One pass over a node that holds still ends with the very index that
    writing the node's chain from scratch builds, on whatever branch of the
    same genesis the index was: fork found, stale blocks undone, new ones
    written, tip moved. Other goroutines may write to the unconfirmed set between
    any two statements. The node's connection is kept. *)
Theorem Once_reaches_node C heights times bs l bs0 d k n :
  PostgresLaws → PoolOnly w → serves w C heights times →
  prepared_chain D w C heights times = Ok bs → history bs l →
  holds bs0 d → hashes_commit C bs bs0 → (bs0 = [] ∨ shared C bs0 0) → C ≠ [] →
  ∃ r p', Once D w (MkPass (Conn d []) k n) = (r, p') ∧ holds bs (pass_db p') ∧
    chain_tables (pass_db p') = l ∧ p_drops p' = n ∧ (has_heights w = false → r = Ok tt).
Proof.
  intros HP Ho Hs Hbs Hl Hd Hc Hg Hne.
  destruct (Once_converges D w C heights times Hs bs Hbs l Hl bs0 (holds_len _ _ Hd) d k n HP Hd Hc Hg Hne)
    as (r & p' & H1 & H2 & H3 & H4).
  exists r, p'. split_and!; [done|done| |done|done]. destruct H2 as [H2 _]. by eapply history_fun.
Qed.
End sync_props.
