(* ===== verification/Pipeline.v ===== *)
(** * The whole pipeline

    [internal/e2e] drives a node, the syncer, Postgres and the API together. Here
    the test node's life is a sequence of events, its chain is what its tables
    say about its active hashes, and a pass of the block syncer over the JSON-RPC
    client ends with that chain in the index and its tip in the API. *)

From S2P Require Import Prelude GoStd Json JsonText Hash OutPoint Block BlockIndex Encode Rpc FakeNode Enforcer.
From S2P Require Import Registry Tables Write Ledger WriteSpec Prepare Read Handlers Respond ApiSpec.
From S2P Require Import Mempool Sync SyncSpec MempoolSync Relay Mux Server Converge Wire IndexProps.
Open Scope Z_scope.

(** ** The life of a node *)

Inductive event :=
  | Added (hash : Hash) (block : Block) (index : BlockIndex)
  | Reorganized (height : Z)
  | Accepted (txs : list MempoolTx)
  | Proposed (b : RawMessage) (failed : option Z)
  | Asked (body : string).

Section node.
Context `{Base58Laws} (nil : bool).

Definition happen (n : FakeNode) (e : event) : FakeNode :=
  match e with
  | Added hash block index => AddBlock hash block index n
  | Reorganized height => Reorg height n
  | Accepted txs => SetMempool txs n
  | Proposed b failed => SetWithdrawalBundle b failed n
  | Asked body => (FakeNode.serve nil n body).2
  end.

Definition life : list event → FakeNode := foldl happen NewFakeNode.

(** Every active hash has its block and its index. *)
Definition held (n : FakeNode) : Prop :=
  Forall (λ h, is_Some (fn_blocks n !! h) ∧ is_Some (fn_index n !! h)) (chainT n).

Definition block_at (n : FakeNode) (h : Hash) : option chain_block :=
  b ← fn_blocks n !! h; i ← fn_index n !! h; Some {| ch_Hash := h; ch_Block := b; ch_Index := i |}.

(** The active chain. *)
Definition chain_of (n : FakeNode) : list chain_block := omap (block_at n) (chainT n).

Lemma serve_chain n body :
  let n' := (FakeNode.serve nil n body).2 in
  chainT n' = chainT n ∧ fn_blocks n' = fn_blocks n ∧ fn_index n' = fn_index n.
Proof.
  unfold FakeNode.serve. destruct (of_option _ _ ≫= _) as [req|e]; [|done].
  assert (chainT (dispatch nil n req).2 = chainT n ∧ fn_blocks (dispatch nil n req).2 = fn_blocks n ∧
    fn_index (dispatch nil n req).2 = fn_index n) as Hd.
  { unfold dispatch.
    repeat match goal with |- context [String.eqb ?a ?b] => destruct (String.eqb a b); [try done|] end; [|done].
    by destruct (one_param _ _ _ _). }
  by destruct (dispatch nil n req) as [r n'].
Qed.

Lemma held_happen n e : held n → held (happen n e).
Proof.
  unfold held. intros Hn. destruct e as [hash block index|height|txs|b failed|body]; cbn [happen]; try done.
  - cbn [chainT fn_blocks fn_index AddBlock]. apply Forall_app. split.
    + eapply Forall_impl; [exact Hn|]. intros h [H1 H2]. rewrite !lookup_insert_is_Some'. auto.
    + apply Forall_singleton. rewrite !lookup_insert_eq. split; by eexists.
  - unfold Reorg. destruct (_ <? _); [|done]. cbn. by apply Forall_take.
  - destruct (serve_chain n body) as (-> & -> & ->). done.
Qed.

(** What a test gives the node to hold can be sent. *)
Definition fit (e : event) : Prop :=
  match e with
  | Added _ b i => (Block_wf b ∧ sends (enc_Block nil) b) ∧ BlockIndex_wf i ∧ sends (enc_BlockIndex nil) i
  | Accepted txs => Forall MempoolTx_wf txs ∧ sends (enc_Mempool nil) txs
  | Proposed b failed => textual level (enc_raw b) ∧ ∀ h, failed = Some h → is_u32 h
  | Reorganized _ | Asked _ => True
  end.

(** [sendable] without the bound on the length of the chain. *)
Definition sound (n : FakeNode) : Prop :=
  map_Forall (λ _ b, Block_wf b ∧ sends (enc_Block nil) b) (fn_blocks n) ∧
  map_Forall (λ _ i, BlockIndex_wf i ∧ sends (enc_BlockIndex nil) i) (fn_index n) ∧
  (Forall MempoolTx_wf (fn_mempool n) ∧ sends (enc_Mempool nil) (fn_mempool n)) ∧
  textual level (enc_raw (bundle n)) ∧ (∀ h, failedHeight n = Some h → is_u32 h).

Lemma serve_sound n body : sound n → sound (FakeNode.serve nil n body).2.
Proof.
  unfold FakeNode.serve. destruct (of_option _ _ ≫= _) as [req|e]; [|done]. intros Hn.
  assert (sound (dispatch nil n req).2) as Hd.
  { unfold dispatch.
    repeat match goal with |- context [String.eqb ?a ?b] => destruct (String.eqb a b); [try done|] end; [|done].
    by destruct (one_param _ _ _ _). }
  by destruct (dispatch nil n req) as [r n'].
Qed.

Lemma sound_happen n e : fit e → sound n → sound (happen n e).
Proof.
  destruct e as [hash block index|height|txs|b failed|body]; cbn [happen fit].
  - intros [Hb Hi] (H1 & H2 & H3 & H4). split_and!; [by apply map_Forall_insert_2..|apply H3|apply H3|apply H4|apply H4].
  - unfold Reorg. by destruct (_ <? _).
  - intros Hm (H1 & H2 & _ & H4). by split_and!; [..|apply Hm|apply Hm|apply H4|apply H4].
  - intros [Hb Hf] (H1 & H2 & H3 & _). by split_and!; [..|apply H3|apply H3| |].
  - intros _. apply serve_sound.
Qed.

Lemma length_happen n e : (length (chainT (happen n e)) ≤ Datatypes.S (length (chainT n)))%nat.
Proof.
  destruct e as [hash block index|height|txs|b failed|body]; cbn [happen]; try (cbn; lia).
  - cbn. rewrite length_app. cbn. lia.
  - unfold Reorg. destruct (_ <? _); cbn; [rewrite length_take|]; lia.
  - destruct (serve_chain n body) as (-> & _). lia.
Qed.

Lemma length_life es n : (length (chainT (foldl happen n es)) ≤ length (chainT n) + length es)%nat.
Proof.
  revert n. induction es as [|e es IH]; intros n; cbn [foldl length]; [lia|].
  pose proof (IH (happen n e)). pose proof (length_happen n e). lia.
Qed.

(** What every event keeps, a whole life keeps. *)
Lemma life_keeps (P : FakeNode → Prop) es n :
  (∀ n e, e ∈ es → P n → P (happen n e)) → P n → P (foldl happen n es).
Proof.
  revert n. induction es as [|e es IH]; intros n HP Hn; [done|]. cbn. apply IH; [|apply HP; [by left|done]].
  intros n' e' He. apply HP. by right.
Qed.

(** However a test node has lived, it holds the block and the index of every
    hash it serves as active, also of hashes that came back after a
    reorganisation; and when everything it was given can be sent, so can every
    answer it has. *)
Lemma life_held es :
  held (life es) ∧ (Forall fit es → Z.of_nat (length es) < 2 ^ 32 → sendable nil (life es)).
Proof.
  unfold life. split; [apply (life_keeps held); [intros n e _; apply held_happen|constructor]|].
  intros Hf Hl. assert (sound (foldl happen NewFakeNode es)) as (H1 & H2 & H3 & H4 & H5).
  { apply (life_keeps sound).
    2:{ split_and!; [apply map_Forall_empty..|constructor| |apply textual_null|done].
        destruct nil; eexists; (split; [done|]); [apply textual_null|apply textual_empty]. }
    intros n e He. apply sound_happen. rewrite Forall_forall in Hf. by apply Hf. }
  split; [|done..]. pose proof (length_life es NewFakeNode). cbn in *. lia.
Qed.

Lemma chain_hashes n : held n → ch_Hash <$> chain_of n = chainT n.
Proof.
  unfold chain_of, held. induction 1 as [|h l [[b Hb] [i Hi]] _ IH]; [done|].
  cbn [omap list_omap]. unfold block_at at 1. rewrite Hb, Hi. cbn. by rewrite IH.
Qed.

Lemma chain_of_lookup n i : held n → chain_of n !! i = (chainT n !! i) ≫= block_at n.
Proof.
  unfold chain_of, held. intros Hn. revert i. induction Hn as [|h l [[b Hb] [x Hx]] _ IH]; intros i; [done|].
  assert (block_at n h = Some {| ch_Hash := h; ch_Block := b; ch_Index := x |}) as E by (unfold block_at; by rewrite Hb, Hx).
  cbn [omap list_omap]. rewrite E. destruct i; cbn; [by rewrite E|apply IH].
Qed.

Lemma chain_of_elem n c :
  c ∈ chain_of n → fn_blocks n !! ch_Hash c = Some (ch_Block c) ∧ fn_index n !! ch_Hash c = Some (ch_Index c).
Proof.
  intros (h & _ & Hc)%list_elem_of_omap. unfold block_at in Hc.
  destruct (fn_blocks n !! h) as [b|] eqn:Hb; [|done]. destruct (fn_index n !! h) as [i|] eqn:Hi; [|done].
  by injection Hc as <-.
Qed.

(** What each event does to the chain: a block under a new hash goes on top, a
    reorganisation leaves the blocks up to its height, and nothing else changes
    it, requests included. *)
Theorem happen_chain n e :
  held n →
  match e with
  | Added hash block index =>
      hash ∉ chainT n →
      chain_of (happen n e) = chain_of n ++ [{| ch_Hash := hash; ch_Block := block; ch_Index := index |}]
  | Reorganized height =>
      0 ≤ height < MaxUint32 → chain_of (happen n e) = take (Z.to_nat (height + 1)) (chain_of n)
  | _ => chain_of (happen n e) = chain_of n
  end.
Proof.
  intros Hn. destruct e as [hash block index|height|txs|b failed|body]; try done.
  - intros Hnew. unfold chain_of. cbn [happen chainT AddBlock]. rewrite omap_app. f_equal.
    + apply list_omap_ext. apply Forall_Forall2_diag, Forall_forall. intros h Hh. unfold block_at.
      cbn [fn_blocks fn_index AddBlock]. by rewrite !lookup_insert_ne by (intros ->; done).
    + cbn. unfold block_at. cbn [fn_blocks fn_index AddBlock]. by rewrite !lookup_insert_eq.
  - intros Hh. apply list_eq. intros i.
    assert (Z.of_nat (length (chainT n)) ≤ height + 1 → take (Z.to_nat (height + 1)) (chain_of n) = chain_of n) as Hall.
    { intros Hle. apply take_ge. rewrite <- (length_fmap ch_Hash), chain_hashes by done. lia. }
    cbn [happen]. unfold Reorg. rewrite uint32_small by (unfold is_u32, MaxUint32 in *; lia).
    destruct (Z.ltb_spec (height + 1) (Z.of_nat (length (chainT n)))); [|by rewrite Hall].
    rewrite chain_of_lookup by (by apply Forall_take). cbn [chainT].
    destruct (decide (i < Z.to_nat (height + 1))%nat).
    + rewrite !lookup_take_lt, chain_of_lookup by done. done.
    + by rewrite !lookup_take_ge by lia.
  - cbn [happen]. unfold chain_of, block_at. by destruct (serve_chain n body) as (-> & -> & ->).
Qed.
End node.

(** ** A pass over the wire *)

Section pipeline.
Context {PG : Postgres} {B3 : Blake3} `{Base58Laws} (D : Decoder) (nil : bool).
Context (nodes : nat → FakeNode) (clients : nat → Client) (enforcer : Enforcer) (times : BitcoinHash → result Z)
  (goroutines : nat → db → db) (has_heights has_times : bool).

(** Both services are up and nobody stops the process. *)
Definition calm_snapshot : snapshot :=
  {| sn_node_up := Ok tt; sn_store_up := Ok tt; sn_count := Ok 0; sn_hash := λ _, Ok None; sn_block := λ _, Ok None;
     sn_index := λ _, Ok zero_BlockIndex; sn_mempool := Ok []; sn_submit := λ _, Ok zero_hash; sn_bundle := Ok None;
     sn_failed_height := Ok None; sn_height := λ _, Ok None; sn_time := times; sn_ctx := None |}.

(** The node is the test node as call [k] finds it, behind the client. *)
Definition over (posts : nat → transport) : world :=
  rpc_world posts clients (λ _, enforcer) (λ _, calm_snapshot) goroutines has_heights has_times.

Definition pipeline : world := over (λ k, transport_of nil (nodes k)).

Context (C : list chain_block) (HC : ∀ k, chain_of (nodes k) = C)
  (Hheld : ∀ k, held (nodes k)) (Hsend : ∀ k, sendable nil (nodes k)).

#[local] Opaque parse parse_first print.

(** What the client makes of the node's answers is the node's chain. *)
Lemma pipeline_serves : serves pipeline C (BlockHeight enforcer) times.
Proof.
  split; try done; intros k.
  - etrans; [exact (count_served nil _ (clients k) (Hsend k))|]. do 2 f_equal.
    by rewrite <- (chain_hashes _ (Hheld k)), length_fmap, HC.
  - intros i Hi. etrans; [exact (hash_served nil _ (clients k) i Hi)|].
    by rewrite <- (chain_hashes _ (Hheld k)), HC, list_lookup_fmap.
  - intros c Hc. etrans; [exact (block_served nil _ (clients k) (Hsend k) (ch_Hash c))|]. f_equal.
    rewrite <- (HC k) in Hc. by apply chain_of_elem in Hc as [Hb _].
  - intros c Hc. etrans; [exact (index_served nil _ (clients k) (Hsend k) (ch_Hash c))|].
    rewrite <- (HC k) in Hc. apply chain_of_elem in Hc as [_ Hi]. by rewrite Hi.
Qed.

(** C2: The pipeline, end to end. Let the test node hold still while it answers
    over JSON-RPC, its mempool, its bundle and its submissions apart. One pass of
    the syncer, reading through the client and its decoders and writing among
    mempool passes, ends with the rows of the node's chain in the database,
    whatever branch of the same genesis it held, and the API then names the node's
    tip. *)
Theorem pipeline_reaches_node bs l bs0 d k n :
  PostgresLaws → PoolOnly pipeline → prepared_chain D pipeline C (BlockHeight enforcer) times = Ok bs →
  history bs l → holds bs0 d → hashes_commit C bs bs0 → (bs0 = [] ∨ shared C bs0 0) → C ≠ [] →
  ∃ r p', Once D pipeline (MkPass (Conn d []) k n) = (r, p') ∧ chain_tables (pass_db p') = l ∧
    ApiSpec.serve (tipHeight (Ok tt)) (pass_db p') = WriteText (fmt_d (Z.of_nat (length C) - 1)) ∧
    ∃ hash, last (chainT (nodes 0)) = Some hash ∧
      ApiSpec.serve (tipHash (Ok tt)) (pass_db p') = WriteText (Hash_String hash).
Proof.
  intros HP Ho Hbs Hl Hd Hc Hg Hne.
  destruct (Once_converges D pipeline C _ times pipeline_serves bs Hbs l Hl bs0 (holds_len _ _ Hd) d k n HP Hd Hc Hg Hne)
    as (r & p' & E & Hd' & _). exists r, p'. split; [done|]. split; [destruct Hd' as [Hd' _]; by eapply history_fun|].
  pose proof (bs_length D pipeline C _ times bs Hbs) as Hlen. pose proof (bs_hash D pipeline C _ times bs Hbs) as Hhash.
  assert (is_Some (last bs)) as [b Hb].
  { apply last_is_Some. intros ->. cbn in Hlen. by destruct C. }
  pose proof (run_Tip bs (holds_len _ _ Hd') _ Hd') as Ht. rewrite Hb in Ht. cbn in Ht.
  assert (last (chainT (nodes 0)) = Some (sb_Hash b)) as Htip.
  { rewrite <- (chain_hashes _ (Hheld 0%nat)), HC. rewrite !last_lookup in *. rewrite length_fmap, <- Hlen, list_lookup_fmap.
    by rewrite <- Hhash, Hb. }
  split; [|exists (sb_Hash b); split; [done|]].
  - unfold tipHeight, with_store. rewrite serve_failed, Ht by apply _. cbn. by rewrite Hlen.
  - unfold tipHash, with_store. rewrite serve_failed, Ht by apply _. done.
Qed.

(** C33: A posted transaction, end to end. A body that is JSON between its white
    space, and not nested to the last two levels a decoder takes, goes out as one
    request with that very JSON, its strings and numbers as they were: the node keeps
    it, and the id the node answers to this request is the answer the client gets.
    Of what is behind the connection nothing is assumed but that it answers this one
    request as the node does, so no other request can have led to the answer. The
    database is not touched and the connection kept. *)
Theorem submission_reaches_node posts m connected body tx p :
  readTransactionBody body = Ok tx → (depth tx ≤ level)%nat →
  let k := Datatypes.S (p_clock p) in
  let request := print (enc_request (int64 (nextID (clients k) + 1)) "submit_transaction" (JArr [tx])) in
  posts k (url (clients k)) request = transport_of nil (nodes k) (url (clients k)) request →
  Server.ServeHTTP (over posts) (running (over posts) m) connected "POST" ["tx"%string] body p =
    (Ok (respond (A := unit) (WriteText (Hash_String submitted_id))), MkPass (p_conn p) (Datatypes.S k) (p_drops p)) ∧
  Submitted (FakeNode.serve nil (nodes k) request).2 = Submitted (nodes k) ++ [Some tx].
Proof.
  intros Hb Hd k request Hpost. assert (textual level tx) as Ht.
  { apply readTransactionBody_ok in Hb as (b & _ & _ & ((Hn & _) & Hc & _)%parse_print_parse). by split_and!. }
  destruct (submit_served nil (nodes k) (clients k) tx Ht) as [Hs1 Hs2]. split; [|unfold request; by rewrite Hs2].
  destruct p as [c k0 n]. unfold Server.ServeHTTP. change (Route "POST" ["tx"%string]) with (Found PostTransaction []).
  unfold handle_target, broadcast, running, NewServer, NewBroadcaster. cbn [broadcaster]. unfold mbind, S_bind. rewrite Hb.
  unfold handle, Broadcaster.Broadcast, dropping, handle, mbind, S_bind, ask. cbn [p_clock p_conn p_drops].
  change (sn_node_up (at_call (over posts) k0)) with (@Ok unit tt).
  assert (sn_submit (at_call (over posts) (Datatypes.S k0)) tx = Ok submitted_id) as ->; [|done].
  rewrite <- Hs1. change (sn_submit (at_call (over posts) (Datatypes.S k0)) tx)
    with (@Node.SubmitTransaction (client_caller (posts k) (clients k)) tx).
  unfold Node.SubmitTransaction, caller, client_caller, Call. cbn [fst]. fold request. by rewrite Hpost.
Qed.
End pipeline.
