(* ===== verification/Program.v ===== *)
(** * The running program

    What [run] of [cmd/drivechain-esplora/main.go] puts together once the flags
    are settled: the two syncers of [internal/index], the server, and the services
    behind them; and what the database holds however their work interleaves, from
    an empty database on, through restarts and failures. *)

From S2P Require Import Prelude GoStd Json Hash OutPoint Block BlockIndex Decoders Rpc Registry ChainProps.
From S2P Require Import Tables Write Ledger WriteSpec WriteProps Prepare Read Enforcer Command Mempool.
From S2P Require Import Esplora Handlers Router ApiSpec Sync SyncSpec MempoolSync Relay Server Converge Wire.
From stdpp Require Import relations.
Open Scope Z_scope.

(** ** The syncers *)

(** Milliseconds. *)
Definition PollInterval : Z := 250.

(** The two sources are interfaces, [None] when nil; the enforcer behind the
    heights answers differently from call to call. *)
Record Syncer := {
  syn_decoder : Decoder;
  syn_times : option (nat → BitcoinHash → result Z);
  syn_Interval : Z;
  syn_Heights : option (nat → Enforcer);
}.

Definition NewSyncer (decoder : Decoder) (times : option (nat → BitcoinHash → result Z)) : Syncer :=
  {| syn_decoder := decoder; syn_times := times; syn_Interval := PollInterval; syn_Heights := None |}.

Definition set_Heights (heights : nat → Enforcer) (s : Syncer) : Syncer :=
  {| syn_decoder := syn_decoder s; syn_times := syn_times s; syn_Interval := syn_Interval s;
     syn_Heights := Some heights |}.

Record MempoolSyncer := { mem_decoder : Decoder; mem_Interval : Z }.

Definition NewMempoolSyncer (decoder : Decoder) : MempoolSyncer :=
  {| mem_decoder := decoder; mem_Interval := PollInterval |}.

(** ** What run puts together *)

Record App := {
  app_syncer : Syncer;
  app_mempool : MempoolSyncer;
  app_server : world → nat → Server;
}.

(** [http k] brings back what the enforcer answers to call [k]. *)
Definition assemble (cfg : config) (st : settings) (http : nat → transport) : App :=
  let enforcer k := enforcer_of cfg (http k) in
  let syncer := NewSyncer (st_decoder st) None in
  {| app_syncer := if String.eqb (enforcerURL cfg) EmptyString then syncer
                   else set_Heights (λ k, Enforcer.New (enforcerURL cfg) (http k)) syncer;
     app_mempool := NewMempoolSyncer (st_decoder st);
     app_server := λ w k, NewServer (Some (NewBroadcaster w)) (enforcer k) (Some (NewWithdrawals w)) |}.

Section program.
Context {PG : Postgres} {B3 : Blake3} {B58 : Base58}.

Definition idle_enforcer : Enforcer := Enforcer.New EmptyString (λ _ _, Err (Errorf "no enforcer")).

(** The world of a syncer: the node answers call [k] through [post k], the rest is
    as [rest k] says. *)
Definition sees (s : Syncer) (post : nat → transport) (clients : nat → Client) (rest : nat → snapshot)
    (goroutines : nat → db → db) : world :=
  let times k := default (λ _ _, Err (Errorf "no time source")) (syn_times s) k in
  rpc_world post clients (default (λ _, idle_enforcer) (syn_Heights s))
    (λ k, {| sn_node_up := sn_node_up (rest k); sn_store_up := sn_store_up (rest k); sn_count := sn_count (rest k);
             sn_hash := sn_hash (rest k); sn_block := sn_block (rest k); sn_index := sn_index (rest k);
             sn_mempool := sn_mempool (rest k); sn_submit := sn_submit (rest k); sn_bundle := sn_bundle (rest k);
             sn_failed_height := sn_failed_height (rest k); sn_height := sn_height (rest k);
             sn_time := times k; sn_ctx := sn_ctx (rest k) |})
    goroutines (bool_decide (is_Some (syn_Heights s))) (bool_decide (is_Some (syn_times s))).
End program.

(** ** What every write keeps, every pass keeps *)

Section kept.
Context {PG : Postgres} {B3 : Blake3} (D : Decoder) (w : world) `{!PoolOnly w} (P : db → Prop) `{!PoolFree P}.
Context (Happly : ∀ b r d d', P d → (has_times w = false → sb_BlockTime b = None) → apply_db b d = Ok (r, d') → P d')
  (Hrollback : ∀ h d, P d → P (rollback_db h d))
  (Hheight : ∀ h x d, P d → P (Db (set_main_height h x (chain_tables d)) (sync_state d) (pool d))).

Lemma kept_Rollback h : hoare P (db_call w (Rollback h)) (λ _, P) P.
Proof. eapply hoare_conseq; [apply hoare_Rollback; apply _| |done]. intros _ d' (d & Hd & ->). by apply Hrollback. Qed.

Lemma kept_query {A} (q : db → result A) : hoare P (db_call w (query q)) (λ _, P) P.
Proof. eapply hoare_conseq; [apply hoare_query; apply _|by intros a d [? _]|done]. Qed.

Lemma kept_blockTime m :
  hoare P (blockTime w m) (λ t d, P d ∧ (has_times w = false → t = None)) P.
Proof.
  unfold blockTime. destruct (has_times w); [|by apply hoare_ret].
  eapply hoare_conseq; [apply hoare_named_ask'| |done]. by intros t d Hd.
Qed.

Lemma kept_applyHeight n : hoare P (applyHeight D w n) (λ _, P) P.
Proof.
  unfold applyHeight. pass_step @hoare_named_ask'. intros [hash|]; [|by apply hoare_ret].
  pass_step @hoare_named_ask'. intros [block|]; [|by apply hoare_lift].
  pass_step @hoare_named_ask'. intros bi.
  eapply hoare_bind; [apply kept_blockTime|]. intros t. apply hoare_fact. intros Ht.
  eapply hoare_bind.
  { apply (hoare_lift _ _ (λ write d, P d ∧ sb_BlockTime write = t)); [|done]. intros write d Hw Hd. split; [done|].
    by apply Prepare_rows in Hw as (_ & _ & _ & _ & _ & ? & _). }
  intros write. apply hoare_fact. intros <-. pass_step @hoare_mainHeight. intros mh. pass_step @hoare_Apply.
  intros r. apply hoare_ret. intros d' (d & Hd & Ha). by eapply Happly; [exact Hd| |exact Ha].
Qed.

Lemma kept_findFork n : hoare P (findFork w n) (λ _, P) P.
Proof.
  induction n as [|n IH]; cbn [findFork]; [pass_step @kept_Rollback; intros u; by apply hoare_ret|].
  eapply hoare_bind; [apply kept_query|]. intros [ours|]; [|done].
  pass_step @hoare_named_ask'. intros theirs. case_bool_decide; [by apply hoare_ret|done].
Qed.

Lemma kept_resolveStart : hoare P (resolveStart w) (λ _, P) P.
Proof.
  unfold resolveStart. eapply hoare_bind; [apply kept_query|]. intros [[tip hash]|]; [|by apply hoare_ret].
  pass_step @hoare_named_ask'. intros theirs. case_bool_decide; [by apply hoare_ret|].
  pass_step @kept_findFork. intros fork. pass_step @kept_Rollback. intros u. by apply hoare_ret.
Qed.

Lemma kept_walk fuel n tip : hoare P (walk D w fuel n tip) (λ _, P) P.
Proof.
  revert n. induction fuel as [|fuel IH]; intros n; cbn [walk]; [by apply hoare_ret|].
  destruct (n <=? tip); [|by apply hoare_ret]. pass_step @kept_applyHeight. intros []; cbn [negb]; [|by apply hoare_ret].
  pass_step @hoare_ask'. intros u. apply IH.
Qed.

Lemma kept_backfill rows : hoare P (backfill w rows) (λ _, P) P.
Proof.
  induction rows as [|row rows IH]; cbn [backfill]; [by apply hoare_ret|].
  pass_step @hoare_mainHeight. intros [h|]; [|done].
  eapply hoare_bind; [apply hoare_SetMainHeight; [apply _|apply _|]|]; [intros d; apply Hheight|]. intros u.
  pass_step @hoare_ask'. intros u'. exact IH.
Qed.

Lemma kept_Once : hoare P (Once D w) (λ _, P) P.
Proof.
  unfold Once. pass_step @hoare_ask'. intros u1. pass_step @hoare_ask'. intros u2.
  eapply hoare_handle; [|intros tip|intros e; apply hoare_no_tip].
  { unfold TipHeight. eapply hoare_bind; [apply hoare_ask'|]. intros c.
    destruct (c =? 0); [by apply hoare_lift|]. by apply (hoare_ret _ _ (λ _ : Z, P)). }
  unfold follow. pass_step @kept_resolveStart. intros next. pass_step @kept_walk.
  intros [[]|]; [|by apply hoare_ret|by apply hoare_lift].
  unfold backfillMainHeights. destruct (has_heights w); [|by apply hoare_ret].
  eapply hoare_bind; [apply kept_query|]. intros rows. apply kept_backfill.
Qed.
End kept.

(** ** One process *)

Section process.
Context {PG : Postgres} {B3 : Blake3} {B58 : Base58} (cfg : config) (st : settings)
  (Hst : configure started cfg = Ok st).

(** The database, and whether this process has a store to work on: [stores] hands
    one out only after its connector succeeded. *)
Record state := State { opened : bool; data : db }.

Definition claimed (d : db) : Prop :=
  (λ r, (sy_chain r, sy_network r)) <$> sync_state d = Some (chainName cfg, st_network st).

(** No block has a time: the program gives its syncer no source of times. *)
Definition timeless (d : db) : Prop := map_Forall (λ _ b, b_block_time b = None) (blocks (chain_tables d)).

(** What the database is once a store was handed out. *)
Definition ready (d : db) : Prop := indexed d ∧ claimed d ∧ timeless d.

(** Nobody has written here yet. *)
Definition fresh (d : db) : Prop := chain_tables d = empty_ledger ∧ sync_state d = None.

(** What a piece of work can count on: without a store, [Get] fails and nobody
    writes; with one, the others keep the database ready, as each of them does. *)
Definition surroundings (o : bool) (w : world) : Prop :=
  (o = false → (∀ k, ∃ e, sn_store_up (at_call w k) = Err e) ∧ ∀ k d, others w k d = d) ∧
  (∀ k d, ready d → ready (others w k d)).

(** A pass of either syncer, or a request, in a world that is [fit] for it. Each
    may fail at any statement, so one cut short is one of these too. *)
Inductive work (fit : world → Prop) : db → db → Prop :=
  | work_block d fs k http post clients rest goroutines :
      let app := assemble cfg st http in
      let w := sees (app_syncer app) post clients rest goroutines in
      fit w → PoolOnly w → counts_fit w →
      work fit d (pass_db (Once (syn_decoder (app_syncer app)) w (MkPass (Conn d fs) 0 k)).2)
  | work_mempool d fs k http w now :
      fit w →
      work fit d
        (pass_db (MempoolSync.MempoolSyncer.Once (mem_decoder (app_mempool (assemble cfg st http))) w now
                    (MkPass (Conn d fs) 0 k)).2)
  | work_request d fs k http w i connected method path body :
      fit w →
      work fit d
        (pass_db (Server.ServeHTTP w (app_server (assemble cfg st http) w i) connected method path body
                    (MkPass (Conn d fs) 0 k)).2).

(** What happens to a process: the connector of the stores, a piece of work, and a
    new start. *)
Inductive step : state → state → Prop :=
  | step_open o r c out c' :
      open_store r (chainName cfg) (st_network st) c = (out, c') →
      step (State o (c_db c)) (State (match out with Opened => true | _ => o end) (c_db c'))
  | step_work o d d' : work (surroundings o) d d' → step (State o d) (State o d')
  | step_restart o d : step (State o d) (State false d).

Lemma work_mono (P Q : world → Prop) d d' : (∀ w, P w → Q w) → work P d d' → work Q d d'.
Proof. intros HPQ Hw. destruct Hw; [apply work_block|apply work_mempool|apply work_request]; auto. Qed.

Definition sound (s : state) : Prop := ready (data s) ∨ opened s = false ∧ fresh (data s).

(** Every decoder the settings can name keeps its law. *)
Lemma configured_laws : DecoderLaws (st_decoder st).
Proof.
  unfold configure in Hst. apply bind_ok in Hst as (level & _ & (n & _ & ([s D] & Hl & Hst')%bind_ok)%bind_ok).
  apply bind_ok in Hst' as (u & _ & (l & _ & [= <-])%bind_ok). cbn.
  intros raw c Hc. destruct register_init_ok as [t Ht].
  eapply (registered_amounts_fit t); [done| |exact Hc]. unfold started in Hl. by rewrite Ht in Hl.
Qed.

#[export] Instance pool_free_ready : PoolFree ready.
Proof. intros q d (H1 & H2 & H3). split_and!; [by apply pool_free|done|done]. Qed.

Lemma set_tip_claim t r : (λ r, (sy_chain r, sy_network r)) <$> set_tip t r = (λ r, (sy_chain r, sy_network r)) <$> r.
Proof. by destruct r. Qed.

Lemma assemble_parts http :
  syn_decoder (app_syncer (assemble cfg st http)) = st_decoder st ∧
  syn_times (app_syncer (assemble cfg st http)) = None.
Proof. unfold assemble. cbn. by destruct (String.eqb _ _). Qed.

Lemma block_pass_ready w D d fs k :
  DecoderLaws D → PoolOnly w → counts_fit w → indexes_typed w → has_times w = false →
  ready d → ready (pass_db (Once D w (MkPass (Conn d fs) 0 k)).2).
Proof.
  intros HD Ho Hc Hi Ht (H1 & H2 & H3).
  destruct (Once D w (MkPass (Conn d fs) 0 k)) as [r p'] eqn:E. cbn [snd]. split.
  { pose proof (hoare_Once D HD w Hc Hi (MkPass (Conn d fs) 0 k) _ _ H1 E) as H. by destruct r. }
  assert (hoare (λ d, claimed d ∧ timeless d) (Once D w) (λ _ d, claimed d ∧ timeless d) (λ d, claimed d ∧ timeless d)) as Hk.
  { apply kept_Once; [done|by intros q d0 [? ?]|..].
    - intros b r0 d0 d1 [Hcl Htl] Hb Ha. unfold apply_db in Ha.
      apply bind_ok in Ha as ([r1 l] & Ha & [= _ <-]). apply apply_ledger_applied in Ha as [_ _ Ab _ _ _].
      split; [unfold claimed; cbn; by rewrite set_tip_claim|]. unfold timeless. cbn. rewrite Ab.
      apply map_Forall_insert_2; [by apply Hb|done].
    - intros h d0 [Hcl Htl]. split; [unfold claimed; cbn; by rewrite set_tip_claim|].
      unfold timeless. cbn. intros i b [Hb _]%map_lookup_filter_Some. by eapply Htl.
    - intros h x d0 [Hcl Htl]. split; [done|]. unfold timeless. cbn. intros i b Hb.
      apply lookup_alter_Some in Hb as [(<- & b0 & Hb0 & ->)|[_ Hb]]; [by apply Htl in Hb0|by apply Htl in Hb]. }
  pose proof (Hk (MkPass (Conn d fs) 0 k) _ _ (conj H2 H3) E) as H. by destruct r.
Qed.

(** Without a store a pass touches nothing. *)
Lemma block_pass_idle w D c k n e : sn_store_up (at_call w (Datatypes.S k)) = Err e → p_conn (Once D w (MkPass c k n)).2 = c.
Proof.
  intros He. unfold Once, mbind, S_bind, ask. cbn. destruct (sn_node_up _); cbn; [|done]. by rewrite He.
Qed.

Lemma Init_fresh c r c' :
  Init (chainName cfg) (st_network st) c = (Ok r, c') → fresh (c_db c) →
  c_db c' = Db empty_ledger
    (Some {| sy_chain := chainName cfg; sy_network := st_network st; sy_tip_height := None; sy_tip_hash := None |})
    (pool (c_db c)).
Proof.
  intros H [Hl Hs]. destruct r. apply fault_mono in H.
  assert (Tables.run (Init (chainName cfg) (st_network st)) (c_db c) = (Ok tt, c_db c')) as E by (unfold Tables.run; by rewrite H).
  revert E. unfold Init, Tables.run, inTx, exec, query, mbind, M_bind. cbn. rewrite Hs. cbn. rewrite Hl. by intros [= <-].
Qed.

Lemma open_store_sound r c out c' :
  open_store r (chainName cfg) (st_network st) c = (out, c') →
  ready (c_db c) ∨ fresh (c_db c) →
  match out with Opened => ready (c_db c') | _ => c_db c' = c_db c end.
Proof.
  unfold open_store. destruct r as [[]|e]; [|by intros [= <- <-]].
  destruct (Init _ _ c) as [[u|e] c1] eqn:Hi; intros [= <- <-]; [|by apply Init_outcome in Hi].
  intros [Hr|Hf].
  - apply Init_outcome in Hi as (_ & _ & _ & H). rewrite H; [done|].
    destruct Hr as (_ & Hc & _). unfold claimed in Hc. by destruct (sync_state (c_db c)).
  - rewrite (Init_fresh _ _ _ Hi Hf). split_and!; [|done|by apply map_Forall_empty].
    exists 0. split_and!; [lia|done|apply wf_empty|]. eexists. by split_and!.
Qed.

(** ** Everything together *)

Lemma pass_others o d w : surroundings o w → ready d ∨ o = false ∧ fresh d → ∀ k,
  ready (others w k d) ∨ o = false ∧ fresh (others w k d).
Proof. intros [H1 H2] [Hr|[-> Hf]] k; [left; by apply H2|]. right. destruct (H1 eq_refl) as [_ ->]. done. Qed.

Lemma mempool_sound w D now d fs k o :
  surroundings o w → ready d ∨ o = false ∧ fresh d →
  let p' := (MempoolSync.MempoolSyncer.Once D w now (MkPass (Conn d fs) 0 k)).2 in
  ready (pass_db p') ∨ o = false ∧ fresh (pass_db p').
Proof.
  intros Hs Hd p'. pose proof (pass_others _ _ _ Hs Hd 3) as H3. subst p'.
  destruct (MempoolSync.MempoolSyncer.Once D w now _) as [r p'] eqn:E. apply mempool_pass in E as [H _]. cbn in *.
  destruct r as [u|e].
  - destruct H as (txs & new & _ & _ & _ & Ht & Hy).
    assert (pass_db p' = set_pool (pool (pass_db p')) (others w 3 d)) as ->
      by (destruct (pass_db p'), (others w 3 d); cbn in *; by subst).
    destruct H3 as [H3|[-> H3]]; [left; by apply pool_free_ready|by right].
  - by destruct H as [[-> | ->] _].
Qed.

Lemma work_sound o d d' :
  work (surroundings o) d d' → ready d ∨ o = false ∧ fresh d → ready d' ∨ o = false ∧ fresh d'.
Proof.
  intros Hw Hd. destruct Hw as
    [d fs k http post clients rest goroutines app w Hs Ho Hc|d fs k http w now Hs
    |d fs k http w i connected method path body Hs].
  - destruct Hd as [Hd|[-> Hd]].
    + left. destruct (assemble_parts http) as [HD Ht].
      apply block_pass_ready; try done; [unfold app; rewrite HD; apply configured_laws|apply rpc_world_typed|].
      unfold w, app, sees, rpc_world, assemble. cbn. by destruct (String.eqb _ _).
    + right. split; [done|]. destruct (proj1 Hs eq_refl) as [Hu _]. destruct (Hu 1%nat) as [e He].
      unfold pass_db. by rewrite (block_pass_idle _ _ _ _ _ _ He).
  - by apply mempool_sound.
  - pose proof (pass_others _ _ _ Hs Hd 1) as H1.
    destruct (ServeHTTP_db w (enforcer_of cfg (http i)) connected method path body (MkPass (Conn d fs) 0 k)) as [E|E];
      unfold assemble; cbn [app_server]; unfold running in E; by rewrite E.
Qed.

Lemma step_sound s s' : step s s' → sound s → sound s'.
Proof.
  unfold sound. intros Hstep Hd. destruct Hstep as [o r c out c' H|o d d' Hw|o d]; cbn [data opened] in *.
  - apply open_store_sound in H; [|tauto]. destruct out; [by left|by rewrite H..].
  - by apply (work_sound o d).
  - destruct Hd as [Hd|[_ Hd]]; [by left|by right].
Qed.

(** C4: Whatever the process does from an empty database on, in any order: open
    the store, run passes of either syncer against any node and enforcer, answer
    requests, fail at any statement, stop and start over. The database always holds
    a coherent index, claimed for this chain and network, with no block time in it,
    or is still as empty as it was; and once a store was handed out it is the
    first. *)
Theorem program_keeps_index s :
  rtc step (State false empty_db) s →
  (ready (data s) ∨ fresh (data s)) ∧ (opened s = true → ready (data s)).
Proof.
  intros H. assert (sound s) as Hs.
  { revert H. apply (rtc_ind_r (λ s, sound s)); [right; by split|]. intros x y _ Hxy. by apply step_sound. }
  destruct Hs as [Hs|[Ho Hs]]; [by split; [left|]|]. split; [by right|by rewrite Ho].
Qed.
End process.
