(* ===== verification/Samples.v ===== *)
(** * A small chain

    Two branches of a Thunder chain with a shared genesis block, a node that
    serves either, and databases that hold them. The theorems are applied to
    them in [Examples]. *)

From S2P Require Import Prelude GoStd Json Hash OutPoint Block BlockIndex Decoders Registry Tables.
From S2P Require Import Write Ledger WriteSpec Prepare Read Mempool Sync SyncSpec Converge.
Open Scope Z_scope.

#[export] Existing Instance plain_postgres.
#[export] Existing Instance plain_postgres_laws.
#[export] Existing Instance hex_base58.
#[export] Existing Instance hex_base58_laws.

(** A stand-in digest: the first 32 bytes. *)
#[export] Instance sample_blake3 : Blake3 := λ l, copy_into 32 l.

(** ** Values from computations *)

Definition get {A} (a : A) (r : result A) : A := match r with Ok x => x | Err _ => a end.

Lemma get_ok {A} (a : A) r : is_Ok r → r = Ok (get a r).
Proof. by intros [x ->]. Qed.

(** A checked run of [apply_ledger] over a chain, which is a proof of [history]. *)
Definition extend (acc : option (nat * ledger)) (b : SBlock) : option (nat * ledger) :=
  '(n, l) ← acc;
  if bool_decide (sb_Height b = Z.of_nat n ∧ Z.of_nat n < 2^31 ∧ block_ok b ∧ fresh_spends l b)
  then match apply_ledger b l with Ok (_, l') => Some (Datatypes.S n, l') | Err _ => None end
  else None.

Definition build (bs : list SBlock) : option (nat * ledger) :=
  foldl extend (Some (0%nat, empty_ledger)) bs.

Definition built (bs : list SBlock) : ledger := from_option snd empty_ledger (build bs).

Lemma build_history bs n l : build bs = Some (n, l) → n = length bs ∧ history bs l.
Proof.
  revert n l. induction bs as [|b bs IH] using rev_ind; intros n l.
  { intros [= <- <-]. split; [done|constructor]. }
  unfold build. rewrite foldl_app. cbn. change (foldl extend _ bs) with (build bs).
  destruct (build bs) as [[n0 l0]|] eqn:E; cbn; [|done].
  destruct (IH n0 l0 eq_refl) as [-> Hh]. case_bool_decide as Hc; [|done].
  destruct Hc as (H1 & H2 & H3 & H4).
  destruct (apply_ledger b l0) as [[r l']|] eqn:Ea; [|done]. intros [= <- <-].
  rewrite length_app. cbn. split; [lia|]. by eapply history_snoc.
Qed.

Lemma built_history bs : is_Some (build bs) → history bs (built bs).
Proof. intros [[n l] H]. unfold built. rewrite H. by apply build_history in H as [_ H]. Qed.

(** ** Data *)

Definition h (n : Z) : Hash := copy_into 32 [byte_of_Z n].
Definition a (n : Z) : Address := copy_into 20 [byte_of_Z n].
Definition value (v : Z) : RawMessage := Some (JObj [("Value"%string, JNum (fmt_d v))]).
Definition pay (to : Z) (v : Z) : Output := {| out_Address := a to; out_Content := value v |}.

Definition sample_block (merkle : Z) (prev : option Z) (reward : list Output) (txs : list Transaction)
    : Block :=
  {| blk_Header := {| MerkleRoot := h merkle; PrevSideHash := h <$> prev;
                      PrevMainHash := h (100 + merkle) |};
     blk_Body := {| body_Coinbase := {| cb_Memo := []; cb_Outputs := reward; cb_KeyedByTxid := false |};
                    Transactions := txs; Authorizations := [] |} |}.

Definition deposit_point : OutPoint := {| Kind := KindDeposit; Source := h 9; Vout := 0 |}.
Definition reward_point : OutPoint := {| Kind := KindCoinbase; Source := h 1; Vout := 0 |}.

(** Genesis: a reward of 50 and a deposit of 100, both to address 1. *)
Definition genesis : chain_block :=
  {| ch_Hash := h 11; ch_Block := sample_block 1 None [pay 1 50] [];
     ch_Index := {| bi_Txs := []; bi_Deposits := [{| dep_OutPoint := deposit_point; dep_Output := pay 1 100 |}];
                    bi_BundleSpends := []; bi_MarketCreates := []; bi_MarketDeletes := [] |} |}.

(** Branch A spends the deposit, 60 to address 2 and 30 back, and a bundle takes
    the reward; a second transaction is skipped. *)
Definition spend_deposit : Transaction :=
  {| Inputs := [{| in_OutPoint := deposit_point; in_LeafHash := [] |}];
     Outputs := [pay 2 60; pay 1 30] |}.
Definition failed_trade : Transaction :=
  {| Inputs := [{| in_OutPoint := {| Kind := KindRegular; Source := h 77; Vout := 0 |}; in_LeafHash := [] |}];
     Outputs := [pay 2 5] |}.
Definition info (n : Z) (skipped : bool) : TxInfo :=
  {| ti_Txid := h n; ti_Size := 200; ti_Raw := [byte_of_Z n]; ti_Skipped := skipped |}.

Definition block_a : chain_block :=
  {| ch_Hash := h 12; ch_Block := sample_block 2 (Some 11) [] [spend_deposit; failed_trade];
     ch_Index := {| bi_Txs := [info 21 false; info 22 true]; bi_Deposits := [];
                    bi_BundleSpends := [{| bun_OutPoint := reward_point; bun_M6id := h 31 |}];
                    bi_MarketCreates := []; bi_MarketDeletes := [] |} |}.

(** Branch B pays two more rewards. *)
Definition reward_block (n merkle prev : Z) : chain_block :=
  {| ch_Hash := h n; ch_Block := sample_block merkle (Some prev) [pay 3 7] [];
     ch_Index := {| bi_Txs := []; bi_Deposits := []; bi_BundleSpends := [];
                    bi_MarketCreates := []; bi_MarketDeletes := [] |} |}.

Definition chain_a : list chain_block := [genesis; block_a].
Definition chain_b : list chain_block := [genesis; reward_block 13 3 11; reward_block 14 4 13].

(** ** A node that serves a chain and never changes *)

Definition no_heights (_ : string) : result (option Z) := Ok None.
Definition no_times (_ : BitcoinHash) : result Z := Err (Errorf "no time source").

Definition find_block (C : list chain_block) (hash : Hash) : option chain_block :=
  head (filter (λ c, ch_Hash c = hash) C).

Definition still_snapshot (C : list chain_block) : snapshot :=
  {| sn_node_up := Ok tt; sn_store_up := Ok tt;
     sn_count := Ok (Z.of_nat (length C));
     sn_hash := λ i, Ok (ch_Hash <$> C !! Z.to_nat i);
     sn_block := λ hash, Ok (ch_Block <$> find_block C hash);
     sn_index := λ hash, of_option (Errorf "unknown block") (ch_Index <$> find_block C hash);
     sn_mempool := Ok []; sn_submit := λ _, Err (Errorf "no broadcast"); sn_bundle := Ok (Some JNull);
     sn_failed_height := Ok None; sn_height := no_heights; sn_time := no_times; sn_ctx := None |}.

(** Others write to the database meanwhile. *)
Definition busy (writes : nat → db → db) (C : list chain_block) : world :=
  {| at_call := λ _, still_snapshot C; has_heights := false; has_times := false; others := writes |}.

Definition still : list chain_block → world := busy (λ _ d, d).

Lemma find_block_elem C c :
  NoDup (ch_Hash <$> C) → c ∈ C → find_block C (ch_Hash c) = Some c.
Proof.
  unfold find_block. induction C as [|x C IH]; [set_solver|].
  rewrite fmap_cons, NoDup_cons, filter_cons. intros [Hx Hnd] [->|Hc]%elem_of_cons.
  - by rewrite decide_True by done.
  - rewrite decide_False; [by apply IH|]. intros E. apply Hx. rewrite E. by apply list_elem_of_fmap_2.
Qed.

#[export] Instance still_pool_only C : PoolOnly (still C).
Proof. by apply alone_pool_only. Qed.

Lemma busy_serves writes C : NoDup (ch_Hash <$> C) → serves (busy writes C) C no_heights no_times.
Proof.
  intros Hnd. split; try done.
  - intros k i _. cbn. by rewrite Nat2Z.id.
  - intros k c Hc. cbn. by rewrite find_block_elem.
  - intros k c Hc. cbn. by rewrite find_block_elem.
Qed.

Lemma still_serves C : NoDup (ch_Hash <$> C) → serves (still C) C no_heights no_times.
Proof. apply busy_serves. Qed.

Definition rows (C : list chain_block) : list SBlock :=
  get [] (prepared_chain Thunder.Decoder (still C) C no_heights no_times).

Lemma rows_prepared C :
  is_Ok (prepared_chain Thunder.Decoder (still C) C no_heights no_times) →
  prepared_chain Thunder.Decoder (still C) C no_heights no_times = Ok (rows C).
Proof. apply get_ok. Qed.

(** A database that holds the rows of a chain. *)
Definition sample_db (bs : list SBlock) : db :=
  Db (built bs)
    (Some {| sy_chain := "thunder"; sy_network := Signet;
             sy_tip_height := fst <$> chain_tip bs; sy_tip_hash := snd <$> chain_tip bs |})
    empty_pool.

Lemma sample_holds bs : is_Some (build bs) → holds bs (sample_db bs).
Proof. intros H. split; [by apply built_history|]. by eexists. Qed.

Definition holding (C : list chain_block) : db := sample_db (rows C).

(** Decides a closed, decidable fact by evaluation. *)
Ltac evaluate := apply (bool_decide_unpack _); vm_compute; exact I.

Lemma chain_a_ok : is_Some (build (rows chain_a)).
Proof. evaluate. Qed.
Lemma chain_b_ok : is_Some (build (rows chain_b)).
Proof. evaluate. Qed.
Lemma rows_a_ok : prepared_chain Thunder.Decoder (still chain_a) chain_a no_heights no_times = Ok (rows chain_a).
Proof. apply rows_prepared. evaluate. Qed.
Lemma rows_b_ok : prepared_chain Thunder.Decoder (still chain_b) chain_b no_heights no_times = Ok (rows chain_b).
Proof. apply rows_prepared. evaluate. Qed.
Lemma hashes_a_distinct : NoDup (ch_Hash <$> chain_a).
Proof. evaluate. Qed.
Lemma hashes_b_distinct : NoDup (ch_Hash <$> chain_b).
Proof. evaluate. Qed.
