(* ===== verification/Service.v ===== *)
(** * The dependency supervisor

    [internal/service/service.go]. A method is a sequence of actions, each one
    atomic: an atomic load or swap, a section under a mutex, a call of the
    connector or of the closer. Goroutines interleave between actions. A
    connection is a value of type [T]; the ghost lists [opened] and [closed]
    record what the connector handed out and what the closer was given. *)

From S2P Require Import Prelude GoStd.
From stdpp Require Import relations.
Open Scope Z_scope.

Section service.
Context {T : Type}.

(** ** State *)

(** A [chan bool] of capacity one. *)
Record channel := { buffer : option bool; is_open : bool }.

Record service := Service {
  client : option T;          (* [None] is the zero value *)
  have : bool;
  connected : bool;
  chans : list channel;       (* every channel made so far *)
  subs : gset nat;
  opened : list T;
  closed : list T;
}.

(** [New]. *)
Definition New : service := Service None false false [] ∅ [] [].

Definition set_client (c : option T) (h : bool) (s : service) : service :=
  Service c h (connected s) (chans s) (subs s) (opened s) (closed s).
Definition set_connected (v : bool) (s : service) : service :=
  Service (client s) (have s) v (chans s) (subs s) (opened s) (closed s).
Definition set_chans (cs : list channel) (u : gset nat) (s : service) : service :=
  Service (client s) (have s) (connected s) cs u (opened s) (closed s).
Definition set_logs (o c : list T) (s : service) : service :=
  Service (client s) (have s) (connected s) (chans s) (subs s) o c.

(** The connection the service still has to release. *)
Definition current (s : service) : option T := if have s then client s else None.

(** ** Actions *)

Inductive action : Type → Type :=
  | Load : action bool                        (* s.connected.Load() *)
  | Swap (val : bool) : action bool           (* s.connected.Swap(val) *)
  | ReadClient : action (option T)            (* s.client under RLock *)
  | CallConnector : action (result T)         (* s.connector(ctx) *)
  | Install (c : T) : action (option T)       (* the section of Connect under Lock *)
  | TakeClient : action (option T)            (* the section of close under Lock *)
  | CallCloser (c : T) : action unit          (* s.closer(c) *)
  | Announce (val : bool) : action unit       (* the section of setConnected under subsMu *)
  | MakeChan (val : bool) : action nat        (* make(chan bool, 1); ch <- val *)
  | Subscribe (ch : nat) : action unit        (* s.subs[ch] = struct{}{} under subsMu *)
  | Unsubscribe (ch : nat) : action unit      (* delete and close under subsMu *)
  | SelectDone : action bool.                 (* which case of the select in Run *)

(** A run of actions, each one free to depend on the answers so far. *)
Inductive proc (A : Type) : Type :=
  | Ret (a : A)
  | Step {X : Type} (act : action X) (k : X → proc A).
Arguments Ret {A} a.
Arguments Step {A X} act k.

#[export] Instance proc_ret : MRet proc := λ A, Ret.
#[export] Instance proc_bind : MBind proc := λ A B f,
  fix go p := match p with Ret a => f a | Step act k => Step act (λ x, go (k x)) end.

Definition act {X} (a : action X) : proc X := Step a Ret.

(** ** The methods *)

Variables (has_connector has_closer : bool).

Definition setConnected (val : bool) : proc unit :=
  old ← act (Swap val);
  if Bool.eqb old val then mret tt else act (Announce val).

Definition release (old : option T) : proc unit :=
  match old with
  | Some c => if has_closer then act (CallCloser c) else mret tt
  | None => mret tt
  end.

Definition Connect : proc (result T) :=
  if has_connector then
    r ← act CallConnector;
    match r with
    | Err _ => _ ← setConnected false; mret (Err ErrUnavailable)
    | Ok c =>
        old ← act (Install c);
        _ ← release old;
        _ ← setConnected true;
        mret (Ok c)
    end
  else _ ← setConnected false; mret (Err ErrUnavailable).

(** [Ok None] is the zero client without an error. *)
Definition Get : proc (result (option T)) :=
  up ← act Load;
  if (up : bool) then c ← act ReadClient; mret (Ok c)
  else r ← Connect; mret (match r with Ok c => Ok (Some c) | Err e => Err e end).

Definition IsConnected : proc bool := act Load.

Definition Drop : proc unit := setConnected false.

Definition close : proc unit := old ← act TakeClient; release old.

(** One turn of the loop in [Run]; [false] when it returns. *)
Definition tick : proc bool :=
  done ← act SelectDone;
  if (done : bool) then _ ← close; mret false
  else
    up ← act Load;
    if (up : bool) then mret true else _ ← Connect; mret true.

Definition ConnectedChan : proc nat :=
  val ← act Load;
  ch ← act (MakeChan val);
  _ ← act (Subscribe ch);
  mret ch.

(** What the goroutine of [ConnectedChan] does when its context ends. *)
Definition watch (ch : nat) : proc unit := act (Unsubscribe ch).

(** ** What an action does *)

(** The non-blocking send of [setConnected]: a full buffer keeps its value. *)
Definition try_send (val : bool) (c : channel) : channel :=
  match buffer c with
  | Some _ => c
  | None => {| buffer := Some val; is_open := is_open c |}
  end.

Definition open_at (cs : list channel) (ch : nat) : Prop := is_open <$> cs !! ch = Some true.

#[export] Instance open_at_dec cs ch : Decision (open_at cs ch).
Proof. unfold open_at. apply _. Defined.

(** What the outside decides: the connector's answer, and whether the context of
    [Run] has ended. *)
Record env := Env { e_connector : result T; e_done : bool }.

(** [None] is a panic: a call of a nil connector or closer, a send on a closed
    channel, or a second close of one. *)
Definition perform (e : env) {X} (a : action X) (s : service) : option (X * service) :=
  match a in action X return option (X * service) with
  | Load => Some (connected s, s)
  | Swap val => Some (connected s, set_connected val s)
  | ReadClient => Some (client s, s)
  | CallConnector =>
      if has_connector then
        match e_connector e with
        | Ok c => Some (Ok c, set_logs (c :: opened s) (closed s) s)
        | Err err => Some (Err err, s)
        end
      else None
  | Install c => Some (current s, set_client (Some c) true s)
  | TakeClient => Some (current s, set_client (client s) false s)
  | CallCloser c => if has_closer then Some (tt, set_logs (opened s) (c :: closed s) s) else None
  | Announce val =>
      if decide (set_Forall (open_at (chans s)) (subs s)) then
        Some (tt, set_chans (imap (λ ch c, if decide (ch ∈ subs s) then try_send val c else c) (chans s)) (subs s) s)
      else None
  | MakeChan val =>
      Some (length (chans s), set_chans (chans s ++ [{| buffer := Some val; is_open := true |}]) (subs s) s)
  | Subscribe ch => Some (tt, set_chans (chans s) ({[ch]} ∪ subs s) s)
  | Unsubscribe ch =>
      if decide (ch ∈ subs s) then
        if decide (open_at (chans s) ch) then
          Some (tt, set_chans (alter (λ c, {| buffer := buffer c; is_open := false |}) ch (chans s))
                      (subs s ∖ {[ch]}) s)
        else None
      else Some (tt, s)
  | SelectDone => Some (e_done e, s)
  end.

(** ** Goroutines *)

Inductive outcome :=
  | Client (r : result (option T))
  | Done
  | Again                      (* the loop of Run goes round *)
  | Channel (ch : nat).

Inductive task := GetTask | ConnectTask | DropTask | RunTask | ChanTask.

Definition start (t : task) : proc outcome :=
  match t with
  | GetTask => r ← Get; mret (Client r)
  | ConnectTask => r ← Connect; mret (Client (match r with Ok c => Ok (Some c) | Err e => Err e end))
  | DropTask => _ ← Drop; mret Done
  | RunTask => again ← tick; mret (if again : bool then Again else Done)
  | ChanTask => ch ← ConnectedChan; mret (Channel ch)
  end.

Record system := System { svc : service; pool : list (proc outcome) }.

(** The connector opens a connection: it hands out none twice. *)
Definition new_connection (e : env) (s : service) : Prop := ∀ c, e_connector e = Ok c → c ∉ opened s.

Definition drain (c : channel) : channel := {| buffer := None; is_open := is_open c |}.

(** Goroutine [i] takes its next action. *)
Inductive acts (i : nat) : system → system → Prop :=
  | acts_act e s s' ps (X : Type) (a : action X) k x :
      ps !! i = Some (Step a k) → new_connection e s → perform e a s = Some (x, s') →
      acts i (System s ps) (System s' (<[i := k x]> ps)).

Inductive step : system → system → Prop :=
  | step_go t s ps :
      step (System s ps) (System s (ps ++ [start t]))
  | step_act i s s' : acts i s s' → step s s'
  | step_again i s ps :
      ps !! i = Some (Ret Again) →
      step (System s ps) (System s (<[i := start RunTask]> ps))
  | step_ctx i ch s ps :
      ps !! i = Some (Ret (Channel ch)) →
      step (System s ps) (System s (<[i := (_ ← watch ch; mret Done)]> ps))
  | step_receive ch s ps :
      step (System s ps) (System (set_chans (alter drain ch (chans s)) (subs s) s) ps).

Definition init : system := System New [].

Definition reachable (s : system) : Prop := rtc step init s.

(** A step that leaves a connection the service holds with it, so no [close]
    takes it out. *)
Definition keeping (s s' : system) : Prop := step s s' ∧ (have (svc s) = true → have (svc s') = true).

(** Nothing runs: every goroutine has returned. *)
Definition quiet (s : system) : Prop := ∀ i p, pool s !! i = Some p → ∃ o, p = Ret o.

(** ** Running one method alone *)

Fixpoint alone {A} (e : env) (p : proc A) (s : service) : option (A * service) :=
  match p with
  | Ret a => Some (a, s)
  | Step a k => '(x, s') ← perform e a s; alone e (k x) s'
  end.
End service.

Arguments service : clear implicits.
Arguments system : clear implicits.
Arguments action : clear implicits.
Arguments proc : clear implicits.
Arguments env : clear implicits.
Arguments outcome : clear implicits.
Arguments Ret {T A} a.
Arguments Step {T A X} act k.
