(* ===== verification/ServiceSpec.v ===== *)
(** * Who owns a connection

    A small program logic for [Service]. A goroutine owns connections it has
    opened or taken out of the service and still has to install or close, and
    channels it has made and still has to close. [owns] says that a run of
    actions handles what it owns linearly; a step of any goroutine keeps the
    global account. A service without a closer lets go of what it replaces, so
    its goroutines may end with connections of their own. *)

From S2P Require Import Prelude GoStd Service.
From stdpp Require Import relations.
Open Scope Z_scope.

Section spec.
Context {T : Type} (has_connector has_closer : bool).
Implicit Types (held : list T) (mine : list nat) (known : bool) (s : service T).

(** What a continuation must satisfy: the answer, what is owned, and whether the
    client is known to be set, which stays true once it is. *)
Notation assertion A := (A → list T → list nat → bool → Prop).

Definition spec {X} (a : action T X) (post : assertion X) held mine known : Prop :=
  match a in action _ X return assertion X → Prop with
  | Load => λ post, ∀ up : bool, post up held mine (known || up)
  | Swap val => λ post, (val = true → known = true) ∧ ∀ old, post old held mine known
  | ReadClient => λ post, ∀ c, (known = true → is_Some c) → post c held mine known
  | CallConnector => λ post,
      has_connector = true ∧ (∀ c, post (Ok c) (c :: held) mine known) ∧ ∀ e, post (Err e) held mine known
  | Install c => λ post, ∃ rest, held ≡ₚ c :: rest ∧
      post None rest mine true ∧ ∀ old, post (Some old) (old :: rest) mine true
  | TakeClient => λ post, post None held mine known ∧ ∀ old, post (Some old) (old :: held) mine known
  | CallCloser c => λ post, has_closer = true ∧ ∃ rest, held ≡ₚ c :: rest ∧ post tt rest mine known
  | Announce _ => λ post, post tt held mine known
  | MakeChan _ => λ post, ∀ ch, post ch held (ch :: mine) known
  | Subscribe ch => λ post, ch ∈ mine ∧ post tt held mine known
  | Unsubscribe ch => λ post, ∃ rest, mine ≡ₚ ch :: rest ∧ post tt held rest known
  | SelectDone => λ post, ∀ d, post d held mine known
  end post.

Fixpoint owns {A} (Q : assertion A) (p : proc T A) : list T → list nat → bool → Prop :=
  match p with
  | Ret a => Q a
  | Step a k => spec a (λ x, owns Q (k x))
  end.

(** ** Rules *)

Lemma spec_impl {X} (a : action T X) (P Q : assertion X) held mine known :
  (∀ x h m n, P x h m n → Q x h m n) → spec a P held mine known → spec a Q held mine known.
Proof. intros H. destruct a; cbn; firstorder. Qed.

Lemma owns_bind {A B} (Q : assertion B) (p : proc T A) (f : A → proc T B) held mine known :
  owns (λ a, owns Q (f a)) p held mine known → owns Q (p ≫= f) held mine known.
Proof.
  revert held mine known. induction p as [a|X a k IH]; intros held mine known; [done|].
  cbn. apply spec_impl. intros x h m n. apply IH.
Qed.

Lemma owns_impl {A} (P Q : assertion A) (p : proc T A) held mine known :
  (∀ x h m n, P x h m n → Q x h m n) → owns P p held mine known → owns Q p held mine known.
Proof.
  intros H. revert held mine known. induction p as [a|X a k IH]; intros held mine known; [apply H|].
  cbn. apply spec_impl. intros x h m n. apply IH.
Qed.

(** Knowledge another goroutine established only helps. *)
Definition stable {A} (Q : assertion A) : Prop := ∀ x h m n, Q x h m n → Q x h m true.

Lemma spec_stable {X} (a : action T X) (Q : assertion X) held mine known :
  stable Q → spec a Q held mine known → spec a Q held mine true.
Proof.
  intros HQ. destruct known; [done|]. destruct a; cbn; intros H.
  - intros up. by apply HQ with (n := up).
  - naive_solver.
  - intros c Hc. apply HQ with (n := false), H. done.
  - naive_solver.
  - done.
  - naive_solver.
  - destruct H as (? & rest & ? & ?). naive_solver.
  - naive_solver.
  - naive_solver.
  - naive_solver.
  - destruct H as (rest & ? & ?). naive_solver.
  - naive_solver.
Qed.

Lemma owns_stable {A} (Q : assertion A) (p : proc T A) held mine known :
  stable Q → owns Q p held mine known → owns Q p held mine true.
Proof.
  intros HQ. revert held mine known. induction p as [a|X a k IH]; intros held mine known; [apply HQ|].
  cbn. apply spec_stable. intros x h m n. apply IH.
Qed.

(** ** The methods *)

Lemma owns_setConnected val held mine known (Q : assertion unit) :
  (val = true → known = true) → Q tt held mine known → owns Q (setConnected val) held mine known.
Proof.
  intros Hv HQ. unfold setConnected. apply owns_bind. cbn. split; [done|]. intros old.
  by destruct (Bool.eqb old val).
Qed.

(** What a goroutine may be left with: nothing, unless there is no closer. *)
Definition spare held : Prop := has_closer = true → held = [].

Lemma owns_release (old : option T) held mine known (Q : assertion unit) :
  spare held → (∀ h, spare h → Q tt h mine known) →
  owns Q (release has_closer old) (match old with Some c => c :: held | None => held end) mine known.
Proof.
  unfold spare. intros Hs HQ. destruct old as [c|]; cbn; [|by apply HQ].
  destruct has_closer eqn:E; cbn; [|by apply HQ].
  split; [done|]. exists held. split; [done|]. by apply HQ.
Qed.

(** A connection the connector opened ends up in the service. *)
Lemma owns_Connect held mine known (Q : assertion (result T)) :
  spare held → (∀ e h, spare h → Q (Err e) h mine known) → (∀ c h, spare h → Q (Ok c) h mine true) →
  owns Q (Connect has_connector has_closer) held mine known.
Proof.
  intros Hs He Hc. unfold Connect. destruct has_connector eqn:E.
  2:{ apply owns_bind, owns_setConnected; [done|]. by apply He. }
  apply owns_bind. split; [done|]. split.
  - intros c. exists held. split; [done|].
    assert (∀ h, spare h → owns Q (setConnected true ≫= λ _, mret (Ok c)) h mine true) as Hup
      by (intros h Hh; apply owns_bind, owns_setConnected; [done|by apply Hc]).
    split; [|intros old]; apply owns_bind; [apply (owns_release None)|apply (owns_release (Some old))]; auto.
  - intros e. apply owns_bind, owns_setConnected; [done|]. by apply He.
Qed.

Lemma owns_close held mine known (Q : assertion unit) :
  spare held → (∀ h, spare h → Q tt h mine known) → owns Q (close has_closer) held mine known.
Proof.
  intros Hs HQ. unfold close. apply owns_bind.
  split; [by apply (owns_release None)|]. intros old. by apply (owns_release (Some old)).
Qed.

(** What a goroutine owns when it has returned. A [Get] that succeeds answers a
    connection and not the zero value. *)
Definition at_end : assertion (outcome T) := λ o held mine known,
  spare held ∧
  match o with
  | Client (Ok c) => mine = [] ∧ is_Some c ∧ known = true
  | Channel ch => mine = [ch]
  | _ => mine = []
  end.

Lemma at_end_stable : stable at_end.
Proof. intros [[c|]| | |] h m n; unfold at_end; naive_solver. Qed.

Lemma owns_start t held known : spare held → owns at_end (start has_connector has_closer t) held [] known.
Proof.
  intros Hs. destruct t; unfold start; apply owns_bind.
  - unfold Get. apply owns_bind. cbn. intros [].
    + cbn. rewrite orb_true_r. intros c Hc. split; [done|]. split; [done|]. split; [by apply Hc|done].
    + apply owns_bind, owns_Connect; [done|by intros e|by intros c].
  - apply owns_Connect; [done|by intros e|by intros c].
  - apply owns_setConnected; done.
  - unfold tick. apply owns_bind. intros d. destruct d.
    + by apply owns_bind, owns_close.
    + apply owns_bind. intros up. destruct up; [done|]. by apply owns_bind, owns_Connect.
  - intros val ch. split; [by left|done].
Qed.
(** ** The account *)

Definition is_set s : bool := if client s then true else false.

Lemma is_set_true s : is_set s = true ↔ is_Some (client s).
Proof. unfold is_set. by destruct (client s). Qed.

(** [H] and [C] are what all goroutines own together. *)
Record account s (H : list T) (C : list nat) : Prop := {
  ac_opened : opened s ≡ₚ closed s ++ option_list (current s) ++ H;
  ac_once : NoDup (opened s);
  ac_up : connected s = true → is_set s = true;
  ac_have : have s = true → is_set s = true;
  ac_mine : NoDup C;
  ac_open : ∀ ch, ch ∈ C → open_at (chans s) ch;
  ac_subs : ∀ ch, ch ∈ subs s → ch ∈ C;
  ac_set : is_set s = true → opened s ≠ [];
  ac_closer : has_closer = false → closed s = [];
}.

#[export] Instance account_proper s : Proper ((≡ₚ) ==> (≡ₚ) ==> iff) (account s).
Proof.
  intros H1 H2 HH C1 C2 HC. split; intros []; split; try done.
  - by rewrite <- HH.
  - by rewrite <- HC.
  - intros ch. rewrite <- HC. eauto.
  - intros ch. rewrite <- HC. eauto.
  - by rewrite HH.
  - by rewrite HC.
  - intros ch. rewrite HC. eauto.
  - intros ch. rewrite HC. eauto.
Qed.

Lemma account_new : account New [] [].
Proof. split; try done; [constructor|constructor|set_solver..]. Qed.

Lemma open_at_imap (f : nat → channel → channel) cs ch :
  (∀ i c, is_open (f i c) = is_open c) → open_at (imap f cs) ch ↔ open_at cs ch.
Proof.
  intros Hf. unfold open_at. rewrite list_lookup_imap. destruct (cs !! ch) as [c|]; cbn; [|done].
  by rewrite Hf.
Qed.

Lemma open_at_alter (f : channel → channel) cs i ch :
  (∀ c, is_open (f c) = is_open c) → open_at (alter f i cs) ch ↔ open_at cs ch.
Proof.
  intros Hf. unfold open_at. destruct (decide (i = ch)) as [->|Hne].
  - rewrite list_lookup_alter_eq. destruct (cs !! ch); cbn; [by rewrite Hf|done].
  - by rewrite list_lookup_alter_ne.
Qed.

Lemma open_at_lt cs ch : open_at cs ch → (ch < length cs)%nat.
Proof. unfold open_at. intros (c & Hc & _)%fmap_Some. by apply lookup_lt_Some in Hc. Qed.

(** What the actions with a longer effect do to the account. *)
Lemma account_opened s c H C :
  account s H C → c ∉ opened s → account (set_logs (c :: opened s) (closed s) s) (c :: H) C.
Proof.
  intros [A1 A2 A3 A4 A5 A6 A7 A8 A9] Hc. split; try done; cbn [opened closed set_logs].
  - change (current (set_logs (c :: opened s) (closed s) s)) with (current s).
    rewrite A1. cbn. by rewrite <- !Permutation_middle.
  - by constructor.
Qed.

Lemma held_opened s c H C : account s (c :: H) C → opened s ≠ [].
Proof.
  intros A Ho. pose proof (ac_opened _ _ _ A) as E. rewrite Ho in E. apply Permutation_nil in E.
  by destruct (closed s), (option_list (current s)).
Qed.

Lemma account_closed s c H C :
  has_closer = true → account s (c :: H) C → account (set_logs (opened s) (c :: closed s) s) H C.
Proof.
  intros Hcl [A1 A2 A3 A4 A5 A6 A7 A8 A9]. split; try done; cbn; [|by rewrite Hcl].
  change (current (set_logs (opened s) (c :: closed s) s)) with (current s).
  rewrite A1. cbn. rewrite (app_assoc (closed s)), <- Permutation_middle. by rewrite <- app_assoc.
Qed.

Lemma account_made s val H C :
  account s H C →
  account (set_chans (chans s ++ [{| buffer := Some val; is_open := true |}]) (subs s) s) H (length (chans s) :: C).
Proof.
  intros [A1 A2 A3 A4 A5 A6 A7 A8 A9]. split; try done; cbn.
  - constructor; [|done]. intros Hin. apply A6, open_at_lt in Hin. lia.
  - unfold open_at in *. intros ch [->|Hc]%elem_of_cons.
    + by rewrite lookup_app_r, Nat.sub_diag by done.
    + rewrite lookup_app_l by (by apply open_at_lt, A6). by apply A6.
  - intros ch Hc%A7. by right.
Qed.

Lemma account_unsubscribed e s ch u s' H C :
  account s H (ch :: C) → perform has_connector has_closer e (Unsubscribe ch) s = Some (u, s') → account s' H C ∧ is_set s' = is_set s.
Proof.
  intros [A1 A2 A3 A4 A5 A6 A7 A8 A9] Hp. cbn in Hp. apply NoDup_cons in A5 as [Hch Hnd].
  destruct (decide (ch ∈ subs s)).
  - destruct (decide (open_at (chans s) ch)); [|done]. injection Hp as _ <-. split; [|done]. split; try done; cbn.
    + intros j Hj. assert (j ≠ ch) by (by intros ->). unfold open_at.
      rewrite list_lookup_alter_ne by done. apply A6. by right.
    + intros j [Hj Hne]%elem_of_difference. apply A7 in Hj. set_solver.
  - injection Hp as _ <-. split; [|done]. split; try done; cbn.
    + intros j Hj. apply A6. by right.
    + intros j Hj. pose proof (A7 j Hj) as Hin. set_solver.
Qed.

(** One action keeps the account and brings the goroutine where its [spec]
    says. *)
Lemma perform_account {X} e (a : action T X) (post : assertion X) s s' x held mine H C :
  account s (held ++ H) (mine ++ C) → spec a post held mine (is_set s) → new_connection e s →
  perform has_connector has_closer e a s = Some (x, s') →
  (∃ held' mine', post x held' mine' (is_set s') ∧ account s' (held' ++ H) (mine' ++ C)) ∧
  (is_set s = true → is_set s' = true).
Proof.
  intros A Hs Hf Hp. pose proof A as [A1 A2 A3 A4 A5 A6 A7 A8 A9].
  destruct a; cbn in Hs, Hp.
  - (* Load *) injection Hp as <- <-. split; [|done]. exists held, mine. split; [|done].
    specialize (Hs (connected s)). destruct (connected s); [|by rewrite orb_false_r in Hs].
    rewrite orb_true_r in Hs. by rewrite (A3 eq_refl).
  - (* Swap *) injection Hp as <- <-. destruct Hs as [Hv Hs]. split; [|done]. exists held, mine.
    split; [apply Hs|]. by split.
  - (* ReadClient *) injection Hp as <- <-. split; [|done]. exists held, mine. split; [|done].
    apply Hs. apply is_set_true.
  - (* CallConnector *) destruct Hs as (Hco & Ho & He). rewrite Hco in Hp. destruct (e_connector e) as [c|err] eqn:E; injection Hp as <- <-.
    + split; [|done]. exists (c :: held), mine. split; [apply Ho|]. apply account_opened; [done|by apply Hf].
    + split; [|done]. by exists held, mine.
  - (* Install *) injection Hp as <- <-. destruct Hs as (rest & Hr & H1 & H2). split; [|done].
    assert (opened s ≠ []) as Hne by (rewrite Hr in A; by eapply held_opened).
    destruct (current s) as [old|] eqn:Ec.
    + exists (old :: rest), mine. split; [apply H2|]. split; try done; cbn.
      rewrite A1, Hr. cbn. by rewrite Permutation_swap.
    + exists rest, mine. split; [apply H1|]. split; try done; cbn. by rewrite A1, Hr.
  - (* TakeClient *) injection Hp as <- <-. destruct Hs as [H1 H2]. split; [|done].
    destruct (current s) as [old|] eqn:Ec.
    + exists (old :: held), mine. split; [apply H2|]. split; try done.
    + exists held, mine. split; [apply H1|]. split; try done.
  - (* CallCloser *) destruct Hs as (Hcl & rest & Hr & Hs). rewrite Hcl in Hp. injection Hp as <- <-. split; [|done].
    exists rest, mine. split; [apply Hs|]. apply account_closed; [done|]. by rewrite Hr in A.
  - (* Announce *) destruct (decide _); [|done]. injection Hp as <- <-. split; [|done].
    exists held, mine. split; [done|]. split; try done; cbn.
    intros ch Hc. apply open_at_imap; [|by apply A6]. intros i c. case_decide; [|done].
    unfold try_send. by destruct (buffer c).
  - (* MakeChan *) injection Hp as <- <-. split; [|done].
    exists held, (length (chans s) :: mine). split; [done|]. by apply account_made.
  - (* Subscribe *) injection Hp as <- <-. destruct Hs as [Hc Hs]. split; [|done].
    exists held, mine. split; [done|]. split; try done; cbn.
    intros j [->%elem_of_singleton|Hj]%elem_of_union; [|by apply A7]. apply elem_of_app. by left.
  - (* Unsubscribe *) destruct Hs as (rest & Hr & Hs). destruct x. rewrite Hr in A.
    destruct (account_unsubscribed e s ch tt s' _ _ A Hp) as [A' E']. rewrite E'. split; [|done]. by exists held, rest.
  - (* SelectDone *) injection Hp as <- <-. split; [|done]. by exists held, mine.
Qed.

(** No action panics. *)
Lemma perform_progress {X} e (a : action T X) (post : assertion X) s held mine known H C :
  account s (held ++ H) (mine ++ C) → spec a post held mine known → is_Some (perform has_connector has_closer e a s).
Proof.
  intros [A1 A2 A3 A4 A5 A6 A7 A8 A9] Hs. destruct a; cbn in *; try by eexists.
  - destruct Hs as (-> & _). destruct (e_connector e); by eexists.
  - destruct Hs as (-> & _). by eexists.
  - rewrite decide_True; [by eexists|]. intros ch Hc. by apply A6, A7.
  - destruct (decide (ch ∈ subs s)) as [Hin|]; [|by eexists].
    rewrite decide_True; [by eexists|]. by apply A6, A7.
Qed.
(** ** The pool *)

(** The share of each goroutine. *)
Definition shares (s : system T) (res : list (list T * list nat)) : Prop :=
  Forall2 (λ p r, owns at_end p r.1 r.2 (is_set (svc s))) (pool s) res ∧
  account (svc s) (concat res.*1) (concat res.*2).

Lemma concat_split {A B} (f : A → list B) (res : list A) i r :
  res !! i = Some r → ∃ rest, concat (f <$> res) ≡ₚ f r ++ rest ∧
    ∀ r', concat (f <$> <[i := r']> res) ≡ₚ f r' ++ rest.
Proof.
  intros Hi. exists (concat (f <$> take i res) ++ concat (f <$> drop (Datatypes.S i) res)).
  assert (∀ r', concat (f <$> (take i res ++ r' :: drop (Datatypes.S i) res)) ≡ₚ
    f r' ++ concat (f <$> take i res) ++ concat (f <$> drop (Datatypes.S i) res)) as Hc.
  { intros r'. rewrite fmap_app, concat_app. cbn. rewrite !app_assoc.
    by rewrite (Permutation_app_comm (concat _) (f r')). }
  split.
  - rewrite <- Hc. by rewrite take_drop_middle.
  - intros r'. rewrite <- Hc, insert_take_drop; [done|]. by apply lookup_lt_Some in Hi.
Qed.

(** One goroutine moves from [r] to a share that its part of the account allows. *)
Lemma shares_update s ps i p r svc' p' res :
  shares (System s ps) res → ps !! i = Some p → res !! i = Some r →
  (∀ H C, account s (r.1 ++ H) (r.2 ++ C) →
    (∃ held mine, owns at_end p' held mine (is_set svc') ∧ account svc' (held ++ H) (mine ++ C)) ∧
    (is_set s = true → is_set svc' = true)) →
  ∃ res', shares (System svc' (<[i := p']> ps)) res'.
Proof.
  intros [Hps A] Hp Hr HA. cbn in Hps, A.
  destruct (concat_split fst res i r Hr) as (H & EH & EH'), (concat_split snd res i r Hr) as (C & EC & EC').
  rewrite EH, EC in A. destruct (HA H C A) as [(held & mine & Ho & A') Hset].
  exists (<[i := (held, mine)]> res). split; cbn.
  - apply Forall2_insert; [|done]. eapply Forall2_impl; [exact Hps|]. intros q x Hq.
    destruct (is_set svc') eqn:E; [by apply (owns_stable _ _ _ _ _ at_end_stable Hq)|].
    destruct (is_set s); [by specialize (Hset eq_refl)|done].
  - by rewrite EH', EC'.
Qed.

Lemma shares_owns (s : system T) i p res :
  shares s res → pool s !! i = Some p →
  ∃ r, res !! i = Some r ∧ owns at_end p r.1 r.2 (is_set (svc s)).
Proof.
  intros [Hps _] Hp. destruct (Forall2_lookup_l _ _ _ _ _ Hps Hp) as (r & Hr & Ho). by exists r.
Qed.

Lemma step_shares (s s' : system T) res :
  step has_connector has_closer s s' → shares s res → ∃ res', shares s' res'.
Proof.
  intros Hstep Hs. destruct Hstep as
    [t s ps|i s s' Ha|i s ps Hp|i ch s ps Hp|ch s ps].
  - destruct Hs as [Hps A]. exists (res ++ [([], [])]). split; cbn.
    + apply Forall2_app; [done|]. constructor; [|done]. by apply owns_start.
    + by rewrite !fmap_app, !concat_app, !app_nil_r.
  - destruct Ha as [e s s' ps X a k x Hp Hf Hx]. destruct (shares_owns _ i _ res Hs Hp) as (r & Hr & Ho).
    eapply (shares_update _ _ _ _ r); [done..|]. intros H C A.
    by apply (perform_account e a _ _ _ _ _ _ H C A Ho Hf Hx).
  - destruct (shares_owns _ i _ res Hs Hp) as ([held mine] & Hr & Ho).
    destruct Ho as [Eh Em]. cbn in Eh, Em. subst.
    eapply (shares_update _ _ _ _ (held, [])); [done..|]. intros H C A. split; [|done].
    exists held, []. split; [|done]. by apply owns_start.
  - destruct (shares_owns _ i _ res Hs Hp) as ([held mine] & Hr & Ho).
    destruct Ho as [Eh Em]. cbn in Eh, Em. subst.
    eapply (shares_update _ _ _ _ (held, [ch])); [done..|]. intros H C A. split; [|done].
    exists held, [ch]. split; [|done]. cbn. by exists [].
  - exists res. destruct Hs as [Hps [A1 A2 A3 A4 A5 A6 A7 A8 A9]]. split; [done|]. split; try done; cbn.
    intros j Hj. apply open_at_alter; [done|]. by apply A6.
Qed.

(** A [Get] that has returned a connection: one was opened. *)
Lemma shares_got (s : system T) res i c :
  shares s res → pool s !! i = Some (Ret (Client (Ok c))) → opened (svc s) ≠ [].
Proof.
  intros Hs Hp. destruct (shares_owns s i _ res Hs Hp) as (r & _ & _ & _ & _ & Hk).
  destruct Hs as [_ A]. by apply (ac_set _ _ _ A).
Qed.

Lemma reachable_shares (s : system T) :
  reachable has_connector has_closer s → ∃ res, shares s res.
Proof.
  intros Hr. assert (∃ res, shares (init : system T) res) as Hi
    by (exists []; split; [constructor|apply account_new]).
  induction Hr as [s|s1 s2 s3 Hstep _ IH]; [done|]. apply IH.
  destruct Hi as [res Hres]. by eapply step_shares.
Qed.
End spec.
