(* ===== verification/ServiceProps.v ===== *)
(** * The contract of the supervisor

    What holds of [Service] under every interleaving of any number of callers,
    what one method does on its own, and where a subscriber is left with a
    value that is no longer true. *)

From S2P Require Import Prelude GoStd Service ServiceSpec.
From stdpp Require Import relations.
Open Scope Z_scope.

Section props.
Context {T : Type}.
Implicit Types (s : service T) (e : env T).

(** ** Every interleaving *)




(** C36: Whatever methods run at once, with a connector, a closer, both or neither:
    no nil connector or closer is called, no send reaches a closed channel and no
    channel is closed twice, so no action panics; and a [Get] that succeeds answers a
    connection, never the zero value. *)
Theorem no_panic_no_zero has_connector has_closer (s : system T) :
  reachable has_connector has_closer s →
  (∀ i X (a : action T X) k e, pool s !! i = Some (Step a k) →
     is_Some (perform has_connector has_closer e a (svc s))) ∧
  (∀ i c, pool s !! i = Some (Ret (Client (Ok c))) → is_Some c).
Proof.
  intros (res & Hs)%reachable_shares. split.
  - intros i X a k e Hp. destruct (shares_owns _ _ s i _ res Hs Hp) as (r & Hr & Ho).
    destruct Hs as [_ A]. destruct (concat_split fst res i r Hr) as (H & EH & _).
    destruct (concat_split snd res i r Hr) as (C & EC & _). rewrite EH, EC in A.
    by apply (perform_progress _ _ e a _ _ _ _ _ H C A Ho).
  - intros i c Hp. by destruct (shares_owns _ _ s i _ res Hs Hp) as (r & _ & _ & _ & ? & _).
Qed.

(** ** One method alone *)

(** The state after a change of the connection has been told. *)
Definition told (val : bool) s : service T :=
  if Bool.eqb (connected s) val then s
  else set_chans (imap (λ ch c, if decide (ch ∈ subs s) then try_send val c else c) (chans s)) (subs s)
         (set_connected val s).

Definition all_open s : Prop := set_Forall (open_at (chans s)) (subs s).

Section alone.
Variables (has_connector has_closer : bool).
#[local] Notation alone := (alone has_connector has_closer).
#[local] Notation perform := (perform has_connector has_closer).

Lemma alone_bind {A B} e (p : proc T A) (f : A → proc T B) s :
  alone e (p ≫= f) s = '(x, s') ← alone e p s; alone e (f x) s'.
Proof.
  revert s. induction p as [a|X a k IH]; intros s; [done|]. cbn.
  destruct (perform e a s) as [[x s']|]; [|done]. apply IH.
Qed.

Lemma alone_setConnected e val s :
  all_open s → alone e (setConnected val) s = Some (tt, told val s).
Proof.
  intros Ho. unfold told. cbn. destruct (Bool.eqb_spec (connected s) val) as [<-|Hne]; cbn.
  - by destruct s.
  - by rewrite decide_True.
Qed.

Lemma alone_act e {X} (a : action T X) s : alone e (act a) s = perform e a s.
Proof. cbn. by destruct (perform e a s) as [[x s']|]. Qed.

(** What a release leaves behind: the closer has seen the connection, if there is
    one. *)
Definition released (old : option T) s : service T :=
  if has_closer then set_logs (opened s) (option_list old ++ closed s) s else s.

Lemma alone_release e old s : alone e (release has_closer old) s = Some (tt, released old s).
Proof. unfold released. destruct old, s; cbn; by destruct has_closer. Qed.
End alone.

(** [Connect] on its own: a failed connector marks the service down and keeps
    what it held; a new connection replaces the old one, which is closed, and
    marks the service up. Either change is told to the subscribers. *)
Theorem Connect_alone e s :
  all_open s →
  alone true true e (Connect true true) s =
  match e_connector e with
  | Err _ => Some (Err ErrUnavailable, told false s)
  | Ok c =>
      Some (Ok c, told true (Service (Some c) true (connected s) (chans s) (subs s) (c :: opened s)
                               (option_list (current s) ++ closed s)))
  end.
Proof.
  intros Ho. unfold Connect. rewrite alone_bind, alone_act. cbn [perform].
  destruct (e_connector e) as [c|err]; cbn [mbind option_bind].
  - rewrite alone_bind, alone_act. cbn [perform mbind option_bind].
    rewrite alone_bind, alone_release. cbn [mbind option_bind].
    by rewrite alone_bind, alone_setConnected.
  - by rewrite alone_bind, alone_setConnected.
Qed.

(** [close] keeps the mark that the service is up. A [Get] after it answers
    the connection that was closed, without an error and without a new one. *)
Theorem Get_after_close e s c :
  connected s = true → current s = Some c →
  ∃ s', alone true true e (close true) s = Some (tt, s') ∧ c ∈ closed s' ∧
    ∀ e', alone true true e' (Get true true) s' = Some (Ok (Some c), s').
Proof.
  intros Hup Hc. assert (client s = Some c) as Hcl by (unfold current in Hc; by destruct (have s)).
  unfold close. rewrite alone_bind, alone_act. cbn [perform mbind option_bind].
  rewrite alone_release, Hc, Hcl. eexists. split; [done|]. split; [by left|].
  intros e'. unfold Get. rewrite alone_bind, alone_act. cbn. by rewrite Hup.
Qed.

(** ** Subscribers *)

(** A change is told to a subscriber that has read what it was sent. One that
    has not keeps the value of before: reading it leaves nothing to read, and
    the subscriber takes the service for what it no longer is, until the next
    change. *)
Theorem change_told e val s ch old :
  all_open s → connected s ≠ val → ch ∈ subs s →
  buffer <$> chans s !! ch = Some old →
  ∃ s', alone true true e (setConnected val) s = Some (tt, s') ∧ connected s' = val ∧
    buffer <$> chans s' !! ch = Some (match old with None => Some val | Some v => Some v end) ∧
    buffer <$> alter drain ch (chans s') !! ch = Some None.
Proof.
  intros Ho Hne Hch Hb. rewrite alone_setConnected by done. eexists. split; [done|].
  unfold told. destruct (Bool.eqb_spec (connected s) val); [done|]. cbn. split; [done|].
  rewrite list_lookup_alter_eq, list_lookup_imap.
  destruct (chans s !! ch) as [c|]; [|done]. cbn in *. rewrite decide_True by done.
  injection Hb as <-. split; [|done]. unfold try_send. by destruct (buffer c) eqn:E; cbn; rewrite ?E.
Qed.

(** ** The loop reconnects *)

Section reconnect.
Variable has_closer : bool.
#[local] Notation alone := (alone true has_closer).
#[local] Notation perform := (perform true has_closer).

(** A goroutine may take its next steps with no other in between. *)
Lemma alone_rtc {X} (p : proc T X) (k : X → proc T (outcome T)) e err s s' x ps i :
  e_connector e = Err err → (i < length ps)%nat → alone e p s = Some (x, s') →
  rtc (acts true has_closer i) (System s (<[i := p ≫= k]> ps)) (System s' (<[i := k x]> ps)).
Proof.
  intros He Hi. revert s. induction p as [b|Y a q IH]; intros s Ha; cbn in Ha; [by injection Ha as <- <-|].
  destruct (perform e a s) as [[y s1]|] eqn:E; [|done]. eapply rtc_l; [|by apply (IH y s1)].
  rewrite <- (list_insert_insert_eq ps i (q y ≫= k) (Step a q ≫= k)).
  apply (acts_act _ _ i e s s1 _ Y a (λ y, q y ≫= k) y); [by apply list_lookup_insert_eq| |exact E]. intros c Hc. by rewrite He in Hc.
Qed.

Definition calm_env : env T := Env (Err ErrUnavailable) false.

(** What the loop does after a turn. *)
Definition round (again : bool) : proc T (outcome T) := mret (if again then Again else Done).

Lemma rtc_tick s ps i :
  ps !! i = Some (start true has_closer RunTask) →
  rtc (acts true has_closer i) (System s ps) (System s (<[i :=
    if connected s then Ret Again
    else (Connect true has_closer ≫= λ _, mret true) ≫= round]> ps)).
Proof.
  intros Hp. pose proof (lookup_lt_Some _ _ _ Hp) as Hi. rewrite <- (list_insert_id ps i _ Hp) at 1.
  set (k2 := λ up : bool, (if up then mret true else _ ← Connect true has_closer; mret true) ≫= round).
  set (k1 := λ d : bool, (if d then _ ← close has_closer; mret false else act Load ≫= λ up : bool,
    if up then mret true else _ ← Connect true has_closer; mret true) ≫= round).
  etransitivity; [by apply (alone_rtc (act SelectDone) k1 calm_env ErrUnavailable s s false)|].
  etransitivity; [by apply (alone_rtc (act Load) k2 calm_env ErrUnavailable s s (connected s))|].
  unfold k2. by destruct (connected s).
Qed.

Lemma told_fields val s :
  connected (told val s) = val ∧ current (told val s) = current s.
Proof. unfold told. by destruct (Bool.eqb_spec (connected s) val). Qed.

(** C24: From every state the program can reach, however its goroutines stand, the
    loop of [Run] can bring the connection up by itself as soon as the connector
    answers: with its own actions alone, and no other goroutine taking a step, one
    turn later the service is up, on the new connection if it was down, and the loop
    goes on. *)
Theorem Run_reconnects (s : system T) i c :
  reachable true has_closer s → pool s !! i = Some (start true has_closer RunTask) → c ∉ opened (svc s) →
  ∃ s' : system T, rtc (acts true has_closer i) s s' ∧ connected (svc s') = true ∧ pool s' !! i = Some (Ret Again) ∧
    (connected (svc s) = false → current (svc s') = Some c).
Proof.
  intros (res & [_ A])%reachable_shares Hp Hc. destruct s as [s ps]. cbn in *.
  assert (all_open s) as Ho by (intros ch Hch; by apply (ac_open _ _ _ _ A), (ac_subs _ _ _ _ A)).
  pose proof (lookup_lt_Some _ _ _ Hp) as Hlt. pose proof (rtc_tick s ps i Hp) as Htick.
  destruct (connected s) eqn:E.
  { eexists. split; [exact Htick|]. cbn. split; [done|]. split; [by apply list_lookup_insert_eq|done]. }
  set (q := old ← act (Install c); _ ← release has_closer old; _ ← setConnected true; mret (Ok c) : proc T (result T)).
  set (s1 := set_logs (c :: opened s) (closed s) s).
  assert (all_open s1) as Ho1 by done.
  assert (∃ s2, alone calm_env (q ≫= λ _, mret true) s1 = Some (true, s2) ∧ connected s2 = true ∧
    current s2 = Some c) as (s2 & Ha & Hup & Hcur).
  { rewrite alone_bind. unfold q. rewrite alone_bind, alone_act. cbn [perform mbind option_bind].
    rewrite alone_bind, alone_release. cbn [mbind option_bind].
    rewrite alone_bind, alone_setConnected by (unfold released; by destruct has_closer). eexists. split; [done|].
    destruct (told_fields true (released has_closer (current s1) (set_client (Some c) true s1))) as [-> ->].
    unfold released. by destruct has_closer. }
  set (K := λ r : result T, ((match r with
    | Err _ => _ ← setConnected false; mret (Err ErrUnavailable)
    | Ok c => old ← act (Install c); _ ← release has_closer old; _ ← setConnected true; mret (Ok c)
    end : proc T (result T)) ≫= λ _, mret true) ≫= round).
  assert (acts true has_closer i (System s (<[i := (Connect true has_closer ≫= λ _, mret true) ≫= round]> ps))
    (System s1 (<[i := (q ≫= λ _, mret true) ≫= round]> ps))) as Hopen.
  { rewrite <- (list_insert_insert_eq ps i ((q ≫= λ _, mret true) ≫= round)
      ((Connect true has_closer ≫= λ _, mret true) ≫= round)).
    apply (acts_act _ _ i (Env (Ok c) false) s s1 _ _ CallConnector K (Ok c));
      [by apply list_lookup_insert_eq|intros c' Hc'; by injection Hc' as <-|done]. }
  eexists. split; [etransitivity; [exact Htick|]; eapply rtc_l; [exact Hopen|]|].
  - by apply (alone_rtc (q ≫= λ _, mret true) round calm_env ErrUnavailable s1 s2 true).
  - cbn. split; [done|]. split; [by apply list_lookup_insert_eq|done].
Qed.
End reconnect.
End props.
