(* ===== verification/ServiceExamples.v ===== *)
(** * The supervisor at work

    Schedules that can be evaluated, the runs behind the observations on
    [Service], and its theorems at concrete states. *)

From S2P Require Import Prelude GoStd Service ServiceSpec ServiceProps.
From stdpp Require Import relations.
Open Scope Z_scope.

Section play.
Variables (has_connector has_closer : bool).

(** ** Schedules *)

(** What the scheduler, the outside and the readers decide; connections are
    numbers. *)
Inductive move :=
  | Go (t : task)
  | Move (i : nat) (e : env nat)
  | Turn (i : nat)
  | Ctx (i : nat)
  | Receive (ch : nat).

Definition make_move (s : system nat) (m : move) : option (system nat) :=
  match m with
  | Go t => Some (System (svc s) (pool s ++ [start has_connector has_closer t]))
  | Move i e =>
      p ← pool s !! i;
      match p with
      | Ret _ => None
      | Step a k =>
          if match e_connector e with Ok c => bool_decide (c ∉ opened (svc s)) | Err _ => true end then
            '(x, s') ← perform has_connector has_closer e a (svc s); Some (System s' (<[i := k x]> (pool s)))
          else None
      end
  | Turn i =>
      p ← pool s !! i;
      match p with
      | Ret Again => Some (System (svc s) (<[i := start has_connector has_closer RunTask]> (pool s)))
      | _ => None
      end
  | Ctx i =>
      p ← pool s !! i;
      match p with
      | Ret (Channel ch) => Some (System (svc s) (<[i := (_ ← watch ch; mret Done)]> (pool s)))
      | _ => None
      end
  | Receive ch =>
      Some (System (set_chans (alter drain ch (chans (svc s))) (subs (svc s)) (svc s)) (pool s))
  end.

Definition play (ms : list move) : option (system nat) :=
  foldl (λ s m, s' ← s; make_move s' m) (Some init) ms.

Lemma make_move_step s m s' : make_move s m = Some s' → step has_connector has_closer s s'.
Proof.
  destruct s as [s ps]. destruct m as [t|i e|i|i|ch]; cbn.
  - intros [= <-]. constructor.
  - destruct (ps !! i) as [[o|X a k]|] eqn:Hp; cbn; try done.
    destruct (match e_connector e with Ok _ => _ | Err _ => _ end) eqn:Hd; [|done].
    destruct (perform has_connector has_closer e a s) as [[x s1]|] eqn:E; cbn; [|done]. intros [= <-].
    apply (step_act _ _ i), (acts_act _ _ i e s s1 _ X a k x); [done| |done]. intros c Hc. rewrite Hc in Hd. by apply bool_decide_eq_true in Hd.
  - destruct (ps !! i) as [[[| | |]|]|] eqn:Hp; cbn; try done. intros [= <-]. by constructor.
  - destruct (ps !! i) as [[[| | |ch]|]|] eqn:Hp; cbn; try done. intros [= <-]. by constructor.
  - intros [= <-]. constructor.
Qed.

Lemma play_reachable ms s : play ms = Some s → reachable has_connector has_closer s.
Proof.
  revert s. induction ms as [|m ms IH] using rev_ind; intros s; [by intros [= <-]; apply rtc_refl|].
  unfold play. rewrite foldl_app. cbn. fold (play ms). destruct (play ms) as [s0|]; [|done]. cbn.
  intros Hm%make_move_step. eapply rtc_r; [by apply IH|done].
Qed.

(** Moves under which no connection is taken out. *)
Fixpoint kept (s : system nat) (ms : list move) : option (system nat) :=
  match ms with
  | [] => Some s
  | m :: ms =>
      s' ← make_move s m;
      if implb (have (svc s)) (have (svc s')) then kept s' ms else None
  end.

Lemma kept_keeping s ms s' : kept s ms = Some s' → rtc (keeping has_connector has_closer) s s'.
Proof.
  revert s. induction ms as [|m ms IH]; intros s; cbn; [by intros [= ->]|].
  intros (s1 & Hm & H)%bind_Some. destruct (implb _ _) eqn:E; [|done].
  eapply rtc_l; [|by apply IH]. split; [by eapply make_move_step|]. intros Hh. by rewrite Hh in E.
Qed.
End play.

Definition ended (s : system nat) : bool :=
  forallb (λ p, match p with Ret _ => true | Step _ _ => false end) (pool s).

Lemma ended_quiet s : ended s = true → quiet s.
Proof.
  unfold ended. rewrite forallb_forall. intros H i p Hp%list_elem_of_lookup_2%list_elem_of_In.
  specialize (H p Hp). destruct p; [by eexists|done].
Qed.

(** Opening connection [c], and any other action. *)
Definition opening (i c : nat) : move := Move i (Env (Ok c) false).
Definition on (i : nat) : move := Move i (Env (Err ErrUnavailable) false).

(** Two callers find the service down and both open a connection; the second to
    install its own closes the first, which the first caller was given. *)
Definition two_callers : list move :=
  [Go GetTask; Go GetTask; on 0; on 1; opening 0 7; opening 1 8;
   on 0; on 0; on 0; on 1; on 1; on 1].

Definition after_two : system nat := default init (play true true two_callers).

Lemma two_callers_played : play true true two_callers = Some after_two.
Proof. vm_compute. reflexivity. Qed.

Lemma two_callers_reachable : reachable true true after_two.
Proof. apply (play_reachable _ _ two_callers), two_callers_played. Qed.

Example two_callers_state :
  (opened (svc after_two), closed (svc after_two), client (svc after_two), ended after_two) =
  ([8; 7], [7], Some 8, true)%nat.
Proof. vm_compute. reflexivity. Qed.

Lemma two_callers_kept : rtc (keeping true true) init after_two.
Proof. apply (kept_keeping _ _ _ two_callers). vm_compute. reflexivity. Qed.

(** So a caller can be left with a closed connection and no error, while the service
    is up and no context has ended. *)
Theorem first_caller_closed :
  ∃ s : system nat, rtc (keeping true true) init s ∧ quiet s ∧ connected (svc s) = true ∧
    pool s !! 0%nat = Some (Ret (Client (Ok (Some 7%nat)))) ∧ 7%nat ∈ closed (svc s).
Proof.
  exists after_two. split; [exact two_callers_kept|]. split; [apply ended_quiet; vm_compute; reflexivity|].
  split; [vm_compute; reflexivity|]. split; [vm_compute; reflexivity|].
  apply (bool_decide_unpack _). vm_compute. exact I.
Qed.


Example no_panic_no_zero_witness : is_Some (client (svc after_two)) ∧ is_Some (Some 7%nat).
Proof.
  destruct (no_panic_no_zero true true after_two two_callers_reachable) as (_ & H).
  split; [vm_compute; by eexists | exact (H 0%nat (Some 7%nat) ltac:(vm_compute; reflexivity))].
Defined.

Definition looping : system nat := default init (play true true [Go RunTask]).

Lemma looping_reachable : reachable true true looping.
Proof. apply (play_reachable _ _ [Go RunTask]). vm_compute. reflexivity. Qed.

Example Run_reconnects_witness :
  ∃ s', rtc (acts true true 0) looping s' ∧ connected (svc s') = true ∧ current (svc s') = Some 5%nat.
Proof.
  assert (5%nat ∉ opened (svc looping)) as Hc by (vm_compute; intros H; inversion H).
  destruct (Run_reconnects true looping 0 5%nat looping_reachable ltac:(reflexivity) Hc) as (s' & H1 & H2 & _ & H3).
  exists s'. exact (conj H1 (conj H2 (H3 eq_refl))).
Defined.

Definition up : service nat := svc after_two.

Example Get_after_close_witness :
  ∃ s', alone true true (Env (Ok 9%nat) true) (close true) up = Some (tt, s') ∧ 8%nat ∈ closed s' ∧
    alone true true (Env (Ok 9%nat) true) (Get true true) s' = Some (Ok (Some 8%nat), s').
Proof.
  destruct (Get_after_close (Env (Ok 9%nat) true) up 8%nat ltac:(vm_compute; reflexivity) ltac:(vm_compute; reflexivity))
    as (s' & H1 & H2 & H3).
  exists s'. exact (conj H1 (conj H2 (H3 _))).
Defined.

Example Connect_alone_witness :
  closed <$> (snd <$> alone true true (Env (Ok 9%nat) false) (Connect true true) up) = Some [8; 7]%nat.
Proof.
  assert (subs up = ∅) as Es by (vm_compute; reflexivity).
  assert (all_open up) as Ho by (intros ch Hch; rewrite Es in Hch; by apply not_elem_of_empty in Hch).
  rewrite (Connect_alone (Env (Ok 9%nat) false) up Ho). vm_compute. reflexivity.
Defined.

(** ** Subscribers *)

(** A subscriber that has not read the state it was sent at the start. *)
Definition unread : service nat :=
  svc (default init (play true true [Go ConnectTask; opening 0 7; on 0; on 0; on 0; Go ChanTask; on 1; on 1; on 1])).

Lemma unread_subs : subs unread = {[0%nat]}.
Proof. vm_compute. reflexivity. Qed.

Example change_told_witness :
  ∃ s', alone true true (Env (Ok 9%nat) false) (setConnected false) unread = Some (tt, s') ∧ connected s' = false ∧
    buffer <$> chans s' !! 0%nat = Some (Some true).
Proof.
  assert (all_open unread) as Ho.
  { intros ch. rewrite unread_subs, elem_of_singleton. intros ->. vm_compute. reflexivity. }
  assert (0%nat ∈ subs unread) as Hin by (rewrite unread_subs; by apply elem_of_singleton).
  destruct (change_told (Env (Ok 9%nat) false) false unread 0%nat (Some true) Ho ltac:(vm_compute; discriminate)
    Hin ltac:(vm_compute; reflexivity)) as (s' & H1 & H2 & H3 & _).
  exists s'. exact (conj H1 (conj H2 H3)).
Defined.

(** A subscription reads the state before it is registered; a caller connects in
    between. *)
Definition missed : list move :=
  [Go ChanTask; on 0; Go ConnectTask; opening 1 7; on 1; on 1; on 1; on 0; on 0].

(** A subscription can miss a change. The program reaches a state in which
    every method has returned, the service is up, and the one value a fresh
    subscriber will ever read says it is down. *)
Theorem subscription_misses_change :
  ∃ s : system nat, reachable true true s ∧ quiet s ∧ connected (svc s) = true ∧
    pool s !! 0%nat = Some (Ret (Channel 0)) ∧ 0%nat ∈ subs (svc s) ∧
    chans (svc s) !! 0%nat = Some {| buffer := Some false; is_open := true |}.
Proof.
  exists (default init (play true true missed)). split.
  - apply (play_reachable _ _ missed). vm_compute. reflexivity.
  - split; [apply ended_quiet; vm_compute; reflexivity|].
    split; [vm_compute; reflexivity|]. split; [reflexivity|].
    split; [|vm_compute; reflexivity]. apply (bool_decide_unpack _). vm_compute. exact I.
Qed.
