(* ===== verification/Supply.v ===== *)
(** * The store behind its supervisor

    [run] of [cmd/drivechain-esplora/main.go] hands every syncer and handler the
    service [stores], and the work begins with its [Get]. Here the supervisor of
    [Service] runs, goroutine by goroutine, beside the work of [Program], and its
    connector runs the migrations of [Migrate] before it claims the database: what
    the work may rely on is no longer whether a store was opened, but what a [Get]
    has returned. *)

From S2P Require Import Prelude GoStd Tables Write Registry Migrate Command Block Decoders WriteSpec Hash Sync SyncSpec Program Service ServiceSpec.
From stdpp Require Import relations.
Open Scope Z_scope.

Section supply.
Context {PG : Postgres} {B3 : Block.Blake3} {B58 : Base58} (cfg : config) (st : settings).
Context {Schema : Type} (run_body : string → Schema → result Schema) (dir : list entry) (s0 : Schema).

(** The supervisor, whose connections are numbered; what the migrations have made
    of the schema [s0], and the rows. *)
Definition supplied : Type := system nat * (Migrate.state (Schema := Schema) * db).

(** The connector of [stores]: [store.Open] with its migrations, then [Init]. *)
Definition dial (pool ping : result unit) (s : session) (c : conn) : Command.opened * session * conn :=
  let '(r, s') := Migrate.Open run_body pool ping dir s in
  let '(out, c') := open_store r (chainName cfg) (st_network st) c in
  (out, s', c').

(** Some [Get] has returned a store. *)
Definition got (s : system nat) : Prop := ∃ i c, pool s !! i = Some (Ret (Client (Ok c))).

Definition opened_one (s : system nat) : bool := bool_decide (Service.opened (svc s) ≠ []).

(** What a piece of work runs in: it works on a store only when a [Get] returned
    one; nobody writes before a store was opened, and everyone keeps the database
    ready. *)
Definition served (s : system nat) (w : world) : Prop :=
  (∀ k, is_Ok (sn_store_up (at_call w k)) → got s) ∧
  (Service.opened (svc s) = [] → ∀ k d, others w k d = d) ∧
  (∀ k d, ready cfg st d → ready cfg st (others w k d)).

(** A step of a goroutine of the supervisor leaves the database alone, unless the
    connector answers: then it has run [dial]. Any of its statements may fail. *)
Inductive supply : supplied → supplied → Prop :=
  | supply_quiet s s' x d :
      Service.step true true s s' → Service.opened (svc s') = Service.opened (svc s) → supply (s, (x, d)) (s', (x, d))
  | supply_open s s' i pool ping fs x c sn c' :
      Service.step true true s s' → Service.opened (svc s') = i :: Service.opened (svc s) →
      dial pool ping (Session x fs) c = (Opened, sn, c') → supply (s, (x, c_db c)) (s', (Migrate.st sn, c_db c'))
  | supply_fail s s' pool ping fs x c out sn c' :
      Service.step true true s s' → Service.opened (svc s') = Service.opened (svc s) →
      dial pool ping (Session x fs) c = (out, sn, c') → out ≠ Opened → supply (s, (x, c_db c)) (s', (Migrate.st sn, c_db c'))
  | supply_work s x d d' : work cfg st (served s) d d' → supply (s, (x, d)) (s, (x, d'))
  | supply_restart s x d : supply (s, (x, d)) (Service.init, (x, d)).

Definition runs (y : supplied) : Prop := rtc supply (Service.init, (Migrate.State s0 None, empty_db)) y.

Lemma dial_inv pool ping s c out s' c' :
  dial pool ping s c = (out, s', c') →
  ∃ r, Migrate.Open run_body pool ping dir s = (r, s') ∧ open_store r (chainName cfg) (st_network st) c = (out, c').
Proof.
  unfold dial. destruct (Migrate.Open run_body pool ping dir s) as [r s1]. intros H. exists r.
  destruct (open_store r (chainName cfg) (st_network st) c) as [o c1]. by injection H as <- <- <-.
Qed.

(** The supervisor of such a run is one of [Service]. *)
Lemma runs_reachable y : runs y → reachable true true y.1.
Proof.
  intros H. revert H. apply (rtc_ind_r (λ y, reachable true true y.1)); [by apply rtc_refl|].
  intros x z _ Hyz Hy. destruct Hyz; cbn in *; first [done|by apply rtc_refl|by eapply rtc_r].
Qed.

(** Before a store was opened no [Get] has returned one, so a piece of work finds
    none. *)
Lemma served_surroundings s w :
  reachable true true s → served s w → surroundings cfg st (opened_one s) w.
Proof.
  intros (res & Hs)%reachable_shares (Hg & Ho & Hr). split; [|done]. unfold opened_one.
  intros Hf%bool_decide_eq_false. apply dec_stable in Hf. split; [|by apply Ho]. intros k.
  destruct (sn_store_up (at_call w k)) as [u|e] eqn:E; [|by exists e].
  destruct (Hg k) as (i & c & Hp); [rewrite E; by eexists|]. by apply (shares_got true true s res i c Hs) in Hp.
Qed.

(** The program with its supervisor is one of the program's own runs, where a store
    is open once the connector has opened one. *)
Lemma supply_refines y : runs y → rtc (Program.step cfg st) (State false empty_db) (State (opened_one y.1) y.2.2).
Proof.
  intros H. revert H.
  apply (rtc_ind_r (λ y, rtc (Program.step cfg st) (State false empty_db) (State (opened_one y.1) y.2.2)));
    [by apply rtc_refl|].
  intros x0 z Hy Hyz IH. apply runs_reachable in Hy.
  destruct Hyz as [s s' x d _ E|s s' i pl pg fs x c sn c' _ E (r & _ & Hopen)%dial_inv
    |s s' pl pg fs x c out sn c' _ E (r & _ & Hopen)%dial_inv Hne|s x d d' Hw|s x d]; cbn in *.
  - unfold opened_one in *. by rewrite E.
  - eapply rtc_r; [exact IH|]. unfold opened_one at 2. rewrite E. apply (step_open _ _ _ r c Opened c' Hopen).
  - eapply rtc_r; [exact IH|]. unfold opened_one at 2. rewrite E.
    pose proof (step_open cfg st (opened_one s) r c out c' Hopen) as Hs. by destruct out.
  - eapply rtc_r; [exact IH|]. apply step_work. eapply work_mono; [|exact Hw]. intros w. by apply served_surroundings.
  - eapply rtc_r; [exact IH|]. apply step_restart.
Qed.

(** No store without its migrations, and they stay as they are. *)
Definition up_to_date (y : supplied) : Prop :=
  migrated run_body dir s0 y.2.1 ∧
  (Service.opened (svc y.1) ≠ [] → applied_names y.2.1 = Some (migrationNames dir)).

Lemma Open_up_to_date pool ping x fs r sn :
  NoDup (migrationNames dir) → migrated run_body dir s0 x → Migrate.Open run_body pool ping dir (Session x fs) = (r, sn) →
  migrated run_body dir s0 (Migrate.st sn) ∧
  (r = Ok tt ∨ applied_names x = Some (migrationNames dir) → applied_names (Migrate.st sn) = Some (migrationNames dir)).
Proof.
  intros Hnd Hm H. pose proof (Open_migrated run_body dir s0 pool ping (Session x fs) r sn Hnd Hm H) as [Hm' Hok].
  split; [done|]. intros [Hr|Hr]; [by apply Hok|].
  apply Open_inv in H as [(e & _ & -> & _)|(_ & _ & H)]; [done|]. by rewrite (migrate_done run_body dir (Session x fs) r sn).
Qed.

Lemma supply_up_to_date y z : NoDup (migrationNames dir) → up_to_date y → supply y z → up_to_date z.
Proof.
  unfold up_to_date. intros Hnd [Hm Ha] Hyz.
  destruct Hyz as [s s' x d _ E|s s' i pl pg fs x c sn c' _ E (r & Hopen & Hinit)%dial_inv
    |s s' pl pg fs x c out sn c' _ E (r & Hopen & _)%dial_inv _|s x d d' _|s x d]; cbn in *.
  - by rewrite E.
  - destruct (Open_up_to_date _ _ _ _ _ _ Hnd Hm Hopen) as [Hm' Hn]. split; [done|]. intros _. apply Hn. left.
    by destruct r as [[]|e].
  - destruct (Open_up_to_date _ _ _ _ _ _ Hnd Hm Hopen) as [Hm' Hn]. split; [done|]. rewrite E. auto.
  - done.
  - split; [done|]. by intros [].
Qed.

Lemma runs_up_to_date y : NoDup (migrationNames dir) → runs y → up_to_date y.
Proof.
  intros Hnd H. revert H. apply (rtc_ind_r up_to_date); [split; [done|by intros []]|].
  intros a b _ Hab Ha. by eapply supply_up_to_date.
Qed.

Lemma got_opened y : runs y → got y.1 → Service.opened (svc y.1) ≠ [].
Proof. intros (res & Hsh)%runs_reachable%reachable_shares (i & c & Hp). by apply (shares_got true true _ res i c Hsh) in Hp. Qed.

(** C25: The program with its supervisor, from an empty database on: whatever its
    goroutines do, in any order, with passes and requests between their actions and
    through restarts, every run is a run of the program in which a store is open
    once the connector has opened one. So whoever's [Get] has returned a store, at
    any time since, finds a coherent index behind it, claimed for this chain and
    network, on a schema that every migration script has been run on once, in
    order; and before that the database is ready or still as empty as it was, and
    the schema is the work of the first few scripts. *)
Theorem supplied_store_ready s x d :
  configure started cfg = Ok st → NoDup dir.*1 → runs (s, (x, d)) →
  rtc (Program.step cfg st) (State false empty_db) (State (opened_one s) d) ∧
  (ready cfg st d ∨ Program.fresh d) ∧ migrated run_body dir s0 x ∧
  (got s → ready cfg st d ∧ scripts run_body dir (migrationNames dir) s0 = Ok (schema x)).
Proof.
  intros Hst Hnd%migrationNames_NoDup Hx. pose proof (supply_refines _ Hx) as Hr. cbn [fst snd] in Hr. split; [done|].
  destruct (runs_up_to_date _ Hnd Hx) as [Hm Ha]. cbn [fst snd] in Hm, Ha.
  assert (sound cfg st (State (opened_one s) d)) as Hs.
  { revert Hr. apply (rtc_ind_r (sound cfg st)); [by right|]. intros a b _ Hab. by apply (step_sound cfg st Hst a b). }
  unfold sound in Hs. cbn in Hs. split_and!; [tauto|done|]. intros Hg%(got_opened _ Hx). cbn in Hg. split.
  - destruct Hs as [Hs|[Hf _]]; [done|]. unfold opened_one in Hf. by apply bool_decide_eq_false in Hf.
  - unfold migrated in Hm. rewrite (Ha Hg) in Hm. apply Hm.
Qed.
End supply.
