(* ===== verification/Examples.v ===== *)
(** * The theorems at work

    Every theorem with hypotheses, applied to the chain of [Samples]; and the
    concrete runs behind the observations the header lists. *)

From S2P Require Import Prelude GoStd Json Hash OutPoint Block BlockIndex Decoders Registry.
From S2P Require Import ChainProps Tables Write Ledger WriteSpec WriteProps Prepare Read ReadSpec.
From S2P Require Import Mempool StoreProps Sync SyncSpec Converge IndexProps Samples.
Open Scope Z_scope.

(** A connection that holds. *)
Definition calm (d : db) : conn := Conn d [].

Definition no_block : SBlock :=
  {| sb_Height := 0; sb_Hash := h 0; sb_PrevHash := None; sb_MerkleRoot := h 0; sb_MainHash := h 0;
     sb_MainHeight := None; sb_BlockTime := None; sb_Txs := []; sb_Creates := []; sb_Spends := [] |}.

Definition genesis_rows : list SBlock := take 1 (rows chain_a).
Definition row_a : SBlock := List.nth 1 (rows chain_a) no_block.
Definition before_a : db := sample_db genesis_rows.

(** Names the two halves of a run. *)
Ltac run_of m c r c' E := destruct (m c) as [r c'] eqn:E.

(** The run of a closed call succeeds. *)
Ltac succeeds E := let H := fresh in
  match type of E with ?m = (?r, ?c) =>
    assert (is_Ok (fst m)) as H by evaluate; rewrite E in H; cbn in H end;
  destruct H as [? ->].

Lemma genesis_build : is_Some (build genesis_rows).
Proof. evaluate. Qed.

Lemma before_a_holds : holds genesis_rows before_a.
Proof. apply sample_holds, genesis_build. Qed.

Lemma row_a_extends : extends genesis_rows before_a row_a.
Proof.
  assert (bool_decide (sb_Height row_a = Z.of_nat (length genesis_rows) ∧ Z.of_nat (length genesis_rows) < 2^31 ∧
    block_ok row_a ∧ fresh_spends (chain_tables before_a) row_a) = true) as H by (vm_compute; reflexivity).
  by apply bool_decide_eq_true in H.
Qed.

(** ** The writer *)

Example Apply_extends_chain_witness :
  ∃ res c', Apply row_a (calm before_a) = (Ok res, c') ∧ holds (genesis_rows ++ [row_a]) (c_db c').
Proof.
  run_of (Apply row_a) (calm before_a) r c' E.
  pose proof (Apply_extends_chain genesis_rows row_a (calm before_a) r c'
    before_a_holds row_a_extends E) as H.
  succeeds E. exists x, c'. exact (conj eq_refl H).
Defined.

Example Rollback_truncates_witness :
  ∃ c', Rollback 0 (calm (holding chain_a)) = (Ok tt, c') ∧ holds genesis_rows (c_db c').
Proof.
  run_of (Rollback 0) (calm (holding chain_a)) r c' E.
  pose proof (Rollback_truncates (rows chain_a) 0 (calm (holding chain_a)) r c'
    (sample_holds _ chain_a_ok) ltac:(vm_compute; split; congruence) E) as H.
  succeeds E. destruct x. exists c'. exact (conj eq_refl H).
Defined.

Example Apply_writes_rows_witness :
  ∃ res c', Apply row_a (calm before_a) = (Ok res, c') ∧
    pool (c_db c') = clear_pool row_a (pool before_a).
Proof.
  run_of (Apply row_a) (calm before_a) r c' E. succeeds E.
  pose proof (Apply_writes_rows row_a (calm before_a) x c' E) as (_ & _ & _ & _ & H).
  exists x, c'. exact (conj eq_refl H).
Defined.

Example Apply_refuses_duplicate_witness :
  ∃ e c', Apply row_a (calm (holding chain_a)) = (Err e, c') ∧ c_db c' = holding chain_a.
Proof.
  run_of (Apply row_a) (calm (holding chain_a)) r c' E.
  assert (is_Some (blocks (chain_tables (c_db (calm (holding chain_a)))) !! int32 (sb_Height row_a))) as Hd
    by evaluate.
  pose proof (Apply_refuses_duplicate row_a (calm (holding chain_a)) r c' (or_introl Hd) E) as [[e ->] H].
  exists e, c'. exact (conj eq_refl H).
Defined.

Lemma genesis_wf : wf 1 (chain_tables before_a).
Proof.
  pose proof (history_wf _ _ (proj1 before_a_holds)) as W.
  replace (Z.of_nat (length genesis_rows)) with 1 in W by (vm_compute; reflexivity). exact W.
Qed.

Lemma row_a_height : int32 (sb_Height row_a) = 1.
Proof. vm_compute. reflexivity. Qed.

Example Apply_keeps_rows_witness :
  ∃ res c', Apply row_a (calm before_a) = (Ok res, c') ∧
    ∀ txid t, txs (chain_tables before_a) !! txid = Some t →
      txs (chain_tables (c_db c')) !! txid = Some t.
Proof.
  run_of (Apply row_a) (calm before_a) r c' E. succeeds E.
  pose proof (Apply_keeps_rows 1 row_a (calm before_a) x c' genesis_wf row_a_height E) as [H _].
  exists x, c'. exact (conj eq_refl H).
Defined.

Example Apply_clears_mempool_witness :
  ∃ res c', Apply row_a (calm before_a) = (Ok res, c') ∧
    mempool_txs (pool (c_db c')) !! h 21 = None.
Proof.
  run_of (Apply row_a) (calm before_a) r c' E. succeeds E.
  pose proof (Apply_clears_mempool row_a (calm before_a) x c' E) as (H & _).
  specialize (H (h 21)). rewrite bool_decide_true in H by evaluate.
  exists x, c'. exact (conj eq_refl H).
Defined.

Lemma row_a_spends : NoDup (spend_key <$> sb_Spends row_a).
Proof. evaluate. Qed.

Definition tx_a : STx := List.nth 0 (sb_Txs row_a)
  {| st_Txid := h 0; st_Index := 0; st_SizeBytes := 0; st_FeeSats := 0; st_Raw := [] |}.

(** 100 in, 60 and 30 out. *)
Example Apply_sets_fees_witness :
  ∃ res c', Apply row_a (calm before_a) = (Ok res, c') ∧
    t_fee_sats <$> txs (chain_tables (c_db c')) !! st_Txid tx_a =
      Some (Z.max (sumZ (λ s, value_of (chain_tables (c_db c')) (spend_key s)) (spends_by (st_Txid tx_a) row_a) -
                   sumZ so_ValueSats (creates_by (st_Txid tx_a) row_a)) 0).
Proof.
  run_of (Apply row_a) (calm before_a) r c' E. succeeds E.
  assert (new_creates (chain_tables before_a) row_a) as Hn by evaluate.
  assert (block_ok row_a) as Hb by evaluate.
  assert (txs (chain_tables before_a) !! st_Txid tx_a = None) as Ht.
  { apply eq_None_not_Some. evaluate. }
  assert (tx_a ∈ sb_Txs row_a) as Hin by (vm_compute; left).
  pose proof (Apply_sets_fees 1 row_a (calm before_a) x c' tx_a plain_postgres_laws genesis_wf
    row_a_height Hb row_a_spends Hn E Hin Ht) as H.
  exists x, c'. exact (conj eq_refl H).
Defined.

Example fee_is_ten :
  t_fee_sats <$> txs (chain_tables (run (Apply row_a) before_a).2) !! h 21 = Some 10.
Proof. vm_compute. reflexivity. Qed.

Example Apply_counts_unknown_witness :
  ∃ res c', Apply row_a (calm before_a) = (Ok res, c') ∧
    UnknownSpends res = Z.of_nat (length
      (filter (λ s, ¬ is_Some (outputs (chain_tables (c_db c')) !! spend_key s)) (sb_Spends row_a))).
Proof.
  run_of (Apply row_a) (calm before_a) r c' E. succeeds E.
  pose proof (Apply_counts_unknown row_a (calm before_a) x c' row_a_spends E) as H.
  exists x, c'. exact (conj eq_refl H).
Defined.

(** A database that takes the last source row, and meets rows in reverse. *)
Definition last_postgres : Postgres :=
  {| jsonb := Some; update_pick := λ A a l, List.last l a; scan := λ A l, reverse l |}.

Lemma last_postgres_laws : @PostgresLaws last_postgres.
Proof.
  split.
  - intros A x [|y l]; cbn [update_pick last_postgres]; [by left|]. right.
    revert y. induction l as [|z l IH]; intros y; [by left|]. right. exact (IH z).
  - intros A l. apply reverse_Permutation.
Qed.

Example Apply_deterministic_witness :
  run (@Apply plain_postgres row_a) before_a = run (@Apply last_postgres row_a) before_a.
Proof.
  exact (Apply_deterministic plain_postgres last_postgres row_a before_a plain_postgres_laws
    last_postgres_laws (λ _, eq_refl) row_a_spends).
Defined.

(** ** The index *)

Definition D := Thunder.Decoder.

Definition prepared_a : SBlock :=
  get no_block (Prepare D 1 (h 12) (ch_Block block_a) (ch_Index block_a) None).

Lemma prepared_a_ok :
  Prepare D 1 (h 12) (ch_Block block_a) (ch_Index block_a) None = Ok prepared_a.
Proof. apply get_ok. evaluate. Qed.


(** The skipped trade has a row and no coins. *)
Example skipped_has_no_coins :
  length (sb_Txs prepared_a) = 2%nat ∧ length (sb_Spends prepared_a) = 2%nat ∧
  length (sb_Creates prepared_a) = 2%nat.
Proof. vm_compute. done. Qed.

Example Prepare_fits_store_witness :
  block_ok prepared_a ∧ NoDup (create_key <$> sb_Creates prepared_a).
Proof.
  assert (distinct_ids (ch_Block block_a) (ch_Index block_a)) as Hd by (split; evaluate).
  assert (index_typed (ch_Index block_a)) as Ht by evaluate.
  exact (Prepare_fits_store D 1 (h 12) (ch_Block block_a) (ch_Index block_a) None prepared_a
    Thunder_laws Ht Hd prepared_a_ok).
Defined.

Definition pending : list MempoolTx :=
  [{| mt_Info := info 41 false;
      mt_Tx := {| Inputs := [{| in_OutPoint := {| Kind := KindRegular; Source := h 21; Vout := 0 |};
                               in_LeafHash := [] |}];
                  Outputs := [pay 4 55] |} |}].

Definition no_mempool : SMempool := {| mp_Txs := []; mp_Creates := []; mp_Spends := [] |}.
Definition snapshot_a : SMempool := get no_mempool (PrepareMempool D pending).

Lemma snapshot_a_ok : PrepareMempool D pending = Ok snapshot_a.
Proof. apply get_ok. evaluate. Qed.

Example PrepareMempool_writes_witness :
  sm_Txid <$> mp_Txs snapshot_a = (λ e, ti_Txid (mt_Info e)) <$> pending.
Proof.
  pose proof (PrepareMempool_writes D pending snapshot_a snapshot_a_ok) as (H & _). exact H.
Defined.

Lemma holding_a_holds : holds (rows chain_a) (holding chain_a).
Proof. apply sample_holds, chain_a_ok. Qed.

Lemma holding_a_indexed : indexed (pass_db (Pass (calm (holding chain_a)) 0)).
Proof. exists (Z.of_nat (length (rows chain_a))). exact (holds_at_height _ _ holding_a_holds). Qed.

Lemma chain_b_counts writes : counts_fit (busy writes chain_b).
Proof. intros k c. cbn. intros [= <-]. lia. Qed.

Lemma chain_b_typed writes : indexes_typed (busy writes chain_b).
Proof.
  intros k hash bi. cbn. intros H%of_option_ok. apply fmap_Some in H as (c & Hc & ->).
  apply head_Some_elem_of, list_elem_of_filter in Hc as [_ Hc].
  assert (Forall (λ c, index_typed (ch_Index c)) chain_b) as Hall by evaluate.
  rewrite Forall_forall in Hall. by apply Hall.
Qed.

(** The unconfirmed set comes and goes between the statements of a pass. *)
Definition crowd (k : nat) : db → db :=
  set_pool (if Nat.even k then pool (run (ReplaceMempool 1000 snapshot_a) (holding chain_a)).2 else empty_pool).

#[export] Instance crowd_pool_only : PoolOnly (busy crowd chain_b).
Proof. intros k d. eexists. reflexivity. Qed.

Example Once_keeps_index_witness :
  ∃ r p', Once D (busy crowd chain_b) (Pass (calm (holding chain_a)) 0) = (r, p') ∧ indexed (pass_db p').
Proof.
  run_of (Once D (busy crowd chain_b)) (Pass (calm (holding chain_a)) 0) r p' E.
  exists r, p'. split; [reflexivity|].
  exact (Once_keeps_index D (busy crowd chain_b) (Pass (calm (holding chain_a)) 0) r p' Thunder_laws
    crowd_pool_only (chain_b_counts _) (chain_b_typed _) holding_a_indexed E).
Defined.

Example Once_drops_witness :
  p_drops (Once D (busy crowd chain_b) (Pass (calm (holding chain_a)) 0)).2 = 0%nat.
Proof.
  destruct (Once D (busy crowd chain_b) (Pass (calm (holding chain_a)) 0)) as [r p'] eqn:E.
  pose proof (Once_drops D (busy crowd chain_b) (Pass (calm (holding chain_a)) 0) r p' E) as (_ & _ & _ & _ & H).
  apply H. intros (_ & e & He & _). discriminate He.
Defined.

(** The same, on a connection whose third statement fails. *)
Definition flaky (d : db) : conn := Conn d [false; false; true].

Example Once_keeps_index_flaky :
  ∃ e p', Once D (still chain_b) (Pass (flaky (holding chain_a)) 0) = (Err e, p') ∧
    sy_tip_height <$> sync_state (pass_db p') = Some (Some 1).
Proof.
  destruct (Once D (still chain_b) (Pass (flaky (holding chain_a)) 0)) as [r p'] eqn:E.
  assert (match Once D (still chain_b) (Pass (flaky (holding chain_a)) 0) with
          | (Err _, p') => bool_decide (sy_tip_height <$> sync_state (pass_db p') = Some (Some 1))
          | _ => false
          end = true) as H by (vm_compute; reflexivity).
  rewrite E in H. destruct r as [|e]; [done|]. apply bool_decide_eq_true in H. eauto.
Qed.

Example Once_loop_ends_witness :
  fst (walk D (still chain_b) 10 0 2 (Pass (calm (holding chain_a)) 0)) ≠ Ok None.
Proof.
  pose proof (Once_loop_ends D (still chain_b) 0 2 10 (Pass (calm (holding chain_a)) 0)
    ltac:(unfold is_u32; lia) ltac:(unfold MaxUint32; lia) ltac:(vm_compute; lia)) as [_ H].
  exact H.
Defined.

Lemma rows_a_hash i : sb_Hash <$> rows chain_a !! i = ch_Hash <$> chain_a !! i.
Proof. exact (bs_hash Thunder.Decoder (still chain_a) chain_a no_heights no_times _ rows_a_ok i). Qed.

Lemma rows_a_length : length (rows chain_a) = 2%nat.
Proof. exact (bs_length Thunder.Decoder (still chain_a) chain_a no_heights no_times _ rows_a_ok). Qed.

Lemma shared_hashes C i : shared C (rows chain_a) i ↔
  is_Some (ch_Hash <$> chain_a !! i) ∧ ch_Hash <$> C !! i = ch_Hash <$> chain_a !! i.
Proof.
  unfold shared. rewrite <- rows_a_hash. split.
  - intros (b & Hb & Hc). rewrite Hb. cbn. split; [by eexists|done].
  - intros [[x Hx] Hc]. destruct (rows chain_a !! i) as [b|]; [|done]. exists b. by rewrite Hc.
Qed.

Lemma shared_genesis : shared chain_b (rows chain_a) 0.
Proof. apply shared_hashes. split; [by eexists|reflexivity]. Qed.

Example findFork_highest_witness :
  ∃ k, goes (holds (rows chain_a)) (findFork (busy crowd chain_b) 1) (Z.of_nat k) (holds (rows chain_a)) ∧
    (k < 1)%nat ∧ shared chain_b (rows chain_a) k.
Proof.
  assert (1 ≤ length (rows chain_a))%nat as Hl by (rewrite rows_a_length; lia).
  destruct (findFork_highest (busy crowd chain_b) chain_b no_heights no_times (rows chain_a)
    (holds (rows chain_a)) 1 crowd_pool_only (busy_serves _ _ hashes_b_distinct) (pool_free_holds _) (λ _ H, H) (holds_len _ _ holding_a_holds) Hl
    (ex_intro _ 0%nat (conj (Nat.lt_0_succ 0) shared_genesis))) as (k & H1 & H2 & H3 & _).
  exists k. exact (conj H1 (conj H2 H3)).
Defined.

(** A chain that agrees with branch A nowhere. *)
Definition chain_c : list chain_block :=
  [{| ch_Hash := h 51; ch_Block := sample_block 5 None [pay 5 9] [];
      ch_Index := ch_Index (reward_block 51 5 0) |}; reward_block 52 6 51].

Lemma chain_c_disjoint i : ¬ shared chain_c (rows chain_a) i.
Proof.
  rewrite shared_hashes. intros [[x Hx] E].
  assert (i < 2)%nat as Hi by (apply fmap_Some in Hx as (c & Hc & _); by apply lookup_lt_Some in Hc).
  assert (Forall (λ i, ch_Hash <$> chain_c !! i ≠ ch_Hash <$> chain_a !! i) [0%nat; 1%nat]) as Hall
    by evaluate.
  rewrite Forall_forall in Hall. apply (Hall i); [|done].
  destruct i as [|[|i]]; [left|right; left|lia].
Qed.

Example disjoint_genesis_survives_witness :
  goes (holds (rows chain_a)) (resolveStart (still chain_c)) 1 (holds genesis_rows).
Proof.
  assert (NoDup (ch_Hash <$> chain_c)) as Hnd by evaluate.
  assert (rows chain_a ≠ []) as Hne by (intros E; pose proof rows_a_length as H; rewrite E in H; done).
  exact (disjoint_genesis_survives (still chain_c) chain_c no_heights no_times (rows chain_a)
    (still_pool_only chain_c) (still_serves _ Hnd) (holds_len _ _ holding_a_holds) Hne chain_c_disjoint).
Defined.

Lemma genesis_same : take 1 (rows chain_a) = take 1 (rows chain_b).
Proof. vm_compute. reflexivity. Qed.

Lemma chain_b_commits : hashes_commit chain_b (rows chain_b) (rows chain_a).
Proof.
  intros i [[x Hx] E]%shared_hashes.
  assert (i < 2)%nat as Hi by (apply fmap_Some in Hx as (c & Hc & _); by apply lookup_lt_Some in Hc).
  destruct i as [|[|i]]; [apply genesis_same| |lia]. exfalso.
  assert (ch_Hash <$> chain_b !! 1%nat ≠ ch_Hash <$> chain_a !! 1%nat) as Hne by evaluate. done.
Qed.

(** The index leaves branch A for the longer branch B in one pass, while the
    unconfirmed set changes. *)
Example Once_reaches_node_witness :
  ∃ r p', Once D (busy crowd chain_b) (Pass (Conn (holding chain_a) []) 0) = (r, p') ∧
    chain_tables (pass_db p') = built (rows chain_b).
Proof.
  destruct (Once_reaches_node D (busy crowd chain_b) chain_b no_heights no_times (rows chain_b)
    (built (rows chain_b)) (rows chain_a) (holding chain_a) 0 0 plain_postgres_laws crowd_pool_only
    (busy_serves _ _ hashes_b_distinct) rows_b_ok (built_history _ chain_b_ok) holding_a_holds
    chain_b_commits (or_intror shared_genesis) ltac:(discriminate)) as (r & p' & E & _ & H & _).
  exists r, p'. exact (conj E H).
Defined.

(** ** The reads *)

Lemma run_read {A} (x : A) (q : db → result A) d :
  is_Ok (run (query q) d).1 → run (query q) d = (Ok (get x (run (query q) d).1), d).
Proof. rewrite run_query. cbn. intros H. by rewrite <- (get_ok x _ H). Qed.

Lemma holding_a_wf : wf 2 (chain_tables (holding chain_a)).
Proof.
  pose proof (history_wf _ _ (proj1 holding_a_holds)) as W. rewrite rows_a_length in W. exact W.
Qed.

Definition utxos_1 : list UTXO := get [] (run (UTXOs ColumnAddress (bytes (a 1))) (holding chain_a)).1.

Lemma utxos_1_ok : run (UTXOs ColumnAddress (bytes (a 1))) (holding chain_a) = (Ok utxos_1, holding chain_a).
Proof. unfold utxos_1, UTXOs. apply run_read. evaluate. Qed.

Example UTXOs_complete_witness :
  NoDup ((λ u, Key (u_OutPoint u)) <$> utxos_1) ∧
  StronglySorted (λ x y, u_Height y ≤ u_Height x) utxos_1.
Proof.
  pose proof (UTXOs_complete plain_postgres_laws 2 ColumnAddress (bytes (a 1)) (holding chain_a) utxos_1
    holding_a_wf ltac:(lia) utxos_1_ok) as (_ & _ & H1 & H2).
  exact (conj H1 H2).
Defined.

(** The 30 that came back; the deposit and the reward are spent. *)
Example utxos_1_values : u_ValueSats <$> utxos_1 = [30].
Proof. vm_compute. reflexivity. Qed.

Definition no_stats : TxoStats :=
  {| FundedCount := 0; FundedSum := 0; SpentCount := 0; SpentSum := 0; TxCount := 0 |}.
Definition stats_1 : TxoStats := get no_stats (run (Stats ColumnAddress (bytes (a 1))) (holding chain_a)).1.

Lemma stats_1_ok : run (Stats ColumnAddress (bytes (a 1))) (holding chain_a) = (Ok stats_1, holding chain_a).
Proof. unfold stats_1, Stats. apply run_read. evaluate. Qed.

Example Stats_balance_witness :
  FundedSum stats_1 - SpentSum stats_1 = sumZ u_ValueSats utxos_1 ∧
  FundedCount stats_1 - SpentCount stats_1 = Z.of_nat (length utxos_1).
Proof.
  exact (Stats_balance plain_postgres_laws 2 ColumnAddress (bytes (a 1)) (holding chain_a) stats_1 utxos_1
    holding_a_wf stats_1_ok utxos_1_ok).
Defined.

Example stats_1_values : (FundedSum stats_1, SpentSum stats_1, TxCount stats_1) = (180, 150, 4).
Proof. vm_compute. reflexivity. Qed.

Definition refs_1 : list TxRef :=
  get [] (run (History ColumnAddress (bytes (a 1)) MaxUint32 25) (holding chain_a)).1.

Lemma refs_1_ok :
  run (History ColumnAddress (bytes (a 1)) MaxUint32 25) (holding chain_a) = (Ok refs_1, holding chain_a).
Proof. unfold refs_1, History. apply run_read. evaluate. Qed.

Example History_page_witness : (length refs_1 ≤ 25)%nat ∧ NoDup refs_1.
Proof.
  pose proof (History_page plain_postgres_laws 2 ColumnAddress (bytes (a 1)) MaxUint32 25 (holding chain_a)
    refs_1 holding_a_wf ltac:(lia) ltac:(unfold is_u32, MaxUint32; lia) refs_1_ok) as (H1 & _ & H2 & _).
  exact (conj H1 H2).
Defined.

Definition headers : list BlockRow := get [] (run (Blocks 5 10) (holding chain_a)).1.

Lemma headers_ok : run (Blocks 5 10) (holding chain_a) = (Ok headers, holding chain_a).
Proof. unfold headers, Blocks. apply run_read. evaluate. Qed.

Example Blocks_page_witness : br_Height <$> headers = take 10 (down_from 2).
Proof.
  exact (Blocks_page plain_postgres_laws 2 5 10 (holding chain_a) headers holding_a_wf ltac:(lia) ltac:(lia)
    headers_ok).
Defined.

Example headers_heights : br_Height <$> headers = [1; 0].
Proof. vm_compute. reflexivity. Qed.

Example Blocks_height_wraps_witness : run (Blocks (2^31) 10) (holding chain_a) = (Ok [], holding chain_a).
Proof.
  exact (Blocks_height_wraps plain_postgres_laws 2 (2^31) 10 (holding chain_a) holding_a_wf ltac:(lia)).
Defined.

(** ** The unconfirmed set *)

Example ReplaceMempool_swaps_witness :
  ∃ c', ReplaceMempool 1000 snapshot_a (calm (holding chain_a)) = (Ok tt, c') ∧
    replaced 1000 snapshot_a (chain_tables (holding chain_a)) empty_pool (pool (c_db c')).
Proof.
  run_of (ReplaceMempool 1000 snapshot_a) (calm (holding chain_a)) r c' E.
  pose proof (ReplaceMempool_swaps 1000 snapshot_a (calm (holding chain_a)) r c' E) as H.
  succeeds E. destruct x, H as [H _]. exists c'. exact (conj eq_refl H).
Defined.

(** The unconfirmed payment spends the 60 and pays 55. *)
Definition after_snapshot : db := (run (ReplaceMempool 1000 snapshot_a) (holding chain_a)).2.

Example snapshot_fee : mp_fee_sats <$> mempool_txs (pool after_snapshot) !! h 41 = Some 5.
Proof. vm_compute. reflexivity. Qed.

Lemma run_pair {A} (m : M A) (x : A) d : is_Ok (run m d).1 → run m d = (Ok (get x (run m d).1), (run m d).2).
Proof. destruct (run m d) as [[y|e] d']; intros [z H]; [done|done]. Qed.

Example ReplaceMempool_forgets_witness :
  mempool_outputs (pool (run (ReplaceMempool 2000 no_mempool) after_snapshot).2) =
  mempool_outputs (pool (run (ReplaceMempool 2000 no_mempool) (holding chain_a)).2).
Proof.
  assert (run (ReplaceMempool 1000 snapshot_a) (holding chain_a) = (Ok tt, after_snapshot)) as E1.
  { etransitivity; [apply (run_pair _ tt); evaluate|]. by destruct (get tt _). }
  assert (run (ReplaceMempool 2000 no_mempool) after_snapshot =
    (Ok tt, (run (ReplaceMempool 2000 no_mempool) after_snapshot).2)) as E2.
  { etransitivity; [apply (run_pair _ tt); evaluate|]. by destruct (get tt _). }
  assert (run (ReplaceMempool 2000 no_mempool) (holding chain_a) =
    (Ok tt, (run (ReplaceMempool 2000 no_mempool) (holding chain_a)).2)) as E3.
  { etransitivity; [apply (run_pair _ tt); evaluate|]. by destruct (get tt _). }
  exact (proj1 (ReplaceMempool_forgets 1000 2000 snapshot_a no_mempool _ _ _ _ E1 E2 E3)).
Defined.

(** ** The chain package *)

Example Key_faithful_witness :
  OutPointFromKey (Key deposit_point) = Ok deposit_point ∧
  (Key deposit_point = Key reward_point → deposit_point = reward_point).
Proof.
  assert (OutPoint_typed deposit_point) as H1 by evaluate.
  assert (OutPoint_typed reward_point) as H2 by evaluate.
  pose proof (Key_faithful deposit_point reward_point (Key reward_point) H1 H2) as (Ha & _ & Hb).
  exact (conj (Ha ltac:(vm_compute; congruence)) Hb).
Defined.

Example market_funds_roundtrip_witness :
  MarketFunds (MarketFundsOutPoint (zero_array 6) 70000 true) = (zero_array 6, 70000, true).
Proof.
  exact (proj2 (market_funds_roundtrip (zero_array 6) 70000 true ltac:(unfold is_u32; lia))).
Defined.

Definition market_point : OutPoint := MarketFundsOutPoint (copy_into 6 [x07]) 12 false.

Example OutPoint_json_roundtrip_witness :
  dec_OutPoint (get JNull (enc_OutPoint market_point)) zero_OutPoint = Ok market_point.
Proof.
  assert (is_u32 (Vout market_point)) as Hv by evaluate.
  assert (enc_OutPoint market_point = Ok (get JNull (enc_OutPoint market_point))) as Hj
    by (apply get_ok; evaluate).
  exact (OutPoint_json_roundtrip market_point _ zero_OutPoint Hv
    (λ _, ex_intro _ (copy_into 6 [x07]) (ex_intro _ 12 (ex_intro _ false
      (conj (ltac:(unfold is_u32; lia) : is_u32 12) eq_refl)))) Hj).
Defined.

Definition leafy_input : Input := {| in_OutPoint := deposit_point; in_LeafHash := [x01; x02] |}.

Example Input_json_roundtrip_witness :
  dec_Input (get JNull (enc_Input leafy_input)) zero_Input = Ok leafy_input.
Proof.
  assert (enc_Input leafy_input = Ok (get JNull (enc_Input leafy_input))) as Hj by (apply get_ok; evaluate).
  assert (Input_wf leafy_input) as Hw by (split; [evaluate | discriminate]).
  exact (Input_json_roundtrip leafy_input _ zero_Input Hw Hj).
Defined.

Definition reward : Coinbase := {| cb_Memo := [x05]; cb_Outputs := [pay 1 50]; cb_KeyedByTxid := true |}.

Example Coinbase_json_roundtrip_witness : dec_Coinbase (enc_Coinbase reward) zero_Coinbase = Ok reward.
Proof.
  assert (Forall Output_wf (cb_Outputs reward)) as Ho by (constructor; [by eexists|constructor]).
  exact (Coinbase_json_roundtrip reward zero_Coinbase Ho ltac:(discriminate)).
Defined.

Example text_roundtrips_witness : dec_Address (enc_Address (a 3)) zero_address = Ok (a 3).
Proof.
  pose proof (text_roundtrips (h 1) (h 2) (a 3) [x09] zero_address) as (_ & _ & H & _). exact H.
Defined.

Definition signed : Body :=
  {| body_Coinbase := zero_Coinbase; Transactions := [spend_deposit; failed_trade];
     Authorizations := [zero_Authorization; zero_Authorization; zero_Authorization] |}.

Example AuthorizationsFor_partition_witness :
  ∃ parts,
    traverse (λ i _, AuthorizationsFor signed (Z.of_nat i)) (Transactions signed) = Ok parts ∧
    concat parts = take (count_inputs (Transactions signed)) (Authorizations signed).
Proof.
  destruct (AuthorizationsFor_partition signed ltac:(vm_compute; lia)) as (parts & H1 & H2 & _).
  exists parts. exact (conj H1 H2).
Defined.

(** The stand-in digest keeps the merkle root, so it tells these two apart. *)
Example CoinbaseTxid_injective_witness :
  CoinbaseTxid (blk_Header (ch_Block genesis)) ≠ CoinbaseTxid (blk_Header (ch_Block block_a)).
Proof.
  intros E.
  assert (blake3_sum256 (coinbase_encoding (blk_Header (ch_Block genesis))) ≠
    blake3_sum256 (coinbase_encoding (blk_Header (ch_Block block_a)))) as Hd by evaluate.
  pose proof (CoinbaseTxid_injective _ _ (λ H, False_ind _ (Hd H)) E) as H.
  discriminate H.
Defined.

Definition index_json : json :=
  JObj [("deposits"%string, JArr [JObj [
    ("outpoint"%string, get JNull (enc_OutPoint deposit_point));
    ("output"%string, enc_Output (pay 1 100))]])].

Example BlockIndex_typed_witness :
  index_typed (get zero_BlockIndex (dec_BlockIndex index_json zero_BlockIndex)).
Proof.
  assert (dec_BlockIndex index_json zero_BlockIndex =
    Ok (get zero_BlockIndex (dec_BlockIndex index_json zero_BlockIndex))) as H by (apply get_ok; evaluate).
  exact (BlockIndex_typed index_json _ H).
Defined.

Example withdrawal_exact_witness :
  @DecodeContent Bitnames.Decoder (withdrawal_output "BitcoinWithdrawal" None (Some 7) (Some 1000) (Some 25) "addr") =
    Ok {| ValueSats := 1025; Type_ := "withdrawal" |}.
Proof.
  assert (Bitnames.Decoder ∈ all_decoders) as HD by (unfold all_decoders; do 2 right; left).
  assert (withdrawal_tag Bitnames.Decoder "BitcoinWithdrawal") as Ht by (right; split; [reflexivity|left]).
  pose proof (withdrawal_exact Bitnames.Decoder "BitcoinWithdrawal" None (Some 7) (Some 1000) (Some 25) "addr" HD Ht
    I ltac:(cbn; unfold is_u64; lia) ltac:(cbn; unfold is_u64; lia) ltac:(cbn; unfold is_u64; lia)) as [H _].
  exact (H ltac:(cbn; unfold MaxInt64; lia)).
Defined.

Definition started : decoder_table := get ∅ register_init.

Definition thunder_decoder : Decoder :=
  (get ({| Name := ""; Slot := 0; NodeBasePort := 0; APIBasePort := 0 |}, Zside.Decoder)
    (Lookup "thunder" started)).2.

Example registered_amounts_fit_witness : 0 ≤ 1025 ≤ MaxInt64.
Proof.
  assert (register_init = Ok started) as Ht by (apply get_ok; evaluate).
  assert (is_Ok (Lookup "thunder" started)) as Hl by evaluate.
  assert (@DecodeContent thunder_decoder (withdrawal_output "Withdrawal" (Some 1000) (Some 25) None None "addr") =
    Ok {| ValueSats := 1025; Type_ := "withdrawal" |}) as Hc by (vm_compute; reflexivity).
  destruct (Lookup "thunder" started) as [[s D']|e] eqn:El; [|by destruct Hl].
  assert (thunder_decoder = D') as E by (unfold thunder_decoder; by rewrite El).
  rewrite E in Hc.
  exact (registered_amounts_fit started "thunder" s D' _ _ Ht El Hc).
Defined.

(** ** Behaviours worth knowing *)

(** Two blocks with one merkle root share the key of their rewards. The second
    reward of 7 is dropped without an error, though the comment on
    [outputs_coinbase_block_idx] says the collision is caught. *)
Definition same_root : list chain_block := [genesis; reward_block 15 1 11].

Example second_reward_lost :
  is_Some (build (rows same_root)) ∧
  (map_to_list (outputs (built (rows same_root)))).*2 ≫= (λ o, [(o_height o, o_value_sats o)]) =
    [(0, 50); (0, 100)].
Proof. split; [evaluate | vm_compute; reflexivity]. Qed.

(** A node that leaves branch B for branch C after [n] calls. *)
Definition fork_c : list chain_block := [genesis; reward_block 23 5 11; reward_block 24 6 23].
Definition turning (n : nat) : world :=
  {| at_call := λ k, if (k <? n)%nat then still_snapshot chain_b else still_snapshot fork_c;
     has_heights := false; has_times := false; others := λ _ d, d |}.

Definition mixed : db :=
  c_db (p_conn (Once Thunder.Decoder (turning 10) (Pass (Conn before_a []) 0)).2).

(** One pass crosses the change and leaves a block of each branch; the next
    passes find the tip where the node has it and never look below. *)
Example branches_mix :
  (b_hash <$> blocks (chain_tables mixed) !! 1, b_hash <$> blocks (chain_tables mixed) !! 2,
   b_prev_hash <$> blocks (chain_tables mixed) !! 2) = (Some (h 13), Some (h 24), Some (Some (h 23))) ∧
  (Once Thunder.Decoder (still fork_c) (Pass (Conn mixed []) 0)).2 = Pass (Conn mixed []) 5.
Proof. split; vm_compute; reflexivity. Qed.
