(* ===== verification/ApiExamples.v ===== *)
(** * The API at work

    The theorems on answers, applied to the chain and the snapshot of
    [Samples] and [Examples]. *)

From S2P Require Import Prelude GoStd Json Hash OutPoint Block BlockIndex Decoders Registry.
From S2P Require Import Tables Write Ledger WriteSpec Prepare Read ReadSpec Activity Mempool Esplora.
From S2P Require Import Handlers Respond Router ApiSpec ApiProps StoreProps Samples Examples.
Open Scope Z_scope.

(** The body of an answer. *)
Definition body {A} (x : A) (r : reply A) : A := match r with WriteJSON y => y | _ => x end.

Definition is_json {A} (r : reply A) : bool := match r with WriteJSON _ => true | _ => false end.

Lemma body_ok {A} (x : A) r : is_json r = true → r = WriteJSON (body x r).
Proof. by destruct r. Qed.

(** The index of branch A with one unconfirmed payment: the 60 of address 2,
    of which 55 are paid on. *)
Definition busy : db := after_snapshot.

Lemma busy_wf : wf 2 (chain_tables busy).
Proof. assert (chain_tables busy = chain_tables (holding chain_a)) as -> by (vm_compute; reflexivity). exact holding_a_wf. Qed.

Definition address_2 : string := hex_encode (bytes (a 2)).

Definition no_count : ApiTxoStats :=
  {| FundedTxoCount := 0; FundedTxoSum := 0; SpentTxoCount := 0; SpentTxoSum := 0; api_TxCount := 0 |}.
Definition no_info : AddressInfo :=
  {| ai_Address := ""; ai_ScriptHash := ""; ChainStats := no_count; MempoolStats_ := no_count |}.

Definition info_2 : AddressInfo := body no_info (serve (addressInfo (Ok tt) "/address/2" address_2) busy).
Definition coins_2 : list ApiUTXO := body [] (serve (addressUTXOs (Ok tt) "/address/2" address_2) busy).

Lemma info_2_ok : serve (addressInfo (Ok tt) "/address/2" address_2) busy = WriteJSON info_2.
Proof. apply body_ok. vm_compute. reflexivity. Qed.
Lemma coins_2_ok : serve (addressUTXOs (Ok tt) "/address/2" address_2) busy = WriteJSON coins_2.
Proof. apply body_ok. vm_compute. reflexivity. Qed.

(** Every pending spend takes an unspent coin. *)
Definition fresh_pool (d : db) : bool :=
  forallb (λ ks : OutPointKey * mempool_spend_row, match outputs (chain_tables d) !! ks.1 with
                  | Some o => bool_decide (¬ spent_row o) | None => true end)
    (map_to_list (mempool_spends (pool d))).

Lemma fresh_pool_ok d :
  fresh_pool d = true →
  ∀ k s o, mempool_spends (pool d) !! k = Some s → outputs (chain_tables d) !! k = Some o → ¬ spent_row o.
Proof.
  unfold fresh_pool. rewrite forallb_forall. intros H k s o Hs Ho.
  apply elem_of_map_to_list, list_elem_of_In in Hs. specialize (H _ Hs). cbn in H. rewrite Ho in H.
  by apply bool_decide_eq_true in H.
Qed.

Lemma busy_fresh :
  ∀ k s o, mempool_spends (pool busy) !! k = Some s → outputs (chain_tables busy) !! k = Some o → ¬ spent_row o.
Proof. apply fresh_pool_ok. vm_compute. reflexivity. Qed.

Example address_balance_witness :
  FundedTxoSum (ChainStats info_2) + FundedTxoSum (MempoolStats_ info_2) -
    (SpentTxoSum (ChainStats info_2) + SpentTxoSum (MempoolStats_ info_2)) = sumZ utxo_Value coins_2.
Proof.
  assert (addressKey "/address/2" address_2 = Ok (ColumnAddress, bytes (a 2))) as Hk by (vm_compute; reflexivity).
  pose proof (address_balance plain_postgres_laws 2 (Ok tt) "/address/2" address_2 busy info_2 coins_2 _ _
    busy_wf Hk info_2_ok coins_2_ok) as (_ & _ & H).
  exact (proj1 (H busy_fresh)).
Defined.

Example coins_2_values :
  (utxo_Value <$> coins_2, SpentTxoSum (MempoolStats_ info_2)) = ([], 60).
Proof. vm_compute. reflexivity. Qed.

(** ** Requests *)

Example ServeHTTP_safe_witness :
  ∃ r, ServeHTTP (Ok tt) (GetTx (Hash_String (h 21))) (Conn busy [true]) = (r, Conn busy []) ∧
    rp_status r = StatusInternalServerError.
Proof.
  destruct (ServeHTTP (Ok tt) (GetTx (Hash_String (h 21))) (Conn busy [true])) as [r c'] eqn:E.
  pose proof (ServeHTTP_safe (Ok tt) (GetTx (Hash_String (h 21))) (Conn busy [true]) r c' E) as (Hd & _ & _).
  exists r. assert (c_faults c' = []) as Hf by (change c' with (r, c').2; rewrite <- E; vm_compute; reflexivity).
  destruct c' as [d fs]. cbn in Hd, Hf. subst. split; [done|].
  change r with (r, Conn busy []).1. rewrite <- E. vm_compute. reflexivity.
Defined.




(** The history of address 1 below the block of its spend: the genesis block
    holds no transaction of it, only the reward and the deposit. *)
Definition older_1 : list ApiTx :=
  body [] (serve (addressTxs (Ok tt) "/address/1" (hex_encode (bytes (a 1))) (Hash_String (h 21))) busy).

Example addressTxs_cursor_witness : (length older_1 ≤ 25)%nat.
Proof.
  assert (serve (addressTxs (Ok tt) "/address/1" (hex_encode (bytes (a 1))) (Hash_String (h 21))) busy =
    WriteJSON older_1) as H by (apply body_ok; vm_compute; reflexivity).
  assert (is_Some (txs (chain_tables busy) !! h 21)) as Ht by (apply (bool_decide_unpack _); vm_compute; exact I).
  destruct Ht as [t Ht].
  exact (proj1 (addressTxs_cursor plain_postgres_laws 2 (Ok tt) "/address/1" (hex_encode (bytes (a 1)))
    (Hash_String (h 21)) busy (h 21) t ColumnAddress (bytes (a 1)) older_1 busy_wf ltac:(lia)
    ltac:(vm_compute; discriminate) (ParseHash_String _) Ht ltac:(vm_compute; reflexivity) H)).
Defined.

Example tx_route_answers_witness :
  ∃ x, serve (tx_route (Ok tt) (Hash_String (h 41))) busy = WriteJSON x ∧ tx_Status x = pendingStatus.
Proof.
  pose proof (tx_route_answers 2 (h 41) busy busy_wf ltac:(lia)) as H.
  assert (txs (chain_tables busy) !! h 41 = None) as E1
    by (apply eq_None_not_Some; apply (bool_decide_unpack _); vm_compute; exact I).
  assert (is_Some (mempool_txs (pool busy) !! h 41)) as [t E2] by (apply (bool_decide_unpack _); vm_compute; exact I).
  cbn zeta in H. rewrite E1, E2 in H. destruct H as (x & H1 & _ & _ & H2). exists x. exact (conj H1 H2).
Defined.

Definition spends_21 : list Outspend := body [] (serve (outspends (Ok tt) (Hash_String (h 21))) busy).

Example outspends_report_witness :
  ∃ rows, StronglySorted (λ a b, o_vout a ≤ o_vout b) rows ∧
    Forall2 (outspend_of (chain_tables busy)) rows spends_21.
Proof.
  assert (serve (outspends (Ok tt) (Hash_String (h 21))) busy = WriteJSON spends_21) as H
    by (apply body_ok; vm_compute; reflexivity).
  destruct (outspends_report plain_postgres_laws 2 (h 21) busy spends_21 busy_wf ltac:(lia) H)
    as (rows & _ & H1 & H2).
  exists rows. exact (conj H1 H2).
Defined.

Example start_height_refused_witness :
  serve (blocks_route (Ok tt) "tip") busy = WriteError StatusInternalServerError "the request failed".
Proof.
  exact (proj1 (proj2 (start_height_refused "tip" busy ltac:(discriminate) ltac:(vm_compute; reflexivity)))).
Defined.

(** ** Activity *)

Definition rows_a : list ActivityRow := get [] (run (ActivityInBlock (h 12)) busy).1.
Lemma rows_a_read : run (ActivityInBlock (h 12)) busy = (Ok rows_a, busy).
Proof. unfold rows_a, ActivityInBlock. apply run_read. evaluate. Qed.

Definition no_row : BlockRow :=
  {| br_Height := 0; br_Hash := h 0; br_PrevHash := None; br_MerkleRoot := h 0; br_MainHash := h 0;
     br_MainHeight := None; br_BlockTime := None; br_TxCount := 0; br_FeeSats := 0; br_ValueSats := 0 |}.
Definition header_a : BlockRow := get no_row (run (BlockByHash (h 12)) busy).1.
Lemma header_a_read : run (BlockByHash (h 12)) busy = (Ok header_a, busy).
Proof. unfold header_a, BlockByHash. apply run_read. evaluate. Qed.

(** The fee of 10 and the 90 paid out. *)
Example ActivityInBlock_adds_up_witness :
  sumZ ac_FeeSats rows_a = br_FeeSats header_a ∧ br_FeeSats header_a = 10.
Proof.
  pose proof (ActivityInBlock_adds_up plain_postgres_laws 2 (h 12) busy rows_a header_a busy_wf
    header_a_read rows_a_read) as (_ & H & _).
  split; [exact H | vm_compute; reflexivity].
Defined.

Definition ids_a : list Hash := get [] (run (BlockTxids (h 12)) busy).1.
Lemma ids_a_read : run (BlockTxids (h 12)) busy = (Ok ids_a, busy).
Proof. unfold ids_a, BlockTxids. apply run_read. evaluate. Qed.

Definition indices_ok (l : ledger) : bool :=
  let ts := map_to_list (txs l) in
  forallb (λ it : Hash * tx_row, (0 <=? t_tx_index it.2) && forallb (λ jt : Hash * tx_row,
    bool_decide (t_height it.2 = t_height jt.2 → t_tx_index it.2 = t_tx_index jt.2 → it.1 = jt.1)) ts) ts.

Lemma indices_ok_spec l : indices_ok l = true →
  (∀ id1 id2 t1 t2, txs l !! id1 = Some t1 → txs l !! id2 = Some t2 →
     t_height t1 = t_height t2 → t_tx_index t1 = t_tx_index t2 → id1 = id2) ∧
  (∀ id t, txs l !! id = Some t → 0 ≤ t_tx_index t).
Proof.
  unfold indices_ok. rewrite forallb_forall. intros H.
  assert (∀ id t, txs l !! id = Some t → In (id, t) (map_to_list (txs l))) as Hin
    by (intros; by apply list_elem_of_In, elem_of_map_to_list).
  split.
  - intros id1 id2 t1 t2 H1%Hin H2%Hin. apply H in H1. apply andb_true_iff in H1 as [_ H1].
    rewrite forallb_forall in H1. apply H1 in H2. by apply bool_decide_eq_true in H2.
  - intros id t H1%Hin. apply H in H1. apply andb_true_iff in H1 as [H1 _]. cbn in H1. lia.
Qed.

Lemma busy_indices : indices_ok (chain_tables busy) = true.
Proof. vm_compute. reflexivity. Qed.

Example ActivityInBlock_reversed_witness :
  ∃ feed deposits, rows_a = feed ++ deposits ∧ ac_ID <$> feed = reverse ids_a.
Proof.
  destruct (indices_ok_spec _ busy_indices) as [Hinj Hpos].
  assert (is_Some (blocks (chain_tables busy) !! 1)) as [b Hb] by (apply (bool_decide_unpack _); vm_compute; exact I).
  assert (b_hash <$> blocks (chain_tables busy) !! 1 = Some (h 12)) as Hh by (vm_compute; reflexivity).
  rewrite Hb in Hh. injection Hh as Hh.
  pose proof rows_a_read as Hr. pose proof ids_a_read as Ht. rewrite <- Hh in Hr, Ht.
  assert (∀ id1 id2 t1 t2, txs (chain_tables busy) !! id1 = Some t1 → txs (chain_tables busy) !! id2 = Some t2 →
    t_height t1 = 1 → t_height t2 = 1 → t_tx_index t1 = t_tx_index t2 → id1 = id2) as Hinj'
    by (intros id1 id2 t1 t2 H1 H2 E1 E2; apply (Hinj id1 id2 t1 t2 H1 H2); congruence).
  destruct (ActivityInBlock_reversed plain_postgres_laws 2 1 b busy rows_a ids_a busy_wf Hb Hinj' Hpos Hr Ht)
    as (feed & deposits & H1 & H2 & _).
  exists feed, deposits. exact (conj H1 H2).
Defined.

(** ** Deposits *)

(** The deposit of 100 as the genesis feed shows it. *)
Definition feed_0 : list ActivityRow := get [] (run (ActivityInBlock (h 11)) busy).1.
Definition deposit_0 : ActivityRow := List.last feed_0
  {| ac_Kind := ""; ac_ID := h 0; ac_Height := 0; ac_BlockHash := h 0; ac_BlockTime := None;
     ac_FeeSats := 0; ac_SizeBytes := 0; ac_ValueSats := 0 |}.
Definition coin_0 : UTXO :=
  List.hd {| u_OutPoint := deposit_point; u_ValueSats := 0; u_Height := 0; u_BlockHash := None;
     u_BlockTime := None; u_ContentType := ""; u_Content := JNull; u_HeightExact := false; u_Unconfirmed := false |}
    (get [] (run (Deposits [] 5 50) busy).1).

Definition deposit_answers (d : db) (hash : Hash) : bool :=
  forallb (λ ko : OutPointKey * output_row, bool_decide (o_kind ko.2 = KindDeposit → o_source_id ko.2 ≠ hash))
    (map_to_list (outputs (chain_tables d))).

Lemma deposit_answers_ok d hash : deposit_answers d hash = true →
  ∀ k o, outputs (chain_tables d) !! k = Some o → o_kind o = KindDeposit → o_source_id o ≠ hash.
Proof.
  unfold deposit_answers. rewrite forallb_forall. intros H k o Ho.
  apply elem_of_map_to_list, list_elem_of_In in Ho. specialize (H _ Ho). by apply bool_decide_eq_true in H.
Qed.

Example deposit_ids_witness :
  (Source (u_OutPoint coin_0), ac_ID deposit_0) = (h 9, h 9) ∧
  serve (deposit_route (Ok tt) (a_ID (newActivity deposit_0))) busy =
    WriteError StatusNotFound "no deposit from that transaction".
Proof.
  split; [vm_compute; reflexivity|].
  assert (Kind (u_OutPoint coin_0) = KindDeposit) as Hk by (vm_compute; reflexivity).
  assert (deposit_answers busy (flip_hash (ac_ID deposit_0)) = true) as Hd by (vm_compute; reflexivity).
  exact (proj2 (proj2 (deposit_ids plain_postgres_laws 2 busy coin_0 deposit_0 busy_wf Hk))
    (deposit_answers_ok _ _ Hd)).
Defined.
