(* ===== verification/WireExamples.v ===== *)
(** * The wire, the mempool pass and the migrations at work

    A node that answers in JSON, snapshots that come late, a start that dies half
    way, and a loop that meets trouble. *)

From S2P Require Import Prelude GoStd Json JsonText Hash OutPoint Block BlockIndex Encode Decoders Rpc FakeNode Enforcer Registry.
From S2P Require Import Tables Write Ledger WriteSpec WriteProps Migrate Command Prepare Read ReadSpec.
From S2P Require Import Esplora Handlers Escrow ApiSpec Mempool Sync SyncSpec MempoolSync Relay Converge.
From S2P Require Import Polling Wire Pipeline Samples Examples ApiExamples.
From stdpp Require Import relations.
Open Scope Z_scope.

(** ** A node that answers in JSON *)

Definition added (c : chain_block) : event := Added (ch_Hash c) (ch_Block c) (ch_Index c).

(** The test node, given the blocks of a chain. *)
Definition json_node (C : list chain_block) : transport := transport_of true (life true (added <$> C)).

Definition node_client : Client := Rpc.New "http://127.0.0.1:6009/".

(** Nothing listens there. *)
Definition no_enforcer : Enforcer := Enforcer.New "http://127.0.0.1:50051" (λ _ _, Err (Errorf "connection refused")).

Definition wired : world := rpc_world (λ _, json_node chain_b) (λ _, node_client) (λ _, no_enforcer) (λ _, still_snapshot []) (λ _ d, d) false false.

(** Over JSON a pass does what it does over the plain node. *)
Example wired_pass :
  Once Thunder.Decoder wired (Pass (Conn before_a []) 0) =
  Once Thunder.Decoder (still chain_b) (Pass (Conn before_a []) 0).
Proof. vm_compute. reflexivity. Qed.

(** A sidechain node's answer, members in its own order. *)
Definition rust_node : transport := λ _ _,
  Ok {| StatusCode := 200; ans_text := " " +:+ print (enc_result 1 (enc_Hash (h 13))) |}.

Example Call_answers_witness :
  ∃ res, (Call rust_node node_client "get_block_hash" (JArr [JNum "1"]) (dec_ptr zero_hash dec_Hash) None).1 = res ∧
  res = Ok (Some (h 13)).
Proof.
  pose proof (Call_answers rust_node node_client "get_block_hash" (JArr [JNum "1"])
    (dec_ptr zero_hash dec_Hash) None 200 (" " +:+ print (enc_result 1 (enc_Hash (h 13)))) (enc_Hash (h 13)) 0 ""
    ltac:(unfold is_i64; lia)) as (H & _).
  specialize (H 1 eq_refl ltac:(vm_compute; reflexivity)).
  eexists. split; [exact H|]. vm_compute. reflexivity.
Defined.

Example TipHeight_count_witness :
  @Node.TipHeight (client_caller (json_node chain_b) node_client) = Ok 2.
Proof.
  pose proof (@TipHeight_count (client_caller (json_node chain_b) node_client) 3 ltac:(lia)) as [H _].
  exact (H ltac:(vm_compute; reflexivity)).
Defined.

Lemma wired_counts : counts_fit wired.
Proof.
  intros k c Hc. assert (sn_count (at_call wired k) = Ok 3) as H by (vm_compute; reflexivity).
  rewrite H in Hc. injection Hc as <-. lia.
Qed.

Example Once_survives_any_node_witness :
  indexed (pass_db (Once Thunder.Decoder wired (Pass (Conn before_a []) 0)).2).
Proof.
  destruct (Once Thunder.Decoder wired (Pass (Conn before_a []) 0)) as [r p'] eqn:E.
  assert (indexed before_a) as Hi by (eexists; exact (holds_at_height _ _ before_a_holds)).
  exact (Once_survives_any_node (λ _, json_node chain_b) (λ _, node_client) (λ _, no_enforcer) (λ _, still_snapshot [])
    (λ _ d, d) Thunder.Decoder false false (Pass (Conn before_a []) 0) r p' Thunder_laws
    (alone_pool_only wired (λ _ _, eq_refl)) wired_counts Hi E).
Defined.

(** ** The pipeline *)

(** The node takes branch A, gives it up for branch B, and then only its mempool
    and what was submitted to it change. *)
Definition reorganised : list event := (added <$> chain_a) ++ [Reorganized 0] ++ (added <$> drop 1 chain_b).

Definition submission : string := print (enc_request 1 "submit_transaction" (JArr [JObj []])).
Definition listed_entry : MempoolTx := {| mt_Info := info 21 false; mt_Tx := spend_deposit |}.

Definition nodes_b (k : nat) : FakeNode :=
  life true (reorganised ++ [if Nat.even k then Accepted [listed_entry] else Asked submission]).

Ltac holds_text := split; [vm_compute; reflexivity|split; [apply Nat.leb_le; vm_compute; reflexivity|vm_compute; reflexivity]].

Ltac fits :=
  repeat first [ apply Forall_nil_2 | apply Forall_cons_2 | exact I
               | match goal with |- sends _ _ => eexists; split; [vm_compute; reflexivity|holds_text] end
               | by eexists | split
               | done | progress unfold Block_wf, Body_wf, Coinbase_wf, Transaction_wf, Input_wf, Authorization_wf,
                   BlockIndex_wf, TxInfo_wf, Deposit_wf, MarketUtxo_wf, OutPoint_wf, MempoolTx_wf, Output_wf, is_u32 ].

Lemma reorganised_fit k :
  Forall (fit true) (reorganised ++ [if Nat.even k then Accepted [listed_entry] else Asked submission]).
Proof. apply Forall_app. split; [|destruct (Nat.even k)]; fits. Qed.

Lemma nodes_b_held k : held (nodes_b k) ∧ sendable true (nodes_b k).
Proof.
  destruct (life_held true (reorganised ++ [if Nat.even k then Accepted [listed_entry] else Asked submission])) as [H1 H2].
  split; [exact H1|]. apply H2; [apply reorganised_fit|]. rewrite length_app. cbn. lia.
Qed.

Lemma nodes_b_chain k : chain_of (nodes_b k) = chain_b.
Proof. unfold nodes_b. destruct (Nat.even k); vm_compute; reflexivity. Qed.

Example happen_chain_witness :
  chain_of (happen true (life true (added <$> chain_a)) (Reorganized 0)) = [genesis].
Proof.
  pose proof (happen_chain true (life true (added <$> chain_a)) (Reorganized 0)
    (proj1 (life_held true (added <$> chain_a)))) as H.
  exact (H ltac:(cbn; unfold MaxUint32; lia)).
Defined.

(** The database holds branch A; the node is on branch B and changes its mempool
    at every call; mempool passes write in between. *)
Definition e2e : world :=
  pipeline true nodes_b (λ _, node_client) no_enforcer no_times crowd false false.

Lemma e2e_pool_only : PoolOnly e2e.
Proof. intros k d. eexists. reflexivity. Qed.

Example pipeline_reaches_node_witness :
  ∃ r p', Once D e2e (Pass (Conn (holding chain_a) []) 0) = (r, p') ∧
    chain_tables (pass_db p') = built (rows chain_b) ∧
    ApiSpec.serve (tipHeight (Ok tt)) (pass_db p') = WriteText "2".
Proof.
  assert (shared chain_b (rows chain_a) 0) as Hg by (eexists; split; vm_compute; reflexivity).
  assert (chain_b ≠ []) as Hne by discriminate.
  destruct (pipeline_reaches_node D true nodes_b (λ _, node_client) no_enforcer no_times crowd false false
    chain_b nodes_b_chain (λ k, proj1 (nodes_b_held k)) (λ k, proj2 (nodes_b_held k))
    (rows chain_b) (built (rows chain_b)) (rows chain_a) (holding chain_a) 0 0 plain_postgres_laws e2e_pool_only
    rows_b_ok (built_history _ chain_b_ok) holding_a_holds chain_b_commits (or_intror Hg) Hne)
    as (r & p' & H1 & H2 & H3 & _).
  exists r, p'. exact (conj H1 (conj H2 H3)).
Defined.

(** ** The mempool pass *)

(** The node lists the payment of branch A as unconfirmed. *)
Definition listing : list MempoolTx := [{| mt_Info := info 21 false; mt_Tx := spend_deposit |}].

Definition listed_snapshot : snapshot :=
  {| sn_node_up := Ok tt; sn_store_up := Ok tt; sn_count := Ok 2; sn_hash := λ _, Ok None;
     sn_block := λ _, Ok None; sn_index := λ _, Err (Errorf "unknown block"); sn_mempool := Ok listing;
     sn_submit := λ _, Err (Errorf "no broadcast"); sn_bundle := Ok None; sn_failed_height := Ok None;
     sn_height := no_heights; sn_time := no_times; sn_ctx := None |}.

Definition lists : world := {| at_call := λ _, listed_snapshot; has_heights := false; has_times := false; others := λ _ d, d |}.

(** Passes before and after a block with that payment is written. *)
Definition early : pass := Pass (calm before_a) 0.
Definition late : pass := Pass (calm (holding chain_a)) 0.
Definition listed : SMempool := get no_mempool (PrepareMempool D listing).

Lemma listed_ok : PrepareMempool D listing = Ok listed.
Proof. apply get_ok. evaluate. Qed.

Example mempool_pass_witness :
  ∃ p', MempoolSyncer.Once D lists 7 early = (Ok tt, p') ∧
    replaced 7 listed (chain_tables before_a) (pool before_a) (pool (pass_db p')) ∧
    chain_tables (pass_db p') = chain_tables before_a.
Proof.
  run_of (MempoolSyncer.Once D lists 7) early r p' E.
  pose proof (mempool_pass D lists 7 early r p' E) as H.
  succeeds E. destruct x. exists p'. destruct H as [(txs & new & [= <-] & Hn & Hr & Ht & _) _].
  assert (listed = new) as <- by (pose proof listed_ok; congruence).
  exact (conj eq_refl (conj Hr Ht)).
Defined.

Definition paid : SOutput := List.nth 0 (mp_Creates listed)
  {| so_OutPoint := zero_OutPoint; so_Address := a 0; so_ValueSats := 0; so_Content := None;
     so_ContentType := ""; so_HeightExact := false |}.

Example stale_listing_duplicates_witness :
  ∃ p', MempoolSyncer.Once D lists 7 late = (Ok tt, p') ∧
  is_Some (outputs (chain_tables (pass_db p')) !! Key (so_OutPoint paid)) ∧
  is_Some (mempool_outputs (pool (pass_db p')) !! Key (so_OutPoint paid)).
Proof.
  run_of (MempoolSyncer.Once D lists 7) late r p' E.
  succeeds E. destruct x.
  assert (paid ∈ mp_Creates listed) as Hin by (vm_compute; left).
  assert (is_Some (outputs (chain_tables (pass_db late)) !! Key (so_OutPoint paid))) as Hc by evaluate.
  exists p'. split; [reflexivity|].
  exact (stale_listing_duplicates D lists 7 late tt p' listing listed paid E eq_refl listed_ok Hin Hc).
Defined.

(** The address then has one coin of 60, and its list shows it twice. *)
Example coin_listed_twice :
  (λ u, (utxo_Txid u, utxo_Vout u, utxo_Value u)) <$>
    body [] (serve (addressUTXOs (Ok tt) "/address/2" address_2)
      (pass_db (MempoolSyncer.Once D lists 7 late).2)) =
  [(Hash_String (h 21), 0, 60); (Hash_String (h 21), 0, 60)].
Proof. vm_compute. reflexivity. Qed.

(** The payer of that coin was charged for it in a block already, and is charged
    again: its balance falls short of the 60 it holds by the 100 it spent. *)
Definition payer : string := hex_encode (bytes (a 1)).

Definition balance_of (i : AddressInfo) : Z :=
  FundedTxoSum (ChainStats i) + FundedTxoSum (MempoolStats_ i) -
    (SpentTxoSum (ChainStats i) + SpentTxoSum (MempoolStats_ i)).

Example balance_short :
  let d := pass_db (MempoolSyncer.Once D lists 7 late).2 in
  (balance_of (body no_info (serve (addressInfo (Ok tt) "/address/1" payer) d)),
   sumZ utxo_Value (body [] (serve (addressUTXOs (Ok tt) "/address/1" payer) d)),
   sum_rows (λ _ o, o_value_sats o) (spent_twice ColumnAddress (bytes (a 1)) d)) = (-40, 60, 100).
Proof. vm_compute. reflexivity. Qed.

(** ** The migrations *)

(** A schema that remembers the scripts it ran. *)
Definition log_script (body : string) (log : list string) : result (list string) := Ok (log ++ [body]).

Definition directory : list entry :=
  [("002_mempool.sql", Some "mempool"); ("001_initial.sql", Some "initial"); ("old", None)]%string.

(** A start that loses its connection at the commit of the second script. *)
Definition half : state (Schema := list string) :=
  st (migrate log_script directory (Session (State [] None) (replicate 10 false ++ [true]))).2.

Example half_way : half = State ["initial"%string] (Some ["001_initial.sql"%string]).
Proof. vm_compute. reflexivity. Qed.

Example migrations_run_once_witness :
  ∃ s', Open log_script (Ok tt) (Ok tt) directory (Session half []) = (Ok tt, s') ∧
    migrated log_script directory [] (st s') ∧
    applied_names (st s') = Some (migrationNames directory) ∧
    ∀ x', start log_script directory (st s') x' → x' = st s'.
Proof.
  destruct (Open log_script (Ok tt) (Ok tt) directory (Session half [])) as [r s'] eqn:E.
  assert (NoDup directory.*1) as Hn by evaluate.
  assert (rtc (start log_script directory) (State [] None) half) as Hx.
  { apply rtc_once. exists (Ok tt), (Ok tt). eexists _, _, _. split; [apply surjective_pairing|reflexivity]. }
  pose proof (migrations_run_once log_script directory [] half (Ok tt) (Ok tt) [] r s' Hn Hx E) as (Hm & Hok & Hl).
  assert (r = Ok tt) as Hr.
  { apply Hl; [reflexivity..|]. eexists. vm_compute. reflexivity. }
  destruct (Hok Hr) as (H1 & _ & H2). exists s'. rewrite Hr.
  exact (conj eq_refl (conj Hm (conj H1 H2))).
Defined.

(** ** Start-up *)

Example connectors_guard_witness :
  connect (json_node []) "http://127.0.0.1:6009" = Ok (Rpc.New "http://127.0.0.1:6009") ∧
  ∃ c', open_store (Ok tt) "thunder" Signet (calm empty_db) = (Opened, c') ∧
    (λ s, (sy_chain s, sy_network s)) <$> sync_state (c_db c') = Some ("thunder"%string, Signet).
Proof.
  destruct (open_store (Ok tt) "thunder" Signet (calm empty_db)) as [o c'] eqn:E.
  pose proof (connectors_guard (json_node []) "http://127.0.0.1:6009" (Ok tt) "thunder" Signet
    (calm empty_db) o c') as [H1 H2].
  split.
  - apply H1. split; [reflexivity|]. left. evaluate.
  - specialize (H2 E). assert (o = Opened) as Ho.
    { change o with (o, c').1. rewrite <- E. vm_compute. reflexivity. }
    rewrite Ho in H2 |- *. exists c'. exact (conj eq_refl (proj1 (proj2 H2))).
Defined.

(** ** The loop *)

(** A node that does not answer. *)
Definition silent : world :=
  {| at_call := λ _, {| sn_node_up := Err ErrUnavailable; sn_store_up := Ok tt; sn_count := Err ErrUnavailable;
       sn_hash := λ _, Err ErrUnavailable; sn_block := λ _, Err ErrUnavailable;
       sn_index := λ _, Err ErrUnavailable; sn_mempool := Err ErrUnavailable;
       sn_submit := λ _, Err ErrUnavailable; sn_bundle := Err ErrUnavailable;
       sn_failed_height := Err ErrUnavailable; sn_height := no_heights; sn_time := no_times; sn_ctx := None |};
     has_heights := false; has_times := false; others := λ _ d, d |}.

Lemma silent_honest : honest silent chain_b no_heights no_times.
Proof. split; done. Qed.

Definition quiet_turn (w : world) (fs : list bool) : turn := Turn w fs 0 None None.

(** Between any two statements of a block pass the mempool syncer makes a pass of
    its own. *)
Definition mempool_goroutine (k : nat) (d : db) : db :=
  pass_db (MempoolSync.MempoolSyncer.Once D lists (Z.of_nat k) (Pass (calm d) 0)).2.

Lemma mempool_goroutine_pool_only C : PoolOnly (Samples.busy mempool_goroutine C).
Proof.
  intros k d. cbn. unfold mempool_goroutine.
  destruct (MempoolSync.MempoolSyncer.Once D lists (Z.of_nat k) (Pass (calm d) 0)) as [r p'] eqn:E.
  by apply mempool_pass_pool_only in E.
Qed.

Definition shared_db : world := Samples.busy mempool_goroutine chain_b.

(** A dead node, a statement that fails, a pass that goes through, and more
    trouble. *)
Definition trouble : list turn := [quiet_turn silent []; quiet_turn shared_db [false; false; true]].
Definition turns_b : list turn := trouble ++ quiet_turn shared_db [] :: trouble.

Lemma trouble_honest : Forall (honest_turn D chain_b no_heights no_times (rows chain_b)) trouble.
Proof.
  constructor; [|constructor; [|constructor]]; (split; [|split; [|exact rows_b_ok]]).
  - by apply alone_pool_only.
  - exact silent_honest.
  - apply mempool_goroutine_pool_only.
  - apply serves_honest, busy_serves, hashes_b_distinct.
Qed.

Lemma branches_commit : hashes_commit chain_b (rows chain_b) (rows chain_a).
Proof.
  intros i (b & Hb & Hc). destruct i as [|[|i]]; [vm_compute; reflexivity| |].
  - assert (sb_Hash <$> rows chain_a !! 1%nat ≠ ch_Hash <$> chain_b !! 1%nat) as Hne by evaluate.
    rewrite Hb in Hne. destruct (Hne (eq_sym Hc)).
  - pose proof (lookup_lt_Some _ _ _ Hb) as Hlt.
    assert (length (rows chain_a) = 2%nat) as Hlen by (vm_compute; reflexivity). rewrite Hlen in Hlt. lia.
Qed.

Example Run_converges_witness :
  holds (rows chain_b) (Syncer.Run D turns_b (holding chain_a)).2 ∧
  chain_tables (Syncer.Run D turns_b (holding chain_a)).2 = built (rows chain_b).
Proof.
  destruct (Syncer.Run D turns_b (holding chain_a)) as [r d'] eqn:E.
  assert (shared chain_b (rows chain_a) 0) as Hg by (eexists; split; vm_compute; reflexivity).
  assert (calm_turn D chain_b no_heights no_times (rows chain_b) (quiet_turn shared_db [])) as Ht.
  { split; [apply mempool_goroutine_pool_only|].
    split; [exact (Samples.busy_serves _ chain_b hashes_b_distinct)|split; [exact rows_b_ok|reflexivity]]. }
  assert (Forall never_done (trouble ++ [quiet_turn shared_db []])) as Hn
    by (repeat constructor).
  assert (chain_b ≠ []) as Hne by discriminate.
  exact (Run_converges D chain_b no_heights no_times (rows chain_b) (built (rows chain_b))
    plain_postgres_laws (built_history _ chain_b_ok) (rows chain_a) trouble _ trouble (holding chain_a) r d'
    holding_a_holds branches_commit (or_intror Hg) Hne trouble_honest Ht trouble_honest Hn E).
Defined.

(** ** The relay *)

Definition post_body : request_body := Ok " {} "%string.

Definition accepts : world :=
  {| at_call := λ _, {| sn_node_up := Ok tt; sn_store_up := Ok tt; sn_count := Ok 2; sn_hash := λ _, Ok None;
       sn_block := λ _, Ok None; sn_index := λ _, Err (Errorf "unknown block"); sn_mempool := Ok [];
       sn_submit := λ tx, match tx with JObj _ => Ok (h 51) | _ => Err (Errorf "bad transaction") end;
       sn_bundle := Ok None; sn_failed_height := Ok None; sn_height := no_heights; sn_time := no_times;
       sn_ctx := None |};
     has_heights := false; has_times := false; others := λ _ d, d |}.

Example broadcast_relays_witness :
  ∃ p', broadcast (Some (Broadcaster.Broadcast accepts)) post_body early =
    (Ok (WriteText (Hash_String (h 51))), p') ∧ pass_db p' = before_a.
Proof.
  destruct (broadcast (Some (Broadcaster.Broadcast accepts)) post_body early) as [rep p'] eqn:E.
  pose proof (broadcast_relays accepts post_body early rep p' E) as (Hd & _ & _ & Hok).
  assert (readTransactionBody post_body = Ok (JObj [])) as Hr by (vm_compute; reflexivity).
  destruct (Hok _ Hr) as (Hid & _). destruct (Hid (h 51) eq_refl eq_refl) as [Hrep _].
  exists p'. rewrite Hrep. exact (conj eq_refl Hd).
Defined.

(** ** The escrow *)

Definition treasury : Ctip_ := {| Txid := "ab"; ctip_Vout := 0; ctip_ValueSats := 2100 |}.

(** Two slots, out of order; one has a treasury. *)
Definition body_200 (j : json) : result http_answer :=
  Ok {| StatusCode := 200; ans_text := print j |}.

Definition escrow : Enforcer := Enforcer.New "http://127.0.0.1:50051/" (λ url body,
  if bool_decide (url = "http://127.0.0.1:50051/cusf.mainchain.v1.ValidatorService/GetSidechains"%string) then
    body_200 (JObj [("sidechains"%string, JArr [JObj [("sidechainNumber"%string, JNum "9")];
                                                JObj [("sidechainNumber"%string, JNum "2")]])])
  else match parse body with
  | Some (JObj [(_, JNum slot)]) => body_200 (if String.eqb slot "9" then enc_ctip treasury else JObj [])
  | _ => Err (Errorf "unknown call")
  end).



Example Ctip_roundtrip_witness : Ctip escrow 9 = Ok (Some treasury).
Proof.
  pose proof (Ctip_roundtrip escrow 9 treasury (print (enc_ctip treasury)) ltac:(unfold is_u32; cbn; lia)
    ltac:(unfold is_i64; cbn; lia)) as (H & _).
  exact (H ltac:(vm_compute; reflexivity) ltac:(vm_compute; reflexivity)).
Defined.
