(* ===== verification/ProgramExamples.v ===== *)
(** * The program at work

    A process over its life, the test node behind the client, and the router on
    requests of its table. *)

From S2P Require Import Prelude GoStd Json JsonText Hash OutPoint Block BlockIndex Encode Decoders Rpc FakeNode Enforcer Registry.
From S2P Require Import Tables Write Ledger WriteSpec Command Prepare Read Esplora Handlers Respond Router Mux.
From S2P Require Import ApiSpec Mempool Sync SyncSpec MempoolSync Relay Server ReplyText Converge Wire Pipeline Program.
From S2P Require Import Samples Examples WireExamples.
From stdpp Require Import relations.
Open Scope Z_scope.

(** ** The life of a process *)

Definition flags : config :=
  {| chainName := "thunder"; network := "signet"; nodeURL := ""; enforcerURL := ""; databaseURL := "postgres:///";
     listen := ""; logLevel := "info" |}.

Definition nothing_settled : settings :=
  {| st_level := 0; st_network := Mainnet; st_spec := {| Name := ""; Slot := 0; NodeBasePort := 0; APIBasePort := 0 |};
     st_decoder := D; st_nodeURL := ""; st_listen := "" |}.

Definition settled : settings := get nothing_settled (configure Command.started flags).

Lemma flags_settle : configure Command.started flags = Ok settled.
Proof. apply get_ok. evaluate. Qed.

Definition no_http (_ : nat) : transport := λ _ _, Err (Errorf "connection refused").
Definition app : App := assemble flags settled no_http.

(** The store is opened on an empty database; the block syncer follows a node over
    JSON-RPC among mempool passes; a request comes; the process starts over. *)
Definition opened_db : db := c_db (open_store (Ok tt) "thunder" Signet (calm empty_db)).2.

Definition following : world :=
  sees (app_syncer app) (λ _, json_node chain_b) (λ _, node_client) (λ _, calm_snapshot no_times) mempool_goroutine.

Definition synced_db : db :=
  pass_db (Once (syn_decoder (app_syncer app)) following (MkPass (Conn opened_db []) 0 0)).2.

Lemma following_pool_only : PoolOnly following.
Proof.
  intros k d. unfold following, sees, rpc_world, mempool_goroutine. cbn [others].
  destruct (MempoolSync.MempoolSyncer.Once D lists (Z.of_nat k) (Pass (calm d) 0)) as [r p'] eqn:E.
  by apply mempool_pass_pool_only in E.
Qed.

Lemma following_counts : counts_fit following.
Proof.
  intros k c Hc. assert (sn_count (at_call following k) = Ok 3) as H by (vm_compute; reflexivity).
  rewrite H in Hc. injection Hc as <-. lia.
Qed.

Lemma following_keeps : surroundings flags settled true following.
Proof.
  split; [done|]. intros k d Hd. destruct (following_pool_only k d) as [q ->]. by apply pool_free_ready.
Qed.

Lemma alone_keeps : surroundings flags settled true (still chain_b).
Proof. by split. Qed.

Lemma asked d : step flags settled (State true d) (State true d).
Proof.
  pose proof (step_work flags settled true d _ (work_request flags settled _ d [] 0 no_http (still chain_b) 0 true
    "GET" ["blocks"; "tip"; "height"]%string post_body alone_keeps)) as H.
  destruct (ServeHTTP_db (still chain_b) (enforcer_of flags (no_http 0)) true "GET" ["blocks"; "tip"; "height"]%string
    post_body (MkPass (Conn d []) 0 0)) as [Hd|Hd]; unfold running in Hd; cbn [app_server assemble] in H;
    rewrite Hd in H; exact H.
Qed.

Lemma opens :
  open_store (Ok tt) (chainName flags) (st_network settled) (calm empty_db) = (Opened, calm opened_db).
Proof. vm_compute. reflexivity. Qed.

Lemma followed : step flags settled (State true opened_db) (State true synced_db).
Proof.
  exact (step_work flags settled true opened_db _ (work_block flags settled _ opened_db [] 0 no_http (λ _, json_node chain_b) (λ _, node_client)
    (λ _, calm_snapshot no_times) mempool_goroutine following_keeps following_pool_only following_counts)).
Qed.

Lemma life_of_process : rtc (step flags settled) (State false empty_db) (State false synced_db).
Proof.
  apply (rtc_l _ _ (State true opened_db)).
  { exact (step_open flags settled false (Ok tt) (calm empty_db) Opened (calm opened_db) opens). }
  apply (rtc_l _ _ (State true synced_db)); [exact followed|].
  apply (rtc_l _ _ (State true synced_db)); [exact (asked synced_db)|].
  apply rtc_once, step_restart.
Qed.

Example program_keeps_index_witness :
  indexed synced_db ∧ timeless synced_db ∧
  (λ r, (sy_chain r, sy_network r, sy_tip_height r)) <$> sync_state synced_db = Some ("thunder"%string, Signet, Some 2).
Proof.
  pose proof (program_keeps_index flags settled flags_settle _ life_of_process) as [H _]. cbn [data] in H.
  destruct H as [(H1 & _ & H3)|[_ H]].
  - split; [exact H1|split; [exact H3|vm_compute; reflexivity]].
  - assert (sync_state synced_db ≠ None) as Hs by evaluate. destruct (Hs H).
Defined.

(** ** The test node behind the client *)

Definition node_b : FakeNode := nodes_b 0.

#[local] Opaque parse parse_first print node_b.

Example FakeNode_answers_witness :
  @Node.TipHeight (client_caller (transport_of true node_b) node_client) = Ok 2 ∧
  @Node.GetBlock _ (client_caller (transport_of true node_b) node_client) (h 12) = Ok (Some (ch_Block block_a)) ∧
  @Node.BlockHashAt (client_caller (transport_of true node_b) node_client) 1 = Ok (Some (h 13)).
Proof.
  destruct (FakeNode_answers true node_b node_client (proj2 (nodes_b_held 0)))
    as (_ & Htip & _ & Hat & Hb & _).
  split; [|split].
  - etransitivity; [exact Htip|]. vm_compute. reflexivity.
  - etransitivity; [exact (Hb (h 12))|]. vm_compute. reflexivity.
  - specialize (Hat 1%nat ltac:(unfold is_u32; lia)). etransitivity; [exact Hat|]. vm_compute. reflexivity.
Defined.

Definition json_a : json := get JNull (enc_Block true (ch_Block block_a)).

Example node_json_round_trip_witness : dec_Block json_a (ch_Block genesis) = Ok (ch_Block block_a).
Proof.
  destruct (node_json_round_trip true) as [H _].
  assert (Block_wf (ch_Block block_a)) as Hw by fits.
  assert (enc_Block true (ch_Block block_a) = Ok json_a) as Hj by (vm_compute; reflexivity).
  exact (H _ _ _ Hw Hj).
Defined.

(** ** The router *)

(** A request for a transaction reaches its handler; the same path under [PUT] is
    made from a pattern of another method, and no pattern makes [/tx/ab/cd]. *)
Example Handler_routes_witness :
  (∃ vs, Route "GET" ["tx"; "ab"]%string = Found (Store (GetTx (PathValue vs "txid"))) vs ∧ PathValue vs "txid" = "ab"%string) ∧
  (∃ p h v, (p, h) ∈ routes ∧ fill v (pat_path p) = ["tx"; "ab"]%string ∧ allows (pat_method p) "PUT" = false) ∧
  (∀ p h v, (p, h) ∈ routes → fill v (pat_path p) ≠ ["tx"; "ab"; "cd"]%string).
Proof.
  destruct Handler_routes as (_ & _ & _ & Hmade & _ & Hother & Hnone). split; [|split].
  - assert ((Pattern "GET" [Lit "tx"; Wild "txid"]%string, λ _ v, Store (GetTx (v "txid"%string))) ∈ routes) as Hin
      by (apply (list_elem_of_lookup_2 _ 12); vm_compute; reflexivity).
    destruct (Hmade _ _ "GET"%string (λ _, "ab"%string) Hin eq_refl) as (vs & Hr & Hv).
    exists vs. split; [exact Hr|]. rewrite Hv. reflexivity.
  - apply (Hother "PUT"%string ["tx"; "ab"]%string). vm_compute. reflexivity.
  - apply (Hnone "GET"%string). vm_compute. reflexivity.
Defined.

(** Without a node, a submission is refused and nothing is written. *)
Example Server_safe_witness :
  ∃ a p', Server.ServeHTTP silent (running silent None) true "POST" ["tx"]%string post_body late = (Ok a, p') ∧
    rp_status a = StatusBadRequest ∧ pass_db p' = pass_db late ∧ p_drops p' = p_drops late.
Proof.
  destruct (Server.ServeHTTP silent (running silent None) true "POST" ["tx"]%string post_body late) as [r p'] eqn:E.
  pose proof (Server_safe silent None true "POST" ["tx"]%string post_body late r p' E) as (a & Hr & Hd & _).
  assert (match (Server.ServeHTTP silent (running silent None) true "POST" ["tx"]%string post_body late).1 with
    Ok a => rp_status a | Err _ => 0 end = StatusBadRequest) as Hs by (vm_compute; reflexivity).
  assert (p_drops (Server.ServeHTTP silent (running silent None) true "POST" ["tx"]%string post_body late).2 =
    p_drops late) as Hn by (vm_compute; reflexivity).
  rewrite E, Hr in Hs. rewrite E in Hn. exists a, p'. rewrite Hr.
  refine (conj eq_refl (conj Hs (conj _ Hn))). by destruct Hd.
Defined.

(** A stored transaction, as JSON. *)
Example ServeHTTP_readable_witness :
  ∃ a p' j, Server.ServeHTTP (still chain_a) (running (still chain_a) None) true "GET" ["tx"; Hash_String (h 21)]%string
    (Ok ""%string) late = (Ok a, p') ∧ rp_type a = "application/json"%string ∧ parse (rp_body a) = Some j.
Proof.
  destruct (Server.ServeHTTP (still chain_a) (running (still chain_a) None) true "GET" ["tx"; Hash_String (h 21)]%string
    (Ok ""%string) late) as [r p'] eqn:E.
  assert (match (Server.ServeHTTP (still chain_a) (running (still chain_a) None) true "GET"
    ["tx"; Hash_String (h 21)]%string (Ok ""%string) late).1 with Ok a => rp_type a | Err _ => ""%string end =
    "application/json"%string) as Ht by (vm_compute; reflexivity).
  rewrite E in Ht. destruct r as [a|e]; [|discriminate Ht]. cbn [fst] in Ht. exists a, p'.
  assert (contents_readable (others (still chain_a) (Datatypes.S (p_clock late)) (pass_db late))) as Hc
    by (apply (bool_decide_unpack _); vm_compute; exact I).
  assert (∀ k b, sn_bundle (at_call (still chain_a) k) = Ok (Some b) → readable (Datatypes.S content_level) b) as Hb
    by (intros k b [= <-]; split; [reflexivity|cbn; lia]).
  pose proof (ServeHTTP_readable plain_postgres_laws (still chain_a) None true "GET" ["tx"; Hash_String (h 21)]%string
    (Ok ""%string) late a p' Hc Hb E) as [Hw _].
  unfold well_formed in Hw. rewrite Ht in Hw. destruct Hw as [(_ & _ & j & _ & Hj)|Hx].
  - exists (clean j). exact (conj eq_refl (conj Ht Hj)).
  - apply (bool_decide_pack _) in Hx. vm_compute in Hx. destruct Hx.
Defined.

(** A posted transaction reaches the test node behind the client. *)
Definition posted : request_body := Ok (" " +:+ print (JArr [JNum "1.50"; JNull]) +:+ " ").

Example submission_reaches_node_witness :
  (Server.ServeHTTP e2e (running e2e None) true "POST" ["tx"]%string posted early).1 =
    Ok (respond (A := unit) (WriteText (Hash_String submitted_id))).
Proof.
  assert (readTransactionBody posted = Ok (JArr [JNum "1.50"; JNull])) as Hb by (vm_compute; reflexivity).
  assert (depth (JArr [JNum "1.50"; JNull]) ≤ level)%nat as Hd by (apply Nat.leb_le; vm_compute; reflexivity).
  destruct (submission_reaches_node true nodes_b (λ _, node_client) no_enforcer no_times crowd false false
    (λ k, transport_of true (nodes_b k)) None true posted (JArr [JNum "1.50"; JNull]) early Hb Hd eq_refl) as [H _].
  refine (eq_trans (f_equal fst H) eq_refl).
Defined.
