(* ===== verification/SupplyExamples.v ===== *)
(** * A start, goroutine by goroutine

    A [Get] opens the store, migrations and all, and a pass of the block syncer works
    on it. *)

From S2P Require Import Prelude GoStd Hash Block Registry Tables Write Migrate Command WriteSpec Sync SyncSpec Wire Pipeline.
From S2P Require Import Program Service ServiceSpec ServiceExamples Supply Samples Examples WireExamples ProgramExamples.
From stdpp Require Import relations.
Open Scope Z_scope.

(** Moves under which the connector opens nothing. *)
Fixpoint quiet_moves (s : system nat) (ms : list move) : option (system nat) :=
  match ms with
  | [] => Some s
  | m :: ms =>
      s' ← make_move true true s m;
      if bool_decide (Service.opened (svc s') = Service.opened (svc s)) then quiet_moves s' ms else None
  end.

Notation supplying := (supply flags settled log_script directory).

Lemma quiet_supply ms s s' x d : quiet_moves s ms = Some s' → rtc supplying (s, (x, d)) (s', (x, d)).
Proof.
  revert s. induction ms as [|m ms IH]; intros s; cbn; [by intros [= ->]|].
  intros (s1 & Hm & H)%bind_Some. case_bool_decide; [|done].
  eapply rtc_l; [|by apply IH]. apply supply_quiet; [by eapply make_move_step|done].
Qed.

Definition silent_env : env nat := Env (Err ErrUnavailable) false.
Definition no_system : system nat := Service.init.

Definition asking : system nat := default no_system (quiet_moves Service.init [Go GetTask; Move 0 silent_env]).
Definition answering : system nat := default no_system (make_move true true asking (Move 0 (Env (Ok 7%nat) false))).
Definition answered_get : system nat :=
  default no_system (quiet_moves answering [Move 0 silent_env; Move 0 silent_env; Move 0 silent_env]).

Lemma get_returned : pool answered_get !! 0%nat = Some (Ret (Client (Ok (Some 7%nat)))).
Proof. vm_compute. reflexivity. Qed.

Lemma asking_at : quiet_moves Service.init [Go GetTask; Move 0 silent_env] = Some asking.
Proof. vm_compute. reflexivity. Qed.

Lemma answering_at : make_move true true asking (Move 0 (Env (Ok 7%nat) false)) = Some answering.
Proof. vm_compute. reflexivity. Qed.

Lemma answered_at :
  quiet_moves answering [Move 0 silent_env; Move 0 silent_env; Move 0 silent_env] = Some answered_get.
Proof. vm_compute. reflexivity. Qed.

Lemma following_served : served flags settled answered_get following.
Proof.
  split; [|split].
  - intros k _. exists 0%nat, (Some 7%nat). exact get_returned.
  - intros E. assert (Service.opened (svc answered_get) ≠ []) as Hne by (vm_compute; discriminate). by destruct Hne.
  - apply following_keeps.
Qed.

Definition unmigrated : Migrate.state (Schema := list string) := Migrate.State [] None.
Definition migrated_all : Migrate.state :=
  Migrate.State ["initial"; "mempool"]%string (Some ["001_initial.sql"; "002_mempool.sql"]%string).

Lemma dials :
  dial flags settled log_script directory (Ok tt) (Ok tt) (Session unmigrated []) (calm empty_db) =
    (Opened, Session migrated_all [], calm opened_db).
Proof. vm_compute. reflexivity. Qed.

Lemma get_then_pass : runs flags settled log_script directory [] (answered_get, (migrated_all, synced_db)).
Proof.
  unfold runs. etransitivity; [exact (quiet_supply _ _ _ unmigrated empty_db asking_at)|].
  eapply rtc_l.
  { apply (supply_open flags settled log_script directory asking answering 7%nat (Ok tt) (Ok tt) [] unmigrated
      (calm empty_db) (Session migrated_all []) (calm opened_db));
      [by eapply make_move_step, answering_at|by vm_compute|exact dials]. }
  etransitivity; [exact (quiet_supply _ _ _ migrated_all opened_db answered_at)|].
  apply rtc_once, supply_work.
  exact (work_block flags settled _ opened_db [] 0 no_http (λ _, json_node chain_b) (λ _, node_client)
    (λ _, calm_snapshot no_times) mempool_goroutine following_served following_pool_only following_counts).
Qed.

Example supplied_store_ready_witness :
  indexed synced_db ∧ pool answered_get !! 0%nat = Some (Ret (Client (Ok (Some 7%nat)))) ∧
  (λ r, sy_tip_height r) <$> sync_state synced_db = Some (Some 2) ∧
  scripts log_script directory (migrationNames directory) [] = Ok (schema migrated_all).
Proof.
  assert (NoDup directory.*1) as Hn by evaluate.
  pose proof (supplied_store_ready flags settled log_script directory [] answered_get migrated_all synced_db
    flags_settle Hn get_then_pass) as (_ & _ & _ & H).
  destruct (H (ex_intro _ 0%nat (ex_intro _ (Some 7%nat) get_returned))) as [[Hi _] Hs].
  refine (conj Hi (conj get_returned (conj _ Hs))). vm_compute. reflexivity.
Defined.
